(** * Attendance middleware: Hikvision terminal -> cloud school system

    A shallow embedding of the device client (Digest authentication, event-log
    pagination), the device discovery probe and name matching, the attendance
    processor and the cloud sync retry loop, with the properties the design
    document states about them.

    Conventions of the embedding.
    - A JavaScript string is a [string] of bytes (its UTF-8 text).
      Trimming takes off every white space and line terminator of
      ECMAScript, in its UTF-8 form. [Js.toLowerCase] and
      [Js.toUpperCase] map the letters A to Z and a to z and leave every
      other byte, which is what the methods do on ASCII texts; the
      matching of device names, which lower-cases whatever a device
      sends, takes the method of the runtime as a parameter instead.
      The class [\s] of the regular expressions is the ASCII one: a
      property that depends on it is stated for ASCII texts. [\d] is
      ASCII in JavaScript too, and so is the folding of the letters of
      an ASCII name under the flag [i].
    - A key or a tag that the source puts into a regular expression is
      matched letter by letter, which is what the expression does for a
      name of word characters: a property about such a key or tag is
      stated for those names.
    - [null] and [undefined] are [None]; an exception is the [Throw] branch of
      [Result].
    - A network exchange is an oracle that is handed everything sent so far,
      so that an arbitrary, even stateful, peer is covered. *)

From Stdlib Require Import List String Ascii ZArith NArith Arith Lia Bool.
From Stdlib Require Import Sorting.Sorted DecimalString.
From Stdlib Require DecimalNat DecimalFacts Sorting.Permutation.
From Equations Require Import Equations.
Import ListNotations.
Open Scope string_scope.

(* ================================================================== *)
(** ** JavaScript string primitives                                     *)
(* ================================================================== *)

Module Js.

Local Open Scope nat_scope.

(** The double-quote character, [U+0022]. *)
Definition dquote : ascii := ascii_of_nat 34.
Definition dq : string := String dquote EmptyString.

Definition isDigit (c : ascii) : bool :=
  let n := nat_of_ascii c in (48 <=? n) && (n <=? 57).

(** [\s] restricted to ASCII: TAB, LF, VT, FF, CR and SPACE. *)
Definition isSpace (c : ascii) : bool :=
  let n := nat_of_ascii c in ((9 <=? n) && (n <=? 13)) || (n =? 32).

Definition lowerChar (c : ascii) : ascii :=
  let n := nat_of_ascii c in
  if (65 <=? n) && (n <=? 90) then ascii_of_nat (n + 32) else c.

Definition upperChar (c : ascii) : ascii :=
  let n := nat_of_ascii c in
  if (97 <=? n) && (n <=? 122) then ascii_of_nat (n - 32) else c.

Fixpoint mapChars (f : ascii -> ascii) (s : string) : string :=
  match s with
  | EmptyString => EmptyString
  | String c r => String (f c) (mapChars f r)
  end.

(** [String.prototype.toLowerCase] and [toUpperCase] on ASCII texts:
    the letters A to Z and a to z are mapped, every other byte is
    left. *)
Definition toLowerCase : string -> string := mapChars lowerChar.
Definition toUpperCase : string -> string := mapChars upperChar.

(** The white space that takes two bytes: U+00A0. *)
Definition isSpace2 (a b : ascii) : bool :=
  (nat_of_ascii a =? 194) && (nat_of_ascii b =? 160).

(** The white space and the line terminators that take three bytes:
    U+1680, U+2000 to U+200A, U+2028, U+2029, U+202F, U+205F, U+3000 and
    U+FEFF. *)
Definition isSpace3 (a b c : ascii) : bool :=
  let x := nat_of_ascii a in
  let y := nat_of_ascii b in
  let z := nat_of_ascii c in
  ((x =? 225) && (y =? 154) && (z =? 128))
  || ((x =? 226) && (y =? 128)
      && (((128 <=? z) && (z <=? 138)) || (z =? 168) || (z =? 169) || (z =? 175)))
  || ((x =? 226) && (y =? 129) && (z =? 159))
  || ((x =? 227) && (y =? 128) && (z =? 128))
  || ((x =? 239) && (y =? 187) && (z =? 191)).

(** What follows a white space or a line terminator at the start of
    [s], if there is one. *)
Definition afterSpace (s : string) : option string :=
  match s with
  | String a r =>
      if isSpace a then Some r
      else
        match r with
        | String b r' =>
            if isSpace2 a b then Some r'
            else
              match r' with
              | String c r'' => if isSpace3 a b c then Some r'' else None
              | EmptyString => None
              end
        | EmptyString => None
        end
  | EmptyString => None
  end.

(** [String.prototype.trimStart]. *)
Fixpoint trimStart (s : string) : string :=
  match s with
  | String a r =>
      if isSpace a then trimStart r
      else
        match r with
        | String b r' =>
            if isSpace2 a b then trimStart r'
            else
              match r' with
              | String c r'' => if isSpace3 a b c then trimStart r'' else s
              | EmptyString => s
              end
        | EmptyString => s
        end
  | EmptyString => EmptyString
  end.

(** [s] is white space and line terminators only. *)
Fixpoint allSpaces (s : string) : bool :=
  match s with
  | String a r =>
      if isSpace a then allSpaces r
      else
        match r with
        | String b r' =>
            if isSpace2 a b then allSpaces r'
            else
              match r' with
              | String c r'' => isSpace3 a b c && allSpaces r''
              | EmptyString => false
              end
        | EmptyString => false
        end
  | EmptyString => true
  end.

(** [String.prototype.trimEnd]: what is left ends before the first
    place from which only white space follows. *)
Fixpoint trimEnd (s : string) : string :=
  match s with
  | EmptyString => EmptyString
  | String a r => if allSpaces s then EmptyString else String a (trimEnd r)
  end.

(** [String.prototype.trim]. *)
Definition trim (s : string) : string := trimEnd (trimStart s).

(** [String.prototype.includes]: [t] occurs in [s] at some position. *)
Fixpoint includes (s t : string) : bool :=
  String.prefix t s ||
  match s with
  | EmptyString => false
  | String _ r => includes r t
  end.

(** JavaScript truthiness of a string. *)
Definition truthy (s : string) : bool :=
  match s with EmptyString => false | _ => true end.

(** [a || b] on strings. *)
Definition orElse (a b : string) : string := if truthy a then a else b.

(** [s.split(sep)[0]] for a one-character separator. *)
Fixpoint beforeFirst (sep : ascii) (s : string) : string :=
  match s with
  | EmptyString => EmptyString
  | String c r => if Ascii.eqb c sep then EmptyString else String c (beforeFirst sep r)
  end.

(** The longest prefix of characters satisfying [p], and what follows it:
    how a greedy character class [[...]*] consumes its input. *)
Fixpoint span (p : ascii -> bool) (s : string) : string * string :=
  match s with
  | EmptyString => (EmptyString, EmptyString)
  | String c r =>
      if p c then let '(a, b) := span p r in (String c a, b)
      else (EmptyString, s)
  end.

(** [Some rest] when [s = pre ++ rest]. *)
Fixpoint stripPrefix (pre s : string) : option string :=
  match pre, s with
  | EmptyString, _ => Some s
  | String a p, String b r => if Ascii.eqb a b then stripPrefix p r else None
  | String _ _, EmptyString => None
  end.

End Js.

(* ================================================================== *)
(** ** MD5 (RFC 1321), the hash [crypto.createHash] is asked for        *)
(* ================================================================== *)

Module MD5.

Local Open Scope N_scope.

Definition mask32 : N := 4294967295.
Definition w32 (x : N) : N := N.land x mask32.
Definition add32 (x y : N) : N := w32 (x + y).
Definition not32 (x : N) : N := N.lxor x mask32.
Definition rotl32 (x c : N) : N :=
  w32 (N.lor (N.shiftl x c) (N.shiftr x (32 - c))).

(** [K[i] = floor(2^32 * |sin (i + 1)|)]. *)
Definition K : list N :=
  [ 3614090360; 3905402710; 606105819; 3250441966; 4118548399; 1200080426; 2821735955; 4249261313;
    1770035416; 2336552879; 4294925233; 2304563134; 1804603682; 4254626195; 2792965006; 1236535329;
    4129170786; 3225465664; 643717713; 3921069994; 3593408605; 38016083; 3634488961; 3889429448;
    568446438; 3275163606; 4107603335; 1163531501; 2850285829; 4243563512; 1735328473; 2368359562;
    4294588738; 2272392833; 1839030562; 4259657740; 2763975236; 1272893353; 4139469664; 3200236656;
    681279174; 3936430074; 3572445317; 76029189; 3654602809; 3873151461; 530742520; 3299628645;
    4096336452; 1126891415; 2878612391; 4237533241; 1700485571; 2399980690; 4293915773; 2240044497;
    1873313359; 4264355552; 2734768916; 1309151649; 4149444226; 3174756917; 718787259; 3951481745 ].

(** Per-round left-rotation amounts. *)
Definition R : list N :=
  [ 7; 12; 17; 22; 7; 12; 17; 22; 7; 12; 17; 22; 7; 12; 17; 22;
    5; 9; 14; 20; 5; 9; 14; 20; 5; 9; 14; 20; 5; 9; 14; 20;
    4; 11; 16; 23; 4; 11; 16; 23; 4; 11; 16; 23; 4; 11; 16; 23;
    6; 10; 15; 21; 6; 10; 15; 21; 6; 10; 15; 21; 6; 10; 15; 21 ].

Definition bytesOf (s : string) : list N :=
  List.map N_of_ascii (list_ascii_of_string s).

(** Little-endian bytes of [x], [n] of them. *)
Fixpoint leBytes (n : nat) (x : N) : list N :=
  match n with
  | O => []
  | S k => N.land x 255 :: leBytes k (N.shiftr x 8)
  end.

Fixpoint leWord (bs : list N) : N :=
  match bs with
  | [] => 0
  | b :: r => b + 256 * leWord r
  end.

(** Message, then [0x80], zero bytes up to 56 modulo 64, then the bit
    length as 64 little-endian bits. *)
Definition pad (msg : list N) : list N :=
  let len := List.length msg in
  let zeros := Nat.modulo (119 - Nat.modulo len 64) 64 in
  msg ++ [128] ++ List.repeat 0 zeros ++ leBytes 8 (8 * N.of_nat len).

Fixpoint groups (count size : nat) (l : list N) : list (list N) :=
  match count with
  | O => []
  | S k => firstn size l :: groups k size (skipn size l)
  end.

Definition wordsOf (block : list N) : list N :=
  List.map leWord (groups 16 4 block).

Record state := St { sa : N; sb : N; sc : N; sd : N }.

Definition step (m : list N) (st : state) (i : nat) : state :=
  let '(St a b c d) := st in
  let '(f, g) :=
    if (i <? 16)%nat then
      (N.lor (N.land b c) (N.land (not32 b) d), i)
    else if (i <? 32)%nat then
      (N.lor (N.land d b) (N.land (not32 d) c), Nat.modulo (5 * i + 1) 16)
    else if (i <? 48)%nat then
      (N.lxor (N.lxor b c) d, Nat.modulo (3 * i + 5) 16)
    else
      (N.lxor c (N.lor b (not32 d)), Nat.modulo (7 * i) 16) in
  let f' := add32 (add32 (add32 f a) (nth i K 0)) (nth g m 0) in
  St d (add32 b (rotl32 f' (nth i R 0))) b c.

Definition compress (st : state) (block : list N) : state :=
  let m := wordsOf block in
  let '(St a b c d) := fold_left (step m) (seq 0 64) st in
  St (add32 (sa st) a) (add32 (sb st) b) (add32 (sc st) c) (add32 (sd st) d).

Definition init : state := St 1732584193 4023233417 2562383102 271733878.

Definition hexDigit (n : N) : ascii :=
  ascii_of_N (if n <? 10 then 48 + n else 87 + n).

Definition hexByte (b : N) : string :=
  String (hexDigit (N.shiftr b 4)) (String (hexDigit (N.land b 15)) EmptyString).

Definition hexOf (bs : list N) : string :=
  String.concat EmptyString (List.map hexByte bs).

(** [md5 s]: the lower-case hexadecimal digest of the bytes of [s]. *)
Definition md5 (s : string) : string :=
  let p := pad (bytesOf s) in
  let '(St a b c d) :=
    fold_left compress (groups (Nat.div (List.length p) 64) 64 p) init in
  hexOf (leBytes 4 a ++ leBytes 4 b ++ leBytes 4 c ++ leBytes 4 d).

End MD5.

(* ================================================================== *)
(** ** The regular expressions of the sources, as matchers              *)
(* ================================================================== *)

Module Re.

(** Leftmost match of [f] over the suffixes of [s]: how [String.match]
    with a pattern that is not anchored finds its match. *)
Fixpoint leftmost {A : Type} (f : string -> option A) (s : string) : option A :=
  match f s with
  | Some v => Some v
  | None =>
      match s with
      | EmptyString => None
      | String _ r => leftmost f r
      end
  end.

(** The two patterns of [digestParam] take the key as it is written:
    this is what the expressions do for a key of word characters, as
    the keys of the two modules are. *)

(** The quoted form, [key=] then a quote, one or more characters that
    are not a quote (the capture) and a quote, at the start of [s]. The
    class is greedy and the closing quote is not in it, so the capture is
    the whole run of non-quote characters, and the match fails when that
    run is empty or is not followed by a quote. *)
Definition quotedAt (key s : string) : option string :=
  match Js.stripPrefix (key ++ "=" ++ Js.dq) s with
  | None => None
  | Some rest =>
      match Js.span (fun c => negb (Ascii.eqb c Js.dquote)) rest with
      | (EmptyString, _) => None
      | (v, String _ _) => Some v
      | (_, EmptyString) => None
      end
  end.

(** [key=([^,\s]+)] at the start of [s]: the capture. *)
Definition bareAt (key s : string) : option string :=
  match Js.stripPrefix (key ++ "=") s with
  | None => None
  | Some rest =>
      match Js.span (fun c => negb (Ascii.eqb c "," || Js.isSpace c)) rest with
      | (EmptyString, _) => None
      | (v, _) => Some v
      end
  end.

(** [s.replace(/Z$/, empty)]. *)
Fixpoint dropFinalZ (s : string) : string :=
  match s with
  | EmptyString => EmptyString
  | String c EmptyString => if Ascii.eqb c "Z" then EmptyString else s
  | String c r => String c (dropFinalZ r)
  end.

(** [\d{2}:\d{2}] and nothing after it. *)
Definition isHHMM (s : string) : bool :=
  match s with
  | String a (String b (String c (String d (String e EmptyString)))) =>
      Js.isDigit a && Js.isDigit b && Ascii.eqb c ":" && Js.isDigit d && Js.isDigit e
  | _ => false
  end.

(** [s.replace(/[signs]\d{2}:\d{2}$/, empty)], [sign] telling the
    characters of the class: the six last characters go when they match. *)
Fixpoint dropFinalOffset (sign : ascii -> bool) (s : string) : string :=
  match s with
  | EmptyString => EmptyString
  | String c r =>
      if sign c && isHHMM r then EmptyString
      else String c (dropFinalOffset sign r)
  end.

(** [T(\d{2}):(\d{2}):(\d{2})] at the start of [s]: the three captures. *)
Definition clockAt (s : string) : option (string * string * string) :=
  match s with
  | String t (String a (String b (String c1 (String c (String d
      (String c2 (String e (String f _)))))))) =>
      if Ascii.eqb t "T" && Js.isDigit a && Js.isDigit b && Ascii.eqb c1 ":"
         && Js.isDigit c && Js.isDigit d && Ascii.eqb c2 ":"
         && Js.isDigit e && Js.isDigit f
      then Some (String a (String b EmptyString),
                 String c (String d EmptyString),
                 String e (String f EmptyString))
      else None
  | _ => None
  end.

End Re.

(* ================================================================== *)
(** ** Results of fallible calls                                        *)
(* ================================================================== *)

(** What a call that may throw produces: its value, or the message of
    the [Error] thrown (a rejected promise is the same thing here). *)
Inductive Result (A : Type) : Type :=
| Ok (a : A)
| Throw (msg : string).
Arguments Ok {A} a.
Arguments Throw {A} msg.

Definition isOk {A : Type} (r : Result A) : bool :=
  match r with Ok _ => true | Throw _ => false end.

(** [try { body } catch { handler }]. *)
Definition tryCatch {A : Type} (body : Result A) (handler : string -> Result A) : Result A :=
  match body with
  | Ok a => Ok a
  | Throw e => handler e
  end.

(** [a ?? b]. *)
Definition nullish {A : Type} (a : option A) (b : A) : A :=
  match a with Some v => v | None => b end.

(* ================================================================== *)
(** ** Digest authentication: the header both modules build             *)
(* ================================================================== *)

(** The text of the [Authorization] header, from its parts. *)
Definition digestHeader
  (username realm nonce uri algo response opaque extras : string) : string :=
  "Digest username=" ++ Js.dq ++ username ++ Js.dq ++
  ", realm=" ++ Js.dq ++ realm ++ Js.dq ++
  ", nonce=" ++ Js.dq ++ nonce ++ Js.dq ++ ", " ++
  "uri=" ++ Js.dq ++ uri ++ Js.dq ++
  ", algorithm=" ++ algo ++
  ", response=" ++ Js.dq ++ response ++ Js.dq ++
  (if Js.truthy opaque then ", opaque=" ++ Js.dq ++ opaque ++ Js.dq else "") ++
  extras.

(** hikvisionClient.js *)
Module HikvisionClient.

Definition digestParam (header key : string) : string :=
  match Re.leftmost (Re.quotedAt key) header with
  | Some v => v
  | None =>
      match Re.leftmost (Re.bareAt key) header with
      | Some v => v
      | None => ""
      end
  end.

(** [cnonce] stands for the hexadecimal text of [crypto.randomBytes(8)];
    it is drawn only on the [qop] branch. *)
Definition buildDigestAuth
  (method uri username password wwwAuthHeader cnonce : string) : string :=
  let realm := digestParam wwwAuthHeader "realm" in
  let nonce := digestParam wwwAuthHeader "nonce" in
  let qop := digestParam wwwAuthHeader "qop" in
  let opaque := digestParam wwwAuthHeader "opaque" in
  let algo := Js.orElse (digestParam wwwAuthHeader "algorithm") "MD5" in
  let md5 := MD5.md5 in
  let ha1 :=
    if Js.toUpperCase algo =? "MD5-SESS"
    then md5 (md5 (username ++ ":" ++ realm ++ ":" ++ password) ++ ":" ++ nonce ++ ":")
    else md5 (username ++ ":" ++ realm ++ ":" ++ password) in
  let ha2 := md5 (Js.toUpperCase method ++ ":" ++ uri) in
  let '(response, extras) :=
    if (qop =? "auth") || (qop =? "auth-int") then
      let nc := "00000001" in
      (md5 (ha1 ++ ":" ++ nonce ++ ":" ++ nc ++ ":" ++ cnonce ++ ":" ++ qop ++ ":" ++ ha2),
       ", qop=" ++ qop ++ ", nc=" ++ nc ++ ", cnonce=" ++ Js.dq ++ cnonce ++ Js.dq)
    else
      (md5 (ha1 ++ ":" ++ nonce ++ ":" ++ ha2), "") in
  digestHeader username realm nonce uri algo response opaque extras.

(** *** The event-log query *)

(** An entry of the device's [InfoList]. *)
Record RawEntry := {
  raw_employeeNoString : option string;
  raw_employeeNo : option string;   (* the text [String(raw.employeeNo)] gives *)
  raw_name : option string;
  raw_cardNo : option string;
  raw_minor : option Z;
  raw_minorDesc : option string;
  raw_inOutStatus : option string;
  raw_time : option string;
  raw_doorNo : option Z;
  raw_serialNo : option Z
}.

Record AttendanceRecord := {
  employeeNo : option string;
  name : option string;
  cardNo : option string;
  eventType : option Z;
  eventTypeName : option string;
  direction : option string;
  eventTime : option string;
  capturedAt : string;
  doorNo : option Z;
  deviceSerial : option Z;
  _raw : RawEntry
}.

(** The [AcsEventCond] object of a request. *)
Record Payload := {
  searchID : string;
  searchResultPosition : nat;
  maxResults : Z;
  major : Z;
  minor : Z;
  startTime : string;
  endTime : string
}.

(** The [AcsEvent] object of a response; a field is [None] when the
    device left it out. The total is an integer here, as a terminal
    declares it; [AnyTotal] below is the same code for a total that is
    any number. *)
Record AcsEvent := {
  totalMatches : option Z;
  InfoList : option (list RawEntry)
}.

(** The terminal as [this.request] sees it for the event-log endpoint:
    given the payloads already sent, in order, and the one sent now, it
    answers with a body ([None]: no [AcsEvent] in it) or the request
    throws. *)
Definition Device := list Payload -> Payload -> Result (option AcsEvent).

(** [#stripTz]. *)
Definition stripTz (dt : string) : string :=
  Js.beforeFirst "."
    (Re.dropFinalOffset (fun c => Ascii.eqb c "+") (Re.dropFinalZ dt)).

(** [#normalise]; [now] is the clock reading of [new Date().toISOString()]. *)
Definition normalise (now : string) (raw : RawEntry) : AttendanceRecord :=
  {| employeeNo :=
       Some (nullish (raw_employeeNoString raw) (nullish (raw_employeeNo raw) ""));
     name := raw_name raw;
     cardNo := raw_cardNo raw;
     eventType := raw_minor raw;
     eventTypeName := raw_minorDesc raw;
     direction := raw_inOutStatus raw;
     eventTime := raw_time raw;
     capturedAt := now;
     doorNo := raw_doorNo raw;
     deviceSerial := raw_serialNo raw;
     _raw := raw |}.

Record Options := {
  opt_startTime : option string;
  opt_endTime : option string;
  opt_maxResults : option Z;
  opt_allPages : option bool
}.

Definition buildPayload (start_ end_ : string) (maxResults_ : Z)
  (searchResultPosition_ : nat) : Payload :=
  {| searchID := "1";
     searchResultPosition := searchResultPosition_;
     maxResults := maxResults_;
     major := 0;
     minor := 0;
     startTime := stripTz start_;
     endTime := stripTz end_ |}.

Definition infoListOf (page : option AcsEvent) : list RawEntry :=
  match page with
  | Some ev => nullish (InfoList ev) []
  | None => []
  end.

Definition totalOf (page : option AcsEvent) : Z :=
  match page with
  | Some ev => nullish (totalMatches ev) 0%Z
  | None => 0%Z
  end.

(** The [while (events.length < total)] loop. It carries the entries
    collected and the payloads sent so far, and returns both. The
    measure is what is still missing: a pass that does not leave the loop
    appends a batch that is not empty. *)
Equations? remainingPages (dev : Device) (mk : nat -> Payload) (total : Z)
  (events : list RawEntry) (sent : list Payload)
  : Result (list RawEntry) * list Payload
  by wf (Z.to_nat (total - Z.of_nat (List.length events))) lt :=
remainingPages dev mk total events sent
  with Z_lt_dec (Z.of_nat (List.length events)) total := {
  | right _ := (Ok events, sent);
  | left more with dev sent (mk (List.length events)) := {
    | Throw e := (Throw e, (sent ++ [mk (List.length events)])%list);
    | Ok page with infoListOf page := {
      | [] := (Ok events, (sent ++ [mk (List.length events)])%list);
      | b :: batch :=
          remainingPages dev mk total (events ++ b :: batch)%list
            (sent ++ [mk (List.length events)])%list } } }.
Proof.
  rewrite length_app; cbn [List.length]. lia.
Qed.

(** Everything before the final [map]: the first page, then the loop. *)
Definition collectEvents (dev : Device) (opts : Options)
  : Result (list RawEntry) * list Payload :=
  match opts with
  | {| opt_startTime := Some start_; opt_endTime := Some end_ |} =>
      if negb (Js.truthy start_) || negb (Js.truthy end_)
      then (Throw "`startTime` and `endTime` are required (YYYY-MM-DDTHH:mm:ss).", [])
      else
        let mk := buildPayload start_ end_ (nullish (opt_maxResults opts) 100%Z) in
        match dev [] (mk 0) with
        | Throw e => (Throw e, [mk 0])
        | Ok first =>
            let total := totalOf first in
            let events := infoListOf first in
            if nullish (opt_allPages opts) true
               && (Z.of_nat (List.length events) <? total)%Z
            then remainingPages dev mk total events [mk 0]
            else (Ok events, [mk 0])
        end
  | _ => (Throw "`startTime` and `endTime` are required (YYYY-MM-DDTHH:mm:ss).", [])
  end.

(** [getAttendanceEvents]: the records returned (or the error thrown),
    and the payloads that went to the device. *)
Definition getAttendanceEvents (now : string) (dev : Device) (opts : Options)
  : Result (list AttendanceRecord) * list Payload :=
  match collectEvents dev opts with
  | (Ok events, sent) => (Ok (List.map (normalise now) events), sent)
  | (Throw e, sent) => (Throw e, sent)
  end.

(** *** The event-log query when the total is any number *)

(** The definitions above take [totalMatches] for an integer, which is
    what a terminal that follows ISAPI declares. [AnyTotal] is the same
    code for whatever [JSON.parse] can hand over as a number: a literal
    beyond the range of the numbers, such as [1e999], is [Infinity],
    which no length reaches. The loop then need not end, so its passes
    are counted here: [None] says that the loop has not ended within
    [passes] passes. *)
Module AnyTotal.

(** A number as the comparison with a length sees it: [Finite z] for
    one that the lengths below [z], and no others, are less than (an
    integer [z] itself, a fraction rounded up, and 0 for [NaN], with
    which every comparison is false), or [Infinity], which every length
    is less than. *)
Inductive Count :=
| Finite (z : Z)
| Infinity.

Record AcsEvent := {
  totalMatches : option Count;
  InfoList : option (list RawEntry)
}.

Definition Device := list Payload -> Payload -> Result (option AcsEvent).

Definition infoListOf (page : option AcsEvent) : list RawEntry :=
  match page with
  | Some ev => nullish (InfoList ev) []
  | None => []
  end.

Definition totalOf (page : option AcsEvent) : Count :=
  match page with
  | Some ev => nullish (totalMatches ev) (Finite 0)
  | None => Finite 0
  end.

(** [n < total], which is [total > n] as well. *)
Definition below (n : nat) (total : Count) : bool :=
  match total with
  | Finite z => (Z.of_nat n <? z)%Z
  | Infinity => true
  end.

(** The [while (events.length < total)] loop, for [passes] passes at
    most. *)
Fixpoint remainingPages (passes : nat) (dev : Device) (mk : nat -> Payload)
  (total : Count) (events : list RawEntry) (sent : list Payload)
  : option (Result (list RawEntry) * list Payload) :=
  if below (List.length events) total then
    match passes with
    | O => None
    | S passes' =>
        match dev sent (mk (List.length events)) with
        | Throw e => Some (Throw e, (sent ++ [mk (List.length events)])%list)
        | Ok page =>
            match infoListOf page with
            | [] => Some (Ok events, (sent ++ [mk (List.length events)])%list)
            | b :: batch =>
                remainingPages passes' dev mk total (events ++ b :: batch)%list
                  (sent ++ [mk (List.length events)])%list
            end
        end
    end
  else Some (Ok events, sent).

Definition collectEvents (passes : nat) (dev : Device) (opts : Options)
  : option (Result (list RawEntry) * list Payload) :=
  match opts with
  | {| opt_startTime := Some start_; opt_endTime := Some end_ |} =>
      if negb (Js.truthy start_) || negb (Js.truthy end_)
      then Some (Throw "`startTime` and `endTime` are required (YYYY-MM-DDTHH:mm:ss).", [])
      else
        let mk := buildPayload start_ end_ (nullish (opt_maxResults opts) 100%Z) in
        match dev [] (mk 0) with
        | Throw e => Some (Throw e, [mk 0])
        | Ok first =>
            let total := totalOf first in
            let events := infoListOf first in
            if nullish (opt_allPages opts) true && below (List.length events) total
            then remainingPages passes dev mk total events [mk 0]
            else Some (Ok events, [mk 0])
        end
  | _ => Some (Throw "`startTime` and `endTime` are required (YYYY-MM-DDTHH:mm:ss).", [])
  end.

Definition getAttendanceEvents (passes : nat) (now : string) (dev : Device) (opts : Options)
  : option (Result (list AttendanceRecord) * list Payload) :=
  match collectEvents passes dev opts with
  | Some (Ok events, sent) => Some (Ok (List.map (normalise now) events), sent)
  | Some (Throw e, sent) => Some (Throw e, sent)
  | None => None
  end.

(** A terminal that declares integers, as a terminal of this model. *)
Definition ofInteger (page : option HikvisionClient.AcsEvent) : option AcsEvent :=
  match page with
  | Some ev =>
      Some {| totalMatches :=
                match HikvisionClient.totalMatches ev with
                | Some z => Some (Finite z)
                | None => None
                end;
              InfoList := HikvisionClient.InfoList ev |}
  | None => None
  end.

Definition integerDevice (dev : HikvisionClient.Device) : Device :=
  fun sent request =>
    match dev sent request with
    | Ok page => Ok (ofInteger page)
    | Throw e => Throw e
    end.

End AnyTotal.

End HikvisionClient.

(** deviceDiscovery.js *)
Module DeviceDiscovery.

Definition digestParam (header key : string) : string :=
  match Re.leftmost (Re.quotedAt key) header with
  | Some q => q
  | None =>
      match Re.leftmost (Re.bareAt key) header with
      | Some u => u
      | None => ""
      end
  end.

(** Same as the client's, except that the method is used as given. *)
Definition buildDigestAuth
  (method uri username password wwwAuth cnonce : string) : string :=
  let realm := digestParam wwwAuth "realm" in
  let nonce := digestParam wwwAuth "nonce" in
  let qop := digestParam wwwAuth "qop" in
  let opaque := digestParam wwwAuth "opaque" in
  let algo := Js.orElse (digestParam wwwAuth "algorithm") "MD5" in
  let md5 := MD5.md5 in
  let ha1 :=
    if Js.toUpperCase algo =? "MD5-SESS"
    then md5 (md5 (username ++ ":" ++ realm ++ ":" ++ password) ++ ":" ++ nonce ++ ":")
    else md5 (username ++ ":" ++ realm ++ ":" ++ password) in
  let ha2 := md5 (method ++ ":" ++ uri) in
  let '(response, extras) :=
    if (qop =? "auth") || (qop =? "auth-int") then
      let nc := "00000001" in
      (md5 (ha1 ++ ":" ++ nonce ++ ":" ++ nc ++ ":" ++ cnonce ++ ":" ++ qop ++ ":" ++ ha2),
       ", qop=" ++ qop ++ ", nc=" ++ nc ++ ", cnonce=" ++ Js.dq ++ cnonce ++ Js.dq)
    else
      (md5 (ha1 ++ ":" ++ nonce ++ ":" ++ ha2), "") in
  digestHeader username realm nonce uri algo response opaque extras.

(** *** Values of the device's answers *)

#[warnings="-register-all"]
Inductive json :=
| JNull
| JBool (b : bool)
| JNum (z : Z)
| JStr (text : string)
| JArr (items : list json)
| JObj (fields : list (string * json)).

Fixpoint lookup (k : string) (fields : list (string * json)) : option json :=
  match fields with
  | [] => None
  | (k', v) :: rest => if (k' =? k)%string then Some v else lookup k rest
  end.

(** [v.k]: a [TypeError] on [null], [undefined] (here [None]) on what
    has no such property. *)
Definition getProp (v : json) (k : string) : Result (option json) :=
  match v with
  | JNull => Throw "TypeError: Cannot read properties of null"
  | JObj fields => Ok (lookup k fields)
  | _ => Ok None
  end.

(** [a ?? b] where [a] may be [undefined] or [null]. *)
Definition coalesce (a : option json) (b : json) : json :=
  match a with
  | None | Some JNull => b
  | Some v => v
  end.

(** [v?.DeviceInfo ?? v]. *)
Definition unwrapDeviceInfo (v : json) : json :=
  match v with
  | JObj fields => coalesce (lookup "DeviceInfo" fields) v
  | _ => v
  end.

(** [Boolean(v)]. *)
Definition truthyJ (v : json) : bool :=
  match v with
  | JNull => false
  | JBool b => b
  | JNum z => negb (z =? 0)%Z
  | JStr t => Js.truthy t
  | JArr _ | JObj _ => true
  end.

Record DeviceInfo := {
  deviceName : json;
  model : json;
  serialNumber : json;
  firmwareVersion : json;
  macAddress : json;
  _raw : json
}.

(** *** Reading the answer *)

(** [pre] at the start of [s], letters compared without case: what is
    left of [s] after it. *)
Fixpoint stripPrefixCI (pre s : string) : option string :=
  match pre, s with
  | EmptyString, _ => Some s
  | String a p, String b r =>
      if Ascii.eqb (Js.lowerChar a) (Js.lowerChar b) then stripPrefixCI p r else None
  | String _ _, EmptyString => None
  end.

(** The pattern of [xmlField] at the start of [s], for a name of word
    characters, as the names that [normaliseDeviceInfo] asks for are
    (the expression takes such a name as it is written): an opening tag
    that starts with the name, with anything but the closing bracket up to
    it, a text without an opening bracket (the capture) and the closing
    tag, letters compared without case. *)
Definition xmlFieldAt (tag s : string) : option string :=
  match stripPrefixCI ("<" ++ tag) s with
  | None => None
  | Some afterName =>
      match snd (Js.span (fun c => negb (Ascii.eqb c ">")) afterName) with
      | String _ inner =>
          match Js.span (fun c => negb (Ascii.eqb c "<")) inner with
          | (EmptyString, _) => None
          | (v, rest) =>
              match stripPrefixCI ("</" ++ tag ++ ">") rest with
              | Some _ => Some v
              | None => None
              end
          end
      | EmptyString => None
      end
  end.

Definition xmlField (xml tag : string) : json :=
  match Re.leftmost (xmlFieldAt tag) xml with
  | Some v => JStr (Js.trim v)
  | None => JNull
  end.

Definition isNull (v : json) : bool :=
  match v with JNull => true | _ => false end.

Section Parsers.

(** [JSON.parse], which throws on a text that is not JSON, and the
    optional [xml2js] parser ([None]: the package is not installed);
    [xml2js] hands back an object, here as a [json]. *)
Variable JSON_parse : string -> Result json.
Variable parseXml : option (string -> Result json).

(** The five fields read off [info], with the fallback names of the JSON
    branch when [alt] is set. *)
Definition readFields (alt : bool) (info : json) : Result DeviceInfo :=
  let field (k k' : string) : Result json :=
    match getProp info k with
    | Throw e => Throw e
    | Ok a =>
        if alt then
          match a with
          | None | Some JNull =>
              match getProp info k' with
              | Throw e => Throw e
              | Ok b => Ok (coalesce b JNull)
              end
          | Some v => Ok v
          end
        else Ok (coalesce a JNull)
    end in
  match field "deviceName" "DeviceName" with
  | Throw e => Throw e
  | Ok dn =>
  match field "model" "Model" with
  | Throw e => Throw e
  | Ok mo =>
  match field "serialNumber" "SerialNumber" with
  | Throw e => Throw e
  | Ok sn =>
  match field "firmwareVersion" "FirmwareVersion" with
  | Throw e => Throw e
  | Ok fw =>
  match field "macAddress" "MacAddress" with
  | Throw e => Throw e
  | Ok mac =>
      Ok {| deviceName := dn; model := mo; serialNumber := sn;
            firmwareVersion := fw; macAddress := mac; _raw := info |}
  end end end end end.

(** [normaliseDeviceInfo]. The probe asks for the body as text, so
    [data] is a string and the JSON branch is taken on the content type
    alone. *)
Definition normaliseDeviceInfo (data : string) (contentType : option string)
  : Result (option DeviceInfo) :=
  let ct := Js.toLowerCase (nullish contentType "") in
  if Js.includes ct "json" then
    match JSON_parse data with
    | Throw e => Throw e
    | Ok obj =>
        match readFields true (unwrapDeviceInfo obj) with
        | Throw e => Throw e
        | Ok d => Ok (Some d)
        end
    end
  else
    let xmlStr := data in
    if negb (String.prefix "<" (Js.trim xmlStr)) then Ok None
    else
      let parsed : option DeviceInfo :=
        match parseXml with
        | Some parse =>
            match tryCatch
                    (match parse xmlStr with
                     | Throw e => Throw e
                     | Ok result =>
                         match readFields false (unwrapDeviceInfo result) with
                         | Throw e => Throw e
                         | Ok d => Ok (Some d)
                         end
                     end)
                    (fun _ => Ok None) with
            | Ok r => r
            | Throw _ => None
            end
        | None => None
        end in
      let parsed : DeviceInfo :=
        match parsed with
        | Some d => d
        | None =>
            {| deviceName := xmlField xmlStr "deviceName";
               model := xmlField xmlStr "model";
               serialNumber := xmlField xmlStr "serialNumber";
               firmwareVersion := xmlField xmlStr "firmwareVersion";
               macAddress := xmlField xmlStr "macAddress";
               _raw := JStr xmlStr |}
        end in
      let hasData :=
        existsb (fun v => negb (isNull v))
          [deviceName parsed; model parsed; serialNumber parsed;
           firmwareVersion parsed; macAddress parsed] in
      Ok (if hasData then Some parsed else None).

(** *** The probe *)

Definition ISAPI_DEVICE_INFO : string := "/ISAPI/System/deviceInfo".

Record Request := {
  req_path : string;
  req_accept : string;
  req_authorization : option string
}.

Record Response := {
  res_status : Z;
  res_wwwAuthenticate : option string;
  res_contentType : option string;
  res_data : string
}.

(** A host, as [http.get] sees it: given the requests it was already
    sent and the one sent now, a response with a status below 500, or
    the call throws (time-out, refused connection, TLS failure, a status
    of 500 or more). *)
Definition Host := list Request -> Request -> Result Response.

(** The network: the host behind a scheme, an address and a port. *)
Definition Network := bool -> string -> Z -> Host.

(** What the body of the [for] loop does next. *)
Inductive Next :=
| Continue
| Return (info : DeviceInfo).

(** The statements inside [try], with the requests sent so far threaded
    through; an exception leaves with the requests sent until then. *)
Definition attemptBody (host : Host) (username password cnonce : string)
  (reqPath accept : string) (sent : list Request) : Result Next * list Request :=
  let req1 := {| req_path := reqPath; req_accept := accept; req_authorization := None |} in
  match host sent req1 with
  | Throw e => (Throw e, (sent ++ [req1])%list)
  | Ok probe =>
      let sent1 := (sent ++ [req1])%list in
      if negb (res_status probe =? 401)%Z then (Ok Continue, sent1)
      else
        match res_wwwAuthenticate probe with
        | None => (Ok Continue, sent1)
        | Some wwwAuth =>
            if negb (Js.truthy wwwAuth) then (Ok Continue, sent1)
            else
              let authHeader :=
                buildDigestAuth "GET" reqPath username password wwwAuth cnonce in
              let req2 := {| req_path := reqPath; req_accept := accept;
                             req_authorization := Some authHeader |} in
              match host sent1 req2 with
              | Throw e => (Throw e, (sent1 ++ [req2])%list)
              | Ok authed =>
                  let sent2 := (sent1 ++ [req2])%list in
                  if negb (res_status authed =? 200)%Z then (Ok Continue, sent2)
                  else
                    match normaliseDeviceInfo (res_data authed) (res_contentType authed) with
                    | Throw e => (Throw e, sent2)
                    | Ok (Some info) => (Ok (Return info), sent2)
                    | Ok None => (Ok Continue, sent2)
                    end
              end
        end
  end.

(** The [for] loop over the attempts, each pass in [try] with an empty
    [catch], and the [return null] after it. [cnonces] gives the client
    nonce drawn in each pass. *)
Fixpoint probeAttempts (host : Host) (username password : string)
  (attempts : list (string * string)) (cnonces : list string) (sent : list Request)
  : Result (option DeviceInfo) * list Request :=
  match attempts with
  | [] => (Ok None, sent)
  | (reqPath, accept) :: rest =>
      let '(r, sent') :=
        attemptBody host username password (hd "" cnonces) reqPath accept sent in
      match tryCatch r (fun _ => Ok Continue) with
      | Throw e => (Throw e, sent')
      | Ok (Return info) => (Ok (Some info), sent')
      | Ok Continue => probeAttempts host username password rest (tl cnonces) sent'
      end
  end.

Definition probeDevice (net : Network) (cnonces : list string)
  (ip : string) (port : Z) (username password : string) (useHttps : bool)
  : Result (option DeviceInfo) * list Request :=
  let http := net useHttps ip port in
  let attempts :=
    [ (ISAPI_DEVICE_INFO ++ "?format=json", "application/json");
      (ISAPI_DEVICE_INFO, "text/xml, application/xml, */*") ] in
  probeAttempts http username password attempts cnonces [].

End Parsers.

(** *** Name matching *)

Section Matching.

(** [String.prototype.toLowerCase] of the runtime, which maps the
    letters of every script, and [String(v)] and [JSON.stringify(v)] of
    the runtime, for the values that are not strings already. *)
Variable toLowerCase : string -> string.
Variable String_ : json -> string.
Variable JSON_stringify : json -> string.

Definition toText (v : json) : string :=
  match v with
  | JStr t => t
  | _ => String_ v
  end.

(** The populated identity fields, lower-cased and trimmed. *)
Definition candidatesOf (info : DeviceInfo) : list string :=
  List.map (fun v => Js.trim (toLowerCase (toText v)))
    (filter truthyJ
       [deviceName info; model info; serialNumber info; macAddress info]).

Definition isTargetDevice (info : option DeviceInfo) (targetName : option string) : bool :=
  match info, targetName with
  | Some info, Some targetName =>
      if negb (Js.truthy targetName) then false
      else
        let target := Js.trim (toLowerCase targetName) in
        let candidates := candidatesOf info in
        let fieldMatch :=
          existsb
            (fun c => (c =? target)%string || Js.includes c target || Js.includes target c)
            candidates in
        if fieldMatch then true
        else if truthyJ (_raw info) then
          let rawStr :=
            toLowerCase
              (match _raw info with
               | JStr t => t
               | other => JSON_stringify other
               end) in
          Js.includes rawStr target
        else false
  | _, _ => false
  end.

End Matching.

End DeviceDiscovery.

(* ================================================================== *)
(** ** attendanceProcessor.js                                           *)
(* ================================================================== *)

Module AttendanceProcessor.

Import HikvisionClient.

(** [{ h, m, s, raw }] of [parseDeviceTime]. *)
Record DeviceTime := {
  h : Z;
  m : Z;
  s : Z;
  raw : string
}.

Definition digitValue (c : ascii) : Z := Z.of_nat (nat_of_ascii c) - 48.

(** [parseInt(text, 10)] on a text of decimal digits, as the captures of
    [\d{2}] are: the number they write. *)
Definition parseInt (text : string) : Z :=
  fold_left (fun acc c => 10 * acc + digitValue c)%Z (list_ascii_of_string text) 0%Z.

Definition isSign (c : ascii) : bool := Ascii.eqb c "+" || Ascii.eqb c "-".

Definition parseDeviceTime (isoString : option string) : option DeviceTime :=
  match isoString with
  | None => None
  | Some iso =>
      if negb (Js.truthy iso) then None
      else
        let local := Re.dropFinalOffset isSign (Re.dropFinalZ iso) in
        match Re.leftmost Re.clockAt local with
        | None => None
        | Some (hh, mm, ss) =>
            Some {| h := parseInt hh; m := parseInt mm; s := parseInt ss;
                    raw := hh ++ ":" ++ mm ++ ":" ++ ss |}
        end
  end.

(** [a.localeCompare(b)], by its sign. On the texts compared here, two
    digits, a colon, two digits, a colon and two digits, the collation
    order is the order of the character codes. *)
Definition compareTimeStrings (a b : string) : comparison := String.compare a b.

(** [Array.prototype.sort] with a comparator: a stable sort. An element
    goes in front of the first one it does not come after. *)
Fixpoint insertSorted {A : Type} (cmp : A -> A -> comparison) (x : A) (l : list A) : list A :=
  match l with
  | [] => [x]
  | y :: r =>
      match cmp x y with
      | Gt => y :: insertSorted cmp x r
      | _ => x :: l
      end
  end.

Definition sort {A : Type} (cmp : A -> A -> comparison) (l : list A) : list A :=
  fold_right (insertSorted cmp) [] l.

(** The [Map] from a student to the student's events, keys in the order
    of their first insertion. [mapPush] is
    [if (!m.has(id)) m.set(id, []); m.get(id).push(r)]. *)
Fixpoint mapPush {A : Type} (id : string) (r : A) (mp : list (string * list A))
  : list (string * list A) :=
  match mp with
  | [] => [(id, [r])]
  | (k, v) :: rest =>
      if (k =? id)%string then (k, (v ++ [r])%list) :: rest
      else (k, v) :: mapPush id r rest
  end.

Record ProcessedAttendance := {
  adm_no : string;
  time_in : string;
  time_out : option string
}.

Definition idOf (r : AttendanceRecord) : string :=
  Js.trim (nullish (employeeNo r) "").

(** The test of the first [filter]. *)
Definition hasStudentId (r : AttendanceRecord) : bool :=
  let id := idOf r in
  negb (id =? "")%string && negb (id =? "0")%string.

Definition lastOf {A : Type} (l : list A) : option A :=
  match rev l with
  | [] => None
  | x :: _ => Some x
  end.

Section Threshold.

(** The two module constants, read from the environment with defaults
    14 and 30. *)
Variables TIMEOUT_HOUR TIMEOUT_MINUTE : Z.

Definition isTimeOut (t : DeviceTime) : bool :=
  if (h t >? TIMEOUT_HOUR)%Z then true
  else if (h t =? TIMEOUT_HOUR)%Z && (m t >=? TIMEOUT_MINUTE)%Z then true
  else false.

(** [events.map(parse).filter(time !== null).sort(by time.raw)]: the
    events of one student whose time parses, each with its parsed time,
    sorted. *)
Definition sortedTimes (events : list AttendanceRecord)
  : list (AttendanceRecord * DeviceTime) :=
  sort (fun a b => compareTimeStrings (raw (snd a)) (raw (snd b)))
    (flat_map
       (fun e => match parseDeviceTime (eventTime e) with
                 | Some t => [(e, t)]
                 | None => []
                 end)
       events).

(** One pass of the last loop: the entry pushed, or [None] on [continue]. *)
Definition collapse (adm : string) (events : list AttendanceRecord)
  : option ProcessedAttendance :=
  match sortedTimes events with
  | [] => None
  | (first :: _) as sorted =>
      let timeIn := raw (snd first) in
      let postThreshold := filter (fun x => isTimeOut (snd x)) sorted in
      let timeOut :=
        match lastOf postThreshold with
        | Some x => Some (raw (snd x))
        | None => None
        end in
      Some {| adm_no := adm; time_in := timeIn; time_out := timeOut |}
  end.

Definition groupByStudent (valid : list AttendanceRecord)
  : list (string * list AttendanceRecord) :=
  fold_left (fun byStudent r => mapPush (idOf r) r byStudent) valid [].

Definition processAttendance (records : list AttendanceRecord)
  : list ProcessedAttendance :=
  let valid := filter hasStudentId records in
  let byStudent := groupByStudent valid in
  flat_map
    (fun entry => match collapse (fst entry) (snd entry) with
                  | Some p => [p]
                  | None => []
                  end)
    byStudent.

End Threshold.

(** *** Cloud sync *)

Record CloudConfig := {
  schoolCode : string;
  baseUrl : string;
  apiKey : string;
  attendanceEndpoint : string;
  timeoutMs : Z;
  retryAttempts : Z;
  retryDelayMs : Z
}.

(** A response of the cloud service: its status and its body, if any. *)
Record CloudResponse := {
  status : Z;
  data : option string
}.

(** What [axios.post] rejects with. [response] is [None] when no
    response arrived (a network error or a timeout). *)
Record AxiosError := {
  message : string;
  response : option CloudResponse
}.

Inductive PostOutcome :=
| Resolved (res : CloudResponse)
| Rejected (err : AxiosError).

(** The cloud service during one call: the outcome of each POST, by the
    number of POSTs made before it. *)
Definition Cloud := nat -> PostOutcome.

(** What the call does to the outside, in order. *)
Inductive Effect :=
| Post (attempt : Z)
| Sleep (ms : Z).

Definition isPost (e : Effect) : bool :=
  match e with Post _ => true | Sleep _ => false end.

Definition posts (log : list Effect) : nat := List.length (filter isPost log).

Record SyncResult := {
  success : bool;
  sent : nat;
  sync_response : option string
}.

(** [err.response?.status >= 400 && err.response?.status < 500]. *)
Definition isClientError (err : AxiosError) : bool :=
  match response err with
  | Some r => (400 <=? status r)%Z && (status r <? 500)%Z
  | None => false
  end.

(** The [return] after the loop. *)
Definition failed (lastError : option AxiosError) : SyncResult :=
  {| success := false;
     sent := 0;
     sync_response :=
       match lastError with
       | Some err => match response err with Some r => data r | None => None end
       | None => None
       end |}.

(** The [for (attempt ...)] loop, from the test of its condition. *)
Equations? retryLoop (config : CloudConfig) (cloud : Cloud) (count : nat)
  (attempt : Z) (lastError : option AxiosError) (log : list Effect)
  : SyncResult * list Effect
  by wf (Z.to_nat (retryAttempts config + 1 - attempt)) lt :=
retryLoop config cloud count attempt lastError log
  with Z_le_dec attempt (retryAttempts config) := {
  | right _ := (failed lastError, log);
  | left _ with cloud (posts log) := {
    | Resolved res :=
        ({| success := true; sent := count; sync_response := data res |},
         (log ++ [Post attempt])%list);
    | Rejected err with isClientError err := {
      | true := (failed (Some err), (log ++ [Post attempt])%list);
      | false with Z_lt_dec attempt (retryAttempts config) := {
        | left _ :=
            retryLoop config cloud count (attempt + 1) (Some err)
              (log ++ [Post attempt; Sleep (retryDelayMs config)])%list;
        | right _ :=
            retryLoop config cloud count (attempt + 1) (Some err)
              (log ++ [Post attempt])%list } } } }.
Proof.
  all: lia.
Qed.

Definition syncToCloud (config : CloudConfig) (cloud : Cloud)
  (attendance : list ProcessedAttendance) (date : string)
  : SyncResult * list Effect :=
  match attendance with
  | [] => ({| success := true; sent := 0; sync_response := None |}, [])
  | _ => retryLoop config cloud (List.length attendance) 1 None []
  end.

End AttendanceProcessor.

(* ================================================================== *)
(** ** hikvisionClient.js: the constructor and [request]                *)
(* ================================================================== *)

Module ClientRequest.

(** The line feed, and the arrow [U+2192] of the first error message in
    its three bytes. *)
Definition nl : string := String (ascii_of_nat 10) "".
Definition arrow : string :=
  String (ascii_of_nat 226) (String (ascii_of_nat 134) (String (ascii_of_nat 146) "")).

(** The text of an integer in a template literal. *)
Definition decimal (z : Z) : string := NilZero.string_of_int (Z.to_int z).

(** The configuration object of the constructor; a field is [None] when
    it is left out. *)
Record Config := {
  cfg_host : string;
  cfg_port : option Z;
  cfg_username : string;
  cfg_password : string;
  cfg_useHttps : option bool;
  cfg_timeout : option Z
}.

Record Client := {
  host : string;
  port : Z;
  username : string;
  password : string;
  useHttps : bool;
  timeout : Z;
  baseURL : string
}.

(** [constructor(cfg)]. *)
Definition construct (cfg : Config) : Client :=
  let port_ :=
    nullish (cfg_port cfg)
      (match cfg_useHttps cfg with Some true => 443 | _ => 80 end)%Z in
  let useHttps_ := nullish (cfg_useHttps cfg) false in
  {| host := cfg_host cfg;
     port := port_;
     username := cfg_username cfg;
     password := cfg_password cfg;
     useHttps := useHttps_;
     timeout := nullish (cfg_timeout cfg) 10000%Z;
     baseURL := (if useHttps_ then "https" else "http") ++ "://" ++ cfg_host cfg
                ++ ":" ++ decimal port_ |}.

Section Request.

(** The type of request and response bodies, and [JSON.stringify] on
    them, which gives [undefined] (here [None]) on [undefined]. *)
Variable Data : Type.
Variable JSON_stringify : Data -> option string.

(** What goes to [this.http.request]. *)
Record HttpRequest := {
  rq_method : string;
  rq_url : string;
  rq_params : list (string * string);
  rq_data : option Data;
  rq_contentType : string;
  rq_authorization : option string
}.

Record HttpResponse := {
  rs_status : Z;
  rs_wwwAuthenticate : option string;
  rs_data : Data
}.

(** The terminal behind the axios instance: with the requests already
    sent and the one sent now, it answers with a status below 500, or the
    call throws with a message (no connection, time-out, a status of 500
    or more, which [validateStatus] refuses). *)
Definition Http := list HttpRequest -> HttpRequest -> Result HttpResponse.

Definition unreachable (client : Client) (path message : string) : string :=
  "Cannot reach terminal at " ++ baseURL client ++ path ++ nl
  ++ "  " ++ arrow ++ " " ++ message ++ nl
  ++ "  Ensure the terminal IP/port is correct and reachable on the local network.".

Definition noChallenge : string :=
  "Terminal returned 401 but no WWW-Authenticate header." ++ nl
  ++ "  Check device credentials and enable ISAPI in the device web portal.".

Definition authFailed (message : string) : string :=
  "Authenticated request failed: " ++ message.

Definition rejected : string :=
  "Digest Auth rejected (still 401)." ++ nl
  ++ "  Double-check TERMINAL_USERNAME and TERMINAL_PASSWORD in your .env".

(** The error for a status of 400 or more; [slice] on [undefined] is a
    [TypeError] thrown in its place. *)
Definition isapiError (status : Z) (body : Data) : string :=
  match JSON_stringify body with
  | Some text =>
      "ISAPI error: HTTP " ++ decimal status ++ nl
      ++ "  Body: " ++ String.substring 0 300 text
  | None => "TypeError: Cannot read properties of undefined (reading 'slice')"
  end.

(** [request(method, path, body, params)]: what it returns or throws,
    and the requests it sent. [cnonce] is the client nonce drawn if the
    digest needs one. *)
Definition request (client : Client) (http : Http) (cnonce : string)
  (method path : string) (body : option Data) (params : list (string * string))
  : Result Data * list HttpRequest :=
  let METHOD := Js.toUpperCase method in
  let first :=
    {| rq_method := METHOD; rq_url := path; rq_params := params; rq_data := body;
       rq_contentType := "application/json"; rq_authorization := None |} in
  match http [] first with
  | Throw message => (Throw (unreachable client path message), [first])
  | Ok probe =>
      if negb (rs_status probe =? 401)%Z then (Ok (rs_data probe), [first])
      else
        match rs_wwwAuthenticate probe with
        | None => (Throw noChallenge, [first])
        | Some wwwAuth =>
            if negb (Js.truthy wwwAuth) then (Throw noChallenge, [first])
            else
              let authHeader :=
                HikvisionClient.buildDigestAuth METHOD path (username client)
                  (password client) wwwAuth cnonce in
              let second :=
                {| rq_method := METHOD; rq_url := path; rq_params := params;
                   rq_data := body; rq_contentType := "application/json";
                   rq_authorization := Some authHeader |} in
              match http [first] second with
              | Throw message => (Throw (authFailed message), [first; second])
              | Ok authed =>
                  if (rs_status authed =? 401)%Z then (Throw rejected, [first; second])
                  else if (rs_status authed >=? 400)%Z
                  then (Throw (isapiError (rs_status authed) (rs_data authed)),
                        [first; second])
                  else (Ok (rs_data authed), [first; second])
              end
        end
  end.

End Request.

End ClientRequest.

(* ================================================================== *)
(** ** deviceDiscovery.js: subnets and the scan                         *)
(* ================================================================== *)

Module Discovery.

Import DeviceDiscovery.

(** *** Subnet detection *)

(** A pattern of [VIRTUAL_IFACE_PATTERNS]: a word looked for anywhere in
    the name, or at its start, letters compared without case. *)
Inductive Pattern :=
| Anywhere (word : string)
| AtStart (word : string).

Definition VIRTUAL_IFACE_PATTERNS : list Pattern :=
  [ Anywhere "virtualbox"; Anywhere "vmware"; Anywhere "vmnet"; Anywhere "vethernet";
    Anywhere "wsl"; Anywhere "docker"; Anywhere "hyper-v"; Anywhere "loopback";
    AtStart "veth"; AtStart "virbr"; AtStart "lxc"; AtStart "tun"; AtStart "tap" ].

(** [p.test(name)]; the words of the patterns are in lower case. *)
Definition test (p : Pattern) (name : string) : bool :=
  match p with
  | Anywhere word => Js.includes (Js.toLowerCase name) word
  | AtStart word => String.prefix word (Js.toLowerCase name)
  end.

Definition isVirtualIface (name : string) : bool :=
  existsb (fun p => test p name) VIRTUAL_IFACE_PATTERNS.

(** [s.split(sep)] for a one-character separator. *)
Fixpoint split (sep : ascii) (s : string) : list string :=
  match s with
  | EmptyString => [EmptyString]
  | String c r =>
      if Ascii.eqb c sep then EmptyString :: split sep r
      else match split sep r with
           | part :: parts => String c part :: parts
           | [] => [String c EmptyString]
           end
  end.

(** [parts.join(sep)]. *)
Fixpoint join (sep : string) (parts : list string) : string :=
  match parts with
  | [] => EmptyString
  | [part] => part
  | part :: rest => part ++ sep ++ join sep rest
  end.

(** An address entry of [os.networkInterfaces()]. *)
Record NetworkAddress := {
  address : string;
  family : string;
  internal : bool
}.

(** An element of the result of [detectAllSubnets]. *)
Record Subnet := {
  name : string;
  sub_address : string;
  subnet : string
}.

Definition virtualRank (s : Subnet) : Z := if isVirtualIface (name s) then 1 else 0.

(** The sign of the number a comparator returns. *)
Definition signOf (z : Z) : comparison := Z.compare z 0.

(** [detectAllSubnets()]; [ifaces] is [Object.entries(os.networkInterfaces())]. *)
Definition detectAllSubnets (ifaces : list (string * list NetworkAddress))
  : Result (list Subnet) :=
  let results :=
    flat_map
      (fun entry : string * list NetworkAddress =>
         flat_map
           (fun addr =>
              if negb (family addr =? "IPv4") || internal addr then []
              else [ {| name := fst entry;
                        sub_address := address addr;
                        subnet := join "." (firstn 3 (split "." (address addr))) |} ])
           (snd entry))
      ifaces in
  match results with
  | [] => Throw ("Could not detect any local IPv4 network interface. "
                 ++ "Check your network connection.")
  | _ =>
      Ok (AttendanceProcessor.sort
            (fun a b => signOf (virtualRank a - virtualRank b)) results)
  end.

(** The text of a number that is not negative in a template literal. *)
Definition decimal (n : nat) : string := NilZero.string_of_uint (Nat.to_uint n).

(** [subnetHosts(base)]. *)
Definition subnetHosts (base : string) : list string :=
  List.map (fun i => base ++ "." ++ decimal (i + 1)) (seq 0 254).

(** [m.set(k, v)] on a [Map], entries in the order of insertion: a key
    that is there keeps its place and takes the new value. *)
Fixpoint mapSet {A : Type} (k : string) (v : A) (mp : list (string * A))
  : list (string * A) :=
  match mp with
  | [] => [(k, v)]
  | (k', v') :: rest =>
      if (k' =? k)%string then (k', v) :: rest else (k', v') :: mapSet k v rest
  end.

(** [[...new Map(subnets.map((s) => [s.subnet, s])).values()]]. *)
Definition uniqueSubnets (subnets : list Subnet) : list Subnet :=
  List.map snd (fold_left (fun mp s => mapSet (subnet s) s mp) subnets []).

(** *** The concurrency helper *)

Section PMap.

Context {T R : Type}.

(** The items, the callback ([Throw]: the promise it returns is
    rejected) and the order in which promises settle: from the indices
    of the calls in flight, in the order in which they were started, the
    position in that list of the call that settles next (beyond the end:
    the last one). *)
Variable items : list T.
Variable fn : T -> Result R.
Variable settles : list nat -> nat.

(** What the workers share between two settlements: [index], the items
    not yet taken, the calls in flight with their indices in the order
    in which they were started, the array [results] ([None]: a hole)
    and, in their order, the indices of the calls that have settled. *)
Record Pool := {
  index : nat;
  pending : list T;
  inFlight : list (nat * T);
  results : list (option R);
  settled : list nat
}.

(** [results[i] = v]. *)
Fixpoint assign (i : nat) (v : R) (array : list (option R)) : list (option R) :=
  match i, array with
  | O, [] => [Some v]
  | O, _ :: rest => Some v :: rest
  | S k, [] => None :: assign k v []
  | S k, x :: rest => x :: assign k v rest
  end.

(** The element at a position of a list that is not empty, and the
    others in their order. *)
Fixpoint select {A : Type} (position : nat) (first : A) (rest : list A) : A * list A :=
  match position, rest with
  | O, _ => (first, rest)
  | S _, [] => (first, [])
  | S p, x :: rest' => let '(chosen, others) := select p x rest' in (chosen, first :: others)
  end.

(** One settlement: the worker whose call settles stores the value and,
    while [index < items.length], takes the next item and starts its
    call; a rejection rejects [Promise.all]. [None]: no call is in
    flight, every worker has left its loop. *)
Definition settle (pool : Pool) : option (Result Pool) :=
  match inFlight pool with
  | [] => None
  | first :: rest =>
      let '((i, item), others) :=
        select (settles (List.map fst (first :: rest))) first rest in
      Some match fn item with
           | Throw e => Throw e
           | Ok v =>
               Ok match pending pool with
                  | [] =>
                      {| index := index pool; pending := [];
                         inFlight := others;
                         results := assign i v (results pool);
                         settled := (settled pool ++ [i])%list |}
                  | item' :: pending' =>
                      {| index := S (index pool); pending := pending';
                         inFlight := (others ++ [(index pool, item')])%list;
                         results := assign i v (results pool);
                         settled := (settled pool ++ [i])%list |}
                  end
           end
  end.

(** The settlements one after the other until no call is in flight,
    [calls] being the number of items whose call has not settled. A
    rejection ends the run: [pMap] has thrown, and what the other
    workers still do is not followed. *)
Fixpoint drain (calls : nat) (pool : Pool) : Result (list (option R)) * list nat :=
  match calls with
  | O => (Ok (results pool), settled pool)
  | S calls' =>
      match settle pool with
      | None => (Ok (results pool), settled pool)
      | Some (Throw e) => (Throw e, settled pool)
      | Some (Ok pool') => drain calls' pool'
      end
  end.

(** The pool when [Array.from] has run every worker up to its first
    [await]: the first [Math.min(concurrency, items.length)] items have
    been taken, in their order. *)
Definition start (concurrency : nat) : Pool :=
  let workers := Nat.min concurrency (List.length items) in
  {| index := workers;
     pending := skipn workers items;
     inFlight := combine (seq 0 workers) (firstn workers items);
     results := [];
     settled := [] |}.

(** [pMap(items, concurrency, fn)]: the array returned or the rejection,
    and the indices of the calls in the order in which they settled. *)
Definition pMap (concurrency : nat) : Result (list (option R)) * list nat :=
  drain (List.length items) (start concurrency).

End PMap.

Definition SCAN_CONCURRENCY : nat := 30.

(** *** The main export *)

Record Cfg := {
  cfg_host : string;
  cfg_port : Z;
  cfg_username : string;
  cfg_password : string;
  cfg_useHttps : bool;
  cfg_deviceName : option string
}.

Record DiscoveryResult := {
  ip : string;
  changed : bool;
  info : DeviceInfo
}.

(** What a call does to the outside: the addresses it probes, in the
    order in which the probes start, the call of [updateEnvFile] and the
    assignment to [process.env]. *)
Inductive Effect :=
| Probe (address : string)
| UpdateEnvFile (key value : string)
| SetProcessEnv (key value : string).

(** The surroundings of one call: the network at the time of the first
    probe and during the scan, the client nonces drawn while an address
    is probed, the order in which the probes of a scan settle, the
    entries of [os.networkInterfaces()] and what [updateEnvFile] does. *)
Record World := {
  verifyNet : Network;
  scanNet : Network;
  cnonces : string -> list string;
  settles : list nat -> nat;
  networkInterfaces : list (string * list NetworkAddress);
  updateEnvFile : string -> string -> Result unit
}.

Definition bullet : string :=
  String (ascii_of_nat 226) (String (ascii_of_nat 128) (String (ascii_of_nat 162) "")).

Definition nl : string := String (ascii_of_nat 10) "".

Definition truthyName (deviceName : option string) : bool :=
  match deviceName with
  | Some text => Js.truthy text
  | None => false
  end.

Section Scan.

Variable JSON_parse : string -> Result json.
Variable parseXml : option (string -> Result json).
Variable toLowerCase : string -> string.
Variable String_ : json -> string.
Variable JSON_stringify : json -> string.

Variable world : World.
Variable cfg : Cfg.

Definition probe (net : Network) (address : string) : Result (option DeviceInfo) :=
  fst (probeDevice JSON_parse parseXml net (cnonces world address) address
         (cfg_port cfg) (cfg_username cfg) (cfg_password cfg) (cfg_useHttps cfg)).

Definition matches (entry : string * DeviceInfo) : bool :=
  isTargetDevice toLowerCase String_ JSON_stringify (Some (snd entry)) (cfg_deviceName cfg).

(** What the callback of the scan leaves in [found] for an address: it
    awaits the probe and pushes the identity, if there is one. *)
Definition pushed (address : string) : list (string * DeviceInfo) :=
  match probe (scanNet world) address with
  | Ok (Some info) => [(address, info)]
  | _ => []
  end.

(** The [pMap] over the hosts of a subnet: what its callbacks push to
    [found], in the order in which they settle, or the rejection. *)
Definition pushes (allHosts : list string) : Result (list (string * DeviceInfo)) :=
  match pMap allHosts
          (fun address => match probe (scanNet world) address with
                          | Ok _ => Ok tt
                          | Throw e => Throw e
                          end)
          (settles world) SCAN_CONCURRENCY with
  | (Throw e, _) => Throw e
  | (Ok _, order) => Ok (flat_map (fun i => pushed (nth i allHosts "")) order)
  end.

(** The [for] loop over the subnets, with [found] so far. The probes
    of a subnet start in the order of its hosts. *)
Fixpoint scanSubnets (subnets : list Subnet) (found : list (string * DeviceInfo))
  : Result (list (string * DeviceInfo)) * list Effect :=
  match subnets with
  | [] => (Ok found, [])
  | s :: rest =>
      let allHosts := subnetHosts (subnet s) in
      match pushes allHosts with
      | Throw e => (Throw e, List.map Probe allHosts)
      | Ok hits =>
          let found' := (found ++ hits)%list in
          if truthyName (cfg_deviceName cfg) && existsb matches found'
          then (Ok found', List.map Probe allHosts)
          else
            let '(r, effects) := scanSubnets rest found' in
            (r, (List.map Probe allHosts ++ effects)%list)
      end
  end.

Definition noDevices (scanned : list Subnet) : string :=
  "No Hikvision devices responded on: "
  ++ join ", " (List.map (fun s => subnet s ++ ".0/24") scanned) ++ nl
  ++ "  " ++ bullet ++ " Ensure the terminal is powered on and connected to the same network."
  ++ nl
  ++ "  " ++ bullet ++ " Confirm the admin credentials in .env are correct." ++ nl
  ++ "  " ++ bullet ++ " Check that HTTP port "
  ++ NilZero.string_of_int (Z.to_int (cfg_port cfg)) ++ " is not firewalled." ++ nl
  ++ "  " ++ bullet ++ " If on a different subnet, set TERMINAL_HOST manually in .env.".

Definition noName : string :=
  "TERMINAL_DEVICE_NAME is not set in .env." ++ nl
  ++ "  Set it to the device name, model, or serial shown above so" ++ nl
  ++ "  the middleware knows which device to connect to.".

Definition noMatch : string :=
  "Device matching " ++ Js.dq ++ nullish (cfg_deviceName cfg) "" ++ Js.dq
  ++ " not found on the network.".

(** [ensureDeviceReachable(cfg)]: the result or the error thrown, and
    what was done to the outside. *)
Definition ensureDeviceReachable : Result DiscoveryResult * list Effect :=
  let host := cfg_host cfg in
  match probe (verifyNet world) host with
  | Throw e => (Throw e, [Probe host])
  | Ok (Some currentInfo) =>
      (Ok {| ip := host; changed := false; info := currentInfo |}, [Probe host])
  | Ok None =>
      match detectAllSubnets (networkInterfaces world) with
      | Throw message => (Throw ("Subnet detection failed: " ++ message), [Probe host])
      | Ok subnets =>
          let unique := uniqueSubnets subnets in
          match scanSubnets unique [] with
          | (Throw e, effects) => (Throw e, Probe host :: effects)
          | (Ok found, effects) =>
              match found with
              | [] => (Throw (noDevices unique), Probe host :: effects)
              | _ =>
                  if negb (truthyName (cfg_deviceName cfg))
                  then (Throw noName, Probe host :: effects)
                  else
                    match find matches found with
                    | None => (Throw noMatch, Probe host :: effects)
                    | Some match_ =>
                        let newIp := fst match_ in
                        let written :=
                          match updateEnvFile world "TERMINAL_HOST" newIp with
                          | Ok _ =>
                              [UpdateEnvFile "TERMINAL_HOST" newIp;
                               SetProcessEnv "TERMINAL_HOST" newIp]
                          | Throw _ => [UpdateEnvFile "TERMINAL_HOST" newIp]
                          end in
                        (Ok {| ip := newIp; changed := true; info := snd match_ |},
                         (Probe host :: effects ++ written)%list)
                    end
              end
          end
      end
  end.

End Scan.

End Discovery.

(* ================================================================== *)
(** ** deviceDiscovery.js: the .env rewriter                            *)
(* ================================================================== *)

Module EnvFile.

Definition nl : string := String (ascii_of_nat 10) "".

(** A line terminator, restricted to ASCII: LF and CR. The dot matches
    any other character; with the flag [m], [^] matches after a line
    terminator and [$] before one. *)
Definition isLineTerminator (c : ascii) : bool :=
  Ascii.eqb c (ascii_of_nat 10) || Ascii.eqb c (ascii_of_nat 13).

(** [(KEY\s*=).*$] at the start of [s], for a key of word characters,
    which the pattern takes literally: the white space between the key
    and the sign, the characters up to the end of the line, and what
    follows them. The sign is no white space and the dot takes no line
    terminator, so no character is given back. *)
Definition assignmentAt (key s : string) : option (string * string * string) :=
  match Js.stripPrefix key s with
  | None => None
  | Some rest =>
      match Js.span Js.isSpace rest with
      | (space, String c rest') =>
          if Ascii.eqb c "=" then
            let '(value, after) :=
              Js.span (fun c => negb (isLineTerminator c)) rest' in
            Some (space, value, after)
          else None
      | (_, EmptyString) => None
      end
  end.

(** The first match of [new RegExp(`^(${key}\\s*=).*$`, 'm')] in [s]:
    what precedes the match, and the match. [lineStart] tells whether
    [^] matches at the start of [s]. *)
Fixpoint firstAssignment (key : string) (lineStart : bool) (s : string)
  : option (string * (string * string * string)) :=
  match (if lineStart then assignmentAt key s else None) with
  | Some found => Some (EmptyString, found)
  | None =>
      match s with
      | EmptyString => None
      | String c rest =>
          match firstAssignment key (isLineTerminator c) rest with
          | Some (before, found) => Some (String c before, found)
          | None => None
          end
      end
  end.

(** What [String.prototype.replace] puts in the place of the match for
    a replacement text, the pattern having one group and no named
    group: a dollar sign for two, the match for [$&], what precedes the
    match and what follows it for the dollar sign with a backquote and
    with a quote, the group for [$1] and [$01]. A dollar sign with
    anything else stays as it is written, and of two digits that are no
    group number only the first one is read as a number. *)
Fixpoint substitution (capture matched before after template : string) : string :=
  match template with
  | EmptyString => EmptyString
  | String c rest =>
      if Ascii.eqb c "$" then
        match rest with
        | EmptyString => "$"
        | String d rest' =>
            if Ascii.eqb d "$" then
              "$" ++ substitution capture matched before after rest'
            else if Ascii.eqb d "&" then
              matched ++ substitution capture matched before after rest'
            else if Ascii.eqb d "`" then
              before ++ substitution capture matched before after rest'
            else if Ascii.eqb d "'" then
              after ++ substitution capture matched before after rest'
            else if Js.isDigit d then
              match rest' with
              | String e rest'' =>
                  if Ascii.eqb d "0" && Ascii.eqb e "1" then
                    capture ++ substitution capture matched before after rest''
                  else if Ascii.eqb d "1" then
                    capture ++ substitution capture matched before after rest'
                  else
                    String c (String d (substitution capture matched before after rest'))
              | EmptyString =>
                  if Ascii.eqb d "1" then capture else String c (String d EmptyString)
              end
            else String c (substitution capture matched before after rest)
        end
      else String c (substitution capture matched before after rest)
  end.

(** The text written for the text read. *)
Definition updated (key newValue raw : string) : string :=
  match firstAssignment key true raw with
  | None => Js.trimEnd raw ++ nl ++ key ++ "=" ++ newValue ++ nl
  | Some (before, (space, value, after)) =>
      let capture := key ++ space ++ "=" in
      before
      ++ substitution capture (capture ++ value) before after ("$1" ++ newValue)
      ++ after
  end.

(** The file system as one call finds it: whether the file is there,
    what reading it gives and what writing a text does. *)
Record Fs := {
  existsSync : bool;
  readFileSync : Result string;
  writeFileSync : string -> Result unit
}.

(** [updateEnvFile(key, newValue)]: what it returns or throws, and the
    texts it hands to [writeFileSync]. *)
Definition updateEnvFile (ENV_PATH : string) (fs : Fs) (key newValue : string)
  : Result unit * list string :=
  if negb (existsSync fs) then
    (Throw ("Cannot find .env file at: " ++ ENV_PATH), [])
  else
    match readFileSync fs with
    | Throw e => (Throw e, [])
    | Ok raw =>
        let text := updated key newValue raw in
        match writeFileSync fs text with
        | Throw e => (Throw e, [text])
        | Ok _ => (Ok tt, [text])
        end
    end.

End EnvFile.

(* ================================================================== *)
(** ** index.js: the range of the day                                   *)
(* ================================================================== *)

Module Index.

(** [padString] repeated and cut to [width] characters. *)
Fixpoint filler (padString : string) (width fuel : nat) : string :=
  match fuel with
  | O => EmptyString
  | S fuel' =>
      if (width <=? String.length padString)%nat then String.substring 0 width padString
      else padString ++ filler padString (width - String.length padString) fuel'
  end.

(** [s.padStart(targetLength, padString)]. *)
Definition padStart (targetLength : nat) (padString s : string) : string :=
  if (targetLength <=? String.length s)%nat then s
  else if negb (Js.truthy padString) then s
  else filler padString (targetLength - String.length s) (targetLength - String.length s) ++ s.

(** What [new Date()] says of the local date: [getFullYear()],
    [getMonth()], from 0 to 11, and [getDate()]. *)
Record Today := {
  getFullYear : Z;
  getMonth : nat;
  getDate : nat
}.

Definition pad (n : nat) : string :=
  padStart 2 "0" (NilZero.string_of_uint (Nat.to_uint n)).

Record TodayRange := {
  startTime : string;
  endTime : string;
  dateStr : string
}.

(** [getTodayRange()]. *)
Definition getTodayRange (now : Today) : TodayRange :=
  let yyyy := NilZero.string_of_int (Z.to_int (getFullYear now)) in
  let mm := pad (getMonth now + 1) in
  let dd := pad (getDate now) in
  {| startTime := yyyy ++ "-" ++ mm ++ "-" ++ dd ++ "T00:00:00";
     endTime := yyyy ++ "-" ++ mm ++ "-" ++ dd ++ "T23:59:59";
     dateStr := yyyy ++ "-" ++ mm ++ "-" ++ dd |}.

End Index.

(* ================================================================== *)
(** ** Vocabulary of the properties, and data for the examples        *)
(* ================================================================== *)

(** *** Digest authentication, in the words of RFC 2617 and RFC 7616 *)

Module Rfc.

Definition A1 (username realm password : string) : string :=
  username ++ ":" ++ realm ++ ":" ++ password.

(** [HA1], and its session variant as the sources compute it (with an
    empty client nonce). *)
Definition HA1 (session : bool) (username realm password nonce : string) : string :=
  if session then MD5.md5 (MD5.md5 (A1 username realm password) ++ ":" ++ nonce ++ ":")
  else MD5.md5 (A1 username realm password).

Definition HA2 (method uri : string) : string := MD5.md5 (method ++ ":" ++ uri).

Definition nc : string := "00000001".

Definition responseQop (ha1 nonce cnonce qop ha2 : string) : string :=
  MD5.md5 (ha1 ++ ":" ++ nonce ++ ":" ++ nc ++ ":" ++ cnonce ++ ":" ++ qop ++ ":" ++ ha2).

Definition responsePlain (ha1 nonce ha2 : string) : string :=
  MD5.md5 (ha1 ++ ":" ++ nonce ++ ":" ++ ha2).

(** The [qop], [nc] and [cnonce] parameters that follow the response. *)
Definition qopParams (qop cnonce : string) : string :=
  ", qop=" ++ qop ++ ", nc=" ++ nc ++ ", cnonce=" ++ Js.dq ++ cnonce ++ Js.dq.

(** The branch the sources take: [auth] and [auth-int] only. *)
Definition qopHandled (qop : string) : bool := (qop =? "auth") || (qop =? "auth-int").

End Rfc.

(** The challenge of RFC 2617, section 3.5. *)
Definition rfc2617_challenge : string :=
  "Digest realm=" ++ Js.dq ++ "testrealm@host.com" ++ Js.dq ++
  ", qop=" ++ Js.dq ++ "auth,auth-int" ++ Js.dq ++
  ", nonce=" ++ Js.dq ++ "dcd98b7102dd2f0e8b11d0f600bfb0c093" ++ Js.dq ++
  ", opaque=" ++ Js.dq ++ "5ccc069c403ebaf9f0171e9517f40e41" ++ Js.dq.

(** The same challenge offering [auth] alone. *)
Definition auth_challenge : string :=
  "Digest realm=" ++ Js.dq ++ "testrealm@host.com" ++ Js.dq ++
  ", qop=" ++ Js.dq ++ "auth" ++ Js.dq ++
  ", nonce=" ++ Js.dq ++ "dcd98b7102dd2f0e8b11d0f600bfb0c093" ++ Js.dq ++
  ", opaque=" ++ Js.dq ++ "5ccc069c403ebaf9f0171e9517f40e41" ++ Js.dq.

(** *** Time stamps *)

(** The bare local form [YYYY-MM-DDTHH:MM:SS]. *)
Definition isBareLocal (text : string) : bool :=
  match list_ascii_of_string text with
  | [y1; y2; y3; y4; d1; m1; m2; d2; a1; a2; t; h1; h2; c1; n1; n2; c2; s1; s2] =>
      forallb Js.isDigit [y1; y2; y3; y4; m1; m2; a1; a2; h1; h2; n1; n2; s1; s2]
      && Ascii.eqb d1 "-" && Ascii.eqb d2 "-" && Ascii.eqb t "T"
      && Ascii.eqb c1 ":" && Ascii.eqb c2 ":"
  | _ => false
  end.

(** No character of [text] satisfies [p]. *)
Definition noneOf (p : ascii -> bool) (text : string) : Prop :=
  Forall (fun c => p c = false) (list_ascii_of_string text).

(** *** Pagination *)

Definition mapOk {A B : Type} (f : A -> B) (r : Result A) : Result B :=
  match r with
  | Ok a => Ok (f a)
  | Throw e => Throw e
  end.

Section PagingRun.

Import HikvisionClient.

Variable dev : Device.
Variable mk : nat -> Payload.
Variable total : Z.

(** A run of the paging loop, as the design document words it: with
    [events] received and [sent] requested so far, the loop is over when
    the count has reached the declared total; otherwise the next page is
    requested at the offset [length events], and the loop is over when
    that request fails or brings no entry, and goes on with the entries
    appended when it brings some. A derivation is finite, so a run that
    has one has ended. *)
Inductive Paging : list RawEntry -> list Payload ->
                   Result (list RawEntry) * list Payload -> Prop :=
| paging_complete events sent :
    (total <= Z.of_nat (List.length events))%Z ->
    Paging events sent (Ok events, sent)
| paging_failed events sent e :
    (Z.of_nat (List.length events) < total)%Z ->
    dev sent (mk (List.length events)) = Throw e ->
    Paging events sent (Throw e, (sent ++ [mk (List.length events)])%list)
| paging_exhausted events sent page :
    (Z.of_nat (List.length events) < total)%Z ->
    dev sent (mk (List.length events)) = Ok page ->
    infoListOf page = [] ->
    Paging events sent (Ok events, (sent ++ [mk (List.length events)])%list)
| paging_more events sent page out :
    (Z.of_nat (List.length events) < total)%Z ->
    dev sent (mk (List.length events)) = Ok page ->
    infoListOf page <> [] ->
    Paging (events ++ infoListOf page)%list (sent ++ [mk (List.length events)])%list out ->
    Paging events sent out.

End PagingRun.

Section AnyRun.

Import HikvisionClient.

Variable dev : AnyTotal.Device.
Variable mk : nat -> Payload.
Variable total : AnyTotal.Count.



End AnyRun.

Definition entry (id time : string) : HikvisionClient.RawEntry :=
  {| HikvisionClient.raw_employeeNoString := Some id;
     HikvisionClient.raw_employeeNo := None;
     HikvisionClient.raw_name := None;
     HikvisionClient.raw_cardNo := None;
     HikvisionClient.raw_minor := Some 75%Z;
     HikvisionClient.raw_minorDesc := None;
     HikvisionClient.raw_inOutStatus := None;
     HikvisionClient.raw_time := Some time;
     HikvisionClient.raw_doorNo := Some 1%Z;
     HikvisionClient.raw_serialNo := None |}.

Definition fiveEntries : list HikvisionClient.RawEntry :=
  [ entry "A" "2024-11-20T07:45:00+03:00"; entry "B" "2024-11-20T08:10:22+03:00";
    entry "A" "2024-11-20T14:35:07+03:00"; entry "C" "2024-11-20T09:00:00+03:00";
    entry "B" "2024-11-20T16:02:41+03:00" ].

(** A terminal that holds [stored], declares [declared] matches and
    serves at most [cap] entries a page, from the offset asked for. *)
Definition cappedDevice (stored : list HikvisionClient.RawEntry) (declared : Z) (cap : nat)
  : HikvisionClient.Device :=
  fun _ request =>
    Ok (Some {| HikvisionClient.totalMatches := Some declared;
                HikvisionClient.InfoList :=
                  Some (firstn cap
                          (skipn (HikvisionClient.searchResultPosition request) stored)) |}).

(** A terminal that ignores the offset: every page is the same three
    entries, and four matches are declared. *)
Definition repeatingDevice : HikvisionClient.Device :=
  fun _ _ =>
    Ok (Some {| HikvisionClient.totalMatches := Some 4%Z;
                HikvisionClient.InfoList := Some (firstn 3 fiveEntries) |}).


Definition today (allPages : option bool) : HikvisionClient.Options :=
  {| HikvisionClient.opt_startTime := Some "2024-11-20T00:00:00";
     HikvisionClient.opt_endTime := Some "2024-11-20T23:59:59";
     HikvisionClient.opt_maxResults := Some 100%Z;
     HikvisionClient.opt_allPages := allPages |}.

(** *** Attendance records *)

(** [a] is not after [b] for [compareTimeStrings]. *)
Definition notAfter (a b : string) : Prop :=
  AttendanceProcessor.compareTimeStrings a b <> Gt.

(** Chronological order of two times of day, by hour, minute, second. *)
Definition chronLe (a b : AttendanceProcessor.DeviceTime) : Prop :=
  (AttendanceProcessor.h a < AttendanceProcessor.h b
   \/ (AttendanceProcessor.h a = AttendanceProcessor.h b
       /\ (AttendanceProcessor.m a < AttendanceProcessor.m b
           \/ (AttendanceProcessor.m a = AttendanceProcessor.m b
               /\ AttendanceProcessor.s a <= AttendanceProcessor.s b))))%Z.

(** What [parseDeviceTime] hands out: the text [HH:MM:SS] of six digits
    and the three numbers they write. *)
Definition clockText (t : AttendanceProcessor.DeviceTime) : Prop :=
  exists a b c d e f : ascii,
    Forall (fun x => Js.isDigit x = true) [a; b; c; d; e; f]
    /\ AttendanceProcessor.raw t
       = String a (String b (String ":" (String c (String d (String ":"
           (String e (String f EmptyString)))))))
    /\ AttendanceProcessor.h t
       = (10 * AttendanceProcessor.digitValue a + AttendanceProcessor.digitValue b)%Z
    /\ AttendanceProcessor.m t
       = (10 * AttendanceProcessor.digitValue c + AttendanceProcessor.digitValue d)%Z
    /\ AttendanceProcessor.s t
       = (10 * AttendanceProcessor.digitValue e + AttendanceProcessor.digitValue f)%Z.

(** The number that two decimal digits write. *)
Definition twoDigits (a b : ascii) : Z :=
  (10 * (Z.of_nat (nat_of_ascii a) - 48) + (Z.of_nat (nat_of_ascii b) - 48))%Z.

Definition isDecimal (c : ascii) : bool :=
  (48 <=? nat_of_ascii c)%nat && (nat_of_ascii c <=? 57)%nat.

(** The hour, the minute and the second that a text [HH:MM:SS] writes,
    read from its digits. *)
Definition clockOf (text : string) : option (Z * Z * Z) :=
  match list_ascii_of_string text with
  | [a; b; c1; c; d; c2; e; f] =>
      if forallb isDecimal [a; b; c; d; e; f] && Ascii.eqb c1 ":" && Ascii.eqb c2 ":"
      then Some (twoDigits a b, twoDigits c d, twoDigits e f)
      else None
  | _ => None
  end.

(** Two texts [HH:MM:SS], the first one a time of day that is not
    later than the second: an earlier hour, or the same hour and an
    earlier minute, or the same hour and minute and a second that is not
    later. *)
Definition notLater (x y : string) : Prop :=
  match clockOf x, clockOf y with
  | Some (h1, m1, s1), Some (h2, m2, s2) =>
      (h1 < h2 \/ (h1 = h2 /\ (m1 < m2 \/ (m1 = m2 /\ s1 <= s2))))%Z
  | _, _ => False
  end.

(** A text [HH:MM:SS] that is a time of day at or after the threshold: a
    later hour, or the same hour and a minute that is not earlier. *)
Definition atOrAfterText (hour minute : Z) (x : string) : Prop :=
  match clockOf x with
  | Some (h, m, _) => (h > hour \/ (h = hour /\ m >= minute))%Z
  | None => False
  end.

(** The text [x], of the shape [HH:MM:SS], stands in the time stamp
    after a [T]. *)
Definition clockWrittenIn (stamp x : string) : Prop :=
  clockOf x <> None /\ exists before after, stamp = before ++ "T" ++ x ++ after.

(** The time of day of a time stamp: the first text of the shape
    [HH:MM:SS] that stands in it after a [T]. *)
Definition firstClockIn (stamp x : string) : Prop :=
  clockOf x <> None
  /\ exists before after,
       stamp = before ++ "T" ++ x ++ after
       /\ forall before' y after',
            stamp = before' ++ "T" ++ y ++ after' -> clockOf y <> None ->
            (String.length before <= String.length before')%nat.

(** The events kept for a student: those that pass the identifier filter
    and carry the student's identifier. *)
Definition retainedOf (adm : string) (records : list HikvisionClient.AttendanceRecord)
  : list HikvisionClient.AttendanceRecord :=
  filter (fun r => (AttendanceProcessor.idOf r =? adm)%string)
    (filter AttendanceProcessor.hasStudentId records).

(** The times of those of [events] whose time stamp parses. *)
Definition parsedTimes (events : list HikvisionClient.AttendanceRecord)
  : list AttendanceProcessor.DeviceTime :=
  flat_map
    (fun e => match AttendanceProcessor.parseDeviceTime (HikvisionClient.eventTime e) with
              | Some t => [t]
              | None => []
              end)
    events.

(** The texts [HH:MM:SS] of those of [events] whose time stamp
    parses. *)
Definition clockTexts (events : list HikvisionClient.AttendanceRecord) : list string :=
  List.map AttendanceProcessor.raw (parsedTimes events).

(** At or after the threshold: a later hour, or the same hour and a
    minute that is not earlier. *)
Definition atOrAfter (hour minute : Z) (t : AttendanceProcessor.DeviceTime) : Prop :=
  (AttendanceProcessor.h t > hour
   \/ (AttendanceProcessor.h t = hour /\ AttendanceProcessor.m t >= minute))%Z.

(** The identifiers that the first filter discards: after trimming, the
    empty text and the text [0]. *)
Definition noStudentId (r : HikvisionClient.AttendanceRecord) : Prop :=
  AttendanceProcessor.idOf r = "" \/ AttendanceProcessor.idOf r = "0".

(** The map holds, under distinct keys, each key's elements of [seen] in
    their order, and every element of [seen] is under its key. *)
Definition Grouped {A : Type} (keyOf : A -> string)
  (mp : list (string * list A)) (seen : list A) : Prop :=
  NoDup (List.map fst mp)
  /\ (forall k v, In (k, v) mp ->
        v = filter (fun r => (keyOf r =? k)%string) seen /\ v <> [])
  /\ (forall r, In r seen -> In (keyOf r) (List.map fst mp)).

Definition scan (id time : string) : HikvisionClient.AttendanceRecord :=
  HikvisionClient.normalise "2024-11-20T17:00:00.000Z" (entry id time).

(** The no-break space U+00A0, in UTF-8. *)
Definition nbsp : string := String (ascii_of_nat 194) (String (ascii_of_nat 160) "").

(** Scans out of order, identifiers with blanks, a time that does not
    parse, a student without any time that parses. *)
Definition mixedDay : list HikvisionClient.AttendanceRecord :=
  [ scan "A" "2024-11-20T14:35:07+03:00"; scan "B" "2024-11-20T07:45:00";
    scan "0" "2024-11-20T09:00:00"; scan " A " "2024-11-20T08:10:22Z";
    scan "A" "junk"; scan "C" "nope"; scan "A" "2024-11-20T14:29:59-05:00";
    scan "" "2024-11-20T16:00:00" ].

Definition mixedDayA : AttendanceProcessor.ProcessedAttendance :=
  {| AttendanceProcessor.adm_no := "A";
     AttendanceProcessor.time_in := "08:10:22";
     AttendanceProcessor.time_out := Some "14:35:07" |}.

(** *** Cloud sync *)

Section RetryRun.

Import AttendanceProcessor.

Variable config : CloudConfig.
Variable cloud : Cloud.
Variable count : nat.

(** A run of the retry loop from the test of its condition, with
    [attempt] the number of the attempt to make, [lastError] the last
    error caught and [log] what was done so far. *)
Inductive Retrying : Z -> option AxiosError -> list Effect ->
                     SyncResult * list Effect -> Prop :=
| retry_exhausted attempt lastError log :
    (attempt > retryAttempts config)%Z ->
    Retrying attempt lastError log (failed lastError, log)
| retry_delivered attempt lastError log res :
    (attempt <= retryAttempts config)%Z ->
    cloud (posts log) = Resolved res ->
    Retrying attempt lastError log
      ({| success := true; sent := count; sync_response := data res |},
       (log ++ [Post attempt])%list)
| retry_refused attempt lastError log err :
    (attempt <= retryAttempts config)%Z ->
    cloud (posts log) = Rejected err ->
    isClientError err = true ->
    Retrying attempt lastError log (failed (Some err), (log ++ [Post attempt])%list)
| retry_again attempt lastError log err out :
    (attempt <= retryAttempts config)%Z ->
    cloud (posts log) = Rejected err ->
    isClientError err = false ->
    Retrying (attempt + 1) (Some err)
      (log ++ Post attempt ::
         if (attempt <? retryAttempts config)%Z then [Sleep (retryDelayMs config)] else [])%list
      out ->
    Retrying attempt lastError log out.

End RetryRun.

(** The attempts numbered from [attempt], [n] of them, with the delay
    between two of them. *)
Fixpoint attemptsFrom (delay attempt : Z) (n : nat) : list AttendanceProcessor.Effect :=
  match n with
  | O => []
  | S k =>
      AttendanceProcessor.Post attempt ::
      match k with
      | O => []
      | S _ => AttendanceProcessor.Sleep delay :: attemptsFrom delay (attempt + 1) k
      end
  end.

(** An outcome that is retried by design: no response at all, or a
    response with a status of 500 or more. *)
Definition transient (o : AttendanceProcessor.PostOutcome) : Prop :=
  exists err, o = AttendanceProcessor.Rejected err
    /\ match AttendanceProcessor.response err with
       | None => True
       | Some r => (500 <= AttendanceProcessor.status r)%Z
       end.

(** The error of the last of [n] attempts. *)
Definition errorOfLast (cloud : AttendanceProcessor.Cloud) (n : nat)
  : option AttendanceProcessor.AxiosError :=
  match n with
  | O => None
  | S k => match cloud k with
           | AttendanceProcessor.Rejected err => Some err
           | AttendanceProcessor.Resolved _ => None
           end
  end.

(** The body the failure result carries for the last caught error. *)
Definition bodyOf (lastError : option AttendanceProcessor.AxiosError) : option string :=
  match lastError with
  | Some err =>
      match AttendanceProcessor.response err with
      | Some r => AttendanceProcessor.data r
      | None => None
      end
  | None => None
  end.

Definition threeAttempts : AttendanceProcessor.CloudConfig :=
  {| AttendanceProcessor.schoolCode := "SCH001";
     AttendanceProcessor.baseUrl := "https://cloud.example";
     AttendanceProcessor.apiKey := "key";
     AttendanceProcessor.attendanceEndpoint := "/attendance/sync";
     AttendanceProcessor.timeoutMs := 15000;
     AttendanceProcessor.retryAttempts := 3;
     AttendanceProcessor.retryDelayMs := 2000 |}.

Definition answer (code : Z) (body : string) : AttendanceProcessor.CloudResponse :=
  {| AttendanceProcessor.status := code; AttendanceProcessor.data := Some body |}.

Definition rejection (code : Z) (body : string) : AttendanceProcessor.PostOutcome :=
  AttendanceProcessor.Rejected
    {| AttendanceProcessor.message := "Request failed";
       AttendanceProcessor.response := Some (answer code body) |}.

(** A 500, then a 200. *)
Definition recoveringCloud : AttendanceProcessor.Cloud :=
  fun k => match k with
           | O => rejection 500 "busy"
           | _ => AttendanceProcessor.Resolved (answer 200 "stored")
           end.

(** A 400 whatever is sent. *)
Definition refusingCloud : AttendanceProcessor.Cloud := fun _ => rejection 400 "bad date".

(** No answer at all. *)
Definition silentCloud : AttendanceProcessor.Cloud :=
  fun _ => AttendanceProcessor.Rejected
             {| AttendanceProcessor.message := "ETIMEDOUT";
                AttendanceProcessor.response := None |}.

(** *** Device matching *)

(** [part] occurs in [whole]. *)
Definition substringOf (part whole : string) : Prop :=
  exists before after, whole = before ++ part ++ after.

Section MatchVocabulary.

Import DeviceDiscovery.

Variable toLowerCase : string -> string.
Variable String_ : json -> string.
Variable JSON_stringify : json -> string.

(** An identity field, lower-cased and trimmed, as it is compared. *)
Definition fieldText (v : json) : string := Js.trim (toLowerCase (toText String_ v)).

(** The text of the raw payload that is searched. *)
Definition rawText (info : DeviceInfo) : string :=
  toLowerCase
    (match _raw info with
     | JStr t => t
     | other => JSON_stringify other
     end).

(** Some populated field among the name, the model, the serial number
    and the MAC address is equal to the target, contains it or is
    contained in it. *)
Definition fieldMatches (info : DeviceInfo) (target : string) : Prop :=
  exists v,
    In v [deviceName info; model info; serialNumber info; macAddress info]
    /\ truthyJ v = true
    /\ (fieldText v = target
        \/ substringOf target (fieldText v)
        \/ substringOf (fieldText v) target).

End MatchVocabulary.

(** The text of the literals [null], [true], [false] and of an integer,
    on which [String] and [JSON.stringify] agree, for the examples; they
    use no array and no object, which get a place holder here. *)
Definition literalText (v : DeviceDiscovery.json) : string :=
  match v with
  | DeviceDiscovery.JNull => "null"
  | DeviceDiscovery.JBool true => "true"
  | DeviceDiscovery.JBool false => "false"
  | DeviceDiscovery.JNum z => NilZero.string_of_int (Z.to_int z)
  | DeviceDiscovery.JStr t => t
  | DeviceDiscovery.JArr _ => "[object Array]"
  | DeviceDiscovery.JObj _ => "[object Object]"
  end.

(** An identity with the model alone, from the XML text [raw]. *)
Definition modelOnly (model_ raw : string) : DeviceDiscovery.DeviceInfo :=
  {| DeviceDiscovery.deviceName := DeviceDiscovery.JNull;
     DeviceDiscovery.model := DeviceDiscovery.JStr model_;
     DeviceDiscovery.serialNumber := DeviceDiscovery.JNull;
     DeviceDiscovery.firmwareVersion := DeviceDiscovery.JNull;
     DeviceDiscovery.macAddress := DeviceDiscovery.JNull;
     DeviceDiscovery._raw := DeviceDiscovery.JStr raw |}.

(** The capital E with an acute accent, U+00C9, and the small one,
    U+00E9, in UTF-8. *)
Definition capitalEAcute : string := String (ascii_of_nat 195) (String (ascii_of_nat 137) "").
Definition smallEAcute : string := String (ascii_of_nat 195) (String (ascii_of_nat 169) "").

(** A lower-casing that knows this one letter beyond the ASCII ones,
    for an example with a name that is not ASCII. *)
Fixpoint lowerWithEAcute (s : string) : string :=
  match s with
  | EmptyString => EmptyString
  | String a r =>
      match r with
      | String b r' =>
          if (nat_of_ascii a =? 195)%nat && (nat_of_ascii b =? 137)%nat
          then smallEAcute ++ lowerWithEAcute r'
          else String (Js.lowerChar a) (lowerWithEAcute r)
      | EmptyString => String (Js.lowerChar a) EmptyString
      end
  end.

(** What the JSON branch of [normaliseDeviceInfo] makes of a body that
    is the JSON value [v] and no object. *)
Definition blankIdentity (v : DeviceDiscovery.json) : DeviceDiscovery.DeviceInfo :=
  {| DeviceDiscovery.deviceName := DeviceDiscovery.JNull;
     DeviceDiscovery.model := DeviceDiscovery.JNull;
     DeviceDiscovery.serialNumber := DeviceDiscovery.JNull;
     DeviceDiscovery.firmwareVersion := DeviceDiscovery.JNull;
     DeviceDiscovery.macAddress := DeviceDiscovery.JNull;
     DeviceDiscovery._raw := v |}.

(** [JSON.parse] on the one text the example needs. *)
Definition parseZero (text : string) : Result DeviceDiscovery.json :=
  if text =? "0" then Ok (DeviceDiscovery.JNum 0) else Throw "SyntaxError".

(* ================================================================== *)
(** ** Vocabulary of the further properties                             *)
(* ================================================================== *)

(** *** The event log *)

(** The pages the device hands out for the requests [rest], sent in this
    order after [before]; the list stops at a request that throws. *)
Fixpoint pagesFor (dev : HikvisionClient.Device)
  (before rest : list HikvisionClient.Payload) : list (option HikvisionClient.AcsEvent) :=
  match rest with
  | [] => []
  | p :: rest' =>
      match dev before p with
      | Ok page => page :: pagesFor dev (before ++ [p])%list rest'
      | Throw _ => []
      end
  end.

(** The offsets go up strictly. *)
Fixpoint ascending (offsets : list nat) : Prop :=
  match offsets with
  | [] => True
  | a :: rest => match rest with
                 | [] => True
                 | b :: _ => a < b
                 end /\ ascending rest
  end.

(** *** The processed attendance *)

(** The shape [HH:MM:SS]: two digits, a colon, two digits, a colon and
    two digits. *)
Definition isClockText (text : string) : bool :=
  match list_ascii_of_string text with
  | [a; b; c1; c; d; c2; e; f] =>
      forallb Js.isDigit [a; b; c; d; e; f] && Ascii.eqb c1 ":" && Ascii.eqb c2 ":"
  | _ => false
  end.

(** A scan that counts for the student [adm]: it passes the identifier
    filter, its trimmed identifier is [adm] and its time stamp parses. *)
Definition countsFor (adm : string) (r : HikvisionClient.AttendanceRecord) : Prop :=
  AttendanceProcessor.hasStudentId r = true
  /\ AttendanceProcessor.idOf r = adm
  /\ AttendanceProcessor.parseDeviceTime (HikvisionClient.eventTime r) <> None.

(** *** The outcome of the cloud sync *)

(** A POST that the loop answers with another attempt: it was rejected,
    and not with a status from 400 to 499. *)
Definition retriedOutcome (o : AttendanceProcessor.PostOutcome) : Prop :=
  exists err, o = AttendanceProcessor.Rejected err
    /\ AttendanceProcessor.isClientError err = false.

(** *** Subnets *)

(** The external IPv4 addresses of the machine with the names of their
    interfaces, in the order in which the operating system lists them. *)
Definition externalIPv4 (ifaces : list (string * list Discovery.NetworkAddress))
  : list (string * Discovery.NetworkAddress) :=
  filter
    (fun entry => (Discovery.family (snd entry) =? "IPv4")%string
                  && negb (Discovery.internal (snd entry)))
    (flat_map (fun entry => List.map (pair (fst entry)) (snd entry)) ifaces).

(** The first three fields of a dotted address. *)
Definition slash24 (address : string) : string :=
  Discovery.join "." (firstn 3 (Discovery.split "." address)).

Definition subnetOf (entry : string * Discovery.NetworkAddress) : Discovery.Subnet :=
  {| Discovery.name := fst entry;
     Discovery.sub_address := Discovery.address (snd entry);
     Discovery.subnet := slash24 (Discovery.address (snd entry)) |}.

Definition virtualEntry (entry : string * Discovery.NetworkAddress) : bool :=
  Discovery.isVirtualIface (fst entry).

(** A list without its repetitions, each element at its first place. *)
Fixpoint firstOccurrences (keys : list string) : list string :=
  match keys with
  | [] => []
  | k :: rest => k :: filter (fun k' => negb (k' =? k)%string) (firstOccurrences rest)
  end.

(** The last of [subnets] that has the /24 [key]. *)
Definition lastWith (key : string) (subnets : list Discovery.Subnet)
  : option Discovery.Subnet :=
  AttendanceProcessor.lastOf
    (filter (fun s => (Discovery.subnet s =? key)%string) subnets).

(** *** The concurrency helper *)

Section PMapVocabulary.

Context {T R : Type}.
Variable items : list T.
Variable fn : T -> Result R.
Variable settles : list nat -> nat.

(** What holds of the pool between two settlements, with [workers]
    workers. *)
Record Running (workers : nat) (pool : Discovery.Pool (T := T) (R := R)) : Prop := {
  run_pending : Discovery.pending pool = skipn (Discovery.index pool) items;
  run_index : Discovery.index pool <= List.length items;
  run_items : forall i item, In (i, item) (Discovery.inFlight pool) ->
                nth_error items i = Some item;
  run_started : Permutation.Permutation
                  (List.map fst (Discovery.inFlight pool) ++ Discovery.settled pool)
                  (seq 0 (Discovery.index pool));
  run_results : forall i, In i (Discovery.settled pool) ->
                exists item v, nth_error items i = Some item /\ fn item = Ok v /\
                               nth_error (Discovery.results pool) i = Some (Some v);
  run_length : List.length (Discovery.results pool) <= Discovery.index pool;
  run_workers : List.length (Discovery.inFlight pool) <= workers;
  run_full : Discovery.pending pool <> [] ->
             List.length (Discovery.inFlight pool) = workers
}.

(** The pools that a run goes through, one for each settlement. *)
Fixpoint poolsFrom (calls : nat) (pool : Discovery.Pool (T := T) (R := R))
  : list (Discovery.Pool (T := T) (R := R)) :=
  pool ::
  match calls with
  | O => []
  | S calls' =>
      match Discovery.settle fn settles pool with
      | Some (Ok pool') => poolsFrom calls' pool'
      | _ => []
      end
  end.

End PMapVocabulary.

(** A callback that returns the length of a name, and promises that
    settle the last one started first. *)
Definition nameLength (name : string) : Result nat := Ok (String.length name).

Definition lastStartedFirst (calls : list nat) : nat := List.length calls - 1.

(** *** The discovery *)

Section DiscoveryVocabulary.

Variable JSON_parse : string -> Result DeviceDiscovery.json.
Variable parseXml : option (string -> Result DeviceDiscovery.json).
Variable toLowerCase : string -> string.
Variable String_ : DeviceDiscovery.json -> string.
Variable JSON_stringify : DeviceDiscovery.json -> string.
Variable world : Discovery.World.
Variable cfg : Discovery.Cfg.

(** The identity that the probe of the scan gets at an address. *)
Definition identityAt (address : string) : option DeviceDiscovery.DeviceInfo :=
  match Discovery.probe JSON_parse parseXml world cfg (Discovery.scanNet world) address with
  | Ok identity => identity
  | Throw _ => None
  end.

(** The identity is that of the device named in the configuration. *)
Definition isTarget (info : DeviceDiscovery.DeviceInfo) : bool :=
  DeviceDiscovery.isTargetDevice toLowerCase String_ JSON_stringify (Some info)
    (Discovery.cfg_deviceName cfg).

(** What the probes of one subnet push to [found]. *)
Definition hitsOf (s : Discovery.Subnet) : list (string * DeviceDiscovery.DeviceInfo) :=
  match Discovery.pushes JSON_parse parseXml world cfg
          (Discovery.subnetHosts (Discovery.subnet s)) with
  | Ok hits => hits
  | Throw _ => []
  end.

(** The condition of the early [break]. *)
Definition targetAmong (found : list (string * DeviceDiscovery.DeviceInfo)) : bool :=
  Discovery.truthyName (Discovery.cfg_deviceName cfg)
  && existsb (Discovery.matches toLowerCase String_ JSON_stringify cfg) found.

End DiscoveryVocabulary.

(** The addresses probed, in the order of the probes. *)
Definition probesOf (effects : list Discovery.Effect) : list string :=
  flat_map (fun e => match e with Discovery.Probe a => [a] | _ => [] end) effects.

(** A terminal that challenges a request without credentials and
    answers one with credentials with [body]. *)
Definition terminalHost (body contentType : string) : DeviceDiscovery.Host :=
  fun _ request =>
    match DeviceDiscovery.req_authorization request with
    | None =>
        Ok {| DeviceDiscovery.res_status := 401;
              DeviceDiscovery.res_wwwAuthenticate := Some auth_challenge;
              DeviceDiscovery.res_contentType := None;
              DeviceDiscovery.res_data := "" |}
    | Some _ =>
        Ok {| DeviceDiscovery.res_status := 200;
              DeviceDiscovery.res_wwwAuthenticate := None;
              DeviceDiscovery.res_contentType := Some contentType;
              DeviceDiscovery.res_data := body |}
    end.

Definition deviceInfoXml : string :=
  "<DeviceInfo><model>DS-K1T342MFX-E1</model></DeviceInfo>".

(** A network on which the terminal is the only host that answers, at
    the address [terminal]. *)
Definition officeNet (terminal : string) : DeviceDiscovery.Network :=
  fun _ address _ =>
    if (address =? terminal)%string then terminalHost deviceInfoXml "application/xml"
    else fun _ _ => Throw "ETIMEDOUT".

(** A machine with one Ethernet address and a virtual adapter, the
    terminal moved from 192.168.1.10 to 192.168.1.20, and a [.env] file
    that cannot be written. *)
Definition office : Discovery.World :=
  {| Discovery.verifyNet := officeNet "192.168.1.20";
     Discovery.scanNet := officeNet "192.168.1.20";
     Discovery.cnonces := fun _ => ["0a4f113b0a4f113b"; "0a4f113b0a4f113c"];
     Discovery.settles := fun calls => List.length calls - 1;
     Discovery.networkInterfaces :=
       [ ("vEthernet (WSL)",
          [ {| Discovery.address := "172.20.0.1"; Discovery.family := "IPv4";
               Discovery.internal := false |} ]);
         ("lo",
          [ {| Discovery.address := "127.0.0.1"; Discovery.family := "IPv4";
               Discovery.internal := true |} ]);
         ("eth0",
          [ {| Discovery.address := "fe80::1"; Discovery.family := "IPv6";
               Discovery.internal := false |};
            {| Discovery.address := "192.168.1.37"; Discovery.family := "IPv4";
               Discovery.internal := false |} ]) ];
     Discovery.updateEnvFile := fun _ _ => Throw "EACCES" |}.

Definition officeCfg : Discovery.Cfg :=
  {| Discovery.cfg_host := "192.168.1.10";
     Discovery.cfg_port := 80;
     Discovery.cfg_username := "admin";
     Discovery.cfg_password := "secret";
     Discovery.cfg_useHttps := false;
     Discovery.cfg_deviceName := Some "DS-K1T342" |}.

(** The same surroundings with another behaviour of [updateEnvFile]. *)
Definition withUpdateEnvFile (world : Discovery.World)
  (update : string -> string -> Result unit) : Discovery.World :=
  {| Discovery.verifyNet := Discovery.verifyNet world;
     Discovery.scanNet := Discovery.scanNet world;
     Discovery.cnonces := Discovery.cnonces world;
     Discovery.settles := Discovery.settles world;
     Discovery.networkInterfaces := Discovery.networkInterfaces world;
     Discovery.updateEnvFile := update |}.

(** What [detectAllSubnets] finds on that machine. *)
Definition officeSubnets : list Discovery.Subnet :=
  [ {| Discovery.name := "eth0"; Discovery.sub_address := "192.168.1.37";
       Discovery.subnet := "192.168.1" |};
    {| Discovery.name := "vEthernet (WSL)"; Discovery.sub_address := "172.20.0.1";
       Discovery.subnet := "172.20.0" |} ].

Definition movedTerminal : Discovery.DiscoveryResult :=
  {| Discovery.ip := "192.168.1.20";
     Discovery.changed := true;
     Discovery.info := modelOnly "DS-K1T342MFX-E1" deviceInfoXml |}.

(** *** The .env file *)

(** Every character of [text] satisfies [p]. *)
Definition everyOf (p : ascii -> bool) (text : string) : Prop :=
  Forall (fun c => p c = true) (list_ascii_of_string text).

(** A text of ASCII characters only. *)
Definition isAscii (text : string) : bool :=
  forallb (fun c => (nat_of_ascii c <? 128)%nat) (list_ascii_of_string text).

(** A letter, a digit or an underscore. *)
Definition isWord (c : ascii) : bool :=
  let n := nat_of_ascii c in
  (Js.isDigit c || ((65 <=? n) && (n <=? 90)) || ((97 <=? n) && (n <=? 122))
   || (n =? 95))%nat.

(** A key that the pattern takes literally: word characters, at least
    one. *)
Definition isName (key : string) : bool :=
  match key with
  | EmptyString => false
  | _ => forallb isWord (list_ascii_of_string key)
  end.






(** A [.env] file with two keys and a comment. *)
Definition envText : string :=
  "TERMINAL_PORT=80" ++ EnvFile.nl
  ++ "TERMINAL_HOST = 10.0.0.5" ++ EnvFile.nl
  ++ "# TERMINAL_HOST=10.0.0.9" ++ EnvFile.nl.

(** A file that is there, holds a text and can be written. *)
Definition fileWith (text : string) : EnvFile.Fs :=
  {| EnvFile.existsSync := true;
     EnvFile.readFileSync := Ok text;
     EnvFile.writeFileSync := fun _ => Ok tt |}.

(** *** The range of the day *)

(** The options with which [main] asks for the events of the day. *)
Definition dayQuery (now : Index.Today) (pageSize : Z) (fetchAllPages : bool)
  : HikvisionClient.Options :=
  {| HikvisionClient.opt_startTime := Some (Index.startTime (Index.getTodayRange now));
     HikvisionClient.opt_endTime := Some (Index.endTime (Index.getTodayRange now));
     HikvisionClient.opt_maxResults := Some pageSize;
     HikvisionClient.opt_allPages := Some fetchAllPages |}.

(** A text of [n] decimal digits. *)
Definition digitsOnly (n : nat) (text : string) : bool :=
  (String.length text =? n)%nat && forallb Js.isDigit (list_ascii_of_string text).

(* ================================================================== *)
(** ** Texts                                                            *)
(* ================================================================== *)

Lemma string_app_nil_r (s : string) : s ++ "" = s.
Proof. induction s; cbn; congruence. Qed.

Lemma string_app_assoc (a b c : string) : (a ++ b) ++ c = a ++ (b ++ c).
Proof. induction a; cbn; congruence. Qed.

Lemma string_length_app (a b : string) :
  String.length (a ++ b) = String.length a + String.length b.
Proof. induction a as [|c a IH]; cbn; [reflexivity|now rewrite IH]. Qed.


Lemma isName_chars (key : string) :
  isName key = true -> key <> "" /\ everyOf isWord key.
Proof.
  unfold isName, everyOf. destruct key as [|c key]; [discriminate|].
  intros H. split; [discriminate|]. apply Forall_forall.
  apply (proj1 (forallb_forall _ _) H).
Qed.

(** A word character is none of the characters that mean something in
    a regular expression, and no bracket of a tag. *)
Lemma isWord_literal (c : ascii) :
  isWord c = true -> Ascii.eqb c "<" = false /\ Ascii.eqb c ">" = false.
Proof.
  destruct c as [[] [] [] [] [] [] [] []]; vm_compute; intros H;
    first [discriminate H | repeat split].
Qed.

Lemma isName_no_bracket (tag : string) :
  isName tag = true -> noneOf (fun c => Ascii.eqb c "<") tag.
Proof.
  intros H. destruct (isName_chars tag H) as [_ Hk]. unfold noneOf, everyOf in *.
  eapply Forall_impl; [|exact Hk]. cbn beta. intros c Hc. apply (isWord_literal c Hc).
Qed.

(* ================================================================== *)
(** ** MD5 test vectors                                                 *)
(* ================================================================== *)

Example md5_empty : MD5.md5 "" = "d41d8cd98f00b204e9800998ecf8427e".
Proof. vm_compute. reflexivity. Qed.

Example md5_abc : MD5.md5 "abc" = "900150983cd24fb0d6963f7d28e17f72".
Proof. vm_compute. reflexivity. Qed.

Example md5_two_blocks :
  MD5.md5 "The quick brown fox jumps over the lazy dog. The quick brown fox jumps over the lazy dog!"
  = "16da7ba8b62f936a631d95e17cb477f1".
Proof. vm_compute. reflexivity. Qed.

(* ================================================================== *)
(** ** Digest authentication                                            *)
(* ================================================================== *)

(** The test vector of RFC 2617: the response read back from the header
    is the one the RFC prints. *)
Example rfc2617_vector :
  DeviceDiscovery.digestParam
    (DeviceDiscovery.buildDigestAuth "GET" "/dir/index.html" "Mufasa"
       "Circle Of Life" auth_challenge "0a4f113b")
    "response"
  = "6629fae49393a05397450978507c4ef1".
Proof. vm_compute. reflexivity. Qed.

Lemma qop_branch (qop : string) (A : Type) (x y : A) :
  (if (qop =? "auth") || (qop =? "auth-int") then x else y)
  = if Rfc.qopHandled qop then x else y.
Proof. reflexivity. Qed.

(** C5, as the sources have it. For every challenge whose [qop]
    parameter reads [auth] or [auth-int], both copies of
    [buildDigestAuth] emit [response = MD5(HA1:nonce:00000001:cnonce:qop:HA2)]
    followed by the [qop], [nc] and [cnonce] parameters; for every other
    challenge (no [qop], or any other value of it) they emit
    [response = MD5(HA1:nonce:HA2)] and no such parameters. [HA1] is
    [MD5(username:realm:password)], or [MD5(MD5(username:realm:password):nonce:)]
    when the algorithm reads MD5-sess in any case; [HA2] is
    [MD5(method:uri)], the client's copy writing the method in upper case
    first. *)
Theorem buildDigestAuth_response
  (method uri username password challenge cnonce : string) :
  let realm := DeviceDiscovery.digestParam challenge "realm" in
  let nonce := DeviceDiscovery.digestParam challenge "nonce" in
  let qop := DeviceDiscovery.digestParam challenge "qop" in
  let opaque := DeviceDiscovery.digestParam challenge "opaque" in
  let algo := Js.orElse (DeviceDiscovery.digestParam challenge "algorithm") "MD5" in
  let ha1 := Rfc.HA1 (Js.toUpperCase algo =? "MD5-SESS") username realm password nonce in
  let emitted (ha2 : string) :=
    if Rfc.qopHandled qop
    then digestHeader username realm nonce uri algo
           (Rfc.responseQop ha1 nonce cnonce qop ha2) opaque (Rfc.qopParams qop cnonce)
    else digestHeader username realm nonce uri algo
           (Rfc.responsePlain ha1 nonce ha2) opaque "" in
  DeviceDiscovery.buildDigestAuth method uri username password challenge cnonce
    = emitted (Rfc.HA2 method uri)
  /\ HikvisionClient.buildDigestAuth method uri username password challenge cnonce
    = emitted (Rfc.HA2 (Js.toUpperCase method) uri).
Proof.
  intros realm nonce qop opaque algo ha1 emitted.
  unfold DeviceDiscovery.buildDigestAuth, HikvisionClient.buildDigestAuth.
  change (HikvisionClient.digestParam challenge) with (DeviceDiscovery.digestParam challenge).
  fold realm nonce qop opaque. fold algo.
  subst emitted ha1. cbv beta.
  unfold Rfc.HA1, Rfc.A1, Rfc.HA2, Rfc.responseQop, Rfc.responsePlain,
    Rfc.qopParams, Rfc.nc.
  rewrite !qop_branch.
  destruct (Rfc.qopHandled qop), (Js.toUpperCase algo =? "MD5-SESS"); split; reflexivity.
Qed.

(** C5 as stated fails: the challenge of RFC 2617 carries a [qop] value,
    [auth,auth-int], and the response emitted for it is the one without
    [qop], not [MD5(HA1:nonce:nc:cnonce:qop:HA2)]. *)
Lemma buildDigestAuth_qop_list_counterexample :
  let challenge := rfc2617_challenge in
  let cnonce := "0a4f113b" in
  let header :=
    DeviceDiscovery.buildDigestAuth "GET" "/dir/index.html" "Mufasa"
      "Circle Of Life" challenge cnonce in
  let qop := DeviceDiscovery.digestParam challenge "qop" in
  let nonce := DeviceDiscovery.digestParam challenge "nonce" in
  let ha1 := Rfc.HA1 false "Mufasa" (DeviceDiscovery.digestParam challenge "realm")
               "Circle Of Life" nonce in
  let ha2 := Rfc.HA2 "GET" "/dir/index.html" in
  qop = "auth,auth-int"
  /\ DeviceDiscovery.digestParam header "response" = Rfc.responsePlain ha1 nonce ha2
  /\ DeviceDiscovery.digestParam header "response"
     <> Rfc.responseQop ha1 nonce cnonce qop ha2
  /\ HikvisionClient.buildDigestAuth "GET" "/dir/index.html" "Mufasa"
       "Circle Of Life" challenge cnonce = header.
Proof.
  vm_compute. repeat split; try reflexivity. discriminate.
Qed.

(* ================================================================== *)
(** ** The device probe                                                 *)
(* ================================================================== *)

Section ProbeFacts.

Variable JSON_parse : string -> Result DeviceDiscovery.json.
Variable parseXml : option (string -> Result DeviceDiscovery.json).

Lemma probeAttempts_total (host : DeviceDiscovery.Host) (username password : string)
  (attempts : list (string * string)) :
  forall (cnonces : list string) (sent : list DeviceDiscovery.Request),
  exists r sent',
    DeviceDiscovery.probeAttempts JSON_parse parseXml host username password
      attempts cnonces sent = (Ok r, sent').
Proof.
  induction attempts as [|[reqPath accept] rest IH]; intros cnonces sent; cbn.
  - eauto.
  - destruct (DeviceDiscovery.attemptBody _ _ _ _ _ _ _ _ _) as [r sent1].
    destruct r as [[|info]|e]; cbn; eauto.
Qed.

(** A host that answers nothing: both request variants are tried, each
    fails inside its [try], and the probe says "no identity". *)
Lemma probeDevice_dead_host (net : DeviceDiscovery.Network) (cnonces : list string)
  (ip : string) (port : Z) (username password : string) (useHttps : bool) :
  (forall sent req, isOk (net useHttps ip port sent req) = false) ->
  exists req1 req2,
    DeviceDiscovery.probeDevice JSON_parse parseXml net cnonces ip port
      username password useHttps = (Ok None, [req1; req2]).
Proof.
  intros dead. unfold DeviceDiscovery.probeDevice. cbn.
  unfold DeviceDiscovery.attemptBody.
  pose proof (dead [] {| DeviceDiscovery.req_path := "/ISAPI/System/deviceInfo?format=json";
                         DeviceDiscovery.req_accept := "application/json";
                         DeviceDiscovery.req_authorization := None |}) as d1.
  cbn in *. destruct (net useHttps ip port [] _) as [?|e1]; [discriminate|]. cbn.
  match goal with |- context [net useHttps ip port ?s ?r] =>
    pose proof (dead s r) as d2; destruct (net useHttps ip port s r) as [?|e2];
    [discriminate|] end.
  cbn. eauto.
Qed.

End ProbeFacts.

(** C6. Whatever the host at the address does (no answer, refused or
    failed connection, an answer that is no challenge, a status other
    than 200, a body no parser accepts) and whatever the parsers do,
    [probeDevice] returns a device identity or [null]; it never throws. *)
Theorem probeDevice_never_throws
  (JSON_parse : string -> Result DeviceDiscovery.json)
  (parseXml : option (string -> Result DeviceDiscovery.json))
  (net : DeviceDiscovery.Network) (cnonces : list string)
  (ip : string) (port : Z) (username password : string) (useHttps : bool) :
  exists (identity : option DeviceDiscovery.DeviceInfo)
         (sent : list DeviceDiscovery.Request),
    DeviceDiscovery.probeDevice JSON_parse parseXml net cnonces ip port
      username password useHttps = (Ok identity, sent).
Proof.
  unfold DeviceDiscovery.probeDevice. apply probeAttempts_total.
Qed.

(* ================================================================== *)
(** ** Timestamps sent to the device                                    *)
(* ================================================================== *)

Example stripTz_bare : HikvisionClient.stripTz "2024-11-20T14:35:07" = "2024-11-20T14:35:07".
Proof. reflexivity. Qed.

Example stripTz_zulu : HikvisionClient.stripTz "2024-11-20T14:35:07.250Z" = "2024-11-20T14:35:07".
Proof. reflexivity. Qed.

Example stripTz_east : HikvisionClient.stripTz "2024-11-20T14:35:07+03:00" = "2024-11-20T14:35:07".
Proof. reflexivity. Qed.

(** *** What [#stripTz] does remove *)

Lemma dropFinalZ_snoc_Z (text : string) : Re.dropFinalZ (text ++ "Z") = text.
Proof.
  induction text as [|c text IH]; [reflexivity|].
  cbn [append Re.dropFinalZ]. rewrite IH.
  destruct text; reflexivity.
Qed.

Lemma dropFinalZ_snoc_other (text : string) (c : ascii) :
  Ascii.eqb c "Z" = false ->
  Re.dropFinalZ (text ++ String c "") = text ++ String c "".
Proof.
  intros Hc. induction text as [|d text IH]; cbn [append Re.dropFinalZ].
  - now rewrite Hc.
  - rewrite IH. destruct text; reflexivity.
Qed.

Lemma dropFinalZ_dot (text tail : string) :
  Re.dropFinalZ (text ++ String "." tail) = text ++ String "." (Re.dropFinalZ tail).
Proof.
  induction text as [|d text IH]; cbn [append Re.dropFinalZ].
  - destruct tail; reflexivity.
  - rewrite IH. destruct text; reflexivity.
Qed.

Lemma isHHMM_dot (text tail : string) : Re.isHHMM (text ++ String "." tail) = false.
Proof.
  destruct text as [|a [|b [|c [|d [|e [|f text]]]]]]; cbn [append];
    destruct tail as [|t1 [|t2 [|t3 [|t4 [|t5 tail]]]]];
    cbn; repeat first [rewrite andb_false_r | progress cbn]; reflexivity.
Qed.

Lemma dropFinalOffset_none (sign : ascii -> bool) (text : string) :
  noneOf sign text -> Re.dropFinalOffset sign text = text.
Proof.
  unfold noneOf. induction text as [|c text IH]; cbn; intros H; [reflexivity|].
  inversion H as [|? ? Hc Hrest]; subst. rewrite Hc. cbn. now rewrite IH.
Qed.

Lemma dropFinalOffset_offset (sign : ascii -> bool) (text hhmm : string) (c : ascii) :
  noneOf sign text -> sign c = true -> Re.isHHMM hhmm = true ->
  Re.dropFinalOffset sign (text ++ String c hhmm) = text.
Proof.
  unfold noneOf. intros H Hc Hh. induction text as [|d text IH]; cbn.
  - now rewrite Hc, Hh.
  - inversion H as [|? ? Hd Hrest]; subst. rewrite Hd. cbn. now rewrite IH.
Qed.

Lemma dropFinalOffset_dot (sign : ascii -> bool) (text tail : string) :
  noneOf sign text -> sign "."%char = false ->
  exists tail', Re.dropFinalOffset sign (text ++ String "." tail) = text ++ String "." tail'.
Proof.
  unfold noneOf. intros H Hdot. induction text as [|d text IH]; cbn.
  - rewrite Hdot. cbn. eauto.
  - inversion H as [|? ? Hd Hrest]; subst. rewrite Hd. cbn.
    destruct (IH Hrest) as [tail' E]. rewrite E. eauto.
Qed.

Lemma beforeFirst_none (sep : ascii) (text : string) :
  noneOf (fun c => Ascii.eqb c sep) text -> Js.beforeFirst sep text = text.
Proof.
  unfold noneOf. induction text as [|c text IH]; cbn; intros H; [reflexivity|].
  inversion H as [|? ? Hc Hrest]; subst. rewrite Hc. now rewrite IH.
Qed.

Lemma beforeFirst_sep (sep : ascii) (text tail : string) :
  noneOf (fun c => Ascii.eqb c sep) text ->
  Js.beforeFirst sep (text ++ String sep tail) = text.
Proof.
  unfold noneOf. induction text as [|c text IH]; cbn; intros H.
  - now rewrite Ascii.eqb_refl.
  - inversion H as [|? ? Hc Hrest]; subst. rewrite Hc. now rewrite IH.
Qed.

Lemma digit_not (c other : ascii) :
  Js.isDigit c = true -> Js.isDigit other = false -> Ascii.eqb c other = false.
Proof.
  intros Hc Ho. destruct (Ascii.eqb_spec c other) as [->|]; congruence.
Qed.

(** A text of the bare local form has no plus sign and no dot, and ends
    in a digit. *)
Lemma isBareLocal_chars (text : string) :
  isBareLocal text = true ->
  noneOf (fun c => Ascii.eqb c "+") text
  /\ noneOf (fun c => Ascii.eqb c ".") text
  /\ exists front last, text = front ++ String last "" /\ Ascii.eqb last "Z" = false.
Proof.
  unfold isBareLocal, noneOf.
  rewrite <- (string_of_list_ascii_of_string text).
  generalize (list_ascii_of_string text) as l. intros l.
  rewrite !list_ascii_of_string_of_list_ascii.
  destruct l as [|y1 l]; [discriminate|].
  do 18 (destruct l as [|? l]; [discriminate|]).
  destruct l; [|discriminate].
  cbn [forallb]. intros H.
  repeat match goal with
         | E : (_ && _)%bool = true |- _ => apply andb_prop in E; destruct E
         end.
  repeat match goal with
         | E : Ascii.eqb _ _ = true |- _ => apply Ascii.eqb_eq in E; subst
         end.
  split; [|split].
  - repeat constructor; try reflexivity; apply digit_not; (assumption || reflexivity).
  - repeat constructor; try reflexivity; apply digit_not; (assumption || reflexivity).
  - match goal with
    | |- exists front last, string_of_list_ascii [?a1; ?a2; ?a3; ?a4; ?a5; ?a6; ?a7; ?a8;
           ?a9; ?a10; ?a11; ?a12; ?a13; ?a14; ?a15; ?a16; ?a17; ?a18; ?a19] = _ /\ _ =>
        exists (string_of_list_ascii [a1; a2; a3; a4; a5; a6; a7; a8; a9; a10; a11; a12;
                                      a13; a14; a15; a16; a17; a18]), a19
    end.
    split; [reflexivity|]. apply digit_not; (assumption || reflexivity).
Qed.

(** X21. On a text of the bare local form [#stripTz] changes nothing,
    and it takes off a final [Z], a final [+HH:MM] and everything from
    the first dot on. *)
Lemma stripTz_removes (text : string) :
  isBareLocal text = true ->
  HikvisionClient.stripTz text = text
  /\ HikvisionClient.stripTz (text ++ "Z") = text
  /\ (forall hhmm, Re.isHHMM hhmm = true ->
        HikvisionClient.stripTz (text ++ String "+" hhmm) = text)
  /\ (forall tail, HikvisionClient.stripTz (text ++ String "." tail) = text).
Proof.
  intros H. apply isBareLocal_chars in H.
  destruct H as (Hplus & Hdot & front & last & Hlast & HZ).
  unfold HikvisionClient.stripTz. split; [|split; [|split]].
  - rewrite Hlast, dropFinalZ_snoc_other, <- Hlast by assumption.
    rewrite dropFinalOffset_none by assumption. apply beforeFirst_none, Hdot.
  - rewrite dropFinalZ_snoc_Z.
    rewrite dropFinalOffset_none by assumption. apply beforeFirst_none, Hdot.
  - intros hhmm Hh.
    assert (exists front' last', text ++ String "+" hhmm = front' ++ String last' ""
              /\ Ascii.eqb last' "Z" = false) as (front' & last' & E & HZ').
    { do 6 (destruct hhmm as [|? hhmm]; try discriminate).
      cbn [Re.isHHMM] in Hh.
      repeat match goal with
             | E : (_ && _)%bool = true |- _ => apply andb_prop in E; destruct E
             end.
      match goal with
      | |- exists _ _, text ++ String ?p (String ?a (String ?b (String ?c (String ?d
             (String ?e ""))))) = _ /\ _ =>
          exists (text ++ String p (String a (String b (String c (String d "")))))%string, e
      end.
      split.
      - clear. induction text as [|x text IH]; cbn; [reflexivity|]. now rewrite IH.
      - apply digit_not; (assumption || reflexivity). }
    rewrite E, dropFinalZ_snoc_other, <- E by assumption.
    rewrite dropFinalOffset_offset by (assumption || reflexivity).
    apply beforeFirst_none, Hdot.
  - intros tail. rewrite dropFinalZ_dot.
    destruct (dropFinalOffset_dot (fun c => Ascii.eqb c "+") text (Re.dropFinalZ tail)
                Hplus eq_refl) as [tail' E].
    rewrite E. apply beforeFirst_sep, Hdot.
Qed.

(** C8 fails on the code for an offset west of Greenwich: [#stripTz]
    removes a final [+HH:MM] only, so a final [-HH:MM] reaches the
    payload, which is then not of the bare local form. The time parser
    of the attendance processor removes both signs. *)
Theorem stripTz_keeps_negative_offset :
  let sent :=
    HikvisionClient.buildPayload "2024-11-20T00:00:00-05:00"
      "2024-11-20T23:59:59.999-05:00" 100 0 in
  HikvisionClient.startTime sent = "2024-11-20T00:00:00-05:00"
  /\ HikvisionClient.endTime sent = "2024-11-20T23:59:59"
  /\ isBareLocal (HikvisionClient.startTime sent) = false
  /\ Re.dropFinalOffset AttendanceProcessor.isSign "2024-11-20T00:00:00-05:00"
     = "2024-11-20T00:00:00".
Proof. vm_compute. repeat split; reflexivity. Qed.

(* ================================================================== *)
(** ** Pagination of the event log                                      *)
(* ================================================================== *)

Section Paging.

Import HikvisionClient.

Variable dev : Device.
Variable mk : nat -> Payload.
Variable total : Z.

Lemma remainingPages_paging (events : list RawEntry) (sent : list Payload) :
  Paging dev mk total events sent (remainingPages dev mk total events sent).
Proof.
  funelim (remainingPages dev mk total events sent);
    first
      [ solve [apply paging_complete; lia]
      | solve [eapply paging_failed; eassumption]
      | solve [eapply paging_exhausted; eassumption]
      | match goal with
        | E : infoListOf ?page = _ :: _, IH : Paging _ _ _ _ _ _ |- _ =>
            eapply paging_more;
            [ eassumption | eassumption | rewrite E; discriminate
            | rewrite E; exact IH ]
        end ].
Qed.

(** The number of requests of a run is bounded by what was missing when
    it started, whatever the device answers. *)
Lemma Paging_requests events sent out :
  Paging dev mk total events sent out ->
  (List.length (snd out) <= List.length sent
     + Z.to_nat (total - Z.of_nat (List.length events)))%nat.
Proof.
  induction 1 as [events sent Hc|events sent e Hlt He|events sent page Hlt Hp Hb
                 |events sent page out Hlt Hp Hb Hrun IH]; cbn [snd].
  - lia.
  - rewrite length_app; cbn [List.length]. lia.
  - rewrite length_app; cbn [List.length]. lia.
  - rewrite !length_app in IH; cbn [List.length] in IH.
    destruct (infoListOf page) as [|b batch]; [congruence|].
    cbn [List.length] in IH. lia.
Qed.

(** When no page brings more entries than the declared total leaves
    outstanding at its offset, the count never passes the total. *)
Lemma Paging_at_most_total events sent out :
  (forall sent' n page,
     (Z.of_nat n < total)%Z -> dev sent' (mk n) = Ok page ->
     (Z.of_nat (n + List.length (infoListOf page)) <= total)%Z) ->
  Paging dev mk total events sent out ->
  (Z.of_nat (List.length events) <= total)%Z ->
  match fst out with
  | Ok result => (Z.of_nat (List.length result) <= total)%Z
  | Throw e => exists sent' request, dev sent' request = Throw e
  end.
Proof.
  intros fits. induction 1 as [events sent Hc|events sent e Hlt He|events sent page Hlt Hp Hb
                 |events sent page out Hlt Hp Hb Hrun IH]; intros Hle; cbn [fst].
  - assumption.
  - eauto.
  - assumption.
  - apply IH. rewrite length_app. apply (fits _ _ _ Hlt Hp).
Qed.

(** What a run returns is what it started from followed by the pages it
    received, and before the last page was appended the count was below
    the total. *)
Lemma Paging_overshoot events sent out result :
  Paging dev mk total events sent out ->
  fst out = Ok result ->
  result = events
  \/ exists before batch, result = (before ++ batch)%list
       /\ (Z.of_nat (List.length before) < total)%Z.
Proof.
  induction 1 as [events sent Hc|events sent e Hlt He|events sent page Hlt Hp Hb
                 |events sent page out Hlt Hp Hb Hrun IH]; cbn [fst]; intros E.
  - left. congruence.
  - discriminate.
  - left. congruence.
  - destruct (IH E) as [->|(before & batch & -> & Hb')].
    + right. exists events, (infoListOf page). auto.
    + right. eauto.
Qed.

End Paging.

Lemma getAttendanceEvents_collect now dev opts :
  HikvisionClient.getAttendanceEvents now dev opts
  = (mapOk (List.map (HikvisionClient.normalise now))
       (fst (HikvisionClient.collectEvents dev opts)),
     snd (HikvisionClient.collectEvents dev opts)).
Proof.
  unfold HikvisionClient.getAttendanceEvents.
  destruct (HikvisionClient.collectEvents dev opts) as [[events|e] sent]; reflexivity.
Qed.

(** With both times given and all pages asked for, [collectEvents] is
    the first request followed by a run of the paging loop. *)
Lemma collectEvents_run dev start_ end_ maxResults_ allPages first :
  Js.truthy start_ = true -> Js.truthy end_ = true ->
  nullish allPages true = true ->
  let opts := {| HikvisionClient.opt_startTime := Some start_;
                 HikvisionClient.opt_endTime := Some end_;
                 HikvisionClient.opt_maxResults := maxResults_;
                 HikvisionClient.opt_allPages := allPages |} in
  let mk := HikvisionClient.buildPayload start_ end_ (nullish maxResults_ 100%Z) in
  dev [] (mk 0) = Ok first ->
  Paging dev mk (HikvisionClient.totalOf first) (HikvisionClient.infoListOf first)
    [mk 0] (HikvisionClient.collectEvents dev opts).
Proof.
  intros Hs He Hall opts mk Hfirst.
  unfold HikvisionClient.collectEvents, opts. cbn [HikvisionClient.opt_maxResults
    HikvisionClient.opt_allPages]. rewrite Hs, He. cbn [negb orb].
  fold mk. rewrite Hfirst, Hall. cbn [andb].
  destruct (Z.ltb_spec (Z.of_nat (List.length (HikvisionClient.infoListOf first)))
              (HikvisionClient.totalOf first)) as [Hlt|Hge].
  - apply remainingPages_paging.
  - apply paging_complete. assumption.
Qed.

(** A page cap of two, five entries declared and stored: pages at the
    offsets 0, 2 and 4. *)
Example paging_capped :
  let '(result, sent) :=
    HikvisionClient.getAttendanceEvents "now" (cappedDevice fiveEntries 5 2) (today None) in
  mapOk (@List.length _) result = Ok 5
  /\ List.map HikvisionClient.searchResultPosition sent = [0; 2; 4].
Proof. vm_compute. split; reflexivity. Qed.

(** Seven declared, five stored: the page at offset 5 is empty and ends
    the loop. *)
Example paging_misreported_total :
  let '(result, sent) :=
    HikvisionClient.getAttendanceEvents "now" (cappedDevice fiveEntries 7 2) (today None) in
  mapOk (@List.length _) result = Ok 5
  /\ List.map HikvisionClient.searchResultPosition sent = [0; 2; 4; 5].
Proof. vm_compute. split; reflexivity. Qed.

Section AnyTotalFacts.

Import HikvisionClient.

Variable dev : AnyTotal.Device.
Variable mk : nat -> Payload.


End AnyTotalFacts.

(** [AnyTotal] on a terminal that declares integers is the model of the
    integer totals, whenever the passes suffice. *)
Lemma remainingPages_integer (dev : HikvisionClient.Device)
  (mk : nat -> HikvisionClient.Payload) (total : Z) events sent out :
  Paging dev mk total events sent out ->
  forall passes,
  (Z.to_nat (total - Z.of_nat (List.length events)) <= passes)%nat ->
  HikvisionClient.AnyTotal.remainingPages passes
    (HikvisionClient.AnyTotal.integerDevice dev) mk
    (HikvisionClient.AnyTotal.Finite total) events sent
  = Some out.
Proof.
  assert (forall page, HikvisionClient.AnyTotal.infoListOf
                         (HikvisionClient.AnyTotal.ofInteger page)
                       = HikvisionClient.infoListOf page) as Hlist
    by (intros [page|]; reflexivity).
  induction 1 as [events sent Hc|events sent e Hlt He|events sent page Hlt Hp Hb
                 |events sent page out Hlt Hp Hb Hrun IH]; intros passes Hpasses.
  - assert ((Z.of_nat (List.length events) <? total)%Z = false) as E
      by (apply Z.ltb_ge; lia).
    destruct passes; cbn [HikvisionClient.AnyTotal.remainingPages
                          HikvisionClient.AnyTotal.below]; now rewrite E.
  - destruct passes as [|passes]; [lia|].
    cbn [HikvisionClient.AnyTotal.remainingPages HikvisionClient.AnyTotal.below].
    replace (Z.of_nat (List.length events) <? total)%Z with true
      by (symmetry; apply Z.ltb_lt; lia).
    unfold HikvisionClient.AnyTotal.integerDevice. now rewrite He.
  - destruct passes as [|passes]; [lia|].
    cbn [HikvisionClient.AnyTotal.remainingPages HikvisionClient.AnyTotal.below].
    replace (Z.of_nat (List.length events) <? total)%Z with true
      by (symmetry; apply Z.ltb_lt; lia).
    unfold HikvisionClient.AnyTotal.integerDevice. now rewrite Hp, Hlist, Hb.
  - destruct passes as [|passes]; [lia|].
    cbn [HikvisionClient.AnyTotal.remainingPages HikvisionClient.AnyTotal.below].
    replace (Z.of_nat (List.length events) <? total)%Z with true
      by (symmetry; apply Z.ltb_lt; lia).
    unfold HikvisionClient.AnyTotal.integerDevice at 1. rewrite Hp, Hlist.
    destruct (HikvisionClient.infoListOf page) as [|b batch] eqn:E; [congruence|].
    apply IH. rewrite length_app. cbn [List.length]. lia.
Qed.

Lemma getAttendanceEvents_integer (now : string) (dev : HikvisionClient.Device)
  (opts : HikvisionClient.Options) :
  exists enough, forall passes, (enough <= passes)%nat ->
    HikvisionClient.AnyTotal.getAttendanceEvents passes now
      (HikvisionClient.AnyTotal.integerDevice dev) opts
    = Some (HikvisionClient.getAttendanceEvents now dev opts).
Proof.
  unfold HikvisionClient.AnyTotal.getAttendanceEvents, HikvisionClient.getAttendanceEvents,
    HikvisionClient.AnyTotal.collectEvents, HikvisionClient.collectEvents.
  destruct opts as [[start_|] [end_|] maxResults_ allPages]; try (exists 0; reflexivity).
  destruct (negb (Js.truthy start_) || negb (Js.truthy end_))%bool;
    [exists 0; reflexivity|].
  cbv zeta. cbn [HikvisionClient.opt_maxResults HikvisionClient.opt_allPages].
  set (mk := HikvisionClient.buildPayload start_ end_ (nullish maxResults_ 100%Z)).
  unfold HikvisionClient.AnyTotal.integerDevice at 1.
  destruct (dev [] (mk 0)) as [first|e]; [|exists 0; reflexivity].
  assert (HikvisionClient.AnyTotal.infoListOf (HikvisionClient.AnyTotal.ofInteger first)
          = HikvisionClient.infoListOf first) as -> by (destruct first; reflexivity).
  assert (HikvisionClient.AnyTotal.totalOf (HikvisionClient.AnyTotal.ofInteger first)
          = HikvisionClient.AnyTotal.Finite (HikvisionClient.totalOf first)) as ->.
  { destruct first as [[[z|] l]|]; reflexivity. }
  cbn [HikvisionClient.AnyTotal.below].
  destruct (nullish allPages true
            && (Z.of_nat (List.length (HikvisionClient.infoListOf first))
                <? HikvisionClient.totalOf first)%Z)%bool; [|exists 0; reflexivity].
  exists (Z.to_nat (HikvisionClient.totalOf first
                    - Z.of_nat (List.length (HikvisionClient.infoListOf first)))).
  intros passes Hp.
  rewrite (remainingPages_integer dev mk _ _ _ _
             (remainingPages_paging dev mk _ _ _) passes Hp).
  destruct (HikvisionClient.remainingPages dev mk _ _ _) as [[events|e] sent]; reflexivity.
Qed.




(** With six matches declared the same terminal is asked at the offsets
    0, 2, 4 and 5, and the empty page at 5 ends the call. *)
Example paging_any_total_empty_page :
  HikvisionClient.AnyTotal.getAttendanceEvents 4 "now"
    (HikvisionClient.AnyTotal.integerDevice (cappedDevice fiveEntries 6 2)) (today None)
  = Some (Ok (List.map (HikvisionClient.normalise "now") fiveEntries),
          List.map (HikvisionClient.buildPayload "2024-11-20T00:00:00"
                      "2024-11-20T23:59:59" 100) [0; 2; 4; 5]).
Proof. vm_compute. reflexivity. Qed.

(** C1 as stated fails: four matches declared, three entries on the
    first page and three more on the second give six records. *)
Lemma getAttendanceEvents_overshoot_counterexample :
  let '(result, sent) :=
    HikvisionClient.getAttendanceEvents "now" repeatingDevice (today (Some true)) in
  mapOk (@List.length _) result = Ok 6
  /\ List.map HikvisionClient.searchResultPosition sent = [0; 3]
  /\ mapOk HikvisionClient.totalOf (repeatingDevice [] (HikvisionClient.buildPayload
       "2024-11-20T00:00:00" "2024-11-20T23:59:59" 100 0)) = Ok 4%Z.
Proof. vm_compute. repeat split; reflexivity. Qed.

(** C1, amended. With both times given and all pages asked for, when the
    first page holds no more entries than the total it declares and no
    later page brings more entries than that total leaves outstanding at
    its offset, [getAttendanceEvents] returns at most that many records,
    or throws the error of a request that failed. *)
Theorem getAttendanceEvents_at_most_total
  (now : string) (dev : HikvisionClient.Device)
  (start_ end_ : string) (maxResults_ : option Z) (allPages : option bool)
  (first : option HikvisionClient.AcsEvent) :
  Js.truthy start_ = true -> Js.truthy end_ = true ->
  nullish allPages true = true ->
  let opts := {| HikvisionClient.opt_startTime := Some start_;
                 HikvisionClient.opt_endTime := Some end_;
                 HikvisionClient.opt_maxResults := maxResults_;
                 HikvisionClient.opt_allPages := allPages |} in
  let mk := HikvisionClient.buildPayload start_ end_ (nullish maxResults_ 100%Z) in
  let total := HikvisionClient.totalOf first in
  dev [] (mk 0) = Ok first ->
  (Z.of_nat (List.length (HikvisionClient.infoListOf first)) <= total)%Z ->
  (forall sent n page,
     (Z.of_nat n < total)%Z -> dev sent (mk n) = Ok page ->
     (Z.of_nat (n + List.length (HikvisionClient.infoListOf page)) <= total)%Z) ->
  match fst (HikvisionClient.getAttendanceEvents now dev opts) with
  | Ok records => (Z.of_nat (List.length records) <= total)%Z
  | Throw e => exists sent request, dev sent request = Throw e
  end.
Proof.
  intros Hs He Hall opts mk total Hfirst Hle fits.
  rewrite getAttendanceEvents_collect. cbn [fst].
  pose proof (collectEvents_run dev start_ end_ maxResults_ allPages first
                Hs He Hall Hfirst) as Hrun.
  fold opts mk total in Hrun.
  pose proof (Paging_at_most_total dev mk total _ _ _ fits Hrun Hle) as H.
  destruct (fst (HikvisionClient.collectEvents dev opts)) as [result|e]; cbn [mapOk].
  - rewrite length_map. exact H.
  - exact H.
Qed.

Lemma getAttendanceEvents_at_most_total_witness :
  (Z.of_nat (List.length (firstn 2 fiveEntries)) <= 5)%Z
  /\ match fst (HikvisionClient.getAttendanceEvents "now"
                  (cappedDevice fiveEntries 5 2) (today None)) with
     | Ok records => (Z.of_nat (List.length records) <= 5)%Z
     | Throw e => exists sent request, cappedDevice fiveEntries 5 2 sent request = Throw e
     end.
Proof.
  split; [vm_compute; discriminate|].
  refine (getAttendanceEvents_at_most_total "now" (cappedDevice fiveEntries 5 2)
            "2024-11-20T00:00:00" "2024-11-20T23:59:59" (Some 100%Z) None _
            eq_refl eq_refl eq_refl eq_refl _ _).
  - vm_compute; discriminate.
  - intros sent n page Hn E. injection E as <-. cbn in Hn |- *.
    destruct n as [|[|[|[|[|n]]]]]; cbn; lia.
Defined.

(* ================================================================== *)
(** ** The order of time texts                                          *)
(* ================================================================== *)

Lemma ascii_compare_N (a b : ascii) :
  Ascii.compare a b = N.compare (N_of_ascii a) (N_of_ascii b).
Proof. reflexivity. Qed.

Lemma notAfter_refl a : notAfter a a.
Proof.
  unfold notAfter, AttendanceProcessor.compareTimeStrings.
  induction a as [|c a IH]; cbn; [discriminate|].
  rewrite ascii_compare_N, N.compare_refl. exact IH.
Qed.

Lemma notAfter_trans a : forall b c, notAfter a b -> notAfter b c -> notAfter a c.
Proof.
  unfold notAfter, AttendanceProcessor.compareTimeStrings.
  induction a as [|x a IH]; intros [|y b] [|z c]; cbn; try congruence.
  rewrite !ascii_compare_N.
  destruct (N.compare_spec (N_of_ascii x) (N_of_ascii y)) as [E1|L1|G1];
    destruct (N.compare_spec (N_of_ascii y) (N_of_ascii z)) as [E2|L2|G2];
    destruct (N.compare_spec (N_of_ascii x) (N_of_ascii z)) as [E3|L3|G3];
    try congruence; try lia.
  apply IH.
Qed.

Lemma notAfter_total a b : notAfter a b \/ notAfter b a.
Proof.
  unfold notAfter, AttendanceProcessor.compareTimeStrings.
  rewrite (String.compare_antisym b a).
  destruct (String.compare a b); cbn; intuition congruence.
Qed.

(* ================================================================== *)
(** ** Sorting                                                          *)
(* ================================================================== *)

Section SortFacts.

Context {A : Type}.
Variable cmp : A -> A -> comparison.

Let le (x y : A) : Prop := cmp x y <> Gt.

Hypothesis le_trans : forall x y z, le x y -> le y z -> le x z.
Hypothesis le_total : forall x y, le x y \/ le y x.

Lemma insertSorted_In (x y : A) (l : list A) :
  In y (AttendanceProcessor.insertSorted cmp x l) <-> y = x \/ In y l.
Proof.
  induction l as [|z l IH]; cbn.
  - intuition.
  - destruct (cmp x z); cbn; rewrite ?IH; intuition.
Qed.

Lemma sort_In (y : A) (l : list A) : In y (AttendanceProcessor.sort cmp l) <-> In y l.
Proof.
  induction l as [|x l IH]; cbn; [tauto|].
  fold (AttendanceProcessor.sort cmp l).
  rewrite insertSorted_In, IH. intuition.
Qed.

Lemma insertSorted_sorted (x : A) (l : list A) :
  StronglySorted le l -> StronglySorted le (AttendanceProcessor.insertSorted cmp x l).
Proof.
  induction 1 as [|z l Hs IH Hz]; cbn.
  - repeat constructor.
  - destruct (cmp x z) eqn:E.
    + constructor; [constructor; assumption|].
      assert (le x z) as Hxz by (unfold le; congruence).
      constructor; [assumption|].
      eapply Forall_impl; [|exact Hz]. intros w Hw. eapply le_trans; eassumption.
    + constructor; [constructor; assumption|].
      assert (le x z) as Hxz by (unfold le; congruence).
      constructor; [assumption|].
      eapply Forall_impl; [|exact Hz]. intros w Hw. eapply le_trans; eassumption.
    + constructor; [assumption|].
      apply Forall_forall. intros w Hw. apply insertSorted_In in Hw.
      destruct Hw as [->|Hw].
      * destruct (le_total z x) as [H|H]; [assumption|]. unfold le in H. congruence.
      * rewrite Forall_forall in Hz. auto.
Qed.

Lemma sort_sorted (l : list A) : StronglySorted le (AttendanceProcessor.sort cmp l).
Proof.
  induction l as [|x l IH]; cbn; [constructor|].
  apply insertSorted_sorted. exact IH.
Qed.

Lemma filter_sorted (keep : A -> bool) (l : list A) :
  StronglySorted le l -> StronglySorted le (filter keep l).
Proof.
  induction 1 as [|z l Hs IH Hz]; cbn; [constructor|].
  destruct (keep z); [|assumption].
  constructor; [assumption|].
  apply Forall_forall. intros w Hw. apply filter_In in Hw.
  rewrite Forall_forall in Hz. apply Hz, Hw.
Qed.

Lemma lastOf_In (l : list A) (x : A) : AttendanceProcessor.lastOf l = Some x -> In x l.
Proof.
  unfold AttendanceProcessor.lastOf. destruct (rev l) as [|y r] eqn:E; [discriminate|].
  intros [= <-]. apply in_rev. rewrite E. now left.
Qed.

Lemma lastOf_None (l : list A) : AttendanceProcessor.lastOf l = None -> l = [].
Proof.
  unfold AttendanceProcessor.lastOf. destruct (rev l) as [|y r] eqn:E; [|discriminate].
  intros _. apply (f_equal (@rev A)) in E. rewrite rev_involutive in E. exact E.
Qed.

Lemma lastOf_greatest (l : list A) (x : A) :
  (forall y, le y y) ->
  StronglySorted le l -> AttendanceProcessor.lastOf l = Some x ->
  forall y, In y l -> le y x.
Proof.
  intros le_refl Hs. unfold AttendanceProcessor.lastOf.
  destruct (rev l) as [|z r] eqn:E; [discriminate|]. intros [= <-].
  apply (f_equal (@rev A)) in E. rewrite rev_involutive in E. cbn in E. subst l.
  induction (rev r) as [|w q IH]; cbn in *; intros y Hy.
  - destruct Hy as [->|[]]. apply le_refl.
  - inversion Hs as [|? ? Hq Hw]; subst. destruct Hy as [->|Hy].
    + rewrite Forall_forall in Hw. apply Hw, in_or_app. right. now left.
    + apply IH; assumption.
Qed.

Lemma head_least (x : A) (l : list A) :
  (forall y, le y y) ->
  StronglySorted le (x :: l) -> forall y, In y (x :: l) -> le x y.
Proof.
  intros le_refl Hs y [->|Hy]; [apply le_refl|].
  inversion Hs as [|? ? _ Hx]; subst. rewrite Forall_forall in Hx. auto.
Qed.

End SortFacts.

(* ================================================================== *)
(** ** Parsed device times                                              *)
(* ================================================================== *)

Lemma leftmost_Some {A : Type} (f : string -> option A) (text : string) (v : A) :
  Re.leftmost f text = Some v -> exists suffix, f suffix = Some v.
Proof.
  induction text as [|c text IH]; cbn.
  - destruct (f "") eqn:E; [intros [= <-]; eauto | discriminate].
  - destruct (f (String c text)) eqn:E; [intros [= <-]; eauto | exact IH].
Qed.

Lemma clockAt_shape (text hh mm ss : string) :
  Re.clockAt text = Some (hh, mm, ss) ->
  exists a b c d e f : ascii,
    Forall (fun x => Js.isDigit x = true) [a; b; c; d; e; f]
    /\ hh = String a (String b EmptyString)
    /\ mm = String c (String d EmptyString)
    /\ ss = String e (String f EmptyString).
Proof.
  unfold Re.clockAt.
  do 9 (destruct text as [|? text]; [discriminate|]).
  match goal with |- (if ?cond then _ else _) = _ -> _ => destruct cond eqn:E end;
    [|discriminate].
  intros [= <- <- <-].
  repeat (apply andb_prop in E; destruct E as [E ?]).
  do 6 eexists. split; [|repeat split; reflexivity].
  repeat constructor; assumption.
Qed.

Lemma parseInt_two (a b : ascii) :
  AttendanceProcessor.parseInt (String a (String b EmptyString))
  = (10 * AttendanceProcessor.digitValue a + AttendanceProcessor.digitValue b)%Z.
Proof. unfold AttendanceProcessor.parseInt. cbn. lia. Qed.

Lemma parseDeviceTime_clockText (iso : option string) (t : AttendanceProcessor.DeviceTime) :
  AttendanceProcessor.parseDeviceTime iso = Some t -> clockText t.
Proof.
  unfold AttendanceProcessor.parseDeviceTime.
  destruct iso as [iso|]; [|discriminate].
  destruct (negb (Js.truthy iso)); [discriminate|].
  destruct (Re.leftmost Re.clockAt _) as [[[hh mm] ss]|] eqn:E; [|discriminate].
  intros [= <-].
  apply leftmost_Some in E. destruct E as [suffix E].
  apply clockAt_shape in E. destruct E as (a & b & c & d & e & f & Hd & -> & -> & ->).
  exists a, b, c, d, e, f. rewrite !parseInt_two. cbn. auto.
Qed.

Lemma digit_code (c : ascii) :
  Js.isDigit c = true -> (48 <= N_of_ascii c <= 57)%N.
Proof.
  unfold Js.isDigit, nat_of_ascii. intros H.
  apply andb_prop in H. destruct H as [H1 H2].
  apply Nat.leb_le in H1, H2. lia.
Qed.

(** On the texts of parsed times the order of [compareTimeStrings] is
    the chronological one. *)
Lemma clockText_order (t1 t2 : AttendanceProcessor.DeviceTime) :
  clockText t1 -> clockText t2 ->
  notAfter (AttendanceProcessor.raw t1) (AttendanceProcessor.raw t2) <-> chronLe t1 t2.
Proof.
  intros (a & b & c & d & e & f & D1 & R1 & H1 & M1 & S1)
         (a' & b' & c' & d' & e' & f' & D2 & R2 & H2 & M2 & S2).
  unfold notAfter, chronLe, AttendanceProcessor.compareTimeStrings.
  rewrite R1, R2, H1, H2, M1, M2, S1, S2.
  repeat match goal with
         | H : Forall _ (_ :: _) |- _ => inversion H; clear H; subst
         | H : Forall _ [] |- _ => clear H
         end.
  repeat match goal with
         | H : Js.isDigit _ = true |- _ => apply digit_code in H
         end.
  unfold AttendanceProcessor.digitValue, nat_of_ascii.
  cbn [String.compare]. rewrite !ascii_compare_N.
  change (N_of_ascii ":" ?= N_of_ascii ":")%N with Eq. cbv iota.
  generalize dependent (N_of_ascii a). generalize dependent (N_of_ascii b).
  generalize dependent (N_of_ascii c). generalize dependent (N_of_ascii d).
  generalize dependent (N_of_ascii e). generalize dependent (N_of_ascii f).
  generalize dependent (N_of_ascii a'). generalize dependent (N_of_ascii b').
  generalize dependent (N_of_ascii c'). generalize dependent (N_of_ascii d').
  generalize dependent (N_of_ascii e'). generalize dependent (N_of_ascii f').
  intros.
  repeat match goal with
         | |- context [(?x ?= ?y)%N] =>
             destruct (N.compare_spec x y); cbv iota;
             try (split; [intros _; lia | intros _; discriminate]);
             try (split; [intros X; congruence | intros X; exfalso; lia])
         end.
Qed.

(* ================================================================== *)
(** ** Grouping by student                                              *)
(* ================================================================== *)

Section Grouping.

Context {A : Type}.
Variable keyOf : A -> string.

Let push (mp : list (string * list A)) (r : A) := AttendanceProcessor.mapPush (keyOf r) r mp.

Let hasKey (k : string) (r : A) : bool := (keyOf r =? k)%string.

Lemma mapPush_keys (id : string) (r : A) (mp : list (string * list A)) :
  (In id (List.map fst mp) ->
   List.map fst (AttendanceProcessor.mapPush id r mp) = List.map fst mp)
  /\ (~ In id (List.map fst mp) ->
      List.map fst (AttendanceProcessor.mapPush id r mp) = (List.map fst mp ++ [id])%list).
Proof.
  induction mp as [|[k v] mp [IH1 IH2]]; cbn.
  - split; [intros []|reflexivity].
  - destruct (String.eqb_spec k id) as [->|Hne]; cbn.
    + split; [reflexivity|]. intros H. exfalso. apply H. now left.
    + split.
      * intros [H|H]; [congruence|]. now rewrite IH1.
      * intros H. rewrite IH2; [reflexivity|]. intros Hin. apply H. now right.
Qed.

Lemma mapPush_In (id : string) (r : A) (mp : list (string * list A)) (k : string) (v : list A) :
  NoDup (List.map fst mp) ->
  In (k, v) (AttendanceProcessor.mapPush id r mp) ->
  (k <> id /\ In (k, v) mp)
  \/ (k = id /\ exists v0, v = (v0 ++ [r])%list
                 /\ (In (k, v0) mp \/ (v0 = [] /\ ~ In id (List.map fst mp)))).
Proof.
  induction mp as [|[k' v'] mp IH]; cbn; intros Hnd Hin.
  - destruct Hin as [[= <- <-]|[]]. right. split; [reflexivity|].
    exists []. split; [reflexivity|]. right. split; [reflexivity|]. intros [].
  - inversion Hnd as [|? ? Hk' Hnd']; subst.
    destruct (String.eqb_spec k' id) as [->|Hne].
    + destruct Hin as [[= <- <-]|Hin].
      * right. split; [reflexivity|]. exists v'. split; [reflexivity|]. left. now left.
      * left. split; [|now right]. intros ->. apply Hk'.
        apply (in_map fst) in Hin. exact Hin.
    + destruct Hin as [[= <- <-]|Hin].
      * left. split; [assumption|]. now left.
      * destruct (IH Hnd' Hin) as [[Hk Hm]|[-> (v0 & -> & [Hm|[-> Hm]])]].
        -- left. split; [assumption|]. now right.
        -- right. split; [reflexivity|]. exists v0. split; [reflexivity|]. left. now right.
        -- right. split; [reflexivity|]. exists []. split; [reflexivity|]. right.
           split; [reflexivity|]. intros [H|H]; [congruence|]. apply Hm, H.
Qed.

Lemma filter_none (f : A -> bool) (l : list A) :
  (forall x, In x l -> f x = false) -> filter f l = [].
Proof.
  induction l as [|x l IH]; cbn; intros H; [reflexivity|].
  rewrite (H x (or_introl eq_refl)). apply IH. intros y Hy. apply H. now right.
Qed.

Lemma filter_snoc (k : string) (seen : list A) (r : A) :
  filter (hasKey k) (seen ++ [r])
  = (filter (hasKey k) seen ++ if (keyOf r =? k)%string then [r] else [])%list.
Proof.
  rewrite filter_app. cbn. unfold hasKey at 2.
  destruct (keyOf r =? k)%string; reflexivity.
Qed.

Lemma push_Grouped (mp : list (string * list A)) (seen : list A) (r : A) :
  Grouped keyOf mp seen -> Grouped keyOf (push mp r) (seen ++ [r])%list.
Proof.
  intros (Hnd & Hgroups & Hcover). unfold push.
  destruct (mapPush_keys (keyOf r) r mp) as [Kin Kout].
  assert (forall k v, In (k, v) (AttendanceProcessor.mapPush (keyOf r) r mp) ->
            v = filter (hasKey k) (seen ++ [r]) /\ v <> []) as Hnew.
  { intros k v H. apply (mapPush_In _ _ _ _ _ Hnd) in H. rewrite filter_snoc.
    destruct H as [[Hk Hm]|[-> (v0 & -> & [Hm|[-> Hm]])]].
    - destruct (String.eqb_spec (keyOf r) k) as [E|_]; [congruence|].
      rewrite app_nil_r. apply Hgroups, Hm.
    - rewrite String.eqb_refl. split; [|destruct v0; discriminate].
      f_equal. apply Hgroups, Hm.
    - rewrite String.eqb_refl. split; [|discriminate].
      f_equal. symmetry. apply filter_none.
      intros x Hx. unfold hasKey.
      destruct (String.eqb_spec (keyOf x) (keyOf r)) as [E|_]; [|reflexivity].
      exfalso. apply Hm. rewrite <- E. apply Hcover, Hx. }
  destruct (in_dec string_dec (keyOf r) (List.map fst mp)) as [Hin|Hout].
  - split; [|split].
    + rewrite (Kin Hin). exact Hnd.
    + exact Hnew.
    + intros r' Hr'. rewrite (Kin Hin). apply in_app_or in Hr'.
      destruct Hr' as [Hr'|[<-|[]]]; [apply Hcover, Hr'|exact Hin].
  - split; [|split].
    + rewrite (Kout Hout). apply NoDup_app; [exact Hnd|repeat constructor; intros []|].
      intros x Hx [<-|[]]. contradiction.
    + exact Hnew.
    + intros r' Hr'. rewrite (Kout Hout). apply in_or_app. apply in_app_or in Hr'.
      destruct Hr' as [Hr'|[<-|[]]]; [left; apply Hcover, Hr'|right; now left].
Qed.

Lemma fold_push_Grouped (l : list A) :
  forall mp seen, Grouped keyOf mp seen -> Grouped keyOf (fold_left push l mp) (seen ++ l)%list.
Proof.
  induction l as [|r l IH]; cbn; intros mp seen H.
  - now rewrite app_nil_r.
  - replace (seen ++ r :: l)%list with ((seen ++ [r]) ++ l)%list
      by (rewrite <- app_assoc; reflexivity).
    apply IH, push_Grouped, H.
Qed.

Lemma Grouped_nil : Grouped keyOf [] [].
Proof.
  split; [constructor|]. split; intros; contradiction.
Qed.

End Grouping.

Lemma groupByStudent_Grouped (valid : list HikvisionClient.AttendanceRecord) :
  Grouped AttendanceProcessor.idOf (AttendanceProcessor.groupByStudent valid) valid.
Proof.
  exact (fold_push_Grouped AttendanceProcessor.idOf valid [] [] (Grouped_nil AttendanceProcessor.idOf)).
Qed.

(* ================================================================== *)
(** ** The attendance processor                                         *)
(* ================================================================== *)

Lemma isTimeOut_atOrAfter (hour minute : Z) (t : AttendanceProcessor.DeviceTime) :
  AttendanceProcessor.isTimeOut hour minute t = true <-> atOrAfter hour minute t.
Proof.
  unfold AttendanceProcessor.isTimeOut, atOrAfter.
  rewrite Z.gtb_ltb, Z.geb_leb.
  destruct (Z.ltb_spec hour (AttendanceProcessor.h t));
    destruct (Z.eqb_spec (AttendanceProcessor.h t) hour);
    destruct (Z.leb_spec minute (AttendanceProcessor.m t)); cbn;
    split; intros; try discriminate; try reflexivity; lia.
Qed.

Lemma parsedTimes_In (t : AttendanceProcessor.DeviceTime)
  (events : list HikvisionClient.AttendanceRecord) :
  In t (parsedTimes events)
  <-> exists e, In e events
        /\ AttendanceProcessor.parseDeviceTime (HikvisionClient.eventTime e) = Some t.
Proof.
  unfold parsedTimes. rewrite in_flat_map. split.
  - intros (e & He & Ht). exists e. split; [assumption|].
    destruct (AttendanceProcessor.parseDeviceTime _) as [t'|]; [|contradiction].
    destruct Ht as [->|[]]. reflexivity.
  - intros (e & He & Ht). exists e. split; [assumption|]. rewrite Ht. now left.
Qed.

Lemma sortedTimes_In (x : HikvisionClient.AttendanceRecord * AttendanceProcessor.DeviceTime)
  (events : list HikvisionClient.AttendanceRecord) :
  In x (AttendanceProcessor.sortedTimes events) -> In (snd x) (parsedTimes events).
Proof.
  unfold AttendanceProcessor.sortedTimes. rewrite sort_In, in_flat_map.
  intros (e & He & Hx). apply parsedTimes_In. exists e. split; [assumption|].
  destruct (AttendanceProcessor.parseDeviceTime _) as [t'|]; [|contradiction].
  destruct Hx as [<-|[]]. reflexivity.
Qed.

Lemma parsedTimes_sorted (t : AttendanceProcessor.DeviceTime)
  (events : list HikvisionClient.AttendanceRecord) :
  In t (parsedTimes events) ->
  exists e, In (e, t) (AttendanceProcessor.sortedTimes events).
Proof.
  intros H. apply parsedTimes_In in H. destruct H as (e & He & Ht).
  exists e. unfold AttendanceProcessor.sortedTimes. rewrite sort_In, in_flat_map.
  exists e. split; [assumption|]. rewrite Ht. now left.
Qed.

Lemma sortedTimes_sorted (events : list HikvisionClient.AttendanceRecord) :
  StronglySorted
    (fun a b => notAfter (AttendanceProcessor.raw (snd a)) (AttendanceProcessor.raw (snd b)))
    (AttendanceProcessor.sortedTimes events).
Proof.
  unfold AttendanceProcessor.sortedTimes.
  apply (sort_sorted
           (fun a b : HikvisionClient.AttendanceRecord * AttendanceProcessor.DeviceTime =>
              AttendanceProcessor.compareTimeStrings
                (AttendanceProcessor.raw (snd a)) (AttendanceProcessor.raw (snd b)))).
  - intros x y z. apply notAfter_trans.
  - intros x y. apply notAfter_total.
Qed.

(** One pass of the collapsing loop, in the order of the time texts. *)
Lemma collapse_spec (hour minute : Z) (adm : string)
  (events : list HikvisionClient.AttendanceRecord)
  (p : AttendanceProcessor.ProcessedAttendance) :
  AttendanceProcessor.collapse hour minute adm events = Some p ->
  AttendanceProcessor.adm_no p = adm
  /\ (exists t, In t (parsedTimes events)
        /\ AttendanceProcessor.time_in p = AttendanceProcessor.raw t
        /\ forall t', In t' (parsedTimes events) ->
             notAfter (AttendanceProcessor.raw t) (AttendanceProcessor.raw t'))
  /\ match AttendanceProcessor.time_out p with
     | None =>
         forall t, In t (parsedTimes events) ->
           AttendanceProcessor.isTimeOut hour minute t = false
     | Some o =>
         exists t, In t (parsedTimes events)
           /\ AttendanceProcessor.isTimeOut hour minute t = true
           /\ o = AttendanceProcessor.raw t
           /\ forall t', In t' (parsedTimes events) ->
                AttendanceProcessor.isTimeOut hour minute t' = true ->
                notAfter (AttendanceProcessor.raw t') (AttendanceProcessor.raw t)
     end.
Proof.
  unfold AttendanceProcessor.collapse.
  pose proof (sortedTimes_sorted events) as Hsorted.
  pose proof (fun x => sortedTimes_In x events) as Hin.
  pose proof (fun t => parsedTimes_sorted t events) as Hback.
  destruct (AttendanceProcessor.sortedTimes events) as [|first rest] eqn:E; [discriminate|].
  cbv zeta.
  set (keep := fun x : HikvisionClient.AttendanceRecord * AttendanceProcessor.DeviceTime =>
                 AttendanceProcessor.isTimeOut hour minute (snd x)).
  pose proof (filter_sorted _ keep _ Hsorted) as Hfs.
  set (post := filter keep (first :: rest)) in *.
  assert (forall x, In x post -> In x (first :: rest) /\ keep x = true) as Hpost
    by (intros x; apply filter_In).
  assert (forall x, In x (first :: rest) -> keep x = true -> In x post) as Hpost'
    by (intros x Hx Hk; apply filter_In; split; assumption).
  clearbody post.
  assert (exists t, In t (parsedTimes events)
            /\ AttendanceProcessor.raw (snd first) = AttendanceProcessor.raw t
            /\ forall t', In t' (parsedTimes events) ->
                 notAfter (AttendanceProcessor.raw t) (AttendanceProcessor.raw t')) as Hfirst.
  { exists (snd first). split; [apply Hin; now left|]. split; [reflexivity|].
    intros t' Ht'. destruct (Hback t' Ht') as [e' He'].
    apply (head_least _ first rest (fun y => notAfter_refl _) Hsorted (e', t') He'). }
  destruct (AttendanceProcessor.lastOf post) as [x|] eqn:L; intros [= <-];
    cbn [AttendanceProcessor.adm_no AttendanceProcessor.time_in AttendanceProcessor.time_out];
    (split; [reflexivity|]); (split; [exact Hfirst|]).
  - pose proof (lastOf_In _ _ L) as Hx. apply Hpost in Hx. destruct Hx as [Hx Hkeep].
    exists (snd x). split; [apply Hin, Hx|]. split; [exact Hkeep|]. split; [reflexivity|].
    intros t' Ht' Hout. destruct (Hback t' Ht') as [e' He'].
    apply (lastOf_greatest _ _ x (fun y => notAfter_refl _) Hfs L (e', t')).
    apply Hpost'; assumption.
  - apply lastOf_None in L. intros t Ht. destruct (Hback t Ht) as [e He].
    destruct (AttendanceProcessor.isTimeOut hour minute t) eqn:Hout; [|reflexivity].
    exfalso. pose proof (Hpost' (e, t) He Hout) as Hf. rewrite L in Hf. exact Hf.
Qed.

(** A record of the output is the collapse of the events retained for
    its student, of which there is at least one. *)
Lemma processAttendance_In (hour minute : Z)
  (records : list HikvisionClient.AttendanceRecord)
  (p : AttendanceProcessor.ProcessedAttendance) :
  In p (AttendanceProcessor.processAttendance hour minute records) ->
  exists adm,
    AttendanceProcessor.collapse hour minute adm (retainedOf adm records) = Some p
    /\ retainedOf adm records <> [].
Proof.
  unfold AttendanceProcessor.processAttendance. rewrite in_flat_map.
  intros ([adm events] & Hgroup & Hp). cbn [fst snd] in Hp.
  destruct (groupByStudent_Grouped (filter AttendanceProcessor.hasStudentId records))
    as (_ & Hgroups & _).
  destruct (Hgroups adm events Hgroup) as [Hev Hne].
  exists adm. unfold retainedOf. rewrite <- Hev. split; [|assumption].
  destruct (AttendanceProcessor.collapse hour minute adm events) as [q|]; [|contradiction].
  destruct Hp as [->|[]]. reflexivity.
Qed.

(** The examples of the design document, threshold 14:30. *)
Example aggregate_single_morning :
  AttendanceProcessor.processAttendance 14 30 [scan "A" "2024-11-20T07:45:00"]
  = [ {| AttendanceProcessor.adm_no := "A";
         AttendanceProcessor.time_in := "07:45:00";
         AttendanceProcessor.time_out := None |} ].
Proof. reflexivity. Qed.

Example aggregate_in_and_out :
  AttendanceProcessor.processAttendance 14 30
    [scan "A" "2024-11-20T08:10:22"; scan "A" "2024-11-20T14:35:07"]
  = [ {| AttendanceProcessor.adm_no := "A";
         AttendanceProcessor.time_in := "08:10:22";
         AttendanceProcessor.time_out := Some "14:35:07" |} ].
Proof. reflexivity. Qed.

Example aggregate_zero_id :
  AttendanceProcessor.processAttendance 14 30 [scan "0" "2024-11-20T09:00:00"] = [].
Proof. reflexivity. Qed.

(** Only the text [0] itself counts as zero: [00] is an identifier. *)
Example aggregate_double_zero :
  AttendanceProcessor.processAttendance 14 30 [scan "00" "2024-11-20T09:00:00"]
  = [ {| AttendanceProcessor.adm_no := "00";
         AttendanceProcessor.time_in := "09:00:00";
         AttendanceProcessor.time_out := None |} ].
Proof. reflexivity. Qed.

(** A single scan after the threshold is both the first and the last. *)
Example aggregate_single_afternoon :
  AttendanceProcessor.processAttendance 14 30 [scan "B" "2024-11-20T15:00:00Z"]
  = [ {| AttendanceProcessor.adm_no := "B";
         AttendanceProcessor.time_in := "15:00:00";
         AttendanceProcessor.time_out := Some "15:00:00" |} ].
Proof. reflexivity. Qed.

Example aggregate_mixed_day :
  AttendanceProcessor.processAttendance 14 30 mixedDay
  = [ mixedDayA;
      {| AttendanceProcessor.adm_no := "B";
         AttendanceProcessor.time_in := "07:45:00";
         AttendanceProcessor.time_out := None |} ].
Proof. reflexivity. Qed.

Lemma clockText_clockOf (t : AttendanceProcessor.DeviceTime) :
  clockText t ->
  clockOf (AttendanceProcessor.raw t)
  = Some (AttendanceProcessor.h t, AttendanceProcessor.m t, AttendanceProcessor.s t).
Proof.
  intros (a & b & c & d & e & f & D & R & H & M & S).
  rewrite R, H, M, S. unfold clockOf. cbn [list_ascii_of_string].
  repeat match goal with
         | H : Forall _ (_ :: _) |- _ => inversion H; clear H; subst
         | H : Forall _ [] |- _ => clear H
         end.
  unfold Js.isDigit in *. cbv zeta in *. cbn [forallb]. unfold isDecimal.
  repeat match goal with E : (_ && _)%bool = true |- _ => rewrite E; clear E end.
  reflexivity.
Qed.

Lemma clockOf_order (t1 t2 : AttendanceProcessor.DeviceTime) :
  clockText t1 -> clockText t2 ->
  notLater (AttendanceProcessor.raw t1) (AttendanceProcessor.raw t2) <-> chronLe t1 t2.
Proof.
  intros C1 C2. unfold notLater.
  rewrite (clockText_clockOf _ C1), (clockText_clockOf _ C2). reflexivity.
Qed.

Lemma clockOf_threshold (hour minute : Z) (t : AttendanceProcessor.DeviceTime) :
  clockText t ->
  atOrAfterText hour minute (AttendanceProcessor.raw t) <-> atOrAfter hour minute t.
Proof.
  intros C. unfold atOrAfterText. rewrite (clockText_clockOf _ C). reflexivity.
Qed.

Lemma leftmost_split {A : Type} (f : string -> option A) (text : string) (v : A) :
  Re.leftmost f text = Some v ->
  exists before suffix, text = before ++ suffix /\ f suffix = Some v.
Proof.
  induction text as [|c text IH]; cbn.
  - destruct (f "") eqn:E; [intros [= <-]; now exists "", ""|discriminate].
  - destruct (f (String c text)) eqn:E.
    + intros [= <-]. now exists "", (String c text).
    + intros H. destruct (IH H) as (before & suffix & -> & Hs).
      now exists (String c before), suffix.
Qed.

Lemma clockAt_text (text hh mm ss : string) :
  Re.clockAt text = Some (hh, mm, ss) ->
  exists rest, text = "T" ++ (hh ++ ":" ++ mm ++ ":" ++ ss) ++ rest.
Proof.
  unfold Re.clockAt.
  do 9 (destruct text as [|? text]; [discriminate|]).
  match goal with |- (if ?cond then _ else _) = _ -> _ => destruct cond eqn:E end;
    [|discriminate].
  intros [= <- <- <-].
  repeat (apply andb_prop in E; destruct E as [E ?]).
  repeat match goal with
         | H : Ascii.eqb _ _ = true |- _ => apply Ascii.eqb_eq in H; subst
         end.
  exists text. reflexivity.
Qed.

Lemma dropFinalZ_prefix (text : string) :
  exists dropped, text = Re.dropFinalZ text ++ dropped.
Proof.
  induction text as [|c text (dropped & E)]; [now exists ""|].
  destruct text as [|d text].
  - cbn. destruct (Ascii.eqb c "Z"); [now exists (String c "")|now exists ""].
  - exists dropped. change (Re.dropFinalZ (String c (String d text)))
      with (String c (Re.dropFinalZ (String d text))).
    cbn [append]. now rewrite <- E.
Qed.

Lemma dropFinalOffset_prefix (sign : ascii -> bool) (text : string) :
  exists dropped, text = Re.dropFinalOffset sign text ++ dropped.
Proof.
  induction text as [|c text (dropped & E)]; [now exists ""|].
  cbn [Re.dropFinalOffset].
  destruct (sign c && Re.isHHMM text)%bool; [now exists (String c text)|].
  exists dropped. cbn [append]. now rewrite <- E.
Qed.

Lemma leftmost_first {A : Type} (f : string -> option A) (text : string) (v : A) :
  Re.leftmost f text = Some v ->
  exists before suffix,
    text = before ++ suffix /\ f suffix = Some v
    /\ forall b rest, text = b ++ rest ->
         (String.length b < String.length before)%nat -> f rest = None.
Proof.
  induction text as [|c text IH]; cbn.
  - destruct (f "") eqn:E; [|discriminate]. intros [= <-].
    exists "", "". split; [reflexivity|]. split; [exact E|].
    intros b rest _ L. cbn in L. lia.
  - destruct (f (String c text)) eqn:E.
    + intros [= <-]. exists "", (String c text). split; [reflexivity|].
      split; [exact E|]. intros b rest _ L. cbn in L. lia.
    + intros H. destruct (IH H) as (before & suffix & -> & Hs & Hmin).
      exists (String c before), suffix. split; [reflexivity|]. split; [exact Hs|].
      intros b rest Eb L. destruct b as [|c' b]; cbn [append] in Eb.
      * now subst rest.
      * injection Eb as -> Eb. apply (Hmin b rest Eb). cbn in L. lia.
Qed.

Lemma leftmost_found {A : Type} (f : string -> option A) (before suffix : string) (v : A) :
  f suffix = Some v -> Re.leftmost f (before ++ suffix) <> None.
Proof.
  intros E. induction before as [|c before IH]; cbn [append].
  - destruct suffix; cbn; rewrite E; discriminate.
  - cbn. destruct (f (String c (before ++ suffix))); [discriminate|exact IH].
Qed.

Lemma isDigit_plain (c : ascii) :
  Js.isDigit c = true ->
  Ascii.eqb c "Z" = false /\ AttendanceProcessor.isSign c = false.
Proof.
  destruct c as [[] [] [] [] [] [] [] []]; intros H; try discriminate H;
    split; reflexivity.
Qed.

(** What the pattern of the clock needs of a text: its first nine
    characters. *)
Lemma clockAt_front (text : string) (v : string * string * string) :
  Re.clockAt text = Some v ->
  exists a b c d e f rest,
    text = String "T" (String a (String b (String ":" (String c (String d
             (String ":" (String e (String f rest))))))))
    /\ Forall (fun x => Js.isDigit x = true) [a; b; c; d; e; f]
    /\ forall rest',
         Re.clockAt (String "T" (String a (String b (String ":" (String c (String d
                      (String ":" (String e (String f rest')))))))))
         = Some v.
Proof.
  unfold Re.clockAt.
  do 9 (destruct text as [|? text]; [discriminate|]).
  match goal with |- (if ?cond then _ else _) = _ -> _ => destruct cond eqn:E end;
    [|discriminate].
  intros [= <-].
  repeat (apply andb_prop in E; destruct E as [E ?]).
  repeat match goal with
         | H : Ascii.eqb _ _ = true |- _ => apply Ascii.eqb_eq in H; subst
         end.
  do 6 eexists. exists text. split; [reflexivity|]. split; [repeat constructor; assumption|].
  intros rest'. cbn [Ascii.eqb Bool.eqb andb].
  repeat match goal with H : Js.isDigit _ = true |- _ => rewrite H; clear H end.
  reflexivity.
Qed.

Lemma isHHMM_length (text : string) :
  Re.isHHMM text = true -> String.length text = 5%nat.
Proof.
  unfold Re.isHHMM. do 5 (destruct text as [|? text]; [discriminate|]).
  destruct text; [reflexivity|discriminate].
Qed.

(** Taking a final [Z] off leaves a clock where it stands. *)
Lemma dropFinalZ_keeps (before text : string) (v : string * string * string) :
  Re.clockAt text = Some v ->
  exists text', Re.dropFinalZ (before ++ text) = before ++ text'
                /\ Re.clockAt text' = Some v.
Proof.
  intros H. destruct (clockAt_front _ _ H) as (a & b & c & d & e & f & rest & -> & D & Hv).
  induction before as [|x before (text' & E & Hc)].
  - cbn [append].
    exists (String "T" (String a (String b (String ":" (String c (String d
              (String ":" (String e (Re.dropFinalZ (String f rest))))))))))%string.
    split; [reflexivity|].
    assert (exists rest', Re.dropFinalZ (String f rest) = String f rest') as [rest' ->].
    { destruct rest as [|g rest].
      - assert (Js.isDigit f = true) as Hf
          by (repeat match goal with
                     | H : Forall _ (_ :: _) |- _ => inversion H; clear H; subst
                     end; assumption).
        cbn. destruct (isDigit_plain f Hf) as [-> _]. now exists "".
      - now exists (Re.dropFinalZ (String g rest)). }
    apply Hv.
  - exists text'. split; [|exact Hc].
    cbn [append]. rewrite <- E.
    destruct (before ++ _)%string eqn:B; [|reflexivity].
    destruct before; discriminate B.
Qed.

(** So does taking a final offset off. *)
Lemma dropFinalOffset_keeps (before text : string) (v : string * string * string) :
  Re.clockAt text = Some v ->
  exists text', Re.dropFinalOffset AttendanceProcessor.isSign (before ++ text)
                = before ++ text'
                /\ Re.clockAt text' = Some v.
Proof.
  intros H. destruct (clockAt_front _ _ H) as (a & b & c & d & e & f & rest & -> & D & Hv).
  repeat match goal with
         | H : Forall _ (_ :: _) |- _ => inversion H; clear H; subst
         | H : Forall _ [] |- _ => clear H
         end.
  repeat match goal with
         | H : Js.isDigit _ = true |- _ => apply isDigit_plain in H; destruct H as [_ H]
         end.
  induction before as [|x before (text' & E & Hc)].
  - cbn [append].
    exists (String "T" (String a (String b (String ":" (String c (String d
              (String ":" (String e (String f
                 (Re.dropFinalOffset AttendanceProcessor.isSign rest))))))))))%string.
    split; [|apply Hv].
    cbn [Re.dropFinalOffset].
    repeat match goal with H : AttendanceProcessor.isSign _ = false |- _ =>
                             rewrite H; clear H end.
    reflexivity.
  - exists text'. split; [|exact Hc].
    cbn [append Re.dropFinalOffset]. rewrite E.
    destruct (Re.isHHMM _) eqn:L; [|now rewrite andb_false_r].
    apply isHHMM_length in L. rewrite string_length_app in L. cbn in L. lia.
Qed.

Lemma clockOf_clockAt (x rest : string) :
  clockOf x <> None -> exists v, Re.clockAt ("T" ++ x ++ rest) = Some v.
Proof.
  unfold clockOf. intros H.
  do 8 (destruct x as [|? x]; [cbn in H; congruence|]).
  destruct x; [|cbn in H; congruence].
  cbn [list_ascii_of_string] in H.
  match type of H with (if ?cond then _ else _) <> _ => destruct cond eqn:E end;
    [clear H|congruence].
  cbn [forallb] in E.
  repeat match type of E with
         | context [isDecimal ?c] => destruct (isDecimal c) eqn:?; [|discriminate E]
         end.
  cbn [andb] in E. apply andb_prop in E. destruct E as [E1 E2].
  apply Ascii.eqb_eq in E1, E2. subst.
  cbn [append Re.clockAt]. change Js.isDigit with isDecimal.
  repeat match goal with H : isDecimal _ = true |- _ => rewrite H; clear H end.
  eexists. reflexivity.
Qed.

(** The local part of a time stamp holds the clocks of the time stamp
    where they stand. *)
Lemma local_keeps (before x after : string) :
  clockOf x <> None ->
  exists text' v,
    Re.dropFinalOffset AttendanceProcessor.isSign
      (Re.dropFinalZ (before ++ "T" ++ x ++ after)) = before ++ text'
    /\ Re.clockAt text' = Some v.
Proof.
  intros H. destruct (clockOf_clockAt x after H) as [v Hv].
  destruct (dropFinalZ_keeps before _ v Hv) as (t1 & -> & H1).
  destruct (dropFinalOffset_keeps before _ v H1) as (t2 & -> & H2).
  now exists t2, v.
Qed.

(** The text that [parseDeviceTime] hands out is the time of day of the
    time stamp. *)
Lemma parseDeviceTime_first (iso : option string) (t : AttendanceProcessor.DeviceTime) :
  AttendanceProcessor.parseDeviceTime iso = Some t ->
  exists stamp, iso = Some stamp /\ firstClockIn stamp (AttendanceProcessor.raw t).
Proof.
  intros H. pose proof (parseDeviceTime_clockText _ _ H) as C.
  unfold AttendanceProcessor.parseDeviceTime in H.
  destruct iso as [iso|]; [|discriminate]. exists iso. split; [reflexivity|].
  split; [rewrite (clockText_clockOf _ C); discriminate|].
  destruct (negb (Js.truthy iso)); [discriminate|].
  destruct (Re.leftmost Re.clockAt _) as [[[hh mm] ss]|] eqn:E; [|discriminate].
  injection H as <-. cbn [AttendanceProcessor.raw].
  apply leftmost_first in E. destruct E as (before & suffix & El & Es & Hmin).
  apply clockAt_text in Es. destruct Es as [rest ->].
  destruct (dropFinalZ_prefix iso) as [z Ez].
  destruct (dropFinalOffset_prefix AttendanceProcessor.isSign (Re.dropFinalZ iso))
    as [o Eo].
  exists before, (rest ++ o ++ z). split.
  - rewrite Ez at 1. rewrite Eo at 1. rewrite El.
    rewrite !string_app_assoc. cbn [append]. now rewrite !string_app_assoc.
  - intros before' y after' Ey Hy.
    destruct (le_lt_dec (String.length before) (String.length before')) as [L|L];
      [exact L|exfalso].
    destruct (local_keeps before' y after' Hy) as (text' & v & Hl & Hc).
    rewrite <- Ey in Hl. rewrite (Hmin before' text' Hl L) in Hc. discriminate.
Qed.

(** A time stamp that holds a clock parses. *)
Lemma parseDeviceTime_complete (stamp x : string) :
  clockWrittenIn stamp x ->
  exists t, AttendanceProcessor.parseDeviceTime (Some stamp) = Some t.
Proof.
  intros (Hx & before & after & ->).
  destruct (local_keeps before x after Hx) as (text' & v & Hl & Hc).
  unfold AttendanceProcessor.parseDeviceTime.
  replace (Js.truthy (before ++ "T" ++ x ++ after)) with true
    by (destruct before; reflexivity).
  cbn [negb]. cbv zeta. rewrite Hl.
  pose proof (leftmost_found Re.clockAt before text' v Hc) as F.
  destruct (Re.leftmost Re.clockAt (before ++ text')) as [[[hh mm] ss]|];
    [eexists; reflexivity|congruence].
Qed.

Lemma clockTexts_In (x : string) (events : list HikvisionClient.AttendanceRecord) :
  In x (clockTexts events)
  <-> exists t, In t (parsedTimes events) /\ x = AttendanceProcessor.raw t.
Proof.
  unfold clockTexts. rewrite in_map_iff. split; intros (t & A & B); exists t; auto.
Qed.

(** C2. For every list of raw events and every threshold (hour,
    minute), take a record of [processAttendance] and the times of the
    events retained for its student: each of them is the first text
    HH:MM:SS that stands after a [T] in the time stamp of such an
    event, and every retained event whose time stamp holds such a text
    has its time among them. Read as times of day from their digits,
    [time_in] is one of them and none of them is earlier; there is a
    [time_out] exactly when one of them is at or after the threshold;
    and then [time_out] is one of those at or after the threshold and
    none of those is later. *)
Theorem processAttendance_time_in_time_out (hour minute : Z)
  (records : list HikvisionClient.AttendanceRecord)
  (p : AttendanceProcessor.ProcessedAttendance) :
  In p (AttendanceProcessor.processAttendance hour minute records) ->
  let events := retainedOf (AttendanceProcessor.adm_no p) records in
  let texts := clockTexts events in
  (forall x, In x texts ->
     exists e stamp, In e events /\ HikvisionClient.eventTime e = Some stamp
       /\ firstClockIn stamp x)
  /\ (forall e stamp x, In e events -> HikvisionClient.eventTime e = Some stamp ->
        clockWrittenIn stamp x ->
        exists y, In y texts /\ firstClockIn stamp y)
  /\ (In (AttendanceProcessor.time_in p) texts
      /\ forall x, In x texts -> notLater (AttendanceProcessor.time_in p) x)
  /\ ((exists o, AttendanceProcessor.time_out p = Some o)
      <-> exists x, In x texts /\ atOrAfterText hour minute x)
  /\ (forall o, AttendanceProcessor.time_out p = Some o ->
        In o texts /\ atOrAfterText hour minute o
        /\ forall x, In x texts -> atOrAfterText hour minute x -> notLater x o).
Proof.
  intros Hp events texts. apply processAttendance_In in Hp. destruct Hp as (adm & Hc & _).
  apply collapse_spec in Hc. destruct Hc as (Hadm & (t0 & Ht0 & Hin & Hleast) & Hout).
  subst events texts. rewrite Hadm.
  assert (forall t, In t (parsedTimes (retainedOf adm records)) -> clockText t) as Hshape.
  { intros t Ht. apply parsedTimes_In in Ht. destruct Ht as (e & _ & Ht).
    exact (parseDeviceTime_clockText _ _ Ht). }
  split; [|split; [|split; [|split]]].
  - intros x Hx. apply clockTexts_In in Hx. destruct Hx as (t & Ht & ->).
    apply parsedTimes_In in Ht. destruct Ht as (e & He & Ht).
    destruct (parseDeviceTime_first _ _ Ht) as (stamp & Es & Hw).
    exists e, stamp. auto.
  - intros e stamp x He Es Hw.
    destruct (parseDeviceTime_complete stamp x Hw) as [t Ht].
    exists (AttendanceProcessor.raw t). split.
    + apply clockTexts_In. exists t. split; [|reflexivity].
      apply parsedTimes_In. exists e. rewrite Es. auto.
    + destruct (parseDeviceTime_first _ _ Ht) as (stamp' & [= <-] & Hf). exact Hf.
  - split; [apply clockTexts_In; eauto|].
    intros x Hx. apply clockTexts_In in Hx. destruct Hx as (t & Ht & ->).
    rewrite Hin. apply clockOf_order; auto. apply clockText_order; auto.
  - destruct (AttendanceProcessor.time_out p) as [o|].
    + destruct Hout as (t & Ht & Hafter & _). split; [|eauto].
      intros _. exists (AttendanceProcessor.raw t). split; [apply clockTexts_In; eauto|].
      apply clockOf_threshold; auto. apply isTimeOut_atOrAfter, Hafter.
    + split; [intros [o [=]]|]. intros (x & Hx & Hafter).
      apply clockTexts_In in Hx. destruct Hx as (t & Ht & ->).
      apply clockOf_threshold in Hafter; auto.
      apply isTimeOut_atOrAfter in Hafter. rewrite (Hout t Ht) in Hafter. discriminate.
  - intros o Ho. rewrite Ho in Hout. destruct Hout as (t & Ht & Hafter & -> & Hlast).
    split; [apply clockTexts_In; eauto|].
    split; [apply clockOf_threshold; auto; apply isTimeOut_atOrAfter, Hafter|].
    intros x Hx Hafter'. apply clockTexts_In in Hx. destruct Hx as (t' & Ht' & ->).
    apply clockOf_order; auto. apply clockText_order; auto. apply Hlast; [assumption|].
    apply isTimeOut_atOrAfter. apply clockOf_threshold in Hafter'; auto.
Qed.

(** Student A of the mixed day: in at 08:10:22, the earliest of the
    three scans that parse, and out at 14:35:07, the one scan at or
    after 14:30; the scan at 14:29:59 is before the threshold. *)
Lemma processAttendance_time_in_time_out_witness :
  In mixedDayA (AttendanceProcessor.processAttendance 14 30 mixedDay)
  /\ clockTexts (retainedOf "A" mixedDay) = ["14:35:07"; "08:10:22"; "14:29:59"]
  /\ (In "08:10:22" (clockTexts (retainedOf "A" mixedDay))
      /\ forall x, In x (clockTexts (retainedOf "A" mixedDay)) -> notLater "08:10:22" x)
  /\ (forall o, Some "14:35:07" = Some o ->
        In o (clockTexts (retainedOf "A" mixedDay)) /\ atOrAfterText 14 30 o
        /\ forall x, In x (clockTexts (retainedOf "A" mixedDay)) ->
             atOrAfterText 14 30 x -> notLater x o).
Proof.
  split; [left; reflexivity|]. split; [reflexivity|].
  pose proof (processAttendance_time_in_time_out 14 30 mixedDay mixedDayA
                (or_introl eq_refl)) as H.
  cbv zeta in H. destruct H as (_ & _ & Hin & _ & Hout). split; [exact Hin|exact Hout].
Defined.

(** A student with scans before the threshold only gets no
    [time_out]. *)
Example aggregate_morning_only :
  AttendanceProcessor.processAttendance 14 30
    [scan "B" "2024-11-20T07:45:00"; scan "B" "2024-11-20T14:29:59"]
  = [ {| AttendanceProcessor.adm_no := "B";
         AttendanceProcessor.time_in := "07:45:00";
         AttendanceProcessor.time_out := None |} ].
Proof. reflexivity. Qed.

(** A no-break space around an identifier is trimmed like a blank: the
    two scans are of one student, and an identifier that is the text 0
    after trimming is discarded. *)
Example aggregate_no_break_space :
  AttendanceProcessor.processAttendance 14 30
    [scan ("A" ++ nbsp) "2024-11-20T09:00:00"; scan "A" "2024-11-20T15:00:00";
     scan (nbsp ++ "0") "2024-11-20T10:00:00"]
  = [ {| AttendanceProcessor.adm_no := "A";
         AttendanceProcessor.time_in := "09:00:00";
         AttendanceProcessor.time_out := Some "15:00:00" |} ].
Proof. reflexivity. Qed.

(** C10. For every input list and every threshold, a record of
    [processAttendance] that carries a [time_out] has its [time_in] not
    after it in the order of [compareTimeStrings], the lexicographic
    order of the texts. *)
Theorem processAttendance_in_not_after_out (hour minute : Z)
  (records : list HikvisionClient.AttendanceRecord)
  (p : AttendanceProcessor.ProcessedAttendance) (out : string) :
  In p (AttendanceProcessor.processAttendance hour minute records) ->
  AttendanceProcessor.time_out p = Some out ->
  AttendanceProcessor.compareTimeStrings (AttendanceProcessor.time_in p) out <> Gt
  /\ String.leb (AttendanceProcessor.time_in p) out = true.
Proof.
  intros Hp Ho. apply processAttendance_In in Hp. destruct Hp as (adm & Hc & _).
  apply collapse_spec in Hc. destruct Hc as (_ & (t0 & Ht0 & Hin & Hleast) & Hout).
  rewrite Ho in Hout. destruct Hout as (t & Ht & _ & -> & _).
  rewrite Hin. pose proof (Hleast t Ht) as H. unfold notAfter in H.
  split; [exact H|]. unfold String.leb.
  unfold AttendanceProcessor.compareTimeStrings in H.
  destruct (String.compare _ _); congruence.
Qed.

Lemma processAttendance_in_not_after_out_witness :
  AttendanceProcessor.compareTimeStrings "08:10:22" "14:35:07" <> Gt
  /\ String.leb "08:10:22" "14:35:07" = true.
Proof.
  exact (processAttendance_in_not_after_out 14 30 mixedDay mixedDayA "14:35:07"
           (or_introl eq_refl) eq_refl).
Defined.

Lemma hasStudentId_false (r : HikvisionClient.AttendanceRecord) :
  AttendanceProcessor.hasStudentId r = false <-> noStudentId r.
Proof.
  unfold AttendanceProcessor.hasStudentId, noStudentId.
  destruct (String.eqb_spec (AttendanceProcessor.idOf r) "");
    destruct (String.eqb_spec (AttendanceProcessor.idOf r) "0"); cbn;
    intuition congruence.
Qed.

(** C7. For every input list, [processAttendance] discards the events
    whose identifier is, after trimming (of every white space that
    [trim] takes off, the no-break space and the like included), empty
    or the text [0], before it groups: removing them from the input leaves the output unchanged,
    every output record carries the identifier of an event that is not
    one of them, and an input that holds only such events gives the empty
    list; in particular one scan of [employeeNo] equal to the text [0]
    does. *)
Theorem processAttendance_discards_no_id (hour minute : Z)
  (records : list HikvisionClient.AttendanceRecord) :
  AttendanceProcessor.processAttendance hour minute
    (filter AttendanceProcessor.hasStudentId records)
  = AttendanceProcessor.processAttendance hour minute records
  /\ (forall p, In p (AttendanceProcessor.processAttendance hour minute records) ->
        AttendanceProcessor.adm_no p <> "" /\ AttendanceProcessor.adm_no p <> "0"
        /\ exists r, In r records /\ ~ noStudentId r
             /\ AttendanceProcessor.idOf r = AttendanceProcessor.adm_no p)
  /\ ((forall r, In r records -> noStudentId r) ->
      AttendanceProcessor.processAttendance hour minute records = [])
  /\ (forall time, AttendanceProcessor.processAttendance hour minute [scan "0" time] = []).
Proof.
  split; [|split; [|split]].
  - unfold AttendanceProcessor.processAttendance.
    replace (filter AttendanceProcessor.hasStudentId
               (filter AttendanceProcessor.hasStudentId records))
      with (filter AttendanceProcessor.hasStudentId records); [reflexivity|].
    induction records as [|r records IH]; cbn; [reflexivity|].
    destruct (AttendanceProcessor.hasStudentId r) eqn:E; cbn; rewrite ?E; congruence.
  - intros p Hp. apply processAttendance_In in Hp. destruct Hp as (adm & Hc & Hne).
    apply collapse_spec in Hc. destruct Hc as (-> & _).
    destruct (retainedOf adm records) as [|r rest] eqn:E; [congruence|].
    assert (In r (retainedOf adm records)) as Hr by (rewrite E; now left).
    unfold retainedOf in Hr. apply filter_In in Hr. destruct Hr as [Hr Hid].
    apply filter_In in Hr. destruct Hr as [Hr Hvalid].
    apply String.eqb_eq in Hid.
    assert (~ noStudentId r) as Hyes.
    { intros Hno. apply hasStudentId_false in Hno. congruence. }
    unfold noStudentId in Hyes. rewrite Hid in Hyes.
    split; [tauto|]. split; [tauto|]. exists r. unfold noStudentId. rewrite Hid. auto.
  - intros Hall. unfold AttendanceProcessor.processAttendance.
    rewrite filter_none; [reflexivity|].
    intros r Hr. apply hasStudentId_false, Hall, Hr.
  - intros time. reflexivity.
Qed.

Lemma processAttendance_discards_no_id_witness :
  noStudentId (scan " 0 " "2024-11-20T09:00:00")
  /\ noStudentId (scan (nbsp ++ "0") "2024-11-20T10:00:00")
  /\ AttendanceProcessor.processAttendance 14 30
       [scan " 0 " "2024-11-20T09:00:00"; scan "" "2024-11-20T16:00:00";
        scan (nbsp ++ "0") "2024-11-20T10:00:00"] = [].
Proof.
  split; [right; reflexivity|]. split; [right; reflexivity|].
  refine (proj1 (proj2 (proj2
            (processAttendance_discards_no_id 14 30
               [scan " 0 " "2024-11-20T09:00:00"; scan "" "2024-11-20T16:00:00";
                scan (nbsp ++ "0") "2024-11-20T10:00:00"]))) _).
  intros r [<-|[<-|[<-|[]]]]; [right|left|right]; reflexivity.
Defined.

(* ================================================================== *)
(** ** The cloud sync retry loop                                        *)
(* ================================================================== *)

Section Retry.

Import AttendanceProcessor.

Variable config : CloudConfig.
Variable cloud : Cloud.
Variable count : nat.

Lemma retryLoop_Retrying (attempt : Z) (lastError : option AxiosError) (log : list Effect) :
  Retrying config cloud count attempt lastError log (retryLoop config cloud count attempt lastError log).
Proof.
  funelim (retryLoop config cloud count attempt lastError log);
    first
      [ solve [apply retry_exhausted; lia]
      | solve [eapply retry_delivered; eassumption]
      | solve [eapply retry_refused; eassumption]
      | eapply retry_again; [eassumption | eassumption | eassumption |];
        match goal with
        | |- context [(?a <? ?b)%Z] => destruct (Z.ltb_spec a b); [|lia]
        | |- context [(?a <? ?b)%Z] => destruct (Z.ltb_spec a b); [lia|]
        end; assumption ].
Qed.

End Retry.

Lemma transient_not_client o :
  transient o ->
  exists err, o = AttendanceProcessor.Rejected err
    /\ AttendanceProcessor.isClientError err = false.
Proof.
  intros (err & -> & H). exists err. split; [reflexivity|].
  unfold AttendanceProcessor.isClientError.
  destruct (AttendanceProcessor.response err) as [r|]; [|reflexivity].
  apply andb_false_iff. right. apply Z.ltb_ge. lia.
Qed.

Lemma posts_app (l1 l2 : list AttendanceProcessor.Effect) :
  AttendanceProcessor.posts (l1 ++ l2)
  = AttendanceProcessor.posts l1 + AttendanceProcessor.posts l2.
Proof.
  unfold AttendanceProcessor.posts. rewrite filter_app, length_app. reflexivity.
Qed.

Lemma posts_attemptsFrom (delay attempt : Z) (n : nat) :
  AttendanceProcessor.posts (attemptsFrom delay attempt n) = n.
Proof.
  revert attempt. induction n as [|k IH]; intros attempt; [reflexivity|].
  destruct k as [|k]; [reflexivity|].
  specialize (IH (attempt + 1)%Z).
  change (AttendanceProcessor.posts (attemptsFrom delay attempt (S (S k))))
    with (S (AttendanceProcessor.posts (attemptsFrom delay (attempt + 1) (S k)))).
  now rewrite IH.
Qed.

Section RetryFacts.

Import AttendanceProcessor.

Variable config : CloudConfig.
Variable cloud : Cloud.
Variable count : nat.

Let retried (o : PostOutcome) : Prop :=
  exists err, o = Rejected err /\ isClientError err = false.

Lemma posts_step (log : list Effect) (attempt : Z) (rest : list Effect) :
  (forall e, In e rest -> isPost e = false) ->
  posts (log ++ Post attempt :: rest) = S (posts log).
Proof.
  intros H. rewrite posts_app. unfold posts at 2. cbn.
  rewrite (filter_none isPost rest H). cbn. lia.
Qed.

Lemma posts_pause (log : list Effect) (attempt : Z) :
  posts (log ++ Post attempt ::
           if (attempt <? retryAttempts config)%Z then [Sleep (retryDelayMs config)] else [])
  = S (posts log).
Proof.
  apply posts_step. intros e He.
  destruct (attempt <? retryAttempts config)%Z; cbn in He; [|contradiction].
  destruct He as [<-|[]]. reflexivity.
Qed.

(** The log of a run: the attempts in order, a delay between two of
    them, none after the last. *)
Lemma Retrying_log attempt lastError log out :
  Retrying config cloud count attempt lastError log out ->
  exists n,
    snd out = (log ++ attemptsFrom (retryDelayMs config) attempt n)%list
    /\ ((attempt <= retryAttempts config)%Z -> 1 <= n)
    /\ (Z.of_nat n <= Z.max 0 (retryAttempts config + 1 - attempt))%Z.
Proof.
  induction 1 as [a last log Hgt|a last log res Hle Hc|a last log err Hle Hc H4
                 |a last log err out Hle Hc H4 Hrun IH]; cbn [snd].
  - exists 0. cbn. rewrite app_nil_r. split; [reflexivity|]. split; lia.
  - exists 1. cbn. split; [reflexivity|]. split; lia.
  - exists 1. cbn. split; [reflexivity|]. split; lia.
  - destruct IH as (n & Hlog & Hpos & Hbound).
    destruct (Z.ltb_spec a (retryAttempts config)) as [Hlt|Hge].
    + destruct n as [|n]; [specialize (Hpos ltac:(lia)); lia|].
      exists (S (S n)). split; [|split; lia].
      rewrite Hlog, <- app_assoc. reflexivity.
    + assert (n = 0) as -> by lia. exists 1. split; [|split; lia].
      rewrite Hlog. cbn. rewrite app_nil_r. reflexivity.
Qed.

(** The first outcome that is not retried decides the result and is the
    last attempt made. *)
Lemma Retrying_decided attempt lastError log out :
  Retrying config cloud count attempt lastError log out ->
  attempt = (Z.of_nat (posts log) + 1)%Z ->
  forall k,
    posts log <= k -> (Z.of_nat k < retryAttempts config)%Z ->
    (forall j, posts log <= j < k -> retried (cloud j)) ->
    (forall res, cloud k = Resolved res ->
       fst out = {| success := true; sent := count; sync_response := data res |}
       /\ posts (snd out) = S k)
    /\ (forall err, cloud k = Rejected err -> isClientError err = true ->
          fst out = failed (Some err) /\ posts (snd out) = S k).
Proof.
  induction 1 as [a last log Hgt|a last log res Hle Hc|a last log err Hle Hc H4
                 |a last log err out Hle Hc H4 Hrun IH];
    intros Ha k Hk HkN Hbefore; cbn [fst snd].
  - lia.
  - destruct (Nat.eq_dec k (posts log)) as [->|Hne].
    + rewrite Hc. split; [intros ? [= <-]|intros ? [=]].
      split; [reflexivity|]. apply posts_step. intros e [].
    + destruct (Hbefore (posts log) ltac:(lia)) as (err & E & _). congruence.
  - destruct (Nat.eq_dec k (posts log)) as [->|Hne].
    + rewrite Hc. split; [intros ? [=]|intros ? [= <-] _].
      split; [reflexivity|]. apply posts_step. intros e [].
    + destruct (Hbefore (posts log) ltac:(lia)) as (err' & E & E4). congruence.
  - destruct (Nat.eq_dec k (posts log)) as [->|Hne].
    + rewrite Hc. split; [intros ? [=]|intros ? [= <-] E4]. congruence.
    + apply IH.
      * rewrite posts_pause. lia.
      * rewrite posts_pause. lia.
      * assumption.
      * intros j Hj. rewrite posts_pause in Hj. apply Hbefore. lia.
Qed.

(** When every outcome is retried, every attempt is made and the result
    carries the last error. *)
Lemma Retrying_exhausted attempt lastError log out :
  Retrying config cloud count attempt lastError log out ->
  attempt = (Z.of_nat (posts log) + 1)%Z ->
  (forall j, posts log <= j -> (Z.of_nat j < retryAttempts config)%Z -> retried (cloud j)) ->
  let n := Z.to_nat (retryAttempts config) in
  posts (snd out) = Nat.max (posts log) n
  /\ fst out = failed (if (posts log <? n)%nat then errorOfLast cloud n else lastError).
Proof.
  induction 1 as [a last log Hgt|a last log res Hle Hc|a last log err Hle Hc H4
                 |a last log err out Hle Hc H4 Hrun IH];
    intros Ha Hall n; cbn [fst snd].
  - subst n. split; [lia|]. destruct (Nat.ltb_spec (posts log) (Z.to_nat (retryAttempts config)));
      [lia|reflexivity].
  - destruct (Hall (posts log) ltac:(lia) ltac:(lia)) as (err & E & _). congruence.
  - destruct (Hall (posts log) ltac:(lia) ltac:(lia)) as (err' & E & E4). congruence.
  - destruct IH as [IHp IHr].
    + rewrite posts_pause. lia.
    + intros j Hj. rewrite posts_pause in Hj. apply Hall. lia.
    + rewrite posts_pause in IHp, IHr. subst n. split; [lia|]. rewrite IHr.
      destruct (Nat.ltb_spec (S (posts log)) (Z.to_nat (retryAttempts config))) as [L|G];
        destruct (Nat.ltb_spec (posts log) (Z.to_nat (retryAttempts config))) as [L'|G'];
        try lia; [reflexivity|].
      assert (Z.to_nat (retryAttempts config) = S (posts log)) as -> by lia.
      cbn. rewrite Hc. reflexivity.
Qed.

End RetryFacts.

Example dispatch_recovers :
  AttendanceProcessor.syncToCloud threeAttempts recoveringCloud [mixedDayA] "2024-11-20"
  = ({| AttendanceProcessor.success := true;
        AttendanceProcessor.sent := 1;
        AttendanceProcessor.sync_response := Some "stored" |},
     [AttendanceProcessor.Post 1; AttendanceProcessor.Sleep 2000; AttendanceProcessor.Post 2]).
Proof. vm_compute. reflexivity. Qed.

Example dispatch_refused :
  AttendanceProcessor.syncToCloud threeAttempts refusingCloud [mixedDayA] "2024-11-20"
  = ({| AttendanceProcessor.success := false;
        AttendanceProcessor.sent := 0;
        AttendanceProcessor.sync_response := Some "bad date" |},
     [AttendanceProcessor.Post 1]).
Proof. vm_compute. reflexivity. Qed.

Example dispatch_exhausted :
  AttendanceProcessor.syncToCloud threeAttempts silentCloud [mixedDayA] "2024-11-20"
  = ({| AttendanceProcessor.success := false;
        AttendanceProcessor.sent := 0;
        AttendanceProcessor.sync_response := None |},
     [AttendanceProcessor.Post 1; AttendanceProcessor.Sleep 2000;
      AttendanceProcessor.Post 2; AttendanceProcessor.Sleep 2000;
      AttendanceProcessor.Post 3]).
Proof. vm_compute. reflexivity. Qed.

Example dispatch_nothing :
  AttendanceProcessor.syncToCloud threeAttempts silentCloud [] "2024-11-20"
  = ({| AttendanceProcessor.success := true;
        AttendanceProcessor.sent := 0;
        AttendanceProcessor.sync_response := None |}, []).
Proof. reflexivity. Qed.

(** C3. For every record list that is not empty, [syncToCloud] makes at
    most the configured number of attempts, one after the other with the
    configured delay between two of them and none after the last. With
    [k] attempts failed before it on no response or a 5xx response: a
    4xx response to the next attempt ends the call at once with a
    failure result that carries its body, and a successful response ends
    it with success and the full record count. When every attempt fails
    on no response or a 5xx response, all are made and the failure result
    carries the body of the last error, if any. *)
Theorem syncToCloud_retry_policy
  (config : AttendanceProcessor.CloudConfig) (cloud : AttendanceProcessor.Cloud)
  (attendance : list AttendanceProcessor.ProcessedAttendance) (date : string) :
  attendance <> [] ->
  let n := Z.to_nat (AttendanceProcessor.retryAttempts config) in
  let result := fst (AttendanceProcessor.syncToCloud config cloud attendance date) in
  let log := snd (AttendanceProcessor.syncToCloud config cloud attendance date) in
  AttendanceProcessor.posts log <= n
  /\ log = attemptsFrom (AttendanceProcessor.retryDelayMs config) 1
             (AttendanceProcessor.posts log)
  /\ (forall k err r,
        k < n -> (forall j, j < k -> transient (cloud j)) ->
        cloud k = AttendanceProcessor.Rejected err ->
        AttendanceProcessor.response err = Some r ->
        (400 <= AttendanceProcessor.status r < 500)%Z ->
        result = {| AttendanceProcessor.success := false;
                    AttendanceProcessor.sent := 0;
                    AttendanceProcessor.sync_response := AttendanceProcessor.data r |}
        /\ AttendanceProcessor.posts log = S k)
  /\ (forall k res,
        k < n -> (forall j, j < k -> transient (cloud j)) ->
        cloud k = AttendanceProcessor.Resolved res ->
        result = {| AttendanceProcessor.success := true;
                    AttendanceProcessor.sent := List.length attendance;
                    AttendanceProcessor.sync_response := AttendanceProcessor.data res |}
        /\ AttendanceProcessor.posts log = S k)
  /\ ((forall j, j < n -> transient (cloud j)) ->
      AttendanceProcessor.posts log = n
      /\ result = {| AttendanceProcessor.success := false;
                     AttendanceProcessor.sent := 0;
                     AttendanceProcessor.sync_response := bodyOf (errorOfLast cloud n) |}).
Proof.
  intros Hne n result log.
  assert (AttendanceProcessor.syncToCloud config cloud attendance date
          = AttendanceProcessor.retryLoop config cloud (List.length attendance) 1 None [])
    as Hcall by (destruct attendance; [congruence|reflexivity]).
  subst result log. rewrite Hcall.
  pose proof (retryLoop_Retrying config cloud (List.length attendance) 1 None []) as Hrun.
  set (out := AttendanceProcessor.retryLoop config cloud (List.length attendance) 1 None [])
    in *. clearbody out.
  destruct (Retrying_log _ _ _ _ _ _ _ Hrun) as (m & Hlog & _ & Hm).
  cbn [app] in Hlog.
  assert (AttendanceProcessor.posts (snd out) = m) as Hposts
    by (rewrite Hlog; apply posts_attemptsFrom).
  split; [lia|]. split; [rewrite Hposts; exact Hlog|].
  assert (forall k, (forall j, j < k -> transient (cloud j)) ->
            forall j, AttendanceProcessor.posts [] <= j < k ->
              exists err, cloud j = AttendanceProcessor.Rejected err
                /\ AttendanceProcessor.isClientError err = false) as Hretried.
  { intros k H j [_ Hj]. apply transient_not_client, H, Hj. }
  split; [|split].
  - intros k err r Hk Hbefore Hc Hr Hstatus.
    destruct (Retrying_decided _ _ _ _ _ _ _ Hrun eq_refl k) as [_ H4].
    + cbn. lia.
    + lia.
    + apply Hretried, Hbefore.
    + specialize (H4 err Hc). unfold AttendanceProcessor.isClientError in H4.
      rewrite Hr in H4. destruct H4 as [H4 H4'].
      * apply andb_true_iff. split; [apply Z.leb_le|apply Z.ltb_lt]; lia.
      * split; [|exact H4']. rewrite H4. unfold AttendanceProcessor.failed.
        rewrite Hr. reflexivity.
  - intros k res Hk Hbefore Hc.
    destruct (Retrying_decided _ _ _ _ _ _ _ Hrun eq_refl k) as [H2 _].
    + cbn. lia.
    + lia.
    + apply Hretried, Hbefore.
    + exact (H2 res Hc).
  - intros Hall.
    destruct (Retrying_exhausted _ _ _ _ _ _ _ Hrun eq_refl) as [Hp Hr].
    + intros j _ Hj. apply transient_not_client, Hall. lia.
    + cbn [AttendanceProcessor.posts filter List.length] in Hp, Hr.
      fold n in Hp, Hr. split; [lia|]. rewrite Hr.
      destruct (Nat.ltb_spec 0 n) as [L|G]; [reflexivity|].
      assert (n = 0) as -> by lia. reflexivity.
Qed.

Lemma syncToCloud_retry_policy_witness :
  [mixedDayA] <> []
  /\ transient (recoveringCloud 0)
  /\ fst (AttendanceProcessor.syncToCloud threeAttempts recoveringCloud
            [mixedDayA] "2024-11-20")
     = {| AttendanceProcessor.success := true;
          AttendanceProcessor.sent := 1;
          AttendanceProcessor.sync_response := Some "stored" |}
  /\ AttendanceProcessor.posts
       (snd (AttendanceProcessor.syncToCloud threeAttempts recoveringCloud
               [mixedDayA] "2024-11-20")) = 2.
Proof.
  assert (transient (recoveringCloud 0)) as Hfirst.
  { eexists. split; [reflexivity|]. cbn. lia. }
  split; [discriminate|]. split; [exact Hfirst|].
  refine (proj1 (proj2 (proj2 (proj2
            (syncToCloud_retry_policy threeAttempts recoveringCloud [mixedDayA]
               "2024-11-20" ltac:(discriminate)))))
            1 (answer 200 "stored") ltac:(cbn; lia) _ eq_refl).
  intros j Hj. assert (j = 0) as -> by lia. exact Hfirst.
Defined.

(* ================================================================== *)
(** ** Matching a device against the target name                        *)
(* ================================================================== *)

Lemma prefix_append (t s : string) :
  String.prefix t s = true <-> exists after, s = t ++ after.
Proof.
  revert s. induction t as [|c t IH]; intros s.
  - destruct s; cbn; split; eauto.
  - destruct s as [|d s]; cbn; [split; [discriminate|intros [? [=]]]|].
    destruct (Ascii.ascii_dec c d) as [->|Hne].
    + rewrite IH. split; intros [after H]; exists after; congruence.
    + split; [discriminate|]. intros [after [= E _]]. congruence.
Qed.

Lemma includes_substringOf (s t : string) :
  Js.includes s t = true <-> substringOf t s.
Proof.
  unfold substringOf. induction s as [|c s IH]; cbn [Js.includes].
  - rewrite orb_false_r, prefix_append. split.
    + intros [after H]. exists "", after. exact H.
    + intros ([|? before] & after & H); [eauto|discriminate].
  - rewrite orb_true_iff, prefix_append, IH. split.
    + intros [[after H]|(before & after & H)].
      * exists "", after. exact H.
      * exists (String c before), after. cbn. now rewrite H.
    + intros ([|d before] & after & H).
      * left. eauto.
      * right. cbn in H. injection H as _ H. eauto.
Qed.

Lemma truthy_nonempty (text : string) : Js.truthy text = true <-> text <> "".
Proof. destruct text; cbn; split; congruence. Qed.

Section MatchFacts.

Import DeviceDiscovery.

Variable toLowerCase : string -> string.
Variable String_ : json -> string.
Variable JSON_stringify : json -> string.

Lemma fieldMatch_iff (info : DeviceInfo) (target : string) :
  existsb (fun c => (c =? target)%string || Js.includes c target || Js.includes target c)
    (candidatesOf toLowerCase String_ info) = true
  <-> fieldMatches toLowerCase String_ info target.
Proof.
  unfold fieldMatches, candidatesOf. rewrite existsb_exists. split.
  - intros (c & Hc & Hm). apply in_map_iff in Hc. destruct Hc as (v & <- & Hv).
    apply filter_In in Hv. destruct Hv as [Hv Ht]. exists v.
    split; [exact Hv|]. split; [exact Ht|].
    apply orb_true_iff in Hm. destruct Hm as [Hm|Hm].
    + apply orb_true_iff in Hm. destruct Hm as [Hm|Hm].
      * left. apply String.eqb_eq, Hm.
      * right. left. apply includes_substringOf, Hm.
    + right. right. apply includes_substringOf, Hm.
  - intros (v & Hv & Ht & Hm). exists (fieldText toLowerCase String_ v). split.
    + apply in_map_iff. exists v. split; [reflexivity|]. apply filter_In. auto.
    + destruct Hm as [Hm|[Hm|Hm]].
      * rewrite Hm, String.eqb_refl. reflexivity.
      * apply includes_substringOf in Hm. rewrite Hm, orb_true_r. reflexivity.
      * apply includes_substringOf in Hm. rewrite Hm, orb_true_r. reflexivity.
Qed.

End MatchFacts.

Example match_by_model :
  DeviceDiscovery.isTargetDevice Js.toLowerCase literalText literalText
    (Some (modelOnly "DS-K1T342MFX-E1" "<DeviceInfo><model>DS-K1T342MFX-E1</model></DeviceInfo>"))
    (Some "  ds-k1t342mfx-e1 ") = true.
Proof. vm_compute. reflexivity. Qed.

Example match_by_raw :
  DeviceDiscovery.isTargetDevice Js.toLowerCase literalText literalText
    (Some (modelOnly "DS-K1T342MFX-E1" "<DeviceInfo><name>Front Gate</name></DeviceInfo>"))
    (Some "front gate") = true.
Proof. vm_compute. reflexivity. Qed.

Example no_match :
  DeviceDiscovery.isTargetDevice Js.toLowerCase literalText literalText
    (Some (modelOnly "DS-K1T342MFX-E1" "<DeviceInfo><name>Front Gate</name></DeviceInfo>"))
    (Some "back gate") = false.
Proof. vm_compute. reflexivity. Qed.

(** A model name with a small accented letter matches the target
    written in capitals, once the lower-casing knows the letter. *)
Example match_beyond_ascii :
  DeviceDiscovery.isTargetDevice lowerWithEAcute literalText literalText
    (Some (modelOnly ("Entr" ++ smallEAcute ++ "e") "<DeviceInfo/>"))
    (Some ("ENTR" ++ capitalEAcute ++ "E")) = true.
Proof. vm_compute. reflexivity. Qed.

(** C9 as stated fails: a device that answers the JSON text [0] is
    normalised to an identity without fields whose raw payload is the
    number 0; the payload's text contains the target name [0], and
    [isTargetDevice] says no, because it searches the raw payload only
    when that payload is truthy. The texts here are ASCII, on which the
    lower-casing of the runtime is [Js.toLowerCase]. *)
Lemma isTargetDevice_falsy_raw_counterexample :
  let info := blankIdentity (DeviceDiscovery.JNum 0) in
  DeviceDiscovery.normaliseDeviceInfo parseZero None "0" (Some "application/json")
    = Ok (Some info)
  /\ ~ fieldMatches Js.toLowerCase literalText info (Js.trim (Js.toLowerCase "0"))
  /\ substringOf (Js.trim (Js.toLowerCase "0")) (rawText Js.toLowerCase literalText info)
  /\ DeviceDiscovery.isTargetDevice Js.toLowerCase literalText literalText (Some info) (Some "0") = false.
Proof.
  cbv zeta. split; [reflexivity|]. split; [|split; [|reflexivity]].
  - intros (v & Hv & Ht & _). cbn in Hv.
    destruct Hv as [<-|[<-|[<-|[<-|[]]]]]; discriminate.
  - exists "", "". reflexivity.
Qed.

(** C9, amended. For every normalised device identity and every target
    name that is not empty, [isTargetDevice] returns [true] exactly when
    either some populated field among the name, the model, the serial
    number and the MAC address, lower-cased and trimmed, is equal to, a
    superstring of, or a substring of the target name, lower-cased and
    trimmed; or, no field matching, the raw payload is truthy and its
    text (itself when it is a string, its JSON text otherwise),
    lower-cased, contains that target. *)
Theorem isTargetDevice_iff
  (toLowerCase : string -> string)
  (String_ JSON_stringify : DeviceDiscovery.json -> string)
  (info : DeviceDiscovery.DeviceInfo) (targetName : string) :
  targetName <> "" ->
  let target := Js.trim (toLowerCase targetName) in
  DeviceDiscovery.isTargetDevice toLowerCase String_ JSON_stringify (Some info) (Some targetName) = true
  <-> fieldMatches toLowerCase String_ info target
      \/ (~ fieldMatches toLowerCase String_ info target
          /\ DeviceDiscovery.truthyJ (DeviceDiscovery._raw info) = true
          /\ substringOf target (rawText toLowerCase JSON_stringify info)).
Proof.
  intros Hne target. unfold DeviceDiscovery.isTargetDevice.
  apply truthy_nonempty in Hne. rewrite Hne. cbn [negb]. fold target.
  pose proof (fieldMatch_iff toLowerCase String_ info target) as Hf.
  destruct (existsb _ (DeviceDiscovery.candidatesOf toLowerCase String_ info)) eqn:E.
  - split; [intros _; left; apply Hf; reflexivity|reflexivity].
  - assert (~ fieldMatches toLowerCase String_ info target) as Hno
      by (intros H; apply Hf in H; discriminate).
    destruct (DeviceDiscovery.truthyJ (DeviceDiscovery._raw info)) eqn:Hraw.
    + fold (rawText toLowerCase JSON_stringify info). rewrite includes_substringOf.
      split; [intros H; right; auto|]. intros [H|(_ & _ & H)]; [contradiction|exact H].
    + split; [discriminate|]. intros [H|(_ & H & _)]; [contradiction|discriminate].
Qed.

Lemma isTargetDevice_iff_witness :
  "ds-k1t342" <> ""
  /\ (DeviceDiscovery.isTargetDevice Js.toLowerCase literalText literalText
        (Some (modelOnly "DS-K1T342MFX-E1" "<DeviceInfo/>")) (Some "ds-k1t342") = true
      <-> fieldMatches Js.toLowerCase literalText (modelOnly "DS-K1T342MFX-E1" "<DeviceInfo/>") "ds-k1t342"
          \/ (~ fieldMatches Js.toLowerCase literalText (modelOnly "DS-K1T342MFX-E1" "<DeviceInfo/>")
                 "ds-k1t342"
              /\ DeviceDiscovery.truthyJ (DeviceDiscovery.JStr "<DeviceInfo/>") = true
              /\ substringOf "ds-k1t342"
                   (rawText Js.toLowerCase literalText (modelOnly "DS-K1T342MFX-E1" "<DeviceInfo/>")))).
Proof.
  split; [discriminate|].
  exact (isTargetDevice_iff Js.toLowerCase literalText literalText
           (modelOnly "DS-K1T342MFX-E1" "<DeviceInfo/>") "ds-k1t342" ltac:(discriminate)).
Defined.


(* ================================================================== *)
(** ** The two-step request of the client                               *)
(* ================================================================== *)

(** X1. [request] sends one request without credentials and at most one
    more; every request carries the upper-cased method, the path, the
    parameters and the body it was given. The second one is sent only to
    answer a 401 that brings a challenge, and its [Authorization] is the
    digest for that challenge. The call returns data in two cases only:
    the first answer has a status other than 401, whatever it is, and
    the data is its body; or the answer to the second request has a
    status below 400, and the data is its body. *)
Theorem request_digest_exchange (Data : Type) (JSON_stringify : Data -> option string)
  (client : ClientRequest.Client) (http : ClientRequest.Http Data) (cnonce : string)
  (method path : string) (body : option Data) (params : list (string * string)) :
  let out := ClientRequest.request Data JSON_stringify client http cnonce
               method path body params in
  (forall r, In r (snd out) ->
     ClientRequest.rq_method Data r = Js.toUpperCase method
     /\ ClientRequest.rq_url Data r = path
     /\ ClientRequest.rq_params Data r = params
     /\ ClientRequest.rq_data Data r = body)
  /\ exists first,
       ClientRequest.rq_authorization Data first = None
       /\ (snd out = [first]
           \/ exists second probe challenge,
                snd out = [first; second]
                /\ http [] first = Ok probe
                /\ ClientRequest.rs_status Data probe = 401%Z
                /\ ClientRequest.rs_wwwAuthenticate Data probe = Some challenge
                /\ challenge <> ""
                /\ ClientRequest.rq_authorization Data second
                   = Some (HikvisionClient.buildDigestAuth (Js.toUpperCase method) path
                             (ClientRequest.username client) (ClientRequest.password client)
                             challenge cnonce))
       /\ forall d,
            fst out = Ok d <->
            (exists probe, http [] first = Ok probe
               /\ ClientRequest.rs_status Data probe <> 401%Z
               /\ ClientRequest.rs_data Data probe = d)
            \/ (exists second authed,
                  snd out = [first; second]
                  /\ http [first] second = Ok authed
                  /\ (ClientRequest.rs_status Data authed < 400)%Z
                  /\ ClientRequest.rs_data Data authed = d).
Proof.
  cbv zeta. unfold ClientRequest.request.
  set (first := {| ClientRequest.rq_method := Js.toUpperCase method;
                   ClientRequest.rq_authorization := None |}).
  assert (forall r, In r [first] ->
            ClientRequest.rq_method Data r = Js.toUpperCase method
            /\ ClientRequest.rq_url Data r = path
            /\ ClientRequest.rq_params Data r = params
            /\ ClientRequest.rq_data Data r = body) as Hone
    by (intros r [<-|[]]; cbn; auto).
  destruct (http [] first) as [probe|e1] eqn:H1.
  2:{ split; [exact Hone|].
      exists first. split; [reflexivity|]. split; [now left|].
      intros d. cbn [fst snd]. split; [discriminate|].
      intros [(p & E & _)|(s & a & [=] & _)]. congruence. }
  destruct (Z.eqb_spec (ClientRequest.rs_status Data probe) 401) as [S1|S1]; cbn [negb].
  2:{ split; [exact Hone|].
      exists first. split; [reflexivity|]. split; [now left|].
      intros d. cbn [fst snd]. split.
      - intros [= <-]. left. eauto.
      - intros [(p & E & _ & <-)|(s & a & [=] & _)]. congruence. }
  destruct (ClientRequest.rs_wwwAuthenticate Data probe) as [challenge|] eqn:W.
  2:{ split; [exact Hone|].
      exists first. split; [reflexivity|]. split; [now left|].
      intros d. cbn [fst snd]. split; [discriminate|].
      intros [(p & E & N & _)|(s & a & [=] & _)]. congruence. }
  destruct challenge as [|c challenge]; cbn [Js.truthy negb].
  { split; [exact Hone|].
    exists first. split; [reflexivity|]. split; [now left|].
    intros d. cbn [fst snd]. split; [discriminate|].
    intros [(p & E & N & _)|(s & a & [=] & _)]. congruence. }
  set (second := {| ClientRequest.rq_method := Js.toUpperCase method;
                    ClientRequest.rq_authorization := Some _ |}).
  assert (forall r, In r [first; second] ->
            ClientRequest.rq_method Data r = Js.toUpperCase method
            /\ ClientRequest.rq_url Data r = path
            /\ ClientRequest.rq_params Data r = params
            /\ ClientRequest.rq_data Data r = body) as Htwo
    by (intros r [<-|[<-|[]]]; cbn; auto).
  assert (exists second' probe' challenge',
            [first; second] = [first; second']
            /\ http [] first = Ok probe'
            /\ ClientRequest.rs_status Data probe' = 401%Z
            /\ ClientRequest.rs_wwwAuthenticate Data probe' = Some challenge'
            /\ challenge' <> ""
            /\ ClientRequest.rq_authorization Data second'
               = Some (HikvisionClient.buildDigestAuth (Js.toUpperCase method)
                         path (ClientRequest.username client)
                         (ClientRequest.password client) challenge' cnonce)) as Hsent.
  { exists second, probe, (String c challenge).
    repeat split; try assumption; try reflexivity. discriminate. }
  assert (forall p, http [] first = Ok p -> ClientRequest.rs_status Data p <> 401%Z -> False)
    as Hprobe by (intros p E N; apply N; congruence).
  destruct (http [first] second) as [authed|e2] eqn:H2.
  2:{ split; [exact Htwo|]. exists first. split; [reflexivity|]. split; [right; exact Hsent|].
      intros d. cbn [fst snd]. split; [discriminate|].
      intros [(p & E & N & _)|(s & a & [= <-] & E & _)]; [destruct (Hprobe p E N)|].
      congruence. }
  destruct (Z.eqb_spec (ClientRequest.rs_status Data authed) 401) as [S2|S2].
  { split; [exact Htwo|]. exists first. split; [reflexivity|]. split; [right; exact Hsent|].
    intros d. cbn [fst snd]. split; [discriminate|].
    intros [(p & E & N & _)|(s & a & [= <-] & E & L & _)]; [destruct (Hprobe p E N)|].
    assert (a = authed) as -> by congruence. lia. }
  rewrite Z.geb_leb.
  destruct (Z.leb_spec 400 (ClientRequest.rs_status Data authed)) as [S3|S3].
  { split; [exact Htwo|]. exists first. split; [reflexivity|]. split; [right; exact Hsent|].
    intros d. cbn [fst snd]. split; [discriminate|].
    intros [(p & E & N & _)|(s & a & [= <-] & E & L & _)]; [destruct (Hprobe p E N)|].
    assert (a = authed) as -> by congruence. lia. }
  split; [exact Htwo|]. exists first. split; [reflexivity|]. split; [right; exact Hsent|].
  intros d. cbn [fst snd]. split.
  - intros [= <-]. right. exists second, authed. auto.
  - intros [(p & E & N & _)|(s & a & [= <-] & E & L & <-)]; [destruct (Hprobe p E N)|].
    congruence.
Qed.

(* ================================================================== *)
(** ** What the event-log query asks for and what it returns            *)
(* ================================================================== *)

Section PagesFacts.

Import HikvisionClient.

Variable dev : Device.

Lemma pagesFor_snoc (rest : list Payload) :
  forall (before : list Payload) (p : Payload) (page : option AcsEvent),
    List.length (pagesFor dev before rest) = List.length rest ->
    dev (before ++ rest)%list p = Ok page ->
    pagesFor dev before (rest ++ [p])%list = (pagesFor dev before rest ++ [page])%list.
Proof.
  induction rest as [|q rest IH]; intros before p page Hlen Hp; cbn in *.
  - rewrite app_nil_r in Hp. now rewrite Hp.
  - destruct (dev before q) as [pg|e]; [|discriminate]. cbn in *.
    f_equal. apply IH; [lia|]. rewrite <- app_assoc. exact Hp.
Qed.

Variable mk : nat -> Payload.
Variable total : Z.

(** A run keeps this: every request sent was answered, and the entries
    held are those of the answers, in the order of the requests. *)
Lemma Paging_pages events sent out result :
  Paging dev mk total events sent out ->
  List.length (pagesFor dev [] sent) = List.length sent ->
  events = flat_map infoListOf (pagesFor dev [] sent) ->
  fst out = Ok result ->
  List.length (pagesFor dev [] (snd out)) = List.length (snd out)
  /\ result = flat_map infoListOf (pagesFor dev [] (snd out)).
Proof.
  induction 1 as [events sent Hc|events sent e Hlt He|events sent page Hlt Hp Hb
                 |events sent page out Hlt Hp Hb Hrun IH];
    cbn [fst snd]; intros Hlen Hev E.
  - injection E as <-. auto.
  - discriminate.
  - injection E as <-.
    rewrite (pagesFor_snoc sent [] _ page Hlen Hp).
    rewrite !length_app, flat_map_app. cbn. rewrite Hb, app_nil_r.
    split; [lia|assumption].
  - apply IH; [| |exact E].
    + rewrite (pagesFor_snoc sent [] _ page Hlen Hp), !length_app. cbn. lia.
    + rewrite (pagesFor_snoc sent [] _ page Hlen Hp), flat_map_app. cbn.
      rewrite app_nil_r. now rewrite Hev.
Qed.

(** The requests of a run are those already sent followed by requests at
    offsets that go up from the number of entries held. *)
Lemma Paging_offsets events sent out :
  Paging dev mk total events sent out ->
  exists offsets,
    snd out = (sent ++ List.map mk offsets)%list
    /\ ascending offsets
    /\ forall n, In n offsets -> List.length events <= n.
Proof.
  induction 1 as [events sent Hc|events sent e Hlt He|events sent page Hlt Hp Hb
                 |events sent page out Hlt Hp Hb Hrun IH]; cbn [snd].
  - exists []. rewrite app_nil_r. cbn. split; [reflexivity|]. split; [exact I|].
    intros n [].
  - exists [List.length events]. cbn. split; [reflexivity|]. split; [auto|].
    intros n [<-|[]]. lia.
  - exists [List.length events]. cbn. split; [reflexivity|]. split; [auto|].
    intros n [<-|[]]. lia.
  - destruct IH as (offsets & Hsent & Hasc & Hge).
    exists (List.length events :: offsets). split; [|split].
    + rewrite Hsent, <- app_assoc. reflexivity.
    + cbn. split; [|exact Hasc].
      destruct offsets as [|b rest]; [exact I|].
      specialize (Hge b (or_introl eq_refl)). rewrite length_app in Hge.
      destruct (infoListOf page); [congruence|]. cbn in Hge. lia.
    + intros n [<-|Hn]; [lia|]. specialize (Hge n Hn). rewrite length_app in Hge. lia.
Qed.

(** A result beyond the declared total ends in a page that was asked for
    while the count was still below the total. *)
Lemma Paging_last_page events sent out result :
  Paging dev mk total events sent out ->
  fst out = Ok result ->
  result = events
  \/ exists before sent' page,
       result = (before ++ infoListOf page)%list
       /\ (Z.of_nat (List.length before) < total)%Z
       /\ dev sent' (mk (List.length before)) = Ok page.
Proof.
  induction 1 as [events sent Hc|events sent e Hlt He|events sent page Hlt Hp Hb
                 |events sent page out Hlt Hp Hb Hrun IH]; cbn [fst]; intros E.
  - left. congruence.
  - discriminate.
  - left. congruence.
  - destruct (IH E) as [->|(before & sent' & page' & -> & Hb' & Hd)].
    + right. exists events, sent, page. auto.
    + right. eauto 6.
Qed.

End PagesFacts.

(** With both times given, [collectEvents] after a first answer is a run
    of the paging loop; when not all pages are asked for, a run that has
    nothing to fetch. *)
Lemma collectEvents_cases dev opts :
  let missing := "`startTime` and `endTime` are required (YYYY-MM-DDTHH:mm:ss)." in
  let start_ := nullish (HikvisionClient.opt_startTime opts) "" in
  let end_ := nullish (HikvisionClient.opt_endTime opts) "" in
  let mk := HikvisionClient.buildPayload start_ end_
              (nullish (HikvisionClient.opt_maxResults opts) 100%Z) in
  if negb (Js.truthy start_) || negb (Js.truthy end_)
  then HikvisionClient.collectEvents dev opts = (Throw missing, [])
  else
    match dev [] (mk 0) with
    | Throw e => HikvisionClient.collectEvents dev opts = (Throw e, [mk 0])
    | Ok first =>
        Paging dev mk
          (if nullish (HikvisionClient.opt_allPages opts) true
           then HikvisionClient.totalOf first else 0%Z)
          (HikvisionClient.infoListOf first) [mk 0]
          (HikvisionClient.collectEvents dev opts)
    end.
Proof.
  destruct opts as [[start_|] [end_|] maxResults_ allPages]; cbn;
    try reflexivity; try (destruct (Js.truthy start_); reflexivity).
  destruct (Js.truthy start_), (Js.truthy end_); cbn; try reflexivity.
  destruct (dev [] _) as [first|e]; [|reflexivity].
  destruct (nullish allPages true); cbn [andb].
  - destruct (Z.ltb_spec (Z.of_nat (List.length (HikvisionClient.infoListOf first)))
                (HikvisionClient.totalOf first)) as [Hlt|Hge].
    + apply remainingPages_paging.
    + apply paging_complete. assumption.
  - apply paging_complete. lia.
Qed.

(** X2. When [getAttendanceEvents] returns, every request it sent was
    answered, and the records are the entries of those answers, page
    after page in the order of the requests and entry after entry in the
    order of each page, each one normalised with the clock reading of the
    call: nothing is dropped, repeated or moved. *)
Theorem getAttendanceEvents_returns_every_entry
  (now : string) (dev : HikvisionClient.Device) (opts : HikvisionClient.Options)
  (records : list HikvisionClient.AttendanceRecord) :
  fst (HikvisionClient.getAttendanceEvents now dev opts) = Ok records ->
  let sent := snd (HikvisionClient.getAttendanceEvents now dev opts) in
  List.length (pagesFor dev [] sent) = List.length sent
  /\ records = List.map (HikvisionClient.normalise now)
                 (flat_map HikvisionClient.infoListOf (pagesFor dev [] sent))
  /\ List.map HikvisionClient._raw records
     = flat_map HikvisionClient.infoListOf (pagesFor dev [] sent).
Proof.
  rewrite getAttendanceEvents_collect. cbn [fst snd]. intros E.
  assert (exists events,
            fst (HikvisionClient.collectEvents dev opts) = Ok events
            /\ records = List.map (HikvisionClient.normalise now) events)
    as (events & Hev & ->).
  { destruct (fst (HikvisionClient.collectEvents dev opts)) as [events|e];
      [|discriminate]. injection E as <-. eauto. }
  assert (forall l, List.map HikvisionClient._raw
                      (List.map (HikvisionClient.normalise now) l) = l) as Hraw.
  { intros l. rewrite map_map. cbn. apply map_id. }
  rewrite Hraw.
  pose proof (collectEvents_cases dev opts) as Hc. cbv zeta in Hc.
  destruct (negb _ || negb _)%bool.
  { rewrite Hc in Hev. discriminate. }
  set (mk := HikvisionClient.buildPayload _ _ _) in *.
  destruct (dev [] (mk 0)) as [first|e] eqn:Hfirst.
  2:{ rewrite Hc in Hev. discriminate. }
  destruct (Paging_pages dev mk _ _ _ _ events Hc) as [Hlen Hres].
  - cbn. rewrite Hfirst. reflexivity.
  - cbn. rewrite Hfirst. cbn. now rewrite app_nil_r.
  - exact Hev.
  - split; [exact Hlen|]. split; [now rewrite Hres|exact Hres].
Qed.

Lemma getAttendanceEvents_returns_every_entry_witness :
  exists records,
    fst (HikvisionClient.getAttendanceEvents "now" (cappedDevice fiveEntries 7 2)
           (today None)) = Ok records
    /\ List.map HikvisionClient._raw records = fiveEntries.
Proof.
  eexists. split; [reflexivity|].
  exact (proj2 (proj2 (getAttendanceEvents_returns_every_entry "now"
                         (cappedDevice fiveEntries 7 2) (today None) _ eq_refl))).
Defined.

(** X3. Without a start or an end time (left out, or empty)
    [getAttendanceEvents] throws before anything is sent. With both, the
    first request goes out at offset 0; the offsets of the further
    requests go up strictly and none is below the size of the first page,
    so that only an empty first page is asked for again. Every request
    carries the two times as [#stripTz] leaves them, the page size asked
    for (100 when none is given), the search identifier 1 and the
    categories 0. *)
Theorem getAttendanceEvents_requests
  (now : string) (dev : HikvisionClient.Device) (opts : HikvisionClient.Options) :
  let out := HikvisionClient.getAttendanceEvents now dev opts in
  let start_ := nullish (HikvisionClient.opt_startTime opts) "" in
  let end_ := nullish (HikvisionClient.opt_endTime opts) "" in
  (start_ = "" \/ end_ = "" ->
   snd out = []
   /\ fst out = Throw "`startTime` and `endTime` are required (YYYY-MM-DDTHH:mm:ss).")
  /\ (start_ <> "" /\ end_ <> "" ->
      exists offsets,
        List.map HikvisionClient.searchResultPosition (snd out) = 0 :: offsets
        /\ ascending offsets
        /\ (forall first n,
              (exists p, dev [] p = Ok first
                 /\ hd_error (snd out) = Some p) ->
              In n offsets ->
              List.length (HikvisionClient.infoListOf first) <= n)
        /\ forall p, In p (snd out) ->
             HikvisionClient.startTime p = HikvisionClient.stripTz start_
             /\ HikvisionClient.endTime p = HikvisionClient.stripTz end_
             /\ HikvisionClient.maxResults p
                = nullish (HikvisionClient.opt_maxResults opts) 100%Z
             /\ HikvisionClient.searchID p = "1"
             /\ HikvisionClient.major p = 0%Z /\ HikvisionClient.minor p = 0%Z).
Proof.
  cbv zeta. rewrite getAttendanceEvents_collect. cbn [fst snd].
  pose proof (collectEvents_cases dev opts) as Hc. cbv zeta in Hc.
  set (start_ := nullish (HikvisionClient.opt_startTime opts) "") in *.
  set (end_ := nullish (HikvisionClient.opt_endTime opts) "") in *.
  set (mk := HikvisionClient.buildPayload _ _ _) in *.
  split.
  - intros Hmiss.
    assert ((negb (Js.truthy start_) || negb (Js.truthy end_))%bool = true) as Hb.
    { destruct Hmiss as [-> | ->]; [reflexivity|]. apply orb_true_r. }
    rewrite Hb in Hc. rewrite Hc. auto.
  - intros [Hs He].
    assert ((negb (Js.truthy start_) || negb (Js.truthy end_))%bool = false) as Hb.
    { destruct start_; [congruence|]. destruct end_; [congruence|]. reflexivity. }
    rewrite Hb in Hc.
    assert (exists offsets,
              snd (HikvisionClient.collectEvents dev opts) = List.map mk (0 :: offsets)
              /\ ascending offsets
              /\ forall first n, dev [] (mk 0) = Ok first -> In n offsets ->
                   List.length (HikvisionClient.infoListOf first) <= n)
      as (offsets & Hsent & Hasc & Hge).
    { destruct (dev [] (mk 0)) as [first|e].
      - destruct (Paging_offsets dev mk _ _ _ _ Hc) as (offsets & Hsent & Hasc & Hge).
        exists offsets. split; [exact Hsent|]. split; [exact Hasc|].
        intros first' n [= <-]. apply Hge.
      - exists []. rewrite Hc. cbn. split; [reflexivity|]. split; [exact I|].
        intros ? ? [=]. }
    exists offsets. split; [|split; [exact Hasc|split]].
    + rewrite Hsent, map_map. cbn. f_equal. now rewrite map_id.
    + intros first n (p & Hp & Hhd). rewrite Hsent in Hhd. cbn in Hhd.
      injection Hhd as <-. apply Hge, Hp.
    + intros p Hp. rewrite Hsent in Hp. apply in_map_iff in Hp.
      destruct Hp as (n & <- & _). cbn. repeat split.
Qed.

(** An empty first page with three matches declared: offset 0 is asked
    for a second time, and the empty answer ends the loop. *)
Example paging_empty_first_page :
  HikvisionClient.getAttendanceEvents "now" (cappedDevice [] 3 2) (today None)
  = (Ok [], [HikvisionClient.buildPayload "2024-11-20T00:00:00" "2024-11-20T23:59:59" 100 0;
             HikvisionClient.buildPayload "2024-11-20T00:00:00" "2024-11-20T23:59:59" 100 0]).
Proof. vm_compute. reflexivity. Qed.

(** No match declared and three entries on the first page: the three
    are returned, and pass the total by the length of the page. *)
Example overshoot_first_page_alone :
  HikvisionClient.getAttendanceEvents "now" (cappedDevice fiveEntries 0 3) (today None)
  = (Ok (List.map (HikvisionClient.normalise "now") (firstn 3 fiveEntries)),
     [HikvisionClient.buildPayload "2024-11-20T00:00:00" "2024-11-20T23:59:59" 100 0]).
Proof. vm_compute. reflexivity. Qed.

(** X4. The records returned are the first page alone, whatever its
    length, or they end in a page that was asked for while the count
    was still below the declared total. In the second case, and only
    there, what is returned beyond the total is less than the last
    page received; a first page alone can pass the total by its whole
    length ([overshoot_first_page_alone]). *)
Theorem getAttendanceEvents_overshoot_within_last_page
  (now : string) (dev : HikvisionClient.Device) (opts : HikvisionClient.Options)
  (first : option HikvisionClient.AcsEvent)
  (records : list HikvisionClient.AttendanceRecord) :
  let start_ := nullish (HikvisionClient.opt_startTime opts) "" in
  let end_ := nullish (HikvisionClient.opt_endTime opts) "" in
  let mk := HikvisionClient.buildPayload start_ end_
              (nullish (HikvisionClient.opt_maxResults opts) 100%Z) in
  start_ <> "" -> end_ <> "" ->
  dev [] (mk 0) = Ok first ->
  fst (HikvisionClient.getAttendanceEvents now dev opts) = Ok records ->
  records = List.map (HikvisionClient.normalise now) (HikvisionClient.infoListOf first)
  \/ exists before sent page,
       records = List.map (HikvisionClient.normalise now)
                   (before ++ HikvisionClient.infoListOf page)
       /\ (Z.of_nat (List.length before) < HikvisionClient.totalOf first)%Z
       /\ dev sent (mk (List.length before)) = Ok page
       /\ (Z.of_nat (List.length records)
           < HikvisionClient.totalOf first
             + Z.of_nat (List.length (HikvisionClient.infoListOf page)))%Z.
Proof.
  intros start_ end_ mk Hs He Hfirst.
  rewrite getAttendanceEvents_collect. cbn [fst]. intros E.
  pose proof (collectEvents_cases dev opts) as Hc. cbv zeta in Hc.
  fold start_ end_ mk in Hc.
  assert ((negb (Js.truthy start_) || negb (Js.truthy end_))%bool = false) as Hb.
  { destruct start_; [congruence|]. destruct end_; [congruence|]. reflexivity. }
  rewrite Hb, Hfirst in Hc.
  destruct (fst (HikvisionClient.collectEvents dev opts)) as [events|e] eqn:Hev;
    [|discriminate].
  injection E as <-.
  destruct (Paging_last_page dev mk _ _ _ _ events Hc Hev)
    as [->|(before & sent & page & -> & Hlt & Hd)].
  - now left.
  - right. exists before, sent, page. split; [reflexivity|].
    assert (Z.of_nat (List.length before) < HikvisionClient.totalOf first)%Z as Hlt'
      by (destruct (nullish (HikvisionClient.opt_allPages opts) true); lia).
    split; [exact Hlt'|]. split; [exact Hd|].
    rewrite length_map, length_app. lia.
Qed.

Lemma getAttendanceEvents_overshoot_within_last_page_witness :
  let mk := HikvisionClient.buildPayload "2024-11-20T00:00:00" "2024-11-20T23:59:59" 100 in
  let records :=
    List.map (HikvisionClient.normalise "now")
      (firstn 3 fiveEntries ++ firstn 3 fiveEntries) in
  fst (HikvisionClient.getAttendanceEvents "now" repeatingDevice (today (Some true)))
  = Ok records
  /\ (records = List.map (HikvisionClient.normalise "now") (firstn 3 fiveEntries)
      \/ exists before sent page,
           records = List.map (HikvisionClient.normalise "now")
                       (before ++ HikvisionClient.infoListOf page)
           /\ (Z.of_nat (List.length before) < 4)%Z
           /\ repeatingDevice sent (mk (List.length before)) = Ok page
           /\ (Z.of_nat (List.length records)
               < 4 + Z.of_nat (List.length (HikvisionClient.infoListOf page)))%Z).
Proof.
  split; [reflexivity|].
  exact (getAttendanceEvents_overshoot_within_last_page "now" repeatingDevice
           (today (Some true))
           (Some {| HikvisionClient.totalMatches := Some 4%Z;
                    HikvisionClient.InfoList := Some (firstn 3 fiveEntries) |})
           (List.map (HikvisionClient.normalise "now")
              (firstn 3 fiveEntries ++ firstn 3 fiveEntries))
           ltac:(discriminate) ltac:(discriminate) eq_refl eq_refl).
Defined.

(* ================================================================== *)
(** ** The processed attendance as a whole                              *)
(* ================================================================== *)

Lemma notAfter_antisym (a b : string) : notAfter a b -> notAfter b a -> a = b.
Proof.
  unfold notAfter, AttendanceProcessor.compareTimeStrings.
  rewrite (String.compare_antisym b a). intros H1 H2.
  apply String.compare_eq_iff.
  destruct (String.compare a b); cbn in *; congruence.
Qed.

Lemma trimStart_afterSpace (s : string) :
  Js.trimStart s
  = match Js.afterSpace s with Some r => Js.trimStart r | None => s end.
Proof.
  destruct s as [|a [|b [|c r]]]; cbn [Js.trimStart Js.afterSpace]; try reflexivity.
  - destruct (Js.isSpace a); reflexivity.
  - destruct (Js.isSpace a); [reflexivity|]. destruct (Js.isSpace2 a b); reflexivity.
  - destruct (Js.isSpace a); [reflexivity|]. destruct (Js.isSpace2 a b); [reflexivity|].
    destruct (Js.isSpace3 a b c); reflexivity.
Qed.

Lemma allSpaces_afterSpace (s : string) :
  Js.allSpaces s
  = match s with
    | EmptyString => true
    | _ => match Js.afterSpace s with Some r => Js.allSpaces r | None => false end
    end.
Proof.
  destruct s as [|a [|b [|c r]]]; cbn [Js.allSpaces Js.afterSpace]; try reflexivity.
  - destruct (Js.isSpace a); reflexivity.
  - destruct (Js.isSpace a); [reflexivity|]. destruct (Js.isSpace2 a b); reflexivity.
  - destruct (Js.isSpace a); [reflexivity|]. destruct (Js.isSpace2 a b); [reflexivity|].
    destruct (Js.isSpace3 a b c); reflexivity.
Qed.

Lemma trimEnd_cons (a : ascii) (text : string) :
  Js.trimEnd (String a text)
  = if Js.allSpaces (String a text) then "" else String a (Js.trimEnd text).
Proof. reflexivity. Qed.

(** A white space at the start of a text is a text of its own, which
    is white space at the start of any text. *)
Lemma afterSpace_inv (s r : string) :
  Js.afterSpace s = Some r ->
  exists w, s = w ++ r /\ w <> "" /\ forall t, Js.afterSpace (w ++ t) = Some t.
Proof.
  destruct s as [|a s]; [discriminate|]. cbn [Js.afterSpace].
  destruct (Js.isSpace a) eqn:Ha.
  { intros [= <-]. exists (String a ""). split; [reflexivity|]. split; [discriminate|].
    intros t. cbn. now rewrite Ha. }
  destruct s as [|b s]; [discriminate|].
  destruct (Js.isSpace2 a b) eqn:Hb.
  { intros [= <-]. exists (String a (String b "")). split; [reflexivity|].
    split; [discriminate|]. intros t. cbn. now rewrite Ha, Hb. }
  destruct s as [|c s]; [discriminate|].
  destruct (Js.isSpace3 a b c) eqn:Hc; [|discriminate].
  intros [= <-]. exists (String a (String b (String c ""))). split; [reflexivity|].
  split; [discriminate|]. intros t. cbn. now rewrite Ha, Hb, Hc.
Qed.

Lemma afterSpace_shorter (s r : string) :
  Js.afterSpace s = Some r -> String.length r < String.length s.
Proof.
  intros E. destruct (afterSpace_inv s r E) as (w & -> & Hw & _).
  rewrite string_length_app. destruct w; [congruence|cbn; lia].
Qed.

Lemma allSpaces_step (s r : string) :
  Js.afterSpace s = Some r -> Js.allSpaces s = Js.allSpaces r.
Proof.
  intros E. rewrite allSpaces_afterSpace, E. destruct s; [discriminate|reflexivity].
Qed.

Lemma allSpaces_app (a b : string) :
  Js.allSpaces a = true -> Js.allSpaces (a ++ b) = Js.allSpaces b.
Proof.
  remember (String.length a) as n eqn:En. revert a En.
  induction n as [n IH] using lt_wf_ind. intros a -> Ha.
  destruct a as [|c a]; [reflexivity|].
  rewrite allSpaces_afterSpace in Ha.
  destruct (Js.afterSpace (String c a)) as [r|] eqn:E; [|discriminate].
  pose proof (afterSpace_shorter _ _ E) as L.
  destruct (afterSpace_inv _ _ E) as (w & Ew & _ & Hw).
  rewrite Ew, string_app_assoc, (allSpaces_step _ _ (Hw (r ++ b))).
  apply (IH (String.length r) L r eq_refl Ha).
Qed.

(** What is cut off at the start is white space, and what is left does
    not start with any. *)
Lemma trimStart_split (text : string) :
  exists leading,
    text = leading ++ Js.trimStart text /\ Js.allSpaces leading = true
    /\ Js.afterSpace (Js.trimStart text) = None.
Proof.
  remember (String.length text) as n eqn:En. revert text En.
  induction n as [n IH] using lt_wf_ind. intros text ->.
  rewrite trimStart_afterSpace.
  destruct (Js.afterSpace text) as [r|] eqn:E.
  - pose proof (afterSpace_shorter _ _ E) as L.
    destruct (afterSpace_inv _ _ E) as (w & Ew & _ & Hw).
    destruct (IH (String.length r) L r eq_refl) as (leading & El & Hl & Hn).
    exists (w ++ leading). split; [|split; [|exact Hn]].
    + rewrite string_app_assoc, <- El. exact Ew.
    + rewrite (allSpaces_step _ _ (Hw leading)). exact Hl.
  - exists "". repeat split. exact E.
Qed.

(** What is cut off at the end is white space. *)
Lemma trimEnd_split (raw : string) :
  exists trailing, raw = Js.trimEnd raw ++ trailing /\ Js.allSpaces trailing = true.
Proof.
  induction raw as [|a raw (trailing & E & H)].
  - exists "". split; reflexivity.
  - rewrite trimEnd_cons. destruct (Js.allSpaces (String a raw)) eqn:Ha.
    + exists (String a raw). split; [reflexivity|exact Ha].
    + exists trailing. split; [cbn; now rewrite <- E|exact H].
Qed.

Lemma trimEnd_idempotent (text : string) : Js.trimEnd (Js.trimEnd text) = Js.trimEnd text.
Proof.
  induction text as [|a text IH]; [reflexivity|].
  rewrite trimEnd_cons. destruct (Js.allSpaces (String a text)) eqn:Ha; [reflexivity|].
  rewrite trimEnd_cons, IH.
  destruct (Js.allSpaces (String a (Js.trimEnd text))) eqn:Hb; [|reflexivity].
  destruct (trimEnd_split text) as (trailing & E & Ht).
  assert (Js.allSpaces (String a (Js.trimEnd text) ++ trailing) = true) as H
    by (rewrite (allSpaces_app _ _ Hb); exact Ht).
  cbn [append] in H. rewrite <- E in H. congruence.
Qed.

(** A text that does not start with white space has no start that
    does. *)
Lemma afterSpace_prefix (front back : string) :
  Js.afterSpace (front ++ back) = None -> Js.afterSpace front = None.
Proof.
  intros H. destruct (Js.afterSpace front) as [r|] eqn:E; [|reflexivity].
  destruct (afterSpace_inv _ _ E) as (w & -> & _ & Hw).
  rewrite string_app_assoc, Hw in H. discriminate.
Qed.

(** Trimming what is trimmed changes nothing. *)
Lemma trim_idempotent (text : string) : Js.trim (Js.trim text) = Js.trim text.
Proof.
  unfold Js.trim.
  destruct (trimStart_split text) as (leading & _ & _ & Hn).
  destruct (trimEnd_split (Js.trimStart text)) as (trailing & E & _).
  rewrite E in Hn. apply afterSpace_prefix in Hn.
  rewrite (trimStart_afterSpace (Js.trimEnd (Js.trimStart text))), Hn.
  apply trimEnd_idempotent.
Qed.


Lemma retainedOf_In (adm : string) (records : list HikvisionClient.AttendanceRecord)
  (r : HikvisionClient.AttendanceRecord) :
  In r (retainedOf adm records)
  <-> In r records /\ AttendanceProcessor.hasStudentId r = true
      /\ AttendanceProcessor.idOf r = adm.
Proof.
  unfold retainedOf. rewrite !filter_In, String.eqb_eq. tauto.
Qed.

Lemma collapse_Some (hour minute : Z) (adm : string)
  (events : list HikvisionClient.AttendanceRecord) :
  parsedTimes events <> [] ->
  exists p, AttendanceProcessor.collapse hour minute adm events = Some p.
Proof.
  intros H. unfold AttendanceProcessor.collapse.
  destruct (AttendanceProcessor.sortedTimes events) as [|first rest] eqn:E; [|eauto].
  exfalso. destruct (parsedTimes events) as [|t l] eqn:Ep; [congruence|].
  destruct (parsedTimes_sorted t events) as [e He]; [rewrite Ep; now left|].
  rewrite E in He. exact He.
Qed.

(** The converse of [processAttendance_In]. *)
Lemma processAttendance_collapse (hour minute : Z)
  (records : list HikvisionClient.AttendanceRecord) (adm : string)
  (p : AttendanceProcessor.ProcessedAttendance) :
  AttendanceProcessor.collapse hour minute adm (retainedOf adm records) = Some p ->
  retainedOf adm records <> [] ->
  In p (AttendanceProcessor.processAttendance hour minute records).
Proof.
  intros Hc Hne. unfold AttendanceProcessor.processAttendance. rewrite in_flat_map.
  destruct (groupByStudent_Grouped (filter AttendanceProcessor.hasStudentId records))
    as (_ & Hgroups & Hcover).
  destruct (retainedOf adm records) as [|r l] eqn:E; [congruence|].
  assert (In r (retainedOf adm records)) as Hr by (rewrite E; now left).
  unfold retainedOf in Hr. apply filter_In in Hr. destruct Hr as [Hr Hid].
  apply String.eqb_eq in Hid. specialize (Hcover r Hr). rewrite Hid in Hcover.
  apply in_map_iff in Hcover. destruct Hcover as ([k v] & Hk & Hin). cbn in Hk. subst k.
  exists (adm, v). split; [exact Hin|]. cbn [fst snd].
  destruct (Hgroups adm v Hin) as [Hv _]. fold (retainedOf adm records) in Hv.
  rewrite Hv, E, Hc. now left.
Qed.

Section OnePerKey.

Context {A B : Type}.
Variable key : B -> string.
Variable f : string * A -> option B.

Lemma flat_map_option_NoDup (l : list (string * A)) :
  NoDup (List.map fst l) ->
  (forall e p, f e = Some p -> key p = fst e) ->
  NoDup (List.map key
           (flat_map (fun e => match f e with Some p => [p] | None => [] end) l)).
Proof.
  intros Hnd Hkey. induction l as [|e l IH]; cbn; [constructor|].
  inversion Hnd as [|? ? Hout Hnd']; subst.
  destruct (f e) as [p|] eqn:E; cbn; [|apply IH, Hnd'].
  constructor; [|apply IH, Hnd'].
  intros Hin. apply in_map_iff in Hin. destruct Hin as (q & Hq & Hin).
  apply in_flat_map in Hin. destruct Hin as (e' & He' & Hq').
  destruct (f e') as [q'|] eqn:E'; [|contradiction].
  destruct Hq' as [->|[]].
  apply Hout. rewrite <- (Hkey e p E), <- Hq, (Hkey e' q E'). apply in_map, He'.
Qed.

End OnePerKey.

(** X5. [processAttendance] gives one record for each student who has a
    scan that counts (an identifier that passes the filter and a time
    stamp that parses), and none for anyone else: the admission numbers
    of the output are pairwise distinct, and an admission number is among
    them if and only if some input record counts for it. *)
Theorem processAttendance_one_record_per_student (hour minute : Z)
  (records : list HikvisionClient.AttendanceRecord) :
  let output := AttendanceProcessor.processAttendance hour minute records in
  NoDup (List.map AttendanceProcessor.adm_no output)
  /\ forall adm,
       In adm (List.map AttendanceProcessor.adm_no output)
       <-> exists r, In r records /\ countsFor adm r.
Proof.
  cbv zeta. split.
  - unfold AttendanceProcessor.processAttendance.
    apply (flat_map_option_NoDup AttendanceProcessor.adm_no
             (fun e => AttendanceProcessor.collapse hour minute (fst e) (snd e))).
    + apply groupByStudent_Grouped.
    + intros e p Hp. apply collapse_spec in Hp. apply Hp.
  - intros adm. rewrite in_map_iff. split.
    + intros (p & <- & Hp). apply processAttendance_In in Hp.
      destruct Hp as (adm & Hc & _). apply collapse_spec in Hc.
      destruct Hc as (-> & (t & Ht & _) & _).
      apply parsedTimes_In in Ht. destruct Ht as (r & Hr & Hparse).
      apply retainedOf_In in Hr. destruct Hr as (Hr & Hid & Hadm).
      exists r. split; [exact Hr|]. split; [exact Hid|]. split; [exact Hadm|].
      congruence.
    + intros (r & Hr & Hid & Hadm & Hparse).
      assert (In r (retainedOf adm records)) as Hret
        by (apply retainedOf_In; auto).
      destruct (AttendanceProcessor.parseDeviceTime (HikvisionClient.eventTime r))
        as [t|] eqn:Et; [|congruence].
      assert (In t (parsedTimes (retainedOf adm records))) as Ht
        by (apply parsedTimes_In; eauto).
      destruct (collapse_Some hour minute adm (retainedOf adm records)) as [p Hc].
      { intros E. rewrite E in Ht. exact Ht. }
      exists p. split; [apply collapse_spec in Hc; apply Hc|].
      apply processAttendance_collapse with (adm := adm); [exact Hc|].
      intros E. rewrite E in Hret. exact Hret.
Qed.

(** The record of a student is fixed by the set of the parsed times. *)
Lemma collapse_same_times (hour minute : Z) (adm : string)
  (events events' : list HikvisionClient.AttendanceRecord)
  (p p' : AttendanceProcessor.ProcessedAttendance) :
  (forall t, In t (parsedTimes events) -> In t (parsedTimes events')) ->
  (forall t, In t (parsedTimes events') -> In t (parsedTimes events)) ->
  AttendanceProcessor.collapse hour minute adm events = Some p ->
  AttendanceProcessor.collapse hour minute adm events' = Some p' ->
  p = p'.
Proof.
  intros H12 H21 Hp Hp'. apply collapse_spec in Hp, Hp'.
  destruct Hp as (Ha & (t & Ht & Hin & Hleast) & Hout).
  destruct Hp' as (Ha' & (t' & Ht' & Hin' & Hleast') & Hout').
  assert (AttendanceProcessor.time_in p = AttendanceProcessor.time_in p') as Etin.
  { rewrite Hin, Hin'. apply notAfter_antisym; auto. }
  assert (AttendanceProcessor.time_out p = AttendanceProcessor.time_out p') as Etout.
  { destruct (AttendanceProcessor.time_out p) as [o|],
             (AttendanceProcessor.time_out p') as [o'|].
    - destruct Hout as (u & Hu & Ku & -> & Mu). destruct Hout' as (u' & Hu' & Ku' & -> & Mu').
      f_equal. apply notAfter_antisym; auto.
    - destruct Hout as (u & Hu & Ku & _). rewrite (Hout' u (H12 u Hu)) in Ku. discriminate.
    - destruct Hout' as (u & Hu & Ku & _). rewrite (Hout u (H21 u Hu)) in Ku. discriminate.
    - reflexivity. }
  destruct p, p'. cbn in *. congruence.
Qed.

Lemma parsedTimes_same (events events' : list HikvisionClient.AttendanceRecord) :
  (forall r, In r events -> In r events') ->
  forall t, In t (parsedTimes events) -> In t (parsedTimes events').
Proof.
  intros H t Ht. apply parsedTimes_In in Ht. destruct Ht as (e & He & Hp).
  apply parsedTimes_In. eauto.
Qed.

Lemma processAttendance_same_records (hour minute : Z)
  (records records' : list HikvisionClient.AttendanceRecord)
  (p : AttendanceProcessor.ProcessedAttendance) :
  (forall r, In r records <-> In r records') ->
  In p (AttendanceProcessor.processAttendance hour minute records) ->
  In p (AttendanceProcessor.processAttendance hour minute records').
Proof.
  intros Hsame Hp. apply processAttendance_In in Hp. destruct Hp as (adm & Hc & Hne).
  assert (forall r, In r (retainedOf adm records) <-> In r (retainedOf adm records'))
    as Hret by (intros r; rewrite !retainedOf_In, Hsame; tauto).
  assert (retainedOf adm records' <> []) as Hne'.
  { destruct (retainedOf adm records) as [|r l]; [congruence|].
    intros E. rewrite E in Hret. apply (Hret r). now left. }
  pose proof (collapse_spec _ _ _ _ _ Hc) as (_ & (t & Ht & _) & _).
  destruct (collapse_Some hour minute adm (retainedOf adm records')) as [p' Hc'].
  { apply (parsedTimes_same _ (retainedOf adm records')) in Ht; [|apply Hret].
    intros E. rewrite E in Ht. exact Ht. }
  assert (p = p') as <-.
  { apply (collapse_same_times hour minute adm _ _ p p' ) with (3 := Hc) (4 := Hc');
      apply parsedTimes_same; apply Hret. }
  apply processAttendance_collapse with (adm := adm); assumption.
Qed.

(** X6. The processed attendance depends on which records come in, not
    on their order or on how often each one comes: two inputs with the
    same records give the same output records. A page that the terminal
    serves twice, or events that arrive out of order, change nothing. *)
Theorem processAttendance_ignores_order_and_repeats (hour minute : Z)
  (records records' : list HikvisionClient.AttendanceRecord) :
  (forall r, In r records <-> In r records') ->
  forall p,
    In p (AttendanceProcessor.processAttendance hour minute records)
    <-> In p (AttendanceProcessor.processAttendance hour minute records').
Proof.
  intros Hsame p. split; apply processAttendance_same_records; [exact Hsame|].
  intros r. symmetry. apply Hsame.
Qed.

Lemma processAttendance_ignores_order_and_repeats_witness :
  In mixedDayA (AttendanceProcessor.processAttendance 14 30 mixedDay)
  <-> In mixedDayA (AttendanceProcessor.processAttendance 14 30
                      (rev mixedDay ++ mixedDay)).
Proof.
  apply (processAttendance_ignores_order_and_repeats 14 30 mixedDay
           (rev mixedDay ++ mixedDay)).
  intros r. rewrite in_app_iff, <- in_rev. tauto.
Defined.

Lemma clockText_isClockText (t : AttendanceProcessor.DeviceTime) :
  clockText t -> isClockText (AttendanceProcessor.raw t) = true.
Proof.
  intros (a & b & c & d & e & f & Hd & -> & _). unfold isClockText. cbn.
  repeat match goal with
         | H : Forall _ (_ :: _) |- _ => inversion H; clear H; subst
         end.
  repeat match goal with H : Js.isDigit _ = true |- _ => rewrite H end.
  reflexivity.
Qed.

(** X7. Every record of the output is fit to send: its admission number
    has no white space at either end and is neither empty nor the text
    0, its [time_in] has the shape HH:MM:SS, and its [time_out], when
    there is one, has that shape too and is not before [time_in]. *)
Theorem processAttendance_output_well_formed (hour minute : Z)
  (records : list HikvisionClient.AttendanceRecord)
  (p : AttendanceProcessor.ProcessedAttendance) :
  In p (AttendanceProcessor.processAttendance hour minute records) ->
  Js.trim (AttendanceProcessor.adm_no p) = AttendanceProcessor.adm_no p
  /\ AttendanceProcessor.adm_no p <> ""
  /\ AttendanceProcessor.adm_no p <> "0"
  /\ isClockText (AttendanceProcessor.time_in p) = true
  /\ forall o, AttendanceProcessor.time_out p = Some o ->
       isClockText o = true /\ notAfter (AttendanceProcessor.time_in p) o.
Proof.
  intros Hp. apply processAttendance_In in Hp. destruct Hp as (adm & Hc & Hne).
  apply collapse_spec in Hc. destruct Hc as (Hsame & (t & Ht & Hin & Hleast) & Hout).
  subst adm.
  assert (forall u, In u (parsedTimes (retainedOf (AttendanceProcessor.adm_no p) records)) ->
            clockText u) as Hshape.
  { intros u Hu. apply parsedTimes_In in Hu. destruct Hu as (e & _ & Hu).
    exact (parseDeviceTime_clockText _ _ Hu). }
  destruct (retainedOf (AttendanceProcessor.adm_no p) records) as [|r l] eqn:E;
    [congruence|].
  assert (In r (retainedOf (AttendanceProcessor.adm_no p) records)) as Hr
    by (rewrite E; now left).
  apply retainedOf_In in Hr. destruct Hr as (_ & Hid & Hadm).
  unfold AttendanceProcessor.hasStudentId in Hid. cbv zeta in Hid.
  rewrite Hadm in Hid. apply andb_prop in Hid. destruct Hid as [H1 H2].
  apply negb_true_iff, String.eqb_neq in H1, H2.
  split; [|split; [exact H1|split; [exact H2|split]]].
  - rewrite <- Hadm. unfold AttendanceProcessor.idOf. apply trim_idempotent.
  - rewrite Hin. apply clockText_isClockText, Hshape, Ht.
  - intros o Ho. rewrite Ho in Hout. destruct Hout as (u & Hu & _ & -> & _).
    split; [apply clockText_isClockText, Hshape, Hu|].
    rewrite Hin. apply Hleast, Hu.
Qed.

Lemma processAttendance_output_well_formed_witness :
  isClockText (AttendanceProcessor.time_in mixedDayA) = true
  /\ AttendanceProcessor.adm_no mixedDayA <> "".
Proof.
  assert (In mixedDayA (AttendanceProcessor.processAttendance 14 30 mixedDay)) as H
    by (vm_compute; auto).
  destruct (processAttendance_output_well_formed 14 30 mixedDay mixedDayA H)
    as (_ & Hid & _ & Hin & _).
  split; assumption.
Defined.

(* ================================================================== *)
(** ** What the result of the cloud sync means                          *)
(* ================================================================== *)

Section SyncOutcome.

Import AttendanceProcessor.

Variable config : CloudConfig.
Variable cloud : Cloud.
Variable count : nat.

Lemma posts_snoc (log : list Effect) (attempt : Z) :
  posts (log ++ [Post attempt]) = S (posts log).
Proof. rewrite posts_app. cbn. lia. Qed.

Lemma Retrying_outcome attempt lastError log out :
  Retrying config cloud count attempt lastError log out ->
  (forall j, j < posts log -> retriedOutcome (cloud j)) ->
  posts log <= posts (snd out)
  /\ (forall j, S j < posts (snd out) -> retriedOutcome (cloud j))
  /\ (success (fst out) = true
      <-> exists res, posts log < posts (snd out)
            /\ cloud (posts (snd out) - 1) = Resolved res
            /\ sync_response (fst out) = data res)
  /\ sent (fst out) = (if success (fst out) then count else 0).
Proof.
  induction 1 as [a last log Hgt|a last log res Hle Hc|a last log err Hle Hc H4
                 |a last log err out Hle Hc H4 Hrun IH]; intros Hinv; cbn [fst snd].
  - split; [lia|]. split; [intros j Hj; apply Hinv; lia|]. split; [|reflexivity].
    cbn. split; [discriminate|]. intros (res & Hlt & _). lia.
  - rewrite posts_snoc. split; [lia|]. split; [intros j Hj; apply Hinv; lia|].
    split; [|reflexivity]. cbn. split; [|reflexivity]. intros _.
    exists res. rewrite Nat.sub_0_r. auto.
  - rewrite posts_snoc. split; [lia|]. split; [intros j Hj; apply Hinv; lia|].
    split; [|reflexivity]. cbn. split; [discriminate|].
    intros (res & _ & E & _). rewrite Nat.sub_0_r in E. congruence.
  - rewrite (posts_pause config) in IH. destruct IH as (Hge & Hbefore & Hiff & Hsent).
    { intros j Hj. destruct (Nat.eq_dec j (posts log)) as [->|Hne].
      - exists err. auto.
      - apply Hinv. lia. }
    split; [lia|]. split; [exact Hbefore|]. split; [|exact Hsent].
    rewrite Hiff. split.
    + intros (res & Hlt & E & R). exists res. split; [lia|]. auto.
    + intros (res & Hlt & E & R). exists res. split; [|auto].
      destruct (Nat.eq_dec (posts (snd out)) (S (posts log))) as [Eq|]; [|lia].
      rewrite Eq in E. cbn in E. rewrite Nat.sub_0_r in E. congruence.
Qed.

End SyncOutcome.

(** X8. What the result of [syncToCloud] says about what happened. With
    records to send, success is reported exactly when the last POST made
    was answered with success, and the response reported is then the
    body of that answer; every POST before the last one was rejected
    with something other than a status from 400 to 499; [sent] is the
    number of records on success and 0 otherwise. With no attempt
    allowed by the configuration nothing is posted and the call reports
    a failure. *)
Theorem syncToCloud_reports_what_happened
  (config : AttendanceProcessor.CloudConfig) (cloud : AttendanceProcessor.Cloud)
  (attendance : list AttendanceProcessor.ProcessedAttendance) (date : string) :
  attendance <> [] ->
  let result := fst (AttendanceProcessor.syncToCloud config cloud attendance date) in
  let made :=
    AttendanceProcessor.posts
      (snd (AttendanceProcessor.syncToCloud config cloud attendance date)) in
  (AttendanceProcessor.success result = true
   <-> exists res, 0 < made
         /\ cloud (made - 1) = AttendanceProcessor.Resolved res
         /\ AttendanceProcessor.sync_response result = AttendanceProcessor.data res)
  /\ (forall j, S j < made -> retriedOutcome (cloud j))
  /\ AttendanceProcessor.sent result
     = (if AttendanceProcessor.success result then List.length attendance else 0)
  /\ ((AttendanceProcessor.retryAttempts config <= 0)%Z ->
      made = 0 /\ AttendanceProcessor.success result = false).
Proof.
  intros Hne result made.
  assert (AttendanceProcessor.syncToCloud config cloud attendance date
          = AttendanceProcessor.retryLoop config cloud (List.length attendance) 1 None [])
    as Hcall by (destruct attendance; [congruence|reflexivity]).
  subst result made. rewrite Hcall.
  pose proof (retryLoop_Retrying config cloud (List.length attendance) 1 None []) as Hrun.
  set (out := AttendanceProcessor.retryLoop config cloud (List.length attendance) 1 None [])
    in *. clearbody out.
  destruct (Retrying_outcome _ _ _ _ _ _ _ Hrun) as (_ & Hbefore & Hiff & Hsent).
  { intros j Hj. cbn in Hj. lia. }
  split; [exact Hiff|]. split; [exact Hbefore|]. split; [exact Hsent|].
  intros Hzero.
  destruct (Retrying_log _ _ _ _ _ _ _ Hrun) as (n & Hlog & _ & Hn).
  assert (n = 0) as -> by lia. cbn in Hlog.
  assert (AttendanceProcessor.posts (snd out) = 0) as Hmade by (rewrite Hlog; reflexivity).
  split; [exact Hmade|].
  destruct (AttendanceProcessor.success (fst out)) eqn:Es; [|reflexivity].
  destruct (proj1 Hiff eq_refl) as (res & Hlt & _). cbn in Hlt. lia.
Qed.

Lemma syncToCloud_reports_what_happened_witness :
  AttendanceProcessor.success
    (fst (AttendanceProcessor.syncToCloud threeAttempts recoveringCloud
            [mixedDayA] "2024-11-20")) = true
  <-> exists res,
        0 < AttendanceProcessor.posts
              (snd (AttendanceProcessor.syncToCloud threeAttempts recoveringCloud
                      [mixedDayA] "2024-11-20"))
        /\ recoveringCloud
             (AttendanceProcessor.posts
                (snd (AttendanceProcessor.syncToCloud threeAttempts recoveringCloud
                        [mixedDayA] "2024-11-20")) - 1)
           = AttendanceProcessor.Resolved res
        /\ AttendanceProcessor.sync_response
             (fst (AttendanceProcessor.syncToCloud threeAttempts recoveringCloud
                     [mixedDayA] "2024-11-20"))
           = AttendanceProcessor.data res.
Proof.
  exact (proj1 (syncToCloud_reports_what_happened threeAttempts recoveringCloud
                  [mixedDayA] "2024-11-20" ltac:(discriminate))).
Defined.

(* ================================================================== *)
(** ** Device times with a suffix                                       *)
(* ================================================================== *)

Lemma dropFinalZ_app_cons (a : string) (c : ascii) (s : string) :
  Re.dropFinalZ (a ++ String c s) = a ++ Re.dropFinalZ (String c s).
Proof.
  induction a as [|x a IH]; [reflexivity|].
  cbn [append]. rewrite <- IH. destruct a; reflexivity.
Qed.

Lemma leftmost_cons {A : Type} (f : string -> option A) (c : ascii) (s : string) :
  Re.leftmost f (String c s)
  = match f (String c s) with Some v => Some v | None => Re.leftmost f s end.
Proof. reflexivity. Qed.

Lemma clockAt_not_T (c : ascii) (s : string) :
  Ascii.eqb c "T" = false -> Re.clockAt (String c s) = None.
Proof.
  intros H. unfold Re.clockAt.
  do 8 (destruct s as [|? s]; [reflexivity|]). rewrite H. reflexivity.
Qed.

Lemma digit_not_sign (c : ascii) :
  Js.isDigit c = true -> AttendanceProcessor.isSign c = false.
Proof.
  intros H. unfold AttendanceProcessor.isSign.
  rewrite (digit_not c "+" H eq_refl), (digit_not c "-" H eq_refl). reflexivity.
Qed.

Lemma isHHMM_long (a b c d e f : ascii) (s : string) :
  Re.isHHMM (String a (String b (String c (String d (String e (String f s)))))) = false.
Proof. reflexivity. Qed.

Lemma bare_offset (text suffix : string) :
  isBareLocal text = true ->
  Re.dropFinalOffset AttendanceProcessor.isSign (text ++ suffix)
  = text ++ Re.dropFinalOffset AttendanceProcessor.isSign suffix.
Proof.
  unfold isBareLocal.
  rewrite <- (string_of_list_ascii_of_string text).
  generalize (list_ascii_of_string text) as l. intros l.
  rewrite !list_ascii_of_string_of_list_ascii.
  destruct l as [|y1 l]; [discriminate|].
  do 18 (destruct l as [|? l]; [discriminate|]).
  destruct l; [|discriminate].
  cbn [forallb]. intros H.
  repeat match goal with
         | E : (_ && _)%bool = true |- _ => apply andb_prop in E; destruct E
         end.
  repeat match goal with
         | E : Ascii.eqb _ _ = true |- _ => apply Ascii.eqb_eq in E; subst
         end.
  repeat match goal with
         | E : Js.isDigit _ = true |- _ => apply digit_not_sign in E
         end.
  cbn [string_of_list_ascii append Re.dropFinalOffset].
  repeat match goal with
         | E : AttendanceProcessor.isSign _ = false |- _ => rewrite E; clear E
         end.
  rewrite !isHHMM_long, ?andb_false_r.
  change (AttendanceProcessor.isSign ":") with false.
  change (AttendanceProcessor.isSign "T") with false.
  cbn [andb]. reflexivity.
Qed.

Lemma bare_Z (text suffix : string) :
  isBareLocal text = true ->
  exists rest, Re.dropFinalZ (text ++ suffix) = text ++ rest.
Proof.
  intros H. destruct suffix as [|c s].
  - exists "". apply isBareLocal_chars in H.
    destruct H as (_ & _ & front & last & -> & HZ).
    rewrite !string_app_nil_r. now rewrite dropFinalZ_snoc_other by assumption.
  - rewrite dropFinalZ_app_cons. eauto.
Qed.

Lemma bare_clock (text rest : string) :
  isBareLocal text = true ->
  Re.leftmost Re.clockAt (text ++ rest)
  = Some (String.substring 11 2 text, String.substring 14 2 text,
          String.substring 17 2 text)
  /\ String.substring 11 2 text ++ ":" ++ String.substring 14 2 text ++ ":"
     ++ String.substring 17 2 text = String.substring 11 8 text.
Proof.
  unfold isBareLocal.
  rewrite <- (string_of_list_ascii_of_string text).
  generalize (list_ascii_of_string text) as l. intros l.
  rewrite !list_ascii_of_string_of_list_ascii.
  destruct l as [|y1 l]; [discriminate|].
  do 18 (destruct l as [|? l]; [discriminate|]).
  destruct l; [|discriminate].
  cbn [forallb]. intros H.
  repeat match goal with
         | E : (_ && _)%bool = true |- _ => apply andb_prop in E; destruct E
         end.
  repeat match goal with
         | E : Ascii.eqb _ _ = true |- _ => apply Ascii.eqb_eq in E; subst
         end.
  cbn [string_of_list_ascii append]. split; [|reflexivity].
  repeat (rewrite leftmost_cons, clockAt_not_T
            by first [reflexivity | apply digit_not; [assumption|reflexivity]]).
  rewrite leftmost_cons. unfold Re.clockAt.
  repeat match goal with
         | E : Js.isDigit _ = true |- _ => rewrite E; clear E
         end.
  reflexivity.
Qed.


(** X9. On a time stamp that starts with the bare local form
    YYYY-MM-DDTHH:MM:SS, [parseDeviceTime] reads the hour, the minute and
    the second that are written there, whatever follows the seconds: a
    fraction, a final Z, an offset of either sign. The offset is dropped,
    not applied, so the time is the wall clock of the device. *)
Theorem parseDeviceTime_reads_local_clock (text suffix : string) :
  isBareLocal text = true ->
  AttendanceProcessor.parseDeviceTime (Some (text ++ suffix))
  = Some {| AttendanceProcessor.h :=
              AttendanceProcessor.parseInt (String.substring 11 2 text);
            AttendanceProcessor.m :=
              AttendanceProcessor.parseInt (String.substring 14 2 text);
            AttendanceProcessor.s :=
              AttendanceProcessor.parseInt (String.substring 17 2 text);
            AttendanceProcessor.raw := String.substring 11 8 text |}.
Proof.
  intros H. unfold AttendanceProcessor.parseDeviceTime.
  assert (Js.truthy (text ++ suffix) = true) as Ht
    by (destruct text; [discriminate H|reflexivity]).
  rewrite Ht. cbn [negb].
  destruct (bare_Z text suffix H) as [rest ->].
  rewrite (bare_offset _ _ H).
  destruct (bare_clock text (Re.dropFinalOffset AttendanceProcessor.isSign rest) H)
    as [-> Hraw].
  rewrite Hraw. reflexivity.
Qed.

Lemma parseDeviceTime_reads_local_clock_witness :
  AttendanceProcessor.parseDeviceTime (Some "2024-11-20T14:35:07.250-05:00")
  = Some {| AttendanceProcessor.h := 14; AttendanceProcessor.m := 35;
            AttendanceProcessor.s := 7; AttendanceProcessor.raw := "14:35:07" |}.
Proof.
  exact (parseDeviceTime_reads_local_clock "2024-11-20T14:35:07" ".250-05:00" eq_refl).
Defined.

(* ================================================================== *)
(** ** Reading the identity of a device                                 *)
(* ================================================================== *)

Lemma lowerChar_angle (c : ascii) : Js.lowerChar c = "<"%char -> c = "<"%char.
Proof.
  destruct c as [[] [] [] [] [] [] [] []]; vm_compute; congruence.
Qed.

Lemma mapChars_app (f : ascii -> ascii) (a b : string) :
  Js.mapChars f (a ++ b) = Js.mapChars f a ++ Js.mapChars f b.
Proof. induction a as [|c a IH]; cbn; [reflexivity|]. now rewrite IH. Qed.

Lemma stripPrefixCI_same (a : string) :
  forall b r, Js.toLowerCase b = Js.toLowerCase a ->
    DeviceDiscovery.stripPrefixCI a (b ++ r) = Some r.
Proof.
  unfold Js.toLowerCase.
  induction a as [|x a IH]; intros [|y b] r; cbn; try discriminate; [reflexivity|].
  intros [= Hxy Hab]. rewrite Hxy, Ascii.eqb_refl. apply IH, Hab.
Qed.

Lemma prefix_cons (a b : ascii) (p s : string) :
  String.prefix (String a p) (String b s) = (Ascii.eqb a b && String.prefix p s)%bool.
Proof.
  cbn. destruct (ascii_dec a b) as [->|N].
  - now rewrite Ascii.eqb_refl.
  - apply Ascii.eqb_neq in N. now rewrite N.
Qed.

Lemma stripPrefixCI_split (p : string) :
  forall x rest r,
    DeviceDiscovery.stripPrefixCI p (x ++ rest) = Some r ->
    String.prefix (Js.toLowerCase p) (Js.toLowerCase x) = true
    \/ exists p1 c p2, p = p1 ++ String c p2
         /\ String.length p1 = String.length x
         /\ DeviceDiscovery.stripPrefixCI (String c p2) rest = Some r.
Proof.
  induction p as [|a p IH]; intros x rest r H.
  - left. destruct x; reflexivity.
  - destruct x as [|b x].
    + right. exists "", a, p. auto.
    + cbn [append DeviceDiscovery.stripPrefixCI] in H.
      destruct (Ascii.eqb_spec (Js.lowerChar a) (Js.lowerChar b)) as [E|N]; [|discriminate].
      destruct (IH x rest r H) as [L|(p1 & c & p2 & -> & Hlen & Hs)].
      * left. unfold Js.toLowerCase in *. cbn [Js.mapChars]. rewrite prefix_cons, E,
          Ascii.eqb_refl. exact L.
      * right. exists (String a p1), c, p2. cbn. auto.
Qed.

Lemma span_until (sep : ascii) (a rest : string) :
  noneOf (fun c => Ascii.eqb c sep) a ->
  Js.span (fun c => negb (Ascii.eqb c sep)) (a ++ String sep rest) = (a, String sep rest).
Proof.
  unfold noneOf. induction a as [|c a IH]; cbn; intros H.
  - now rewrite Ascii.eqb_refl.
  - inversion H as [|? ? Hc Hrest]; subst. rewrite Hc. cbn. now rewrite IH.
Qed.

Lemma includes_cons (c : ascii) (s t : string) :
  Js.includes (String c s) t = (String.prefix t (String c s) || Js.includes s t)%bool.
Proof. reflexivity. Qed.

Section XmlField.

Variable tag : string.
Hypothesis tag_plain : noneOf (fun c => Ascii.eqb c "<") tag.

Lemma xmlFieldAt_skip (before rest : string) :
  Js.includes (Js.toLowerCase before) (Js.toLowerCase ("<" ++ tag)) = false ->
  Re.leftmost (DeviceDiscovery.xmlFieldAt tag) (before ++ String "<" rest)
  = Re.leftmost (DeviceDiscovery.xmlFieldAt tag) (String "<" rest).
Proof.
  induction before as [|c before IH]; [reflexivity|].
  unfold Js.toLowerCase in *. cbn [Js.mapChars]. rewrite includes_cons.
  intros H. apply orb_false_iff in H. destruct H as [Hp Hi].
  cbn [append]. rewrite leftmost_cons.
  assert (DeviceDiscovery.xmlFieldAt tag (String c (before ++ String "<" rest)) = None) as ->.
  { unfold DeviceDiscovery.xmlFieldAt.
    destruct (DeviceDiscovery.stripPrefixCI ("<" ++ tag) (String c (before ++ String "<" rest)))
      as [r|] eqn:E; [|reflexivity].
    exfalso.
    destruct (stripPrefixCI_split ("<" ++ tag) (String c before) (String "<" rest) r E)
      as [L|(p1 & x & p2 & Hsplit & Hlen & Hs)].
    - unfold Js.toLowerCase in L. cbn [Js.mapChars] in L. cbn [append Js.mapChars] in Hp.
      exact (eq_true_false_abs _ L Hp).
    - destruct p1 as [|y p1]; [discriminate Hlen|].
      cbn in Hsplit. injection Hsplit as _ Htag.
      cbn in Hs. destruct (Ascii.eqb_spec (Js.lowerChar x) (Js.lowerChar "<")) as [Ex|];
        [|discriminate].
      apply lowerChar_angle in Ex. subst x.
      unfold noneOf in tag_plain. rewrite Htag in tag_plain.
      clear - tag_plain. induction p1 as [|z p1 IH]; cbn in tag_plain.
      + inversion tag_plain as [|? ? Hc _]. discriminate.
      + inversion tag_plain. auto. }
  apply IH, Hi.
Qed.

End XmlField.

Lemma xmlFieldAt_element (tag open_ attrs value close_ after : string) :
  Js.toLowerCase open_ = Js.toLowerCase tag ->
  Js.toLowerCase close_ = Js.toLowerCase tag ->
  noneOf (fun c => Ascii.eqb c ">") attrs ->
  value <> "" -> noneOf (fun c => Ascii.eqb c "<") value ->
  DeviceDiscovery.xmlFieldAt tag
    ("<" ++ open_ ++ attrs ++ ">" ++ value ++ "</" ++ close_ ++ ">" ++ after)
  = Some value.
Proof.
  intros Ho Hc Ha Hv Hplain. unfold DeviceDiscovery.xmlFieldAt.
  replace ("<" ++ open_ ++ attrs ++ ">" ++ value ++ "</" ++ close_ ++ ">" ++ after)
    with (("<" ++ open_) ++ attrs ++ ">" ++ value ++ "</" ++ close_ ++ ">" ++ after)
    by reflexivity.
  rewrite stripPrefixCI_same
    by (unfold Js.toLowerCase in *; cbn [append Js.mapChars]; now rewrite Ho).
  change (">" ++ value ++ "</" ++ close_ ++ ">" ++ after)
    with (String ">" (value ++ "</" ++ close_ ++ ">" ++ after)).
  rewrite (span_until ">" attrs _ Ha). cbn [snd].
  change ("</" ++ close_ ++ ">" ++ after)
    with (String "<" (String "/" (close_ ++ ">" ++ after))).
  rewrite (span_until "<" value _ Hplain).
  destruct value as [|v value]; [congruence|].
  replace (String "<" (String "/" (close_ ++ ">" ++ after)))
    with (("</" ++ close_ ++ ">") ++ after)
    by (cbn; rewrite ?string_app_assoc; reflexivity).
  rewrite stripPrefixCI_same; [reflexivity|].
  unfold Js.toLowerCase in *. cbn [append Js.mapChars].
  rewrite !mapChars_app, Hc. reflexivity.
Qed.

(** X10. [xmlField], for a name of word characters, reads the text of
    the first element whose opening tag starts with the name: when no
    [<name] occurs before it (letters compared without case), the
    opening tag runs to its closing bracket, the text is not empty and
    has no opening bracket, and the closing tag carries the name (in
    any letter case), the result is that text, trimmed. *)
Theorem xmlField_reads_first_element
  (tag before open_ attrs value close_ after : string) :
  isName tag = true ->
  Js.includes (Js.toLowerCase before) (Js.toLowerCase ("<" ++ tag)) = false ->
  Js.toLowerCase open_ = Js.toLowerCase tag ->
  Js.toLowerCase close_ = Js.toLowerCase tag ->
  noneOf (fun c => Ascii.eqb c ">") attrs ->
  value <> "" -> noneOf (fun c => Ascii.eqb c "<") value ->
  DeviceDiscovery.xmlField
    (before ++ "<" ++ open_ ++ attrs ++ ">" ++ value ++ "</" ++ close_ ++ ">" ++ after) tag
  = DeviceDiscovery.JStr (Js.trim value).
Proof.
  intros Hname Hbefore Ho Hc Ha Hv Hplain. unfold DeviceDiscovery.xmlField.
  pose proof (isName_no_bracket tag Hname) as Htag.
  change ("<" ++ open_ ++ attrs ++ ">" ++ value ++ "</" ++ close_ ++ ">" ++ after)
    with (String "<" (open_ ++ attrs ++ ">" ++ value ++ "</" ++ close_ ++ ">" ++ after)).
  rewrite (xmlFieldAt_skip tag Htag before _ Hbefore), leftmost_cons.
  change (String "<" (open_ ++ attrs ++ ">" ++ value ++ "</" ++ close_ ++ ">" ++ after))
    with ("<" ++ open_ ++ attrs ++ ">" ++ value ++ "</" ++ close_ ++ ">" ++ after).
  rewrite (xmlFieldAt_element tag open_ attrs value close_ after Ho Hc Ha Hv Hplain).
  reflexivity.
Qed.

Lemma xmlField_reads_first_element_witness :
  DeviceDiscovery.xmlField
    ("<?xml version='1.0'?><DeviceInfo><deviceName>Gate A</deviceName>"
     ++ "<" ++ "Model" ++ " type='x'" ++ ">" ++ " DS-K1T342MFX-E1 " ++ "</" ++ "model" ++ ">"
     ++ "</DeviceInfo>") "model"
  = DeviceDiscovery.JStr "DS-K1T342MFX-E1".
Proof.
  apply (xmlField_reads_first_element "model"
           "<?xml version='1.0'?><DeviceInfo><deviceName>Gate A</deviceName>"
           "Model" " type='x'" " DS-K1T342MFX-E1 " "model" "</DeviceInfo>").
  - reflexivity.
  - reflexivity.
  - reflexivity.
  - reflexivity.
  - repeat constructor.
  - discriminate.
  - repeat constructor.
Defined.

Section NormaliseFacts.

Import DeviceDiscovery.

Variable JSON_parse : string -> Result json.
Variable parseXml : option (string -> Result json).

Lemma bind_Ok {A B : Type} (P : B -> Prop) (r : Result A) (k : A -> Result B) :
  (exists v, r = Ok v) ->
  (forall v, exists d, k v = Ok d /\ P d) ->
  exists d, match r with Throw e => Throw e | Ok v => k v end = Ok d /\ P d.
Proof. intros [v ->] H. apply H. Qed.

Lemma readFields_cases (alt : bool) (info : json) :
  match info with
  | JNull => exists e, readFields alt info = Throw e
  | _ => exists d, readFields alt info = Ok d /\ _raw d = info
  end.
Proof.
  destruct info as [|b|z|t|items|fields].
  - destruct alt; eexists; reflexivity.
  - destruct alt; eexists; split; reflexivity.
  - destruct alt; eexists; split; reflexivity.
  - destruct alt; eexists; split; reflexivity.
  - destruct alt; eexists; split; reflexivity.
  - unfold readFields. cbv beta zeta. cbn [getProp].
    repeat (apply bind_Ok;
            [ destruct alt;
              [ match goal with
                | |- context [lookup ?k fields] => destruct (lookup k fields) as [[]|]
                end; eauto
              | eauto ]
            | intros ? ]).
    eexists. split; reflexivity.
Qed.


(** X11. What [normaliseDeviceInfo] makes of a body that is a text.
    With a content type that mentions json it throws when [JSON.parse]
    throws or the value read is [null], and otherwise always returns an
    identity, even one with every field [null]. With any other content
    type it never throws, whatever xml2js does; it returns [null] when
    the body, trimmed, does not start with an opening bracket; an
    identity it returns has a field that is not [null], and is either
    what xml2js read or the five fields that [xmlField] finds, with the
    body itself as the raw payload. *)
Theorem normaliseDeviceInfo_outcomes (data : string) (contentType : option string) :
  let result := normaliseDeviceInfo JSON_parse parseXml data contentType in
  let ct := Js.toLowerCase (nullish contentType "") in
  let scraped :=
    {| deviceName := xmlField data "deviceName";
       model := xmlField data "model";
       serialNumber := xmlField data "serialNumber";
       firmwareVersion := xmlField data "firmwareVersion";
       macAddress := xmlField data "macAddress";
       _raw := JStr data |} in
  (Js.includes ct "json" = true ->
   match JSON_parse data with
   | Throw e => result = Throw e
   | Ok obj =>
       match unwrapDeviceInfo obj with
       | JNull => exists e, result = Throw e
       | info => exists d, result = Ok (Some d) /\ _raw d = info
       end
   end)
  /\ (Js.includes ct "json" = false ->
      exists r,
        result = Ok r
        /\ (String.prefix "<" (Js.trim data) = false -> r = None)
        /\ forall d, r = Some d ->
             String.prefix "<" (Js.trim data) = true
             /\ (exists v,
                   In v [deviceName d; model d; serialNumber d; firmwareVersion d;
                         macAddress d]
                   /\ v <> JNull)
             /\ (d = scraped
                 \/ exists parse parsed,
                      parseXml = Some parse /\ parse data = Ok parsed
                      /\ _raw d = unwrapDeviceInfo parsed)).
Proof.
  cbv zeta. unfold normaliseDeviceInfo. cbv zeta. split; intros Hct; rewrite Hct.
  - destruct (JSON_parse data) as [obj|e]; [|reflexivity].
    pose proof (readFields_cases true (unwrapDeviceInfo obj)) as H.
    destruct (unwrapDeviceInfo obj); destruct H as [d H];
      [rewrite H; eauto|..]; destruct H as [-> Hraw]; eauto.
  - destruct (String.prefix "<" (Js.trim data)) eqn:Hp; cbn [negb].
    2:{ exists None. split; [reflexivity|]. split; [reflexivity|]. intros d [=]. }
    set (scraped := {| deviceName := xmlField data "deviceName"; _raw := JStr data |}).
    assert ((exists chosen : DeviceInfo,
              match parseXml with
              | Some parse =>
                  match tryCatch
                          (match parse data with
                           | Throw e => Throw e
                           | Ok result =>
                               match readFields false (unwrapDeviceInfo result) with
                               | Throw e => Throw e
                               | Ok d => Ok (Some d)
                               end
                           end)
                          (fun _ => Ok None) with
                  | Ok r => r
                  | Throw _ => None
                  end
              | None => None
              end = Some chosen
              /\ (exists parse parsed,
                    parseXml = Some parse /\ parse data = Ok parsed
                    /\ _raw chosen = unwrapDeviceInfo parsed))
            \/ match parseXml with
               | Some parse =>
                   match tryCatch
                           (match parse data with
                            | Throw e => Throw e
                            | Ok result =>
                                match readFields false (unwrapDeviceInfo result) with
                                | Throw e => Throw e
                                | Ok d => Ok (Some d)
                                end
                            end)
                           (fun _ => Ok None) with
                   | Ok r => r
                   | Throw _ => None
                   end
               | None => None
               end = None) as Hparsed.
    { destruct parseXml as [parse|]; [|now right].
      destruct (parse data) as [parsed|e] eqn:Eparse; [|now right].
      pose proof (readFields_cases false (unwrapDeviceInfo parsed)) as H.
      destruct (unwrapDeviceInfo parsed) eqn:Eu; destruct H as [d H];
        [rewrite H; now right|..];
        destruct H as [-> Hraw]; left; exists d; (split; [reflexivity|]);
        exists parse, parsed; rewrite Eu; auto. }
    match type of Hparsed with
    | (exists _, ?t = _ /\ _) \/ _ => set (parsed := t) in *
    end.
    assert (forall chosen : DeviceInfo,
              (if existsb (fun v => negb (isNull v))
                    [deviceName chosen; model chosen; serialNumber chosen;
                     firmwareVersion chosen; macAddress chosen]
               then Some chosen else None) = Some chosen ->
              exists v,
                In v [deviceName chosen; model chosen; serialNumber chosen;
                      firmwareVersion chosen; macAddress chosen]
                /\ v <> JNull) as Hfield.
    { intros chosen H.
      destruct (existsb _ _) eqn:Ex; [|discriminate].
      apply existsb_exists in Ex. destruct Ex as (v & Hv & Hn).
      exists v. split; [exact Hv|]. intros ->. discriminate. }
    destruct Hparsed as [(chosen & -> & Hfrom)| ->].
    + eexists. split; [reflexivity|]. split; [discriminate|].
      intros d Hd. split; [reflexivity|].
      assert (d = chosen) as -> by (destruct (existsb _ _); congruence).
      split; [apply Hfield, Hd|]. right. exact Hfrom.
    + eexists. split; [reflexivity|]. split; [discriminate|].
      intros d Hd. split; [reflexivity|].
      assert (d = scraped) as -> by (destruct (existsb _ _); congruence).
      split; [apply Hfield, Hd|]. now left.
Qed.

End NormaliseFacts.

(** An XML body read without xml2js: the model is found, the other
    fields are not. *)
Example normaliseDeviceInfo_scrapes :
  DeviceDiscovery.normaliseDeviceInfo parseZero None
    "  <DeviceInfo><model>DS-K1T342MFX-E1</model></DeviceInfo>" (Some "application/xml")
  = Ok (Some (modelOnly "DS-K1T342MFX-E1"
                "  <DeviceInfo><model>DS-K1T342MFX-E1</model></DeviceInfo>")).
Proof. vm_compute. reflexivity. Qed.

(* ================================================================== *)
(** ** The subnets of the machine                                       *)
(* ================================================================== *)

Section TwoRanks.

Context {A : Type}.
Variable virt : A -> bool.

Let rank (a : A) : Z := if virt a then 1 else 0.
Let cmp (a b : A) : comparison := Discovery.signOf (rank a - rank b).

(** A stable sort on a rank of two values puts the elements of the first
    rank in front, each group in its order. *)
Lemma sort_two_ranks (l : list A) :
  AttendanceProcessor.sort cmp l
  = (filter (fun a => negb (virt a)) l ++ filter virt l)%list.
Proof.
  induction l as [|x l IH]; [reflexivity|].
  change (AttendanceProcessor.sort cmp (x :: l))
    with (AttendanceProcessor.insertSorted cmp x (AttendanceProcessor.sort cmp l)).
  rewrite IH. cbn [filter]. destruct (virt x) eqn:Hx; cbn [negb].
  - assert (forall front : list A,
              (forall a, In a front -> virt a = false) ->
              AttendanceProcessor.insertSorted cmp x (front ++ filter virt l)
              = (front ++ x :: filter virt l)%list) as H.
    { induction front as [|y front IHf]; intros Hf; cbn [app].
      - destruct (filter virt l) as [|z rest] eqn:E; [reflexivity|].
        assert (virt z = true) as Hz.
        { assert (In z (filter virt l)) as Hin by (rewrite E; now left).
          apply filter_In in Hin. apply Hin. }
        cbn. unfold cmp, rank. rewrite Hx, Hz. reflexivity.
      - cbn. unfold cmp at 1, rank. rewrite Hx, (Hf y (or_introl eq_refl)). cbn.
        f_equal. apply IHf. intros a Ha. apply Hf. now right. }
    apply H. intros a Ha. apply filter_In in Ha. destruct Ha as [_ Ha].
    now apply negb_true_iff in Ha.
  - cbn [app]. generalize (filter (fun a => negb (virt a)) l ++ filter virt l)%list.
    intros [|y rest]; [reflexivity|].
    cbn. unfold cmp, rank. rewrite Hx. destruct (virt y); reflexivity.
Qed.

End TwoRanks.

Lemma split_field (sep : ascii) (field rest : string) :
  noneOf (fun c => Ascii.eqb c sep) field ->
  Discovery.split sep (field ++ String sep rest) = field :: Discovery.split sep rest.
Proof.
  unfold noneOf. induction field as [|c field IH]; cbn; intros H.
  - now rewrite Ascii.eqb_refl.
  - inversion H as [|? ? Hc Hrest]; subst. rewrite Hc, (IH Hrest). reflexivity.
Qed.

Lemma split_nonempty (sep : ascii) (text : string) : Discovery.split sep text <> [].
Proof.
  induction text as [|c text IH]; cbn; [discriminate|].
  destruct (Ascii.eqb c sep); [discriminate|].
  destruct (Discovery.split sep text); [contradiction|discriminate].
Qed.

Lemma slash24_fields (a b c d : string) :
  noneOf (fun x => Ascii.eqb x ".") a ->
  noneOf (fun x => Ascii.eqb x ".") b ->
  noneOf (fun x => Ascii.eqb x ".") c ->
  slash24 (a ++ "." ++ b ++ "." ++ c ++ "." ++ d) = a ++ "." ++ b ++ "." ++ c.
Proof.
  intros Ha Hb Hc. unfold slash24.
  change (a ++ "." ++ b ++ "." ++ c ++ "." ++ d)
    with (a ++ String "." (b ++ String "." (c ++ String "." d))).
  rewrite !split_field by assumption.
  pose proof (split_nonempty "." d) as Hd.
  destruct (Discovery.split "." d); [contradiction|]. reflexivity.
Qed.

Lemma filter_map_swap {A B : Type} (f : A -> B) (p : B -> bool) (l : list A) :
  filter p (List.map f l) = List.map f (filter (fun a => p (f a)) l).
Proof.
  induction l as [|a l IH]; cbn; [reflexivity|].
  destruct (p (f a)); cbn; now rewrite IH.
Qed.

Lemma detected_candidates (ifaces : list (string * list Discovery.NetworkAddress)) :
  flat_map
    (fun entry : string * list Discovery.NetworkAddress =>
       flat_map
         (fun addr =>
            if negb (Discovery.family addr =? "IPv4") || Discovery.internal addr then []
            else [ {| Discovery.name := fst entry;
                      Discovery.sub_address := Discovery.address addr;
                      Discovery.subnet :=
                        Discovery.join "." (firstn 3 (Discovery.split "."
                                                        (Discovery.address addr))) |} ])
         (snd entry))
    ifaces
  = List.map subnetOf (externalIPv4 ifaces).
Proof.
  unfold externalIPv4.
  induction ifaces as [|[name addrs] ifaces IH]; [reflexivity|].
  cbn [flat_map fst snd]. rewrite IH, filter_app, map_app. f_equal.
  clear. induction addrs as [|addr addrs IH]; [reflexivity|].
  cbn [flat_map List.map filter fst snd]. rewrite IH.
  destruct (Discovery.family addr =? "IPv4"), (Discovery.internal addr); reflexivity.
Qed.

(** X12. [detectAllSubnets] throws exactly when the machine has no
    external IPv4 address. Otherwise it lists one entry for each such
    address, with the name of its interface and the first three fields
    of the address as the subnet: first those whose interface name does
    not look virtual, then those whose name does, each group in the
    order in which the operating system lists the addresses. *)
Theorem detectAllSubnets_physical_first
  (ifaces : list (string * list Discovery.NetworkAddress)) :
  let candidates := externalIPv4 ifaces in
  match Discovery.detectAllSubnets ifaces with
  | Throw _ => candidates = []
  | Ok subnets =>
      candidates <> []
      /\ subnets
         = List.map subnetOf
             (filter (fun entry => negb (virtualEntry entry)) candidates
              ++ filter virtualEntry candidates)
  end.
Proof.
  cbv zeta. unfold Discovery.detectAllSubnets. cbv zeta.
  rewrite detected_candidates.
  destruct (externalIPv4 ifaces) as [|entry rest] eqn:E; [reflexivity|].
  cbn [List.map]. split; [discriminate|].
  change (subnetOf entry :: List.map subnetOf rest)
    with (List.map subnetOf (entry :: rest)).
  unfold Discovery.virtualRank.
  rewrite (sort_two_ranks (fun s => Discovery.isVirtualIface (Discovery.name s))).
  rewrite !filter_map_swap, <- map_app. reflexivity.
Qed.

Lemma decimal_inj (n m : nat) : Discovery.decimal n = Discovery.decimal m -> n = m.
Proof.
  unfold Discovery.decimal. intros H.
  assert (forall k, Nat.to_uint k <> Decimal.Nil) as Hnil.
  { intros k. rewrite <- (DecimalNat.Unsigned.of_to k) at 1.
    rewrite DecimalNat.Unsigned.to_of. apply DecimalFacts.unorm_nonnil. }
  apply (f_equal NilZero.uint_of_string) in H.
  rewrite !NilZero.usu in H by apply Hnil.
  injection H as H. now apply DecimalNat.Unsigned.to_uint_inj.
Qed.

Lemma NoDup_map_injective {A B : Type} (f : A -> B) (l : list A) :
  (forall x y, f x = f y -> x = y) -> NoDup l -> NoDup (List.map f l).
Proof.
  intros Hinj. induction 1 as [|x l Hx Hnd IH]; cbn; constructor; [|exact IH].
  intros Hin. apply in_map_iff in Hin. destruct Hin as (y & Hy & Hin).
  apply Hinj in Hy. subst y. contradiction.
Qed.

Lemma append_inj (base x y : string) : base ++ x = base ++ y -> x = y.
Proof.
  induction base as [|c base IH]; cbn; [auto|]. intros [= H]. auto.
Qed.

(** X13. The scan of a subnet covers the /24 of the address it was read
    from: for an address whose first three fields are [a], [b] and [c],
    [subnetHosts] on its subnet gives 254 addresses, all different, and
    they are the addresses [a.b.c.n] for [n] from 1 to 254, so neither
    [a.b.c.0] nor [a.b.c.255]. *)
Theorem subnetHosts_of_address (a b c d : string) :
  noneOf (fun x => Ascii.eqb x ".") a ->
  noneOf (fun x => Ascii.eqb x ".") b ->
  noneOf (fun x => Ascii.eqb x ".") c ->
  let hosts := Discovery.subnetHosts (slash24 (a ++ "." ++ b ++ "." ++ c ++ "." ++ d)) in
  List.length hosts = 254
  /\ NoDup hosts
  /\ forall address,
       In address hosts
       <-> exists n, 1 <= n <= 254
             /\ address = a ++ "." ++ b ++ "." ++ c ++ "." ++ Discovery.decimal n.
Proof.
  intros Ha Hb Hc. cbv zeta. rewrite (slash24_fields a b c d Ha Hb Hc).
  unfold Discovery.subnetHosts. split; [|split].
  - now rewrite length_map, length_seq.
  - apply NoDup_map_injective; [|apply seq_NoDup].
    intros i j H. apply append_inj in H. injection H as H.
    apply decimal_inj in H. lia.
  - intros address. rewrite in_map_iff.
    assert (forall n, (a ++ "." ++ b ++ "." ++ c) ++ "." ++ Discovery.decimal n
                      = a ++ "." ++ b ++ "." ++ c ++ "." ++ Discovery.decimal n) as Hassoc.
    { intros n. repeat (rewrite string_app_assoc; cbn [append]). reflexivity. }
    split.
    + intros (i & <- & Hi). apply in_seq in Hi. exists (i + 1).
      split; [lia|apply Hassoc].
    + intros (n & Hn & ->). exists (n - 1). split.
      * replace (n - 1 + 1) with n by lia. apply Hassoc.
      * apply in_seq. lia.
Qed.

Lemma subnetHosts_of_address_witness :
  In "192.168.1.20" (Discovery.subnetHosts (slash24 "192.168.1.37"))
  /\ ~ In "192.168.1.255" (Discovery.subnetHosts (slash24 "192.168.1.37")).
Proof.
  assert (noneOf (fun x => Ascii.eqb x ".") "192") as Ha by (repeat constructor).
  assert (noneOf (fun x => Ascii.eqb x ".") "168") as Hb by (repeat constructor).
  assert (noneOf (fun x => Ascii.eqb x ".") "1") as Hc by (repeat constructor).
  destruct (subnetHosts_of_address "192" "168" "1" "37" Ha Hb Hc) as (_ & _ & Hin).
  split.
  - apply Hin. exists 20. split; [lia|reflexivity].
  - intros H. apply Hin in H. destruct H as (n & Hn & E).
    change "192.168.1.255" with ("192.168.1." ++ Discovery.decimal 255) in E.
    change ("192" ++ "." ++ "168" ++ "." ++ "1" ++ "." ++ Discovery.decimal n)
      with ("192.168.1." ++ Discovery.decimal n) in E.
    apply append_inj, decimal_inj in E. lia.
Defined.

Lemma mapSet_keys {A : Type} (k : string) (v : A) (mp : list (string * A)) :
  List.map fst (Discovery.mapSet k v mp)
  = if existsb (String.eqb k) (List.map fst mp) then List.map fst mp
    else (List.map fst mp ++ [k])%list.
Proof.
  induction mp as [|[k' v'] mp IH]; cbn; [reflexivity|].
  rewrite (String.eqb_sym k k').
  destruct (String.eqb_spec k' k) as [->|Hne]; cbn; [reflexivity|].
  rewrite IH. destruct (existsb _ _); reflexivity.
Qed.

Lemma mapSet_In {A : Type} (k : string) (v : A) (mp : list (string * A))
  (k' : string) (v' : A) :
  NoDup (List.map fst mp) ->
  In (k', v') (Discovery.mapSet k v mp) ->
  (k' = k /\ v' = v) \/ (k' <> k /\ In (k', v') mp).
Proof.
  induction mp as [|[k0 v0] mp IH]; cbn; intros Hnd Hin.
  - destruct Hin as [[= <- <-]|[]]. now left.
  - inversion Hnd as [|? ? Hout Hnd']; subst.
    destruct (String.eqb_spec k0 k) as [->|Hne].
    + destruct Hin as [[= <- <-]|Hin]; [now left|].
      right. split; [|now right]. intros ->. apply Hout.
      apply (in_map fst) in Hin. exact Hin.
    + destruct Hin as [[= <- <-]|Hin].
      * right. split; [assumption|now left].
      * destruct (IH Hnd' Hin) as [H|[H1 H2]]; [now left|]. right. split; [assumption|now right].
Qed.

Lemma filter_twice {A : Type} (p q : A -> bool) (l : list A) :
  filter p (filter q l) = filter (fun x => q x && p x) l.
Proof.
  induction l as [|x l IH]; cbn; [reflexivity|].
  destruct (q x); cbn; [destruct (p x)|]; now rewrite IH.
Qed.

(** Adding keys one by one, each new one at the end. *)
Lemma firstOccurrences_fold (keys : list string) :
  forall acc,
    fold_left (fun acc k => if existsb (String.eqb k) acc then acc else (acc ++ [k])%list)
      keys acc
    = (acc ++ filter (fun k => negb (existsb (String.eqb k) acc))
                (firstOccurrences keys))%list.
Proof.
  induction keys as [|x keys IH]; intros acc; cbn [fold_left firstOccurrences filter].
  - now rewrite app_nil_r.
  - rewrite IH. destruct (existsb (String.eqb x) acc) eqn:Hx; cbn [negb].
    + f_equal. rewrite filter_twice. apply filter_ext. intros k.
      destruct (String.eqb_spec k x) as [->|Hne]; cbn [negb andb].
      * rewrite Hx. reflexivity.
      * reflexivity.
    + rewrite <- app_assoc. cbn [app]. f_equal. f_equal.
      rewrite filter_twice. apply filter_ext. intros k.
      rewrite existsb_app. cbn [existsb]. rewrite orb_false_r, negb_orb.
      rewrite (String.eqb_sym k x). apply andb_comm.
Qed.

Lemma mapSet_In_iff {A : Type} (k : string) (v : A) (mp : list (string * A))
  (k' : string) (v' : A) :
  NoDup (List.map fst mp) ->
  In (k', v') (Discovery.mapSet k v mp)
  <-> (k' = k /\ v' = v) \/ (k' <> k /\ In (k', v') mp).
Proof.
  intros Hnd. split; [apply mapSet_In, Hnd|].
  clear Hnd. induction mp as [|[k0 v0] mp IH]; cbn.
  - intros [[-> ->]|[_ []]]. now left.
  - destruct (String.eqb_spec k0 k) as [->|Hne]; cbn.
    + intros [[-> ->]|[Hk [[= <- <-]|Hin]]]; [now left|congruence|now right].
    + intros [[-> ->]|[Hk [[= <- <-]|Hin]]]; [right; apply IH; now left|now left|].
      right. apply IH. right. auto.
Qed.

Lemma lastOf_snoc {A : Type} (l : list A) (x : A) :
  AttendanceProcessor.lastOf (l ++ [x]) = Some x.
Proof. unfold AttendanceProcessor.lastOf. now rewrite rev_unit. Qed.

Lemma lastWith_snoc (key : string) (seen : list Discovery.Subnet) (s : Discovery.Subnet) :
  lastWith key (seen ++ [s])
  = if (Discovery.subnet s =? key)%string then Some s else lastWith key seen.
Proof.
  unfold lastWith. rewrite filter_app. cbn [filter].
  destruct (Discovery.subnet s =? key)%string.
  - apply lastOf_snoc.
  - now rewrite app_nil_r.
Qed.

Lemma lastWith_key (key : string) (seen : list Discovery.Subnet) (s : Discovery.Subnet) :
  lastWith key seen = Some s -> Discovery.subnet s = key /\ In s seen.
Proof.
  unfold lastWith. intros H. apply lastOf_In in H. apply filter_In in H.
  destruct H as [Hin Hk]. apply String.eqb_eq in Hk. auto.
Qed.

Lemma NoDup_firstOccurrences (keys : list string) : NoDup (firstOccurrences keys).
Proof.
  induction keys as [|k keys IH]; cbn; constructor.
  - intros H. apply filter_In in H. destruct H as [_ H].
    rewrite String.eqb_refl in H. discriminate.
  - apply NoDup_filter, IH.
Qed.

Section UniqueFacts.

Let step (mp : list (string * Discovery.Subnet)) (s : Discovery.Subnet) :=
  Discovery.mapSet (Discovery.subnet s) s mp.

Lemma unique_keys (subnets : list Discovery.Subnet) :
  forall mp,
    List.map fst (fold_left step subnets mp)
    = fold_left (fun acc k => if existsb (String.eqb k) acc then acc else (acc ++ [k])%list)
        (List.map Discovery.subnet subnets) (List.map fst mp).
Proof.
  induction subnets as [|s subnets IH]; intros mp; [reflexivity|].
  cbn [fold_left List.map]. rewrite IH. unfold step. now rewrite mapSet_keys.
Qed.

Lemma unique_values (subnets : list Discovery.Subnet) :
  forall mp seen,
    NoDup (List.map fst mp) ->
    (forall k v, In (k, v) mp <-> lastWith k seen = Some v) ->
    forall k v,
      In (k, v) (fold_left step subnets mp) <-> lastWith k (seen ++ subnets) = Some v.
Proof.
  induction subnets as [|s subnets IH]; intros mp seen Hnd Hinv k v.
  - rewrite app_nil_r. apply Hinv.
  - cbn [fold_left].
    replace (seen ++ s :: subnets)%list with ((seen ++ [s]) ++ subnets)%list
      by (rewrite <- app_assoc; reflexivity).
    apply IH.
    + unfold step. rewrite mapSet_keys. destruct (existsb _ _) eqn:E; [exact Hnd|].
      apply NoDup_app; [exact Hnd|repeat constructor; intros []|].
      intros x Hx [<-|[]].
      assert (existsb (String.eqb (Discovery.subnet s)) (List.map fst mp) = true) as T.
      { apply existsb_exists. exists (Discovery.subnet s). split; [exact Hx|].
        apply String.eqb_refl. }
      congruence.
    + intros k' v'. unfold step. rewrite (mapSet_In_iff _ _ _ _ _ Hnd), lastWith_snoc.
      destruct (String.eqb_spec (Discovery.subnet s) k') as [E|N].
      * split; [intros [[_ ->]|[H _]]; [reflexivity|congruence]|].
        intros [= <-]. left. auto.
      * rewrite <- Hinv. split; [intros [[H _]|[_ H]]; [congruence|exact H]|].
        intros H. right. split; [congruence|exact H].
Qed.

End UniqueFacts.

Lemma uniqueSubnets_table (subnets : list Discovery.Subnet) :
  exists mp,
    Discovery.uniqueSubnets subnets = List.map snd mp
    /\ List.map fst mp = firstOccurrences (List.map Discovery.subnet subnets)
    /\ forall k v, In (k, v) mp <-> lastWith k subnets = Some v.
Proof.
  unfold Discovery.uniqueSubnets.
  pose proof (unique_values subnets [] [] (NoDup_nil _)) as Hvalues.
  cbn [app] in Hvalues.
  assert (forall k v, In (k, v) (@nil (string * Discovery.Subnet))
                      <-> lastWith k [] = Some v) as Hstart
    by (intros k v; split; [intros []|discriminate]).
  specialize (Hvalues Hstart).
  pose proof (unique_keys subnets []) as Hkeys. cbn [List.map] in Hkeys.
  rewrite firstOccurrences_fold in Hkeys. cbn [app existsb negb] in Hkeys.
  assert (forall l : list string, filter (fun _ => true) l = l) as Hall
    by (induction l as [|x l IH]; cbn; [reflexivity|now rewrite IH]).
  rewrite Hall in Hkeys.
  eexists. split; [reflexivity|]. split; [exact Hkeys|exact Hvalues].
Qed.

Lemma uniqueSubnets_keys (subnets : list Discovery.Subnet) :
  List.map Discovery.subnet (Discovery.uniqueSubnets subnets)
  = firstOccurrences (List.map Discovery.subnet subnets).
Proof.
  destruct (uniqueSubnets_table subnets) as (mp & -> & Hkeys & Hvalues).
  rewrite <- Hkeys, map_map. apply map_ext_in. intros [k v] Hin. cbn.
  apply Hvalues, lastWith_key in Hin. apply Hin.
Qed.

Lemma uniqueSubnets_values (subnets : list Discovery.Subnet) (s : Discovery.Subnet) :
  In s (Discovery.uniqueSubnets subnets)
  <-> lastWith (Discovery.subnet s) subnets = Some s.
Proof.
  destruct (uniqueSubnets_table subnets) as (mp & -> & Hkeys & Hvalues).
  rewrite in_map_iff. split.
  - intros ([k v] & <- & Hin). cbn. apply Hvalues in Hin.
    pose proof (lastWith_key _ _ _ Hin) as [-> _]. exact Hin.
  - intros H. exists (Discovery.subnet s, s). split; [reflexivity|]. apply Hvalues, H.
Qed.

(** X14. [uniqueSubnets] keeps one entry for each /24, at the place
    where the /24 comes first in the list, so that the order of
    [detectAllSubnets] decides which subnet is scanned first and no
    subnet is scanned twice; the entry kept for a /24 is the last one
    listed with it. *)
Theorem uniqueSubnets_one_entry_per_subnet (subnets : list Discovery.Subnet) :
  let unique := Discovery.uniqueSubnets subnets in
  List.map Discovery.subnet unique = firstOccurrences (List.map Discovery.subnet subnets)
  /\ NoDup (List.map Discovery.subnet unique)
  /\ forall s, In s unique <-> lastWith (Discovery.subnet s) subnets = Some s.
Proof.
  cbv zeta. split; [apply uniqueSubnets_keys|]. split.
  - rewrite uniqueSubnets_keys. apply NoDup_firstOccurrences.
  - apply uniqueSubnets_values.
Qed.

(** Two addresses on one /24, the second on a virtual adapter: one
    entry, that of the second. *)
Example uniqueSubnets_keeps_last :
  Discovery.uniqueSubnets
    [ {| Discovery.name := "eth0"; Discovery.sub_address := "192.168.1.37";
         Discovery.subnet := "192.168.1" |};
      {| Discovery.name := "wlan0"; Discovery.sub_address := "10.0.0.5";
         Discovery.subnet := "10.0.0" |};
      {| Discovery.name := "vEthernet"; Discovery.sub_address := "192.168.1.38";
         Discovery.subnet := "192.168.1" |} ]
  = [ {| Discovery.name := "vEthernet"; Discovery.sub_address := "192.168.1.38";
         Discovery.subnet := "192.168.1" |};
      {| Discovery.name := "wlan0"; Discovery.sub_address := "10.0.0.5";
         Discovery.subnet := "10.0.0" |} ].
Proof. reflexivity. Qed.

(* ================================================================== *)
(** ** The concurrency helper of the scan                                *)
(* ================================================================== *)

Section PMapFacts.

Context {T R : Type}.
Variable items : list T.
Variable fn : T -> Result R.
Variable settles : list nat -> nat.

Lemma select_split {A : Type} (position : nat) (first : A) (rest : list A) chosen others :
  Discovery.select position first rest = (chosen, others) ->
  exists before after,
    first :: rest = (before ++ chosen :: after)%list /\ others = (before ++ after)%list.
Proof.
  revert position first chosen others.
  induction rest as [|x rest IH]; intros [|p] first chosen others E; cbn in E.
  - inversion E; subst. now exists [], [].
  - inversion E; subst. now exists [], [].
  - inversion E; subst. now exists [], (x :: rest).
  - destruct (Discovery.select p x rest) as [c o] eqn:S.
    inversion E; subst.
    destruct (IH _ _ _ _ S) as (before & after & E1 & E2).
    exists (first :: before), after. cbn. now rewrite E1, E2.
Qed.

Lemma skipn_cons_nth (k : nat) (l : list T) x rest :
  skipn k l = x :: rest ->
  nth_error l k = Some x /\ skipn (S k) l = rest /\ k < List.length l.
Proof.
  revert l. induction k as [|k IH]; intros [|y l] E; cbn in E; try discriminate.
  - inversion E; subst. cbn. repeat split. lia.
  - destruct (IH _ E) as (A & B & C). cbn. repeat split; auto. lia.
Qed.

Lemma assign_same (i : nat) (v : R) array :
  nth_error (Discovery.assign i v array) i = Some (Some v).
Proof.
  revert array. induction i as [|i IH]; intros [|x array]; cbn; auto.
Qed.

Lemma assign_other (i j : nat) (v : R) array :
  i <> j -> forall w, nth_error array j = Some w ->
  nth_error (Discovery.assign i v array) j = Some w.
Proof.
  revert j array. induction i as [|i IH]; intros [|j] [|x array] N w E; cbn in *;
    try discriminate; try congruence; auto.
Qed.

Lemma assign_length (i : nat) (v : R) array :
  List.length (Discovery.assign i v array) = Nat.max (S i) (List.length array).
Proof.
  revert array. induction i as [|i IH]; intros [|x array]; cbn; auto.
Qed.

Lemma combine_seq_fst (k w : nat) (l : list T) :
  w <= List.length l -> List.map fst (combine (seq k w) (firstn w l)) = seq k w.
Proof.
  revert k l. induction w as [|w IH]; intros k l W; auto.
  destruct l as [|x l]; cbn in W; [lia|]. cbn. f_equal. apply IH. lia.
Qed.

Lemma combine_seq_In (k w : nat) (l : list T) i item :
  In (i, item) (combine (seq k w) (firstn w l)) ->
  nth_error l (i - k) = Some item /\ k <= i.
Proof.
  revert k l. induction w as [|w IH]; intros k l H; [easy|].
  destruct l as [|x l]; [easy|]. cbn in H. destruct H as [E|H].
  - inversion E; subst. rewrite Nat.sub_diag. split; auto.
  - apply IH in H. destruct H as [H1 H2].
    replace (i - k) with (S (i - S k)) by lia. split; [exact H1|lia].
Qed.

Lemma start_Running (concurrency : nat) :
  Running items fn (Nat.min concurrency (List.length items))
          (Discovery.start items concurrency).
Proof.
  set (workers := Nat.min concurrency (List.length items)).
  assert (W : workers <= List.length items) by (unfold workers; lia).
  assert (L : List.length (combine (seq 0 workers) (firstn workers items)) = workers).
  { rewrite length_combine, length_seq, length_firstn. lia. }
  constructor; cbn; fold workers; auto.
  - intros i item H. apply combine_seq_In in H. rewrite Nat.sub_0_r in H. apply H.
  - rewrite app_nil_r, combine_seq_fst by exact W. apply Permutation.Permutation_refl.
  - intros i [].
  - lia.
  - lia.
Qed.

Lemma settle_Running (workers : nat) pool :
  Running items fn workers pool ->
  Discovery.inFlight pool <> [] ->
  match Discovery.settle fn settles pool with
  | None => False
  | Some (Throw e) => exists item, In item items /\ fn item = Throw e
  | Some (Ok pool') =>
      Running items fn workers pool' /\
      List.length (Discovery.inFlight pool') + List.length (Discovery.pending pool') + 1 =
      List.length (Discovery.inFlight pool) + List.length (Discovery.pending pool)
  end.
Proof.
  intros [Hp Hi Hit Hs Hr Hl Hw Hf] Hne.
  unfold Discovery.settle.
  destruct (Discovery.inFlight pool) as [|first rest] eqn:EF; [congruence|].
  destruct (Discovery.select (settles (List.map fst (first :: rest))) first rest)
    as [[i item] others] eqn:ES.
  destruct (select_split _ _ _ _ _ ES) as (before & after & E1 & E2).
  rewrite E1 in *. clear ES.
  assert (Hitem : nth_error items i = Some item).
  { apply Hit. apply in_or_app. right. now left. }
  destruct (fn item) as [v|e] eqn:Ev;
    [|exists item; split; [eapply nth_error_In; eauto|exact Ev]].
  assert (P1 : Permutation.Permutation
            (List.map fst others ++ Discovery.settled pool ++ [i])
            (seq 0 (Discovery.index pool))).
  { eapply Permutation.Permutation_trans; [|exact Hs].
    subst others. rewrite !map_app. cbn. rewrite <- !app_assoc. cbn.
    apply Permutation.Permutation_app_head.
    rewrite app_assoc.
    apply Permutation.Permutation_sym, Permutation.Permutation_cons_append. }
  assert (Hlt : i < Discovery.index pool).
  { apply in_seq with (start := 0). cbn.
    eapply Permutation.Permutation_in; [exact Hs|].
    apply in_or_app. left. rewrite map_app. apply in_or_app. right. now left. }
  assert (Hfresh : ~ In i (Discovery.settled pool)).
  { intros Hin.
    assert (ND : NoDup (List.map fst (before ++ (i, item) :: after) ++ Discovery.settled pool)).
    { eapply Permutation.Permutation_NoDup;
        [apply Permutation.Permutation_sym; exact Hs|apply seq_NoDup]. }
    rewrite map_app in ND. cbn in ND. rewrite <- app_assoc in ND. cbn in ND.
    apply NoDup_remove_2 in ND. apply ND.
    apply in_or_app. right. apply in_or_app. now right. }
  assert (Hres : forall j, In j (Discovery.settled pool ++ [i]) ->
            exists item0 v1, nth_error items j = Some item0 /\ fn item0 = Ok v1 /\
              nth_error (Discovery.assign i v (Discovery.results pool)) j = Some (Some v1)).
  { intros j Hin. apply in_app_or in Hin. destruct Hin as [Hin|[<-|[]]].
    - destruct (Hr _ Hin) as (item0 & v1 & A & B & C).
      exists item0, v1. repeat split; auto.
      apply assign_other; auto. intros ->. contradiction.
    - exists item, v. repeat split; auto. apply assign_same. }
  assert (Hlen : List.length (Discovery.assign i v (Discovery.results pool))
                 <= Discovery.index pool).
  { rewrite assign_length. lia. }
  assert (Lo : List.length (before ++ (i, item) :: after) = S (List.length others)).
  { subst others. rewrite !length_app. cbn. lia. }
  destruct (Discovery.pending pool) as [|item' pending'] eqn:EP.
  - split.
    + constructor; cbn [Discovery.index Discovery.pending Discovery.inFlight Discovery.results Discovery.settled].
      * exact Hp.
      * exact Hi.
      * intros j it Hin. apply Hit. subst others.
        apply in_app_or in Hin. apply in_or_app. destruct Hin; auto. right. now right.
      * exact P1.
      * exact Hres.
      * exact Hlen.
      * lia.
      * easy.
    + cbn. lia.
  - symmetry in Hp. destruct (skipn_cons_nth _ _ _ _ Hp) as (N1 & N2 & N3).
    split.
    + constructor; cbn [Discovery.index Discovery.pending Discovery.inFlight Discovery.results Discovery.settled].
      * now symmetry.
      * lia.
      * intros j it Hin. apply in_app_or in Hin. destruct Hin as [Hin|[E|[]]].
        -- apply Hit. subst others.
           apply in_app_or in Hin. apply in_or_app. destruct Hin; auto. right. now right.
        -- inversion E; subst. exact N1.
      * rewrite seq_S. cbn [Nat.add]. rewrite map_app. cbn [List.map fst].
        eapply Permutation.Permutation_trans;
          [|apply Permutation.Permutation_app_tail; exact P1].
        remember (Discovery.settled pool ++ [i])%list as done.
        rewrite <- !app_assoc. apply Permutation.Permutation_app_head.
        apply Permutation.Permutation_app_comm.
      * exact Hres.
      * lia.
      * rewrite length_app. cbn. rewrite <- Hf by easy. lia.
      * intros _. rewrite length_app. cbn. rewrite <- Hf by easy. lia.
    + cbn. rewrite length_app. cbn. lia.
Qed.

(** A run ends with no call in flight and no item left, unless a call
    is rejected. *)
Lemma drain_Running (workers : nat) :
  1 <= workers \/ items = [] ->
  forall calls pool,
  Running items fn workers pool ->
  calls = List.length (Discovery.inFlight pool) + List.length (Discovery.pending pool) ->
  (forall p, In p (poolsFrom fn settles calls pool) -> Running items fn workers p) /\
  exists final,
    Running items fn workers final /\
    snd (Discovery.drain fn settles calls pool) = Discovery.settled final /\
    match fst (Discovery.drain fn settles calls pool) with
    | Ok results =>
        results = Discovery.results final /\
        Discovery.inFlight final = [] /\ Discovery.pending final = []
    | Throw e => exists item, In item items /\ fn item = Throw e
    end.
Proof.
  intros W. induction calls as [|calls IH]; intros pool HR Hc.
  - split.
    + intros p [<-|[]]. exact HR.
    + exists pool. cbn. split; [exact HR|]. split; [reflexivity|].
      split; [reflexivity|]. split.
      * destruct (Discovery.inFlight pool); [reflexivity|cbn in Hc; lia].
      * destruct (Discovery.pending pool); [reflexivity|].
        rewrite length_cons in Hc. lia.
  - assert (Hne : Discovery.inFlight pool <> []).
    { intros E. rewrite E in Hc. cbn in Hc.
      assert (P : Discovery.pending pool <> []).
      { intros E'. rewrite E' in Hc. discriminate Hc. }
      pose proof (run_full _ _ _ _ HR P) as F. rewrite E in F. cbn in F.
      destruct W as [W|W]; [lia|].
      apply P. rewrite (run_pending _ _ _ _ HR), W. now destruct (Discovery.index pool). }
    pose proof (settle_Running workers pool HR Hne) as S.
    cbn [Discovery.drain poolsFrom].
    destruct (Discovery.settle fn settles pool) as [[pool'|e]|]; [| |contradiction].
    + destruct S as [HR' Hm].
      destruct (IH pool' HR' ltac:(lia)) as [A B].
      split; [|exact B].
      intros p [<-|Hin]; auto.
    + split.
      * intros p [<-|[]]. exact HR.
      * exists pool. cbn. split; [exact HR|]. split; [reflexivity|exact S].
Qed.

Lemma results_values (array : list (option R)) :
  List.length array <= List.length items ->
  (forall i, i < List.length items ->
     exists item v, nth_error items i = Some item /\ fn item = Ok v /\
                    nth_error array i = Some (Some v)) ->
  exists values,
    List.map fn items = List.map Ok values /\ array = List.map Some values.
Proof.
  revert array. induction items as [|x l IH]; intros array L H.
  - exists []. destruct array; [auto|cbn in L; lia].
  - destruct (H 0 ltac:(cbn; lia)) as (item & v & A & B & C).
    destruct array as [|y array]; [discriminate C|].
    cbn in A, C. inversion A; subst item. inversion C; subst y.
    destruct (IH array) as (values & E1 & E2).
    + cbn in L. lia.
    + intros i Hi. destruct (H (S i) ltac:(cbn; lia)) as (it & w & A' & B' & C').
      exists it, w. auto.
    + exists (v :: values). cbn. now rewrite B, E1, E2.
Qed.


Lemma Running_settled (workers : nat) pool :
  Running items fn workers pool ->
  NoDup (Discovery.settled pool) /\
  (forall i, In i (Discovery.settled pool) -> i < Discovery.index pool) /\
  Discovery.index pool
  = List.length (Discovery.inFlight pool) + List.length (Discovery.settled pool).
Proof.
  intros HR. pose proof (run_started _ _ _ _ HR) as P. split; [|split].
  - apply (NoDup_app_remove_l (List.map fst (Discovery.inFlight pool))).
    eapply Permutation.Permutation_NoDup;
      [apply Permutation.Permutation_sym; exact P|apply seq_NoDup].
  - intros i Hin. apply in_seq with (start := 0). cbn.
    eapply Permutation.Permutation_in; [exact P|]. apply in_or_app. now right.
  - apply Permutation.Permutation_length in P.
    rewrite length_app, length_map, length_seq in P. now symmetry.
Qed.

Lemma Running_finished (workers : nat) pool :
  Running items fn workers pool ->
  Discovery.inFlight pool = [] -> Discovery.pending pool = [] ->
  (forall i, i < List.length items -> In i (Discovery.settled pool)) /\
  exists values,
    List.map fn items = List.map Ok values /\
    Discovery.results pool = List.map Some values.
Proof.
  intros HR EF EP.
  assert (EI : Discovery.index pool = List.length items).
  { pose proof (run_pending _ _ _ _ HR) as P. rewrite EP in P.
    apply (f_equal (@List.length T)) in P. rewrite length_skipn in P. cbn in P.
    pose proof (run_index _ _ _ _ HR). lia. }
  assert (A : forall i, i < List.length items -> In i (Discovery.settled pool)).
  { intros i Hi. pose proof (run_started _ _ _ _ HR) as P. rewrite EF in P. cbn in P.
    eapply Permutation.Permutation_in;
      [apply Permutation.Permutation_sym; exact P|].
    apply in_seq. lia. }
  split; [exact A|].
  apply results_values.
  - rewrite <- EI. apply (run_length _ _ _ _ HR).
  - intros i Hi. apply (run_results _ _ _ _ HR), A, Hi.
Qed.

Lemma pMap_outcome (concurrency : nat) :
  1 <= concurrency ->
  exists final,
    Running items fn (Nat.min concurrency (List.length items)) final /\
    snd (Discovery.pMap items fn settles concurrency) = Discovery.settled final /\
    match fst (Discovery.pMap items fn settles concurrency) with
    | Ok results =>
        results = Discovery.results final /\
        Discovery.inFlight final = [] /\ Discovery.pending final = []
    | Throw e => exists item, In item items /\ fn item = Throw e
    end.
Proof.
  intros C. unfold Discovery.pMap.
  apply (drain_Running (Nat.min concurrency (List.length items))).
  - destruct items; [now right|left; cbn; lia].
  - apply start_Running.
  - cbn. rewrite length_combine, length_seq, length_firstn, length_skipn. lia.
Qed.

Lemma pMap_total (concurrency : nat) :
  1 <= concurrency ->
  (forall item, In item items -> exists v, fn item = Ok v) ->
  exists values order,
    Discovery.pMap items fn settles concurrency = (Ok (List.map Some values), order) /\
    List.map fn items = List.map Ok values /\
    NoDup order /\ forall i, In i order <-> i < List.length items.
Proof.
  intros C total.
  destruct (pMap_outcome concurrency C) as (final & HR & Es & Hf).
  destruct (Discovery.pMap items fn settles concurrency) as [[array|e] order];
    cbn [fst snd] in *.
  - destruct Hf as (-> & EF & EP).
    destruct (Running_finished _ _ HR EF EP) as (A & values & E1 & E2).
    destruct (Running_settled _ _ HR) as (ND & B & _).
    exists values, order. rewrite E2, Es. repeat split; auto.
    intros Hin. apply B in Hin. pose proof (run_index _ _ _ _ HR). lia.
  - destruct Hf as (item & Hin & E). destruct (total item Hin) as [v Ev]. congruence.
Qed.

Lemma pools_Running (workers : nat) :
  forall calls pool,
  Running items fn workers pool ->
  forall p, In p (poolsFrom fn settles calls pool) -> Running items fn workers p.
Proof.
  induction calls as [|calls IH]; intros pool HR p Hin.
  - destruct Hin as [<-|[]]. exact HR.
  - cbn [poolsFrom] in Hin. destruct Hin as [<-|Hin]; [exact HR|].
    destruct (Discovery.inFlight pool) as [|first rest] eqn:EF.
    + unfold Discovery.settle in Hin. rewrite EF in Hin. destruct Hin.
    + pose proof (settle_Running workers pool HR) as S.
      rewrite EF in S. specialize (S ltac:(discriminate)).
      destruct (Discovery.settle fn settles pool) as [[pool'|e]|]; try easy.
      apply (IH pool'); [apply S|exact Hin].
Qed.

(** X22. [pMap] with a concurrency of at least one. The calls settle
    one time each, and only calls on items of the list. When [pMap]
    returns, the callback has returned for every item, the array has the
    values in the order of the items whatever the order in which the
    calls settled, and every call has settled. When it throws, the
    callback has thrown this error for some item. *)
Theorem pMap_settles_every_call (concurrency : nat) :
  1 <= concurrency ->
  NoDup (snd (Discovery.pMap items fn settles concurrency)) /\
  (forall i, In i (snd (Discovery.pMap items fn settles concurrency)) ->
     exists item v, nth_error items i = Some item /\ fn item = Ok v) /\
  match fst (Discovery.pMap items fn settles concurrency) with
  | Ok array =>
      (exists values,
         List.map fn items = List.map Ok values /\ array = List.map Some values) /\
      forall i, i < List.length items ->
        In i (snd (Discovery.pMap items fn settles concurrency))
  | Throw e => exists item, In item items /\ fn item = Throw e
  end.
Proof.
  intros C.
  destruct (pMap_outcome concurrency C) as (final & HR & Es & Hf).
  destruct (Running_settled _ _ HR) as (ND & B & _).
  rewrite Es. split; [exact ND|]. split.
  - intros i Hin. destruct (run_results _ _ _ _ HR i Hin) as (item & v & E1 & E2 & _). eauto.
  - destruct (fst (Discovery.pMap items fn settles concurrency)) as [array|e];
      [|exact Hf].
    destruct Hf as (-> & EF & EP).
    destruct (Running_finished _ _ HR EF EP) as (A & values & E1 & E2). eauto.
Qed.

(** X23. Between two settlements of a [pMap], at most [concurrency]
    calls are in flight, and exactly that many while items are left; the
    items left are those from [index] on, so that the calls are started
    in the order of the list; and every call started is in flight or has
    settled. *)
Theorem pMap_keeps_pool_full (concurrency : nat)
  (pool : Discovery.Pool (T := T) (R := R)) :
  In pool (poolsFrom fn settles (List.length items)
             (Discovery.start items concurrency)) ->
  List.length (Discovery.inFlight pool) <= concurrency /\
  (Discovery.pending pool <> [] ->
   List.length (Discovery.inFlight pool) = concurrency) /\
  Discovery.pending pool = skipn (Discovery.index pool) items /\
  Discovery.index pool
  = List.length (Discovery.inFlight pool) + List.length (Discovery.settled pool).
Proof.
  intros Hin.
  pose proof (pools_Running _ _ _ (start_Running concurrency) pool Hin) as HR.
  destruct (Running_settled _ _ HR) as (_ & _ & EI).
  pose proof (run_workers _ _ _ _ HR) as W.
  split; [lia|]. split; [|split; [apply (run_pending _ _ _ _ HR)|exact EI]].
  intros P. pose proof (run_full _ _ _ _ HR P) as F.
  pose proof (run_pending _ _ _ _ HR) as EP.
  apply (f_equal (@List.length T)) in EP. rewrite length_skipn in EP.
  assert (0 < List.length (Discovery.pending pool))
    by (destruct (Discovery.pending pool); [congruence|cbn; lia]).
  lia.
Qed.

End PMapFacts.

(** Three items, two workers: the third call is started when the second
    one settles, the first call settles last, and the array is in the
    order of the items. *)
Example pMap_out_of_order :
  Discovery.pMap ["a"; "bb"; "ccc"] nameLength lastStartedFirst 2
  = (Ok [Some 1; Some 2; Some 3], [1; 2; 0]).
Proof. reflexivity. Qed.

(** With no worker nothing is called and the array is empty. *)
Example pMap_no_worker :
  Discovery.pMap ["a"; "bb"; "ccc"] nameLength lastStartedFirst 0 = (Ok [], []).
Proof. reflexivity. Qed.

Lemma pMap_settles_every_call_witness :
  NoDup (snd (Discovery.pMap ["a"; "bb"; "ccc"] nameLength lastStartedFirst 2)).
Proof.
  exact (proj1 (pMap_settles_every_call ["a"; "bb"; "ccc"] nameLength lastStartedFirst 2
                  (le_S 1 1 (le_n 1)))).
Defined.

Lemma pMap_keeps_pool_full_witness :
  List.length (Discovery.inFlight
                 (Discovery.start (R := nat) ["a"; "bb"; "ccc"] 2)) <= 2.
Proof.
  exact (proj1 (pMap_keeps_pool_full ["a"; "bb"; "ccc"] nameLength lastStartedFirst 2
                  (Discovery.start ["a"; "bb"; "ccc"] 2) (or_introl eq_refl))).
Defined.

(* ================================================================== *)
(** ** Finding the terminal again                                       *)
(* ================================================================== *)

Lemma lastOf_nonempty {A : Type} (l : list A) :
  l <> [] -> exists x, AttendanceProcessor.lastOf l = Some x.
Proof.
  intros H. unfold AttendanceProcessor.lastOf.
  destruct (rev l) as [|x r] eqn:E; [|eauto].
  apply (f_equal (@rev A)) in E. rewrite rev_involutive in E. contradiction.
Qed.

Section DiscoveryFacts.

Variable JSON_parse : string -> Result DeviceDiscovery.json.
Variable parseXml : option (string -> Result DeviceDiscovery.json).
Variable toLowerCase : string -> string.
Variable String_ : DeviceDiscovery.json -> string.
Variable JSON_stringify : DeviceDiscovery.json -> string.
Variable world : Discovery.World.
Variable cfg : Discovery.Cfg.

Let probe := Discovery.probe JSON_parse parseXml world cfg.
Let identityOf := identityAt JSON_parse parseXml world cfg.
Let matchesName := isTarget toLowerCase String_ JSON_stringify cfg.
Let hitsIn := hitsOf JSON_parse parseXml world cfg.
Let targetFound := targetAmong toLowerCase String_ JSON_stringify cfg.
Let hostsOf (s : Discovery.Subnet) := Discovery.subnetHosts (Discovery.subnet s).
Let ensureDeviceReachable :=
  Discovery.ensureDeviceReachable JSON_parse parseXml toLowerCase String_ JSON_stringify world cfg.

Lemma probe_total (net : DeviceDiscovery.Network) (address : string) :
  exists identity, probe net address = Ok identity.
Proof.
  unfold probe, Discovery.probe, DeviceDiscovery.probeDevice.
  destruct (probeAttempts_total JSON_parse parseXml
              (net (Discovery.cfg_useHttps cfg) address (Discovery.cfg_port cfg))
              (Discovery.cfg_username cfg) (Discovery.cfg_password cfg)
              [ (DeviceDiscovery.ISAPI_DEVICE_INFO ++ "?format=json", "application/json");
                (DeviceDiscovery.ISAPI_DEVICE_INFO, "text/xml, application/xml, */*") ]
              (Discovery.cnonces world address) []) as (r & sent & E).
  rewrite E. cbn. eauto.
Qed.

Lemma identityAt_probe (address : string) :
  probe (Discovery.scanNet world) address = Ok (identityOf address).
Proof.
  unfold identityOf, identityAt. fold probe.
  destruct (probe_total (Discovery.scanNet world) address) as [r ->]. reflexivity.
Qed.

(** The scan of the hosts of a subnet: a callback of the scan never
    rejects, so the [pMap] returns, and every host has been probed. *)
Lemma pushes_cases (hosts : list string) :
  exists hits,
    Discovery.pushes JSON_parse parseXml world cfg hosts = Ok hits /\
    forall address info,
      In (address, info) hits <-> In address hosts /\ identityOf address = Some info.
Proof.
  unfold Discovery.pushes.
  destruct (pMap_total hosts
              (fun address =>
                 match Discovery.probe JSON_parse parseXml world cfg
                         (Discovery.scanNet world) address with
                 | Ok _ => Ok tt
                 | Throw e => Throw e
                 end)
              (Discovery.settles world) Discovery.SCAN_CONCURRENCY)
    as (values & order & E & _ & _ & Hin).
  - unfold Discovery.SCAN_CONCURRENCY. lia.
  - intros address _. fold probe. rewrite identityAt_probe. eauto.
  - rewrite E. eexists. split; [reflexivity|]. intros address info.
    rewrite in_flat_map. split.
    + intros (i & Hi & Hp). unfold Discovery.pushed in Hp. fold probe in Hp.
      rewrite identityAt_probe in Hp.
      destruct (identityOf (nth i hosts "")) as [identity|] eqn:Eid; [|contradiction].
      destruct Hp as [[= <- <-]|[]]. split; [|exact Eid].
      apply nth_In, Hin, Hi.
    + intros [Ha Hid]. apply In_nth with (d := "") in Ha. destruct Ha as (i & Hi & Ei).
      exists i. split; [apply Hin, Hi|].
      unfold Discovery.pushed. fold probe. rewrite Ei, identityAt_probe, Hid. now left.
Qed.

Lemma pushes_hits (s : Discovery.Subnet) :
  Discovery.pushes JSON_parse parseXml world cfg (hostsOf s) = Ok (hitsIn s).
Proof.
  unfold hitsIn, hitsOf, hostsOf.
  destruct (pushes_cases (Discovery.subnetHosts (Discovery.subnet s))) as (hits & -> & _).
  reflexivity.
Qed.

Lemma scanSubnets_cons (s : Discovery.Subnet) (subnets : list Discovery.Subnet)
  (found : list (string * DeviceDiscovery.DeviceInfo)) :
  Discovery.scanSubnets JSON_parse parseXml toLowerCase String_ JSON_stringify world cfg
    (s :: subnets) found
  = if targetFound (found ++ hitsIn s)%list
    then (Ok (found ++ hitsIn s)%list, List.map Discovery.Probe (hostsOf s))
    else
      let '(r, effects) :=
        Discovery.scanSubnets JSON_parse parseXml toLowerCase String_ JSON_stringify world cfg
          subnets (found ++ hitsIn s)%list in
      (r, (List.map Discovery.Probe (hostsOf s) ++ effects)%list).
Proof.
  cbn [Discovery.scanSubnets]. cbv zeta.
  pose proof (pushes_hits s) as E. unfold hostsOf in E. rewrite E. reflexivity.
Qed.

(** A run of the loop over the subnets: it scans a front part of the
    list, goes on after a subnet only while the target is not among the
    devices found, and leaves a part unscanned only when it is. *)
Lemma scanSubnets_run (subnets : list Discovery.Subnet) :
  forall found,
  exists scanned rest,
    subnets = (scanned ++ rest)%list
    /\ Discovery.scanSubnets JSON_parse parseXml toLowerCase String_ JSON_stringify world cfg
         subnets found
       = (Ok (found ++ flat_map hitsIn scanned)%list,
          List.map Discovery.Probe (flat_map hostsOf scanned))
    /\ (rest <> [] -> targetFound (found ++ flat_map hitsIn scanned)%list = true)
    /\ forall front back,
         scanned = (front ++ back)%list -> front <> [] -> back <> [] ->
         targetFound (found ++ flat_map hitsIn front)%list = false.
Proof.
  induction subnets as [|s subnets IH]; intros found.
  - exists [], []. cbn. rewrite app_nil_r. split; [reflexivity|]. split; [reflexivity|].
    split; [congruence|]. intros [|? ?] ? ?; [congruence|discriminate].
  - rewrite scanSubnets_cons.
    destruct (targetFound (found ++ hitsIn s)%list) eqn:Hstop.
    + exists [s], subnets. cbn [flat_map app]. rewrite !app_nil_r.
      split; [reflexivity|]. split; [reflexivity|]. split; [auto|].
      intros [|x [|y front]] [|z back] E Hf Hb; try congruence; try discriminate.
    + destruct (IH (found ++ hitsIn s)%list) as (scanned & rest & -> & Hrun & Hrest & Hfront).
      exists (s :: scanned), rest. split; [reflexivity|]. rewrite Hrun.
      cbn [flat_map]. rewrite <- !app_assoc, map_app. split; [reflexivity|].
      split; [intros Hr; rewrite app_assoc; apply Hrest, Hr|].
      intros [|x front] back E Hf Hb; [congruence|].
      injection E as <- E. cbn [flat_map].
      destruct front as [|y front].
      * cbn. rewrite app_nil_r. exact Hstop.
      * rewrite app_assoc. apply (Hfront (y :: front) back E); [discriminate|exact Hb].
Qed.


Lemma uniqueSubnets_In (subnets : list Discovery.Subnet) (s : Discovery.Subnet) :
  In s (Discovery.uniqueSubnets subnets) -> In s subnets.
Proof.
  intros H. apply uniqueSubnets_values, lastWith_key in H. apply H.
Qed.

Lemma uniqueSubnets_covers (subnets : list Discovery.Subnet) (s : Discovery.Subnet) :
  In s subnets ->
  exists s', In s' (Discovery.uniqueSubnets subnets)
    /\ Discovery.subnet s' = Discovery.subnet s.
Proof.
  intros H.
  destruct (lastOf_nonempty
              (filter (fun x => (Discovery.subnet x =? Discovery.subnet s)%string) subnets))
    as [s' Hs'].
  { intros E. assert (In s (filter (fun x => (Discovery.subnet x =? Discovery.subnet s)%string)
                              subnets)) as Hin
      by (apply filter_In; split; [exact H|apply String.eqb_refl]).
    rewrite E in Hin. exact Hin. }
  fold (lastWith (Discovery.subnet s) subnets) in Hs'.
  pose proof (lastWith_key _ _ _ Hs') as [Hk _].
  exists s'. split; [|exact Hk]. apply uniqueSubnets_values. now rewrite Hk.
Qed.

Lemma probesOf_probes (addresses : list string) :
  probesOf (List.map Discovery.Probe addresses) = addresses.
Proof.
  unfold probesOf. induction addresses as [|a l IH]; cbn [List.map flat_map app];
    [reflexivity|]. now rewrite IH.
Qed.

Lemma probesOf_app (l1 l2 : list Discovery.Effect) :
  probesOf (l1 ++ l2) = (probesOf l1 ++ probesOf l2)%list.
Proof. unfold probesOf. apply flat_map_app. Qed.

Lemma isTarget_named (info : DeviceDiscovery.DeviceInfo) :
  matchesName info = true -> Discovery.truthyName (Discovery.cfg_deviceName cfg) = true.
Proof.
  unfold matchesName, isTarget, DeviceDiscovery.isTargetDevice, Discovery.truthyName.
  destruct (Discovery.cfg_deviceName cfg) as [text|]; [|discriminate].
  destruct (Js.truthy text); [reflexivity|discriminate].
Qed.

Lemma targetAmong_false (found : list (string * DeviceDiscovery.DeviceInfo)) :
  targetFound found = false ->
  forall address info, In (address, info) found -> matchesName info = false.
Proof.
  intros H address info Hin.
  destruct (matchesName info) eqn:E; [|reflexivity].
  unfold targetFound, targetAmong in H.
  rewrite (isTarget_named _ E) in H. cbn [andb] in H.
  assert (existsb (Discovery.matches toLowerCase String_ JSON_stringify cfg) found = true) as T.
  { apply existsb_exists. exists (address, info). split; [exact Hin|exact E]. }
  congruence.
Qed.

Lemma targetAmong_true (found : list (string * DeviceDiscovery.DeviceInfo))
  (address : string) (info : DeviceDiscovery.DeviceInfo) :
  In (address, info) found -> matchesName info = true -> targetFound found = true.
Proof.
  intros Hin E. unfold targetFound, targetAmong.
  rewrite (isTarget_named _ E). cbn [andb].
  apply existsb_exists. exists (address, info). split; [exact Hin|exact E].
Qed.

Lemma hitsOf_In (s : Discovery.Subnet)
  (address : string) (info : DeviceDiscovery.DeviceInfo) :
  In (address, info) (hitsIn s)
  <-> In address (hostsOf s) /\ identityOf address = Some info.
Proof.
  unfold hitsIn, hitsOf, hostsOf.
  destruct (pushes_cases (Discovery.subnetHosts (Discovery.subnet s))) as (hits & -> & H).
  apply H.
Qed.

(** After a first probe without an answer and with the subnets
    detected, the call is a run of the loop followed by the choice among
    the devices found. *)
Lemma ensureDeviceReachable_scan (subnets : list Discovery.Subnet) :
  probe (Discovery.verifyNet world) (Discovery.cfg_host cfg) = Ok None ->
  Discovery.detectAllSubnets (Discovery.networkInterfaces world) = Ok subnets ->
  exists scanned rest,
    Discovery.uniqueSubnets subnets = (scanned ++ rest)%list
    /\ (rest <> [] -> targetFound (flat_map hitsIn scanned) = true)
    /\ (forall front back,
          scanned = (front ++ back)%list -> front <> [] -> back <> [] ->
          targetFound (flat_map hitsIn front) = false)
    /\ probesOf (snd ensureDeviceReachable)
       = Discovery.cfg_host cfg :: flat_map hostsOf scanned
    /\ match find (Discovery.matches toLowerCase String_ JSON_stringify cfg) (flat_map hitsIn scanned) with
       | Some match_ =>
           if Discovery.truthyName (Discovery.cfg_deviceName cfg)
           then fst ensureDeviceReachable
                = Ok {| Discovery.ip := fst match_; Discovery.changed := true;
                        Discovery.info := snd match_ |}
           else exists e, fst ensureDeviceReachable = Throw e
       | None => exists e, fst ensureDeviceReachable = Throw e
       end.
Proof.
  intros Hverify Hdetect.
  destruct (scanSubnets_run (Discovery.uniqueSubnets subnets) [])
    as (scanned & rest & Hsplit & Hrun & Hrest & Hfront).
  cbn [app] in Hrun, Hrest, Hfront.
  exists scanned, rest. split; [exact Hsplit|]. split; [exact Hrest|]. split; [exact Hfront|].
  unfold ensureDeviceReachable, Discovery.ensureDeviceReachable. cbv zeta.
  fold probe. rewrite Hverify, Hdetect, Hrun.
  set (found := flat_map hitsIn scanned).
  assert (forall effects, probesOf (Discovery.Probe (Discovery.cfg_host cfg)
                                      :: List.map Discovery.Probe (flat_map hostsOf scanned)
                                      ++ effects)
                          = (Discovery.cfg_host cfg :: flat_map hostsOf scanned
                             ++ probesOf effects)%list) as Hprobes.
  { intros effects. change (?x :: ?l ++ ?r)%list with ([x] ++ (l ++ r))%list.
    rewrite !probesOf_app, probesOf_probes. reflexivity. }
  assert (probesOf (Discovery.Probe (Discovery.cfg_host cfg)
                      :: List.map Discovery.Probe (flat_map hostsOf scanned))
          = Discovery.cfg_host cfg :: flat_map hostsOf scanned) as Hprobes0.
  { specialize (Hprobes []). rewrite !app_nil_r in Hprobes. exact Hprobes. }
  destruct found as [|hit found'] eqn:Efound.
  - cbn [find snd fst]. split; [exact Hprobes0|eauto].
  - rewrite <- Efound.
    destruct (Discovery.truthyName (Discovery.cfg_deviceName cfg)); cbn [negb].
    + destruct (find _ found) as [match_|]; cbn [fst snd].
      * split; [|reflexivity]. rewrite Hprobes.
        destruct (Discovery.updateEnvFile world _ _); cbn; now rewrite app_nil_r.
      * split; [exact Hprobes0|eauto].
    + cbn [fst snd]. split; [exact Hprobes0|].
      destruct (find _ found); eauto.
Qed.

(** X15. What a result of [ensureDeviceReachable] stands for. With
    [changed] false the address is the configured one, the first probe
    got the identity returned there, and nothing else was probed or
    written. With [changed] true the configured address gave no identity
    at the first probe, the address returned is one of the 254 hosts of
    a subnet of this machine, the probe of the scan got the identity
    returned at that address, and this identity matches the configured
    device name. *)
Theorem ensureDeviceReachable_result (res : Discovery.DiscoveryResult) :
  fst ensureDeviceReachable = Ok res ->
  if Discovery.changed res
  then probe (Discovery.verifyNet world) (Discovery.cfg_host cfg) = Ok None
       /\ (exists subnets s,
             Discovery.detectAllSubnets (Discovery.networkInterfaces world) = Ok subnets
             /\ In s subnets
             /\ In (Discovery.ip res) (Discovery.subnetHosts (Discovery.subnet s)))
       /\ identityOf (Discovery.ip res) = Some (Discovery.info res)
       /\ matchesName (Discovery.info res) = true
  else Discovery.ip res = Discovery.cfg_host cfg
       /\ probe (Discovery.verifyNet world) (Discovery.cfg_host cfg)
          = Ok (Some (Discovery.info res))
       /\ snd ensureDeviceReachable = [Discovery.Probe (Discovery.cfg_host cfg)].
Proof.
  intros Hres.
  destruct (probe (Discovery.verifyNet world) (Discovery.cfg_host cfg))
    as [[current|]|e] eqn:Hverify.
  - unfold ensureDeviceReachable, Discovery.ensureDeviceReachable in *. cbv zeta in *.
    fold probe in Hres |- *. rewrite Hverify in Hres |- *. cbn in Hres.
    injection Hres as <-. cbn. auto.
  - destruct (Discovery.detectAllSubnets (Discovery.networkInterfaces world))
      as [subnets|e] eqn:Hdetect.
    2:{ unfold ensureDeviceReachable, Discovery.ensureDeviceReachable in Hres.
        cbv zeta in Hres. fold probe in Hres. rewrite Hverify, Hdetect in Hres.
        discriminate. }
    destruct (ensureDeviceReachable_scan subnets Hverify Hdetect)
      as (scanned & rest & Hsplit & _ & _ & _ & Hchoice).
    destruct (find _ _) as [[address identity]|] eqn:Hfind.
    2:{ destruct Hchoice as [e E]. congruence. }
    destruct (Discovery.truthyName _).
    2:{ destruct Hchoice as [e E]. congruence. }
    rewrite Hchoice in Hres. injection Hres as <-. cbn [Discovery.changed Discovery.ip
      Discovery.info fst snd].
    apply find_some in Hfind. destruct Hfind as [Hin Hmatch].
    apply in_flat_map in Hin. destruct Hin as (s & Hs & Hin).
    apply hitsOf_In in Hin. destruct Hin as [Hhost Hid].
    split; [reflexivity|]. split; [|split; [exact Hid|exact Hmatch]].
    exists subnets, s. split; [reflexivity|]. split; [|exact Hhost].
    apply uniqueSubnets_In. rewrite Hsplit. apply in_or_app. now left.
  - unfold ensureDeviceReachable, Discovery.ensureDeviceReachable in Hres.
    cbv zeta in Hres. fold probe in Hres. rewrite Hverify in Hres. discriminate.
Qed.

(** X16. When the configured address gives no identity,
    [ensureDeviceReachable] returns a result if and only if some host of
    a subnet of this machine answers the probe of the scan with an
    identity that matches the configured device name; in every other
    case it throws. *)
Theorem ensureDeviceReachable_finds_target :
  probe (Discovery.verifyNet world) (Discovery.cfg_host cfg) = Ok None ->
  (exists res, fst ensureDeviceReachable = Ok res)
  <-> exists subnets s address identity,
        Discovery.detectAllSubnets (Discovery.networkInterfaces world) = Ok subnets
        /\ In s subnets
        /\ In address (Discovery.subnetHosts (Discovery.subnet s))
        /\ identityOf address = Some identity
        /\ matchesName identity = true.
Proof.
  intros Hverify. split.
  - intros [res Hres].
    destruct (Discovery.detectAllSubnets (Discovery.networkInterfaces world))
      as [subnets|e] eqn:Hdetect.
    2:{ unfold ensureDeviceReachable, Discovery.ensureDeviceReachable in Hres.
        cbv zeta in Hres. fold probe in Hres. rewrite Hverify, Hdetect in Hres.
        discriminate. }
    destruct (ensureDeviceReachable_scan subnets Hverify Hdetect)
      as (scanned & rest & Hsplit & _ & _ & _ & Hchoice).
    destruct (find _ _) as [[address identity]|] eqn:Hfind.
    2:{ destruct Hchoice as [e E]. congruence. }
    apply find_some in Hfind. destruct Hfind as [Hin Hmatch].
    apply in_flat_map in Hin. destruct Hin as (s & Hs & Hin).
    apply hitsOf_In in Hin. destruct Hin as [Hhost Hid].
    exists subnets, s, address, identity. split; [reflexivity|].
    split; [|auto]. apply uniqueSubnets_In. rewrite Hsplit. apply in_or_app. now left.
  - intros (subnets & s & address & identity & Hdetect & Hs & Hhost & Hid & Hmatch).
    destruct (ensureDeviceReachable_scan subnets Hverify Hdetect)
      as (scanned & rest & Hsplit & Hrest & _ & _ & Hchoice).
    assert (targetFound (flat_map hitsIn scanned) = true) as Hfound.
    { destruct rest as [|r rest]; [|apply Hrest; discriminate].
      rewrite app_nil_r in Hsplit.
      destruct (uniqueSubnets_covers subnets s Hs) as (s' & Hs' & Hk).
      apply (targetAmong_true _ address identity); [|exact Hmatch].
      apply in_flat_map. exists s'. split; [now rewrite <- Hsplit|].
      apply hitsOf_In. split; [|exact Hid].
      unfold hostsOf. now rewrite Hk. }
    unfold targetFound, targetAmong in Hfound.
    apply andb_prop in Hfound. destruct Hfound as [Hname Hex].
    rewrite Hname in Hchoice.
    destruct (find _ _) as [match_|] eqn:Hfind; [eauto|].
    apply existsb_exists in Hex. destruct Hex as (x & Hx & Hm).
    rewrite (find_none _ _ Hfind x Hx) in Hm. discriminate.
Qed.

(** X17. The subnets are scanned in the order of [uniqueSubnets], each
    one whole, after the probe of the configured address. The scan goes
    on to a further subnet only while no device found so far matches the
    device name, and it leaves a subnet unscanned only when one does, in
    which case the call returns a result. *)
Theorem ensureDeviceReachable_scan_order (subnets : list Discovery.Subnet) :
  probe (Discovery.verifyNet world) (Discovery.cfg_host cfg) = Ok None ->
  Discovery.detectAllSubnets (Discovery.networkInterfaces world) = Ok subnets ->
  exists scanned rest,
    Discovery.uniqueSubnets subnets = (scanned ++ rest)%list
    /\ probesOf (snd ensureDeviceReachable)
       = Discovery.cfg_host cfg
         :: flat_map (fun s => Discovery.subnetHosts (Discovery.subnet s)) scanned
    /\ (rest <> [] -> exists res, fst ensureDeviceReachable = Ok res)
    /\ forall front back s address identity,
         scanned = (front ++ back)%list -> back <> [] ->
         In s front -> In address (Discovery.subnetHosts (Discovery.subnet s)) ->
         identityOf address = Some identity ->
         matchesName identity = false.
Proof.
  intros Hverify Hdetect.
  destruct (ensureDeviceReachable_scan subnets Hverify Hdetect)
    as (scanned & rest & Hsplit & Hrest & Hfront & Hprobes & Hchoice).
  exists scanned, rest. split; [exact Hsplit|]. split; [exact Hprobes|]. split.
  - intros Hr. specialize (Hrest Hr).
    unfold targetFound, targetAmong in Hrest.
    apply andb_prop in Hrest. destruct Hrest as [Hname Hex].
    rewrite Hname in Hchoice.
    destruct (find _ _) as [match_|] eqn:Hfind; [eauto|].
    apply existsb_exists in Hex. destruct Hex as (x & Hx & Hm).
    rewrite (find_none _ _ Hfind x Hx) in Hm. discriminate.
  - intros front back s address identity E Hb Hs Hhost Hid.
    assert (front <> []) as Hf by (intros ->; contradiction).
    apply (targetAmong_false _ (Hfront front back E Hf Hb) address identity).
    apply in_flat_map. exists s. split; [exact Hs|].
    apply hitsOf_In. auto.
Qed.

Lemma scanSubnets_probes (subnets : list Discovery.Subnet)
  (found : list (string * DeviceDiscovery.DeviceInfo)) (e : Discovery.Effect) :
  In e (snd (Discovery.scanSubnets JSON_parse parseXml toLowerCase String_ JSON_stringify world cfg
               subnets found)) ->
  exists address, e = Discovery.Probe address.
Proof.
  destruct (scanSubnets_run subnets found) as (scanned & rest & _ & -> & _).
  cbn [snd]. intros H. apply in_map_iff in H. destruct H as (a & <- & _). eauto.
Qed.

Lemma ensureDeviceReachable_cases :
  exists probes,
    (forall e, In e probes -> exists address, e = Discovery.Probe address)
    /\ ((exists res, ensureDeviceReachable = (Ok res, probes)
                     /\ Discovery.changed res = false)
        \/ (exists e, ensureDeviceReachable = (Throw e, probes))
        \/ exists match_,
             ensureDeviceReachable
             = (Ok {| Discovery.ip := fst match_; Discovery.changed := true;
                      Discovery.info := snd match_ |},
                (probes ++
                 match Discovery.updateEnvFile world "TERMINAL_HOST" (fst match_) with
                 | Ok _ => [Discovery.UpdateEnvFile "TERMINAL_HOST" (fst match_);
                            Discovery.SetProcessEnv "TERMINAL_HOST" (fst match_)]
                 | Throw _ => [Discovery.UpdateEnvFile "TERMINAL_HOST" (fst match_)]
                 end)%list)).
Proof.
  unfold ensureDeviceReachable, Discovery.ensureDeviceReachable. cbv zeta.
  assert (forall e, In e [Discovery.Probe (Discovery.cfg_host cfg)] ->
            exists address, e = Discovery.Probe address) as Hone
    by (intros e [<-|[]]; eauto).
  destruct (Discovery.probe _ _ _ _ _ _) as [[current|]|e].
  - eexists. split; [exact Hone|]. left. eexists. split; reflexivity.
  - destruct (Discovery.detectAllSubnets _) as [subnets|e].
    2:{ eexists. split; [exact Hone|]. right. left. eauto. }
    pose proof (scanSubnets_probes (Discovery.uniqueSubnets subnets) []) as Hprobes.
    destruct (Discovery.scanSubnets _ _ _ _ _ _ _ _) as [r effects]. cbn [snd] in Hprobes.
    assert (forall e, In e (Discovery.Probe (Discovery.cfg_host cfg) :: effects) ->
              exists address, e = Discovery.Probe address) as Hall
      by (intros e [<-|H]; [eauto|apply Hprobes, H]).
    exists (Discovery.Probe (Discovery.cfg_host cfg) :: effects). split; [exact Hall|].
    destruct r as [[|hit found]|e]; [right; left; eauto| |right; left; eauto].
    destruct (negb _); [right; left; eauto|].
    destruct (find _ _) as [match_|]; [|right; left; eauto].
    right. right. exists match_. reflexivity.
  - eexists. split; [exact Hone|]. right. left. eauto.
Qed.

(** X18. The [.env] file and [process.env] are touched only to record the
    address of a result with [changed] true, under the key
    TERMINAL_HOST; [process.env] is set only after [updateEnvFile]
    returned; and what [updateEnvFile] does, even a failure, changes
    nothing in what the call returns or throws. *)
Theorem ensureDeviceReachable_env_file :
  let out := ensureDeviceReachable in
  (forall key value,
     In (Discovery.UpdateEnvFile key value) (snd out)
     \/ In (Discovery.SetProcessEnv key value) (snd out) ->
     key = "TERMINAL_HOST"
     /\ exists res, fst out = Ok res /\ Discovery.changed res = true
          /\ Discovery.ip res = value)
  /\ (forall key value,
        In (Discovery.SetProcessEnv key value) (snd out) ->
        exists done, Discovery.updateEnvFile world key value = Ok done)
  /\ (forall res,
        fst out = Ok res -> Discovery.changed res = true ->
        In (Discovery.UpdateEnvFile "TERMINAL_HOST" (Discovery.ip res)) (snd out))
  /\ forall update,
       fst (Discovery.ensureDeviceReachable JSON_parse parseXml toLowerCase String_ JSON_stringify
              (withUpdateEnvFile world update) cfg)
       = fst out.
Proof.
  cbv zeta. split; [|split; [|split]].
  4:{ intros update.
      unfold ensureDeviceReachable, Discovery.ensureDeviceReachable. cbv zeta.
      replace (Discovery.probe JSON_parse parseXml (withUpdateEnvFile world update) cfg)
        with (Discovery.probe JSON_parse parseXml world cfg) by reflexivity.
      replace (Discovery.scanSubnets JSON_parse parseXml toLowerCase String_ JSON_stringify
                 (withUpdateEnvFile world update) cfg)
        with (Discovery.scanSubnets JSON_parse parseXml toLowerCase String_ JSON_stringify world cfg)
        by reflexivity.
      cbn [withUpdateEnvFile Discovery.verifyNet Discovery.networkInterfaces
           Discovery.updateEnvFile].
      destruct (Discovery.probe _ _ _ _ _ _) as [[current|]|e]; try reflexivity.
      destruct (Discovery.detectAllSubnets _) as [subnets|e]; try reflexivity.
      destruct (Discovery.scanSubnets _ _ _ _ _ _ _ _) as [[[|hit found]|e] effects];
        try reflexivity.
      destruct (negb _); try reflexivity.
      destruct (find _ _); reflexivity. }
  all: destruct ensureDeviceReachable_cases
         as (probes & Hprobes & [(res0 & -> & Hsame)|[(e & ->)|(match_ & ->)]]);
    cbn [fst snd].
  - intros key value [H|H]; apply Hprobes in H; destruct H as [a [=]].
  - intros key value [H|H]; apply Hprobes in H; destruct H as [a [=]].
  - intros key value H.
    assert (In (Discovery.UpdateEnvFile key value)
              [Discovery.UpdateEnvFile "TERMINAL_HOST" (fst match_);
               Discovery.SetProcessEnv "TERMINAL_HOST" (fst match_)]
            \/ In (Discovery.SetProcessEnv key value)
                 [Discovery.UpdateEnvFile "TERMINAL_HOST" (fst match_);
                  Discovery.SetProcessEnv "TERMINAL_HOST" (fst match_)]) as H'.
    { destruct H as [H|H]; apply in_app_or in H;
        (destruct H as [H|H]; [apply Hprobes in H; destruct H as [a [=]]|]);
        destruct (Discovery.updateEnvFile world _ _); cbn in H |- *; tauto. }
    assert (key = "TERMINAL_HOST" /\ value = fst match_) as [-> ->]
      by (cbn in H'; intuition congruence).
    split; [reflexivity|]. eexists. split; [reflexivity|]. split; reflexivity.
  - intros key value H. apply Hprobes in H. destruct H as [a [=]].
  - intros key value H. apply Hprobes in H. destruct H as [a [=]].
  - intros key value H. apply in_app_or in H.
    destruct H as [H|H]; [apply Hprobes in H; destruct H as [a [=]]|].
    destruct (Discovery.updateEnvFile world "TERMINAL_HOST" (fst match_)) as [done|e] eqn:Eu.
    + cbn in H. destruct H as [[=]|[[= <- <-]|[]]]. eauto.
    + cbn in H. destruct H as [[=]|[]].
  - intros res [= <-]. congruence.
  - intros res [=].
  - intros res [= <-] _. cbn [Discovery.ip]. apply in_or_app. right.
    destruct (Discovery.updateEnvFile world _ _); now left.
Qed.

End DiscoveryFacts.

(** The terminal moved: the Ethernet subnet is scanned first, the
    terminal is found on it, the subnet of the virtual adapter is left
    alone, and the failure to write the [.env] file does not matter. *)
Example office_discovery :
  Discovery.ensureDeviceReachable parseZero None Js.toLowerCase literalText literalText office officeCfg
  = (Ok movedTerminal,
     (Discovery.Probe "192.168.1.10"
        :: List.map Discovery.Probe (Discovery.subnetHosts "192.168.1")
        ++ [Discovery.UpdateEnvFile "TERMINAL_HOST" "192.168.1.20"])%list).
Proof. vm_compute. reflexivity. Qed.

Lemma ensureDeviceReachable_result_witness :
  identityAt parseZero None office officeCfg "192.168.1.20"
  = Some (modelOnly "DS-K1T342MFX-E1" deviceInfoXml)
  /\ isTarget Js.toLowerCase literalText literalText officeCfg (modelOnly "DS-K1T342MFX-E1" deviceInfoXml)
     = true.
Proof.
  exact (proj2 (proj2 (ensureDeviceReachable_result parseZero None Js.toLowerCase literalText literalText
                         office officeCfg movedTerminal eq_refl))).
Defined.

Lemma ensureDeviceReachable_finds_target_witness :
  (exists res,
     fst (Discovery.ensureDeviceReachable parseZero None Js.toLowerCase literalText literalText
            office officeCfg) = Ok res)
  <-> exists subnets s address identity,
        Discovery.detectAllSubnets (Discovery.networkInterfaces office) = Ok subnets
        /\ In s subnets
        /\ In address (Discovery.subnetHosts (Discovery.subnet s))
        /\ identityAt parseZero None office officeCfg address = Some identity
        /\ isTarget Js.toLowerCase literalText literalText officeCfg identity = true.
Proof.
  exact (ensureDeviceReachable_finds_target parseZero None Js.toLowerCase literalText literalText
           office officeCfg eq_refl).
Defined.

Lemma ensureDeviceReachable_scan_order_witness :
  exists scanned rest,
    Discovery.uniqueSubnets officeSubnets = (scanned ++ rest)%list
    /\ probesOf (snd (Discovery.ensureDeviceReachable parseZero None Js.toLowerCase literalText literalText
                        office officeCfg))
       = "192.168.1.10"
         :: flat_map (fun s => Discovery.subnetHosts (Discovery.subnet s)) scanned.
Proof.
  destruct (ensureDeviceReachable_scan_order parseZero None Js.toLowerCase literalText literalText
              office officeCfg officeSubnets eq_refl eq_refl)
    as (scanned & rest & Hsplit & Hprobes & _).
  exists scanned, rest. split; [exact Hsplit|exact Hprobes].
Defined.

(* ================================================================== *)
(** ** The .env rewriter                                                *)
(* ================================================================== *)


Lemma span_app (p : ascii -> bool) (a b : string) :
  everyOf p a ->
  match b with EmptyString => True | String c _ => p c = false end ->
  Js.span p (a ++ b) = (a, b).
Proof.
  unfold everyOf. induction a as [|c a IH]; cbn; intros Ha Hb.
  - destruct b as [|d b]; [reflexivity|]. cbn. now rewrite Hb.
  - inversion Ha as [|? ? Hc Hrest]; subst. rewrite Hc.
    now rewrite (IH Hrest Hb).
Qed.

Lemma stripPrefix_split (p s r : string) :
  Js.stripPrefix p s = Some r -> s = p ++ r.
Proof.
  revert s. induction p as [|a p IH]; intros s E; cbn in E.
  - now inversion E.
  - destruct s as [|b s]; [discriminate|].
    destruct (Ascii.eqb a b) eqn:Eab; [|discriminate].
    apply Ascii.eqb_eq in Eab. subst b. cbn. f_equal. now apply IH.
Qed.

Lemma stripPrefix_app (p r : string) : Js.stripPrefix p (p ++ r) = Some r.
Proof.
  induction p as [|a p IH]; cbn; [reflexivity|]. now rewrite Ascii.eqb_refl.
Qed.





















(** The address found replaces the one of the first assignment; the
    comment that names the key stays as it is. *)
Example updateEnvFile_replaces :
  EnvFile.updateEnvFile ".env" (fileWith envText) "TERMINAL_HOST" "192.168.1.20"
  = (Ok tt,
     ["TERMINAL_PORT=80" ++ EnvFile.nl
      ++ "TERMINAL_HOST =192.168.1.20" ++ EnvFile.nl
      ++ "# TERMINAL_HOST=10.0.0.9" ++ EnvFile.nl]).
Proof. reflexivity. Qed.

(** A key that no line assigns is appended. *)
Example updateEnvFile_appends :
  EnvFile.updateEnvFile ".env" (fileWith envText) "HOST" "192.168.1.20"
  = (Ok tt, [envText ++ "HOST=192.168.1.20" ++ EnvFile.nl]).
Proof. reflexivity. Qed.

(** A dollar sign in the value is read as a reference when the key is
    there, and written as it is when the key is appended. *)
Example updateEnvFile_dollar :
  snd (EnvFile.updateEnvFile ".env" (fileWith "KEY=old") "KEY" "a$&")
  = ["KEY=aKEY=old"]
  /\ snd (EnvFile.updateEnvFile ".env" (fileWith "") "KEY" "a$&")
     = [EnvFile.nl ++ "KEY=a$&" ++ EnvFile.nl].
Proof. split; reflexivity. Qed.

Example updateEnvFile_missing :
  EnvFile.updateEnvFile ".env"
    {| EnvFile.existsSync := false; EnvFile.readFileSync := Ok envText;
       EnvFile.writeFileSync := fun _ => Ok tt |} "TERMINAL_HOST" "192.168.1.20"
  = (Throw "Cannot find .env file at: .env", []).
Proof. reflexivity. Qed.



(* ================================================================== *)
(** ** Reading a parameter of the challenge                             *)
(* ================================================================== *)

Lemma stripPrefix_within (p : string) :
  forall X Y r,
  Js.stripPrefix p (X ++ Y) = Some r -> String.length p <= String.length X ->
  String.prefix p X = true.
Proof.
  induction p as [|a p IH]; intros X Y r E L.
  - now destruct X.
  - destruct X as [|b X]; [cbn in L; lia|].
    cbn [append Js.stripPrefix] in E. rewrite prefix_cons.
    destruct (Ascii.eqb a b); [|discriminate]. cbn [andb].
    apply (IH X Y r E). cbn in L. lia.
Qed.

(** A matcher that asks for a fixed text first finds nothing where that
    text does not occur. *)
Section Anchored.

Context {A : Type}.
Variable f : string -> option A.
Variable pat : string.
Hypothesis anchored : forall s, f s <> None -> exists r, Js.stripPrefix pat s = Some r.

Lemma leftmost_skip (before front rest : string) :
  Js.includes (before ++ front) pat = false ->
  String.length pat <= S (String.length front) ->
  Re.leftmost f (before ++ front ++ rest) = Re.leftmost f (front ++ rest).
Proof.
  intros H L. induction before as [|c before IH]; [reflexivity|].
  cbn [append] in H. rewrite includes_cons in H. apply orb_false_iff in H.
  destruct H as [Hp Hi]. cbn [append]. rewrite leftmost_cons.
  destruct (f (String c (before ++ front ++ rest))) as [v|] eqn:E; [|apply IH, Hi].
  exfalso. destruct (anchored (String c (before ++ front ++ rest))) as [r Er];
    [congruence|].
  change (String c (before ++ front ++ rest))
    with (String c before ++ front ++ rest) in Er.
  rewrite <- string_app_assoc in Er.
  apply stripPrefix_within in Er.
  - cbn [append] in Er. congruence.
  - rewrite string_length_app. cbn. lia.
Qed.

Lemma leftmost_absent (text : string) :
  Js.includes text pat = false -> Re.leftmost f text = None.
Proof.
  assert (forall s, String.prefix pat s = false -> f s = None) as Hf.
  { intros s Hp. destruct (f s) eqn:E; [|reflexivity]. exfalso.
    destruct (anchored s) as [r Er]; [congruence|].
    apply stripPrefix_split in Er.
    assert (String.prefix pat s = true) by (apply prefix_append; eauto). congruence. }
  induction text as [|c text IH]; intros H.
  - change (String.prefix pat "" || false = false)%bool in H.
    rewrite orb_false_r in H. cbn [Re.leftmost]. now rewrite (Hf _ H).
  - rewrite includes_cons in H. apply orb_false_iff in H. destruct H as [Hp Hi].
    rewrite leftmost_cons, (Hf _ Hp). apply IH, Hi.
Qed.

End Anchored.

Lemma quotedAt_anchored (key s : string) :
  Re.quotedAt key s <> None -> exists r, Js.stripPrefix (key ++ "=" ++ Js.dq) s = Some r.
Proof.
  unfold Re.quotedAt. destruct (Js.stripPrefix _ s); [eauto|congruence].
Qed.

Lemma bareAt_anchored (key s : string) :
  Re.bareAt key s <> None -> exists r, Js.stripPrefix (key ++ "=") s = Some r.
Proof.
  unfold Re.bareAt. destruct (Js.stripPrefix _ s); [eauto|congruence].
Qed.

Lemma leftmost_here {A : Type} (f : string -> option A) (s : string) (v : A) :
  f s = Some v -> Re.leftmost f s = Some v.
Proof. intros E. destruct s; cbn; now rewrite E. Qed.

(** X26. [digestParam], for a key of word characters, on a header that
    holds the key, the sign and a value between quotes, the value not
    empty and without a quote, and the key with the sign and a quote not
    occurring before that place: it returns the value, in both copies of
    the function. Occurrences of the key with a value that is not
    between quotes, before or after, do not matter. *)
Theorem digestParam_reads_quoted (key before value after : string) :
  isName key = true ->
  Js.includes (before ++ key ++ "=") (key ++ "=" ++ Js.dq) = false ->
  value <> "" ->
  noneOf (fun c => Ascii.eqb c Js.dquote) value ->
  HikvisionClient.digestParam
    (before ++ key ++ "=" ++ Js.dq ++ value ++ Js.dq ++ after) key = value
  /\ DeviceDiscovery.digestParam
       (before ++ key ++ "=" ++ Js.dq ++ value ++ Js.dq ++ after) key = value.
Proof.
  intros _ Hb Hne Hv.
  assert (Re.leftmost (Re.quotedAt key)
            (before ++ key ++ "=" ++ Js.dq ++ value ++ Js.dq ++ after) = Some value) as E.
  { replace (before ++ key ++ "=" ++ Js.dq ++ value ++ Js.dq ++ after)
      with (before ++ (key ++ "=") ++ Js.dq ++ value ++ Js.dq ++ after)
      by (now rewrite !string_app_assoc).
    rewrite (leftmost_skip (Re.quotedAt key) (key ++ "=" ++ Js.dq) (quotedAt_anchored key)).
    - apply leftmost_here. unfold Re.quotedAt.
      replace ((key ++ "=") ++ Js.dq ++ value ++ Js.dq ++ after)
        with ((key ++ "=" ++ Js.dq) ++ value ++ Js.dq ++ after)
        by (now rewrite !string_app_assoc).
      rewrite stripPrefix_app.
      rewrite (span_app (fun c => negb (Ascii.eqb c Js.dquote)) value (Js.dq ++ after)).
      + destruct value; [congruence|reflexivity].
      + unfold everyOf. unfold noneOf in Hv. eapply Forall_impl; [|exact Hv].
        cbn. intros c H. now rewrite H.
      + reflexivity.
    - now rewrite <- string_app_assoc in Hb |- *.
    - rewrite !string_length_app. cbn. lia. }
  unfold HikvisionClient.digestParam, DeviceDiscovery.digestParam. now rewrite E.
Qed.

(** X27. [digestParam], for a key of word characters, on a header in
    which the key with the sign and a quote does not occur. When the key
    with the sign occurs, the first time followed by a value of ASCII
    characters that is not empty, has no comma and no white space, and
    is followed by a comma, by a blank or another ASCII white space, or
    by nothing, it returns that value. When the key with the sign does
    not occur, it returns the empty text. *)
Theorem digestParam_reads_bare (key header : string) :
  isName key = true ->
  Js.includes header (key ++ "=" ++ Js.dq) = false ->
  (forall before value after,
     header = before ++ key ++ "=" ++ value ++ after ->
     Js.includes (before ++ key) (key ++ "=") = false ->
     value <> "" -> isAscii value = true ->
     noneOf (fun c => Ascii.eqb c "," || Js.isSpace c) value ->
     match after with
     | EmptyString => True
     | String c _ => (Ascii.eqb c "," || Js.isSpace c) = true
     end ->
     HikvisionClient.digestParam header key = value
     /\ DeviceDiscovery.digestParam header key = value)
  /\ (Js.includes header (key ++ "=") = false ->
      HikvisionClient.digestParam header key = ""
      /\ DeviceDiscovery.digestParam header key = "").
Proof.
  intros _ Hq.
  pose proof (leftmost_absent (Re.quotedAt key) (key ++ "=" ++ Js.dq)
                (quotedAt_anchored key) header Hq) as Eq.
  unfold HikvisionClient.digestParam, DeviceDiscovery.digestParam. rewrite Eq.
  split.
  - intros before value after -> Hb Hne _ Hv Ha.
    assert (Re.leftmost (Re.bareAt key) (before ++ key ++ "=" ++ value ++ after)
            = Some value) as ->; [|split; reflexivity].
    rewrite (leftmost_skip (Re.bareAt key) (key ++ "=") (bareAt_anchored key)).
    + apply leftmost_here. unfold Re.bareAt.
      replace (key ++ "=" ++ value ++ after) with ((key ++ "=") ++ value ++ after)
        by (now rewrite !string_app_assoc).
      rewrite stripPrefix_app.
      rewrite (span_app (fun c => negb (Ascii.eqb c "," || Js.isSpace c)) value after).
      * destruct value; [congruence|reflexivity].
      * unfold everyOf. unfold noneOf in Hv. eapply Forall_impl; [|exact Hv].
        cbn beta. intros c H. now rewrite H.
      * destruct after; [exact I|]. now rewrite Ha.
    + exact Hb.
    + rewrite !string_length_app. cbn. lia.
  - intros Hk.
    rewrite (leftmost_absent (Re.bareAt key) (key ++ "=") (bareAt_anchored key) header Hk).
    split; reflexivity.
Qed.

Lemma digestParam_reads_quoted_witness :
  HikvisionClient.digestParam
    ("Digest qop=auth, " ++ "nonce" ++ "=" ++ Js.dq ++ "5f2a" ++ Js.dq ++ ", stale=false")
    "nonce" = "5f2a".
Proof.
  refine (proj1 (digestParam_reads_quoted "nonce" "Digest qop=auth, " "5f2a"
                   ", stale=false" eq_refl eq_refl _ _)).
  - discriminate.
  - repeat constructor.
Defined.

(** A value without quotes is read up to the comma, and a key that the
    header does not hold gives the empty text. *)
Lemma digestParam_reads_bare_witness :
  HikvisionClient.digestParam "Digest realm=door, qop=auth, stale=false" "qop" = "auth"
  /\ HikvisionClient.digestParam "Digest realm=door, qop=auth, stale=false" "nonce" = "".
Proof.
  split.
  - refine (proj1 (proj1 (digestParam_reads_bare "qop"
                            "Digest realm=door, qop=auth, stale=false" eq_refl eq_refl)
                     "Digest realm=door, " "auth" ", stale=false"
                     eq_refl eq_refl _ eq_refl _ eq_refl)).
    + discriminate.
    + repeat constructor.
  - exact (proj1 (proj2 (digestParam_reads_bare "nonce"
                           "Digest realm=door, qop=auth, stale=false" eq_refl eq_refl)
                    eq_refl)).
Defined.

(** An empty value between quotes is not read by the quoted form; the
    other form then takes the two quotes for the value. *)
Example digestParam_empty_quoted :
  HikvisionClient.digestParam ("Digest realm=" ++ Js.dq ++ Js.dq ++ ", qop=auth") "realm"
  = Js.dq ++ Js.dq.
Proof. reflexivity. Qed.

(** The key is looked for anywhere, also inside a longer name. *)
Example digestParam_inside_name :
  HikvisionClient.digestParam
    ("Digest cnonce=" ++ Js.dq ++ "0a4f" ++ Js.dq ++ ", nonce=" ++ Js.dq ++ "5f2a" ++ Js.dq)
    "nonce" = "0a4f".
Proof. reflexivity. Qed.

(* ================================================================== *)
(** ** The exchange of a probe                                          *)
(* ================================================================== *)

Section ProbeExchange.

Import DeviceDiscovery.

Variable JSON_parse : string -> Result json.
Variable parseXml : option (string -> Result json).
Variable username password : string.

(** One pass of the loop: at most two requests, the first without
    credentials; an identity comes only from the answer 200 to a second
    request that carries the digest for the challenge of the first. *)
Lemma attemptBody_exchange (host : Host) (cnonce reqPath accept : string)
  (sent : list Request) :
  let first := {| req_path := reqPath; req_accept := accept; req_authorization := None |} in
  let out := attemptBody JSON_parse parseXml host username password cnonce
               reqPath accept sent in
  (snd out = (sent ++ [first])%list
   /\ (forall info, fst out <> Ok (Return info))
   \/ exists probe challenge second,
        snd out = (sent ++ [first; second])%list
        /\ host sent first = Ok probe
        /\ res_status probe = 401%Z
        /\ res_wwwAuthenticate probe = Some challenge
        /\ challenge <> ""
        /\ second = {| req_path := reqPath; req_accept := accept;
                       req_authorization :=
                         Some (buildDigestAuth "GET" reqPath username password
                                 challenge cnonce) |}
        /\ forall info,
             fst out = Ok (Return info) ->
             exists answer,
               host (sent ++ [first])%list second = Ok answer
               /\ res_status answer = 200%Z
               /\ normaliseDeviceInfo JSON_parse parseXml (res_data answer)
                    (res_contentType answer) = Ok (Some info)).
Proof.
  cbv zeta. unfold attemptBody.
  set (first := {| req_path := reqPath; req_authorization := None |}).
  destruct (host sent first) as [probe|e] eqn:H1.
  2:{ left. split; [reflexivity|]. intros info [=]. }
  destruct (Z.eqb_spec (res_status probe) 401) as [S1|S1]; cbn [negb].
  2:{ left. split; [reflexivity|]. intros info [=]. }
  destruct (res_wwwAuthenticate probe) as [challenge|] eqn:W.
  2:{ left. split; [reflexivity|]. intros info [=]. }
  destruct challenge as [|c challenge]; cbn [Js.truthy negb].
  { left. split; [reflexivity|]. intros info [=]. }
  right. eexists probe, (String c challenge), _.
  set (second := {| req_path := reqPath; req_authorization := Some _ |}).
  assert (forall r : Result Next,
            snd (r, ((sent ++ [first]) ++ [second])%list) = (sent ++ [first; second])%list)
    as Hsent by (intros r; cbn; now rewrite <- app_assoc).
  destruct (host (sent ++ [first])%list second) as [answer|e] eqn:H2.
  2:{ rewrite Hsent. repeat (split; [reflexivity || assumption || discriminate|]).
      intros info [=]. }
  destruct (Z.eqb_spec (res_status answer) 200) as [S2|S2]; cbn [negb].
  2:{ rewrite Hsent. repeat (split; [reflexivity || assumption || discriminate|]).
      intros info [=]. }
  destruct (normaliseDeviceInfo JSON_parse parseXml (res_data answer) (res_contentType answer))
    as [[found|]|e] eqn:N; rewrite Hsent;
    repeat (split; [reflexivity || assumption || discriminate|]).
  - intros info [= <-]. exists answer. auto.
  - intros info [=].
  - intros info [=].
Qed.


(** X19. An identity that [probeDevice] returns was read from the
    answer 200 to a request that carries the digest for the challenge
    which the same host gave, with the status 401 and a challenge that is
    not empty, to the request just before it, sent without credentials;
    these are the last two requests of the probe. A probe sends at most
    four requests. A host that never answers 401, be it silent or open
    without authentication, gets the two requests without credentials
    and is reported as no device. *)
Theorem probeDevice_exchange (net : Network) (cnonces : list string)
  (ip : string) (port : Z) (useHttps : bool) :
  let destination := net useHttps ip port in
  let out := probeDevice JSON_parse parseXml net cnonces ip port username password
               useHttps in
  List.length (snd out) <= 4
  /\ (forall info,
        fst out = Ok (Some info) ->
        exists before first second probe challenge cnonce answer,
          snd out = (before ++ [first; second])%list
          /\ req_authorization first = None
          /\ destination before first = Ok probe
          /\ res_status probe = 401%Z
          /\ res_wwwAuthenticate probe = Some challenge
          /\ challenge <> ""
          /\ second = {| req_path := req_path first; req_accept := req_accept first;
                         req_authorization :=
                           Some (buildDigestAuth "GET" (req_path first) username password
                                   challenge cnonce) |}
          /\ destination (before ++ [first])%list second = Ok answer
          /\ res_status answer = 200%Z
          /\ normaliseDeviceInfo JSON_parse parseXml (res_data answer)
               (res_contentType answer) = Ok (Some info))
  /\ ((forall sent request answer,
         destination sent request = Ok answer -> res_status answer <> 401%Z) ->
      fst out = Ok None
      /\ List.map req_authorization (snd out) = [None; None]
      /\ List.map req_path (snd out)
         = ["/ISAPI/System/deviceInfo?format=json"; "/ISAPI/System/deviceInfo"]).
Proof.
  cbv zeta. unfold probeDevice. cbn [probeAttempts].
  set (destination := net useHttps ip port).
  set (path1 := (ISAPI_DEVICE_INFO ++ "?format=json")%string).
  pose proof (attemptBody_exchange destination (hd "" cnonces) path1 "application/json" [])
    as A1.
  cbv zeta in A1.
  destruct (attemptBody JSON_parse parseXml destination username password (hd "" cnonces)
              path1 "application/json" []) as [r1 s1].
  cbn [fst snd] in A1.
  pose proof (attemptBody_exchange destination (hd "" (tl cnonces)) ISAPI_DEVICE_INFO
                "text/xml, application/xml, */*" s1) as A2.
  cbv zeta in A2.
  assert (List.length s1 <= 2) as L1.
  { destruct A1 as [[-> _]|(p & c & s & -> & _)]; cbn; lia. }
  assert (forall info found,
            tryCatch r1 (fun _ => Ok Continue) = Ok (Return found) ->
            Some found = Some info ->
            exists before first second probe challenge cnonce answer,
              s1 = (before ++ [first; second])%list
              /\ req_authorization first = None
              /\ destination before first = Ok probe
              /\ res_status probe = 401%Z
              /\ res_wwwAuthenticate probe = Some challenge
              /\ challenge <> ""
              /\ second = {| req_path := req_path first; req_accept := req_accept first;
                             req_authorization :=
                               Some (buildDigestAuth "GET" (req_path first) username
                                       password challenge cnonce) |}
              /\ destination (before ++ [first])%list second = Ok answer
              /\ res_status answer = 200%Z
              /\ normaliseDeviceInfo JSON_parse parseXml (res_data answer)
                   (res_contentType answer) = Ok (Some info)) as F1.
  { intros info found Hr [= <-].
    assert (r1 = Ok (Return found)) as E
      by (destruct r1 as [[|x]|e]; cbn in Hr; congruence).
    destruct A1 as [[_ Hno]|(p & c & s & Hs & Hp & H401 & Hw & Hc & Hsecond & Hid)].
    - destruct (Hno found E).
    - destruct (Hid found E) as (answer & Ha & H200 & Hn).
      exists [], {| req_path := path1; req_accept := "application/json";
                    req_authorization := None |}, s, p, c, (hd "" cnonces), answer.
      cbn [app] in *. repeat (split; [first [reflexivity|assumption]|]). exact Hn. }
  destruct (tryCatch r1 (fun _ => Ok Continue)) as [[|found1]|e1] eqn:T1.
  3:{ destruct r1 as [[|x]|e]; discriminate. }
  2:{ cbn [fst snd]. split; [lia|]. split; [intros info [= <-]; exact (F1 found1 found1 eq_refl eq_refl)|].
      intros Hopen. exfalso.
      destruct (F1 found1 found1 eq_refl eq_refl)
        as (b & f & s & p & c & n & a & _ & _ & Hp & H401 & _).
      exact (Hopen _ _ _ Hp H401). }
  destruct (attemptBody JSON_parse parseXml destination username password
              (hd "" (tl cnonces)) ISAPI_DEVICE_INFO "text/xml, application/xml, */*" s1)
    as [r2 s2].
  cbn [fst snd] in A2.
  assert (List.length s2 <= 4) as L2.
  { destruct A2 as [[-> _]|(p & c & s & -> & _)]; rewrite length_app; cbn; lia. }
  destruct (tryCatch r2 (fun _ => Ok Continue)) as [[|found2]|e2] eqn:T2.
  3:{ destruct r2 as [[|x]|e]; discriminate. }
  - cbn [fst snd]. split; [exact L2|]. split; [intros info [=]|].
    intros Hopen. split; [reflexivity|].
    assert (s1 = [ {| req_path := path1; req_accept := "application/json";
                      req_authorization := None |} ]) as ->.
    { destruct A1 as [[-> _]|(p & c & s & _ & Hp & H401 & _)]; [reflexivity|].
      destruct (Hopen _ _ _ Hp H401). }
    destruct A2 as [[-> _]|(p & c & s & _ & Hp & H401 & _)]; [split; reflexivity|].
    destruct (Hopen _ _ _ Hp H401).
  - cbn [fst snd]. split; [exact L2|].
    assert (r2 = Ok (Return found2)) as E2
      by (destruct r2 as [[|x]|e]; cbn in T2; congruence).
    destruct A2 as [[_ Hno]|(p & c & s & Hs & Hp & H401 & Hw & Hc & Hsecond & Hid)];
      [destruct (Hno found2 E2)|].
    split.
    + intros info [= <-]. destruct (Hid found2 E2) as (answer & Ha & H200 & Hn).
      exists s1, {| req_path := ISAPI_DEVICE_INFO;
                    req_accept := "text/xml, application/xml, */*";
                    req_authorization := None |}, s, p, c, (hd "" (tl cnonces)), answer.
      repeat (split; [first [reflexivity|assumption]|]). exact Hn.
    + intros Hopen. destruct (Hopen _ _ _ Hp H401).
Qed.

End ProbeExchange.

Lemma probeDevice_exchange_witness :
  let out :=
    DeviceDiscovery.probeDevice parseZero None (officeNet "192.168.1.20")
      ["0a4f113b0a4f113b"] "192.168.1.7" 80 "admin" "secret" false in
  fst out = Ok None
  /\ List.map DeviceDiscovery.req_authorization (snd out) = [None; None].
Proof.
  cbv zeta.
  destruct (proj2 (proj2 (probeDevice_exchange parseZero None "admin" "secret"
                            (officeNet "192.168.1.20") ["0a4f113b0a4f113b"]
                            "192.168.1.7" 80 false)))
    as (Hnone & Hauth & _).
  - intros sent request answer. cbn. discriminate.
  - split; [exact Hnone|exact Hauth].
Defined.

(* ================================================================== *)
(** ** The range of the day                                             *)
(* ================================================================== *)

Lemma year_digits (year : Z) :
  (1000 <= year <= 9999)%Z ->
  digitsOnly 4 (NilZero.string_of_int (Z.to_int year)) = true.
Proof.
  intros H.
  assert (forallb (fun n => digitsOnly 4 (NilZero.string_of_int (Z.to_int (Z.of_nat n))))
            (seq (Z.to_nat 1000) (Z.to_nat 9000)) = true) as Hall
    by (vm_compute; reflexivity).
  rewrite forallb_forall in Hall.
  specialize (Hall (Z.to_nat year)). rewrite Z2Nat.id in Hall by lia.
  apply Hall, in_seq. lia.
Qed.

Lemma pad_digits (n : nat) : n <= 99 -> digitsOnly 2 (Index.pad n) = true.
Proof.
  intros H.
  assert (forallb (fun k => digitsOnly 2 (Index.pad k)) (seq 0 100) = true) as Hall
    by (vm_compute; reflexivity).
  rewrite forallb_forall in Hall. apply Hall, in_seq. lia.
Qed.

Lemma digitsOnly_chars (n : nat) (text : string) :
  digitsOnly n text = true ->
  exists chars, text = string_of_list_ascii chars /\ List.length chars = n
    /\ Forall (fun c => Js.isDigit c = true) chars.
Proof.
  unfold digitsOnly. intros H. apply andb_prop in H. destruct H as [Hlen Hd].
  exists (list_ascii_of_string text). split; [now rewrite string_of_list_ascii_of_string|].
  split.
  - apply Nat.eqb_eq in Hlen. rewrite <- Hlen. clear.
    induction text as [|c text IH]; cbn; [reflexivity|]. now rewrite IH.
  - apply Forall_forall. intros c Hc. rewrite forallb_forall in Hd. apply Hd, Hc.
Qed.

Lemma date_text_bare (yyyy mm dd : string) (clock : string) :
  digitsOnly 4 yyyy = true -> digitsOnly 2 mm = true -> digitsOnly 2 dd = true ->
  isBareLocal ("1000-01-01T" ++ clock) = true ->
  isBareLocal (yyyy ++ "-" ++ mm ++ "-" ++ dd ++ "T" ++ clock) = true.
Proof.
  intros Hy Hm Hd.
  apply digitsOnly_chars in Hy, Hm, Hd.
  destruct Hy as (y & -> & Ly & Dy). destruct Hm as (m & -> & Lm & Dm).
  destruct Hd as (d & -> & Ld & Dd).
  do 5 (destruct y as [|? y]; try discriminate Ly).
  do 3 (destruct m as [|? m]; try discriminate Lm).
  do 3 (destruct d as [|? d]; try discriminate Ld).
  repeat match goal with
         | H : Forall _ (_ :: _) |- _ => inversion H; clear H; subst
         end.
  unfold isBareLocal. cbn [string_of_list_ascii append list_ascii_of_string].
  do 8 (destruct clock as [|? clock]; [intros H; cbn in H; discriminate H|]).
  cbn [list_ascii_of_string]. destruct clock; [|intros H; cbn in H; discriminate H].
  cbn [forallb].
  repeat match goal with
         | H : Js.isDigit _ = true |- _ => rewrite H; clear H
         end.
  cbn [andb]. change (Js.isDigit "1") with true. change (Js.isDigit "0") with true.
  cbn. auto.
Qed.

(** A text of the bare local form goes through [#stripTz] as it is. *)
Lemma stripTz_bare_local (text : string) :
  isBareLocal text = true -> HikvisionClient.stripTz text = text.
Proof.
  intros H. apply isBareLocal_chars in H.
  destruct H as (Hplus & Hdot & front & last & Hlast & HZ).
  unfold HikvisionClient.stripTz.
  rewrite Hlast, dropFinalZ_snoc_other, <- Hlast by assumption.
  rewrite dropFinalOffset_none by assumption. apply beforeFirst_none, Hdot.
Qed.

Lemma collectEvents_sent (dev : HikvisionClient.Device) (opts : HikvisionClient.Options) :
  let start_ := nullish (HikvisionClient.opt_startTime opts) "" in
  let end_ := nullish (HikvisionClient.opt_endTime opts) "" in
  let mk := HikvisionClient.buildPayload start_ end_
              (nullish (HikvisionClient.opt_maxResults opts) 100%Z) in
  start_ <> "" -> end_ <> "" ->
  exists offsets, snd (HikvisionClient.collectEvents dev opts) = List.map mk (0 :: offsets).
Proof.
  intros start_ end_ mk Hs He.
  pose proof (collectEvents_cases dev opts) as Hc. cbv zeta in Hc.
  fold start_ end_ mk in Hc.
  assert ((negb (Js.truthy start_) || negb (Js.truthy end_))%bool = false) as Hb.
  { destruct start_; [congruence|]. destruct end_; [congruence|]. reflexivity. }
  rewrite Hb in Hc.
  destruct (dev [] (mk 0)) as [first|e].
  - destruct (Paging_offsets dev mk _ _ _ _ Hc) as (offsets & Hsent & _).
    exists offsets. exact Hsent.
  - exists []. now rewrite Hc.
Qed.

(** X20. For a date with a year of four digits, [getTodayRange] gives
    the first and the last second of the day in the bare local form,
    both on the date of [dateStr]; [#stripTz] leaves them as they are,
    so that every request of the query of the day carries exactly these
    two times, and the query is never refused for a missing time. *)
Theorem getTodayRange_reaches_terminal (now : Index.Today)
  (pageSize : Z) (fetchAllPages : bool) (clock : string) (dev : HikvisionClient.Device) :
  (1000 <= Index.getFullYear now <= 9999)%Z ->
  Index.getMonth now <= 11 ->
  Index.getDate now <= 31 ->
  let range := Index.getTodayRange now in
  let sent :=
    snd (HikvisionClient.getAttendanceEvents clock dev
           (dayQuery now pageSize fetchAllPages)) in
  isBareLocal (Index.startTime range) = true
  /\ isBareLocal (Index.endTime range) = true
  /\ Index.startTime range = Index.dateStr range ++ "T00:00:00"
  /\ Index.endTime range = Index.dateStr range ++ "T23:59:59"
  /\ sent <> []
  /\ forall p, In p sent ->
       HikvisionClient.startTime p = Index.startTime range
       /\ HikvisionClient.endTime p = Index.endTime range.
Proof.
  intros Hy Hm Hd range sent.
  pose proof (year_digits _ Hy) as Dy.
  pose proof (pad_digits (Index.getMonth now + 1) ltac:(lia)) as Dm.
  pose proof (pad_digits (Index.getDate now) ltac:(lia)) as Dd.
  assert (isBareLocal (Index.startTime range) = true) as Bs
    by (apply (date_text_bare _ _ _ "00:00:00" Dy Dm Dd); reflexivity).
  assert (isBareLocal (Index.endTime range) = true) as Be
    by (apply (date_text_bare _ _ _ "23:59:59" Dy Dm Dd); reflexivity).
  split; [exact Bs|]. split; [exact Be|].
  split; [|split].
  - unfold range, Index.getTodayRange. cbn [Index.startTime Index.dateStr].
    repeat (rewrite string_app_assoc; cbn [append]). reflexivity.
  - unfold range, Index.getTodayRange. cbn [Index.endTime Index.dateStr].
    repeat (rewrite string_app_assoc; cbn [append]). reflexivity.
  - destruct (collectEvents_sent dev (dayQuery now pageSize fetchAllPages))
      as (offsets & Hsent).
    + change (Index.startTime range <> ""). intros E. rewrite E in Bs. discriminate.
    + change (Index.endTime range <> ""). intros E. rewrite E in Be. discriminate.
    + subst sent. rewrite getAttendanceEvents_collect. cbn [snd]. rewrite Hsent.
      split; [discriminate|].
      intros p Hp. apply in_map_iff in Hp. destruct Hp as (n & <- & _).
      cbn [HikvisionClient.buildPayload HikvisionClient.startTime HikvisionClient.endTime
           dayQuery HikvisionClient.opt_startTime HikvisionClient.opt_endTime nullish].
      fold range. split; apply stripTz_bare_local; assumption.
Qed.

Lemma getTodayRange_reaches_terminal_witness :
  let now := {| Index.getFullYear := 2024; Index.getMonth := 10; Index.getDate := 5 |} in
  Index.startTime (Index.getTodayRange now) = "2024-11-05T00:00:00"
  /\ forall p,
       In p (snd (HikvisionClient.getAttendanceEvents "now" (cappedDevice fiveEntries 5 2)
                    (dayQuery now 100 true))) ->
       HikvisionClient.startTime p = "2024-11-05T00:00:00"
       /\ HikvisionClient.endTime p = "2024-11-05T23:59:59".
Proof.
  cbv zeta. split; [reflexivity|].
  exact (proj2 (proj2 (proj2 (proj2 (proj2
           (getTodayRange_reaches_terminal
              {| Index.getFullYear := 2024; Index.getMonth := 10; Index.getDate := 5 |}
              100 true "now" (cappedDevice fiveEntries 5 2)
              ltac:(cbn; lia) ltac:(cbn; lia) ltac:(cbn; lia))))))).
Defined.

Lemma stripTz_removes_witness :
  HikvisionClient.stripTz "2024-11-20T14:35:07.250Z" = "2024-11-20T14:35:07"
  /\ HikvisionClient.stripTz "2024-11-20T14:35:07+03:00" = "2024-11-20T14:35:07".
Proof.
  destruct (stripTz_removes "2024-11-20T14:35:07" eq_refl) as (_ & _ & Hoffset & Hdot).
  split; [exact (Hdot "250Z")|exact (Hoffset "03:00" eq_refl)].
Defined.
